(* ===== verification/_CoqProject ===== *)
-Q . S2P
Prelude.v
GoLib.v
Sha512.v
Sha256.v
Errors.v
Protobuf.v
Messaging.v
Answering.v
ProcContext.v
Worker.v
Validator.v
Intkey.v
Smallbank.v
Xo.v
Noop.v
Agreement.v
Processor.v
Links.v
History.v
ConsensusProto.v
ConsensusTypes.v
ConsensusService.v
ConsensusChain.v
ConsensusEngine.v
ConsensusProtocol.v
ConsensusSystem.v
ConsensusSchedule.v
Devmode.v
DevmodeDriver.v
DevmodeChain.v
DevmodeSystem.v
Signing.v
Logging.v
Signals.v
Entry.v
Base64.v
IntkeyClient.v
IntkeyEndToEnd.v
System.v
SmallbankLedger.v
Isolation.v
