(* ===== verification/Prelude.v ===== *)
(** * Sawtooth SDK for Go: shared prelude and guide to the development

    The Go SDK for Hyperledger Sawtooth lets a program take part in a Sawtooth
    network beside a validator process, in one of two roles.  A transaction
    processor receives transactions, finds the handler of their family and lets
    it read and write the validator's state.  A consensus engine is told about
    blocks and decides which become part of the chain.  Both roles talk to the
    validator over ZMQ sockets in protobuf messages that carry a correlation id,
    and both come with examples: the intkey, smallbank, xo and noop families and
    the devmode engine.

    ** How the parts meet

    - [messaging/connection.go] frames messages and files those that arrive for
      somebody else;
    - [processor/processor.go] runs a router between the validator, a bounded work
      queue and the worker threads; [processor/worker.go] is one such thread, it
      calls a handler ([processor/handler.go]) with a context
      ([processor/context.go]) whose requests go back through the router;
    - [consensus/engine.go] runs a driver between the validator, the engine's
      update channel and the service socket; [consensus/service.go] is the
      engine's way to call the validator, with the values of
      [consensus/types.go];
    - [signing] makes and checks signatures, and the intkey client uses it to sign the
      transactions and batches it submits over the REST API;
    - the main functions of the examples set up [logging], a processor or an engine,
      and its shutdown on signals.

    ** Files

    - [Prelude] (this file): outcomes of Go code, the state monad [Go], invariants
      of stateful code, machine integers, tactics and hints.
    - [GoLib]: what the code uses of Go's standard library (strings, strconv,
      hex, bytes.Compare, maps), and the class [GoRuntime] for the order in which
      maps are walked.
    - [Sha512], [Sha256], [Base64]: the hashes and the encoding as functions, for the
      addresses of the families, for signatures and for the REST API.
    - [Errors]: [processor/errors.go], [consensus/errors.go] and the errors of
      fmt and of the libraries.
    - [Protobuf], [ConsensusProto]: the message structs, enums and getters of
      the generated code in use.  Marshal and Unmarshal are the class [Proto], a
      parameter; its round-trip law is a separate class.
    - [Messaging]: the interface [Connection] (a class), [ZmqConnection] over the
      class of ZMQ sockets, and its implementation of the interface.
    - [Answering]: a socket with a validator behind it that answers each request, for
      any validator given as a function; [Links]: sockets as the two queues of
      messages on their way, for the systems of concurrent parts; [History]: what is
      observed of such a system, and when it is serial.
    - [ProcContext], [Worker], [Processor]: the transaction processor.
    - [Validator]: the abstract state store a context promises, the interface
      [StateBacked] the handlers are verified against, and the refinement of the
      store by [ProcContext] over [Messaging] and a reference validator.
    - [Intkey], [Smallbank], [Xo], [Noop]: the transaction families, each in a
      module of its name.  [SmallbankLedger]: the books of the bank under all six
      operations.  [Agreement]: a handler of any family cannot tell apart two
      connections that implement the interface.
    - [System]: router, any number of worker threads, sockets and validator as one
      transition system whose steps run the code of [Processor] and [Messaging].
      [Isolation]: the code of a worker inside that system, as an implementation of
      the interface of the handlers.
    - [ConsensusTypes], [ConsensusService], [ConsensusEngine]: the consensus SDK.
    - [ConsensusChain]: the validator's chain as an abstract state with the fourteen
      calls as operations on it, the interface [ServiceBacked] of a service that acts
      on such a chain, and the refinement of the chain by [ConsensusService] over
      [Messaging] and a reference validator.
    - [ConsensusSystem]: engine, driver, sockets and validator as one transition
      system whose steps run the code of [ConsensusService], [ConsensusEngine] and
      [Messaging].  [ConsensusProtocol] is the abstract machine on messages it is
      shown bisimilar to, on which the invariants are proved.  [ConsensusSchedule]: the
      calls of an engine inside that system, as an implementation of [ServiceBacked].
    - [Devmode], [DevmodeDriver]: the devmode engine against the service
      interface, and the engine and the driver joined at the update channel.
      [DevmodeChain]: the engine on a service that acts on a chain.  [DevmodeSystem]:
      the engine behind the driver, in the system of [ConsensusSchedule].
    - [Signing]: the package [signing], over the curve library.
    - [Logging]: the package [logging].  [Signals]: [ShutdownOnSignal] of the
      processor and of the engine driver.  [Entry]: the five main functions of the
      examples.
    - [IntkeyClient]: the command line client of the intkey family
      ([sawtooth_intkey_client]).  [IntkeyEndToEnd]: client, validator's checks,
      handler and REST API together.

    ** How code is modelled

    A Go function over shared state is a function [Go S A] from the state to an
    outcome and the state after it.  The outcome is a result, a panic, [Blocked]
    (the code waits for something that does not come) or, for loops without a
    bound of their own, [OutOfFuel].  Errors are values of the type [error].
    Integers are in [Z] with the wrap-around of their width written out.  Slices
    of bytes and strings are both [string].  Interfaces are classes: a connection,
    a monitor socket, a consensus service and a transaction handler each have
    one, and the code that uses them is verified for every instance.  What runs
    beside the modelled goroutine is an input: the poll loops are given the
    sequence of poll results, each with what other goroutines did before it, and
    theorems quantify over all of them.

    A few loops have fuel.  [Messaging.recv_loop] needs one unit per message read,
    and its theorem gives the number that is enough; [Devmode.walk] needs one per
    block between the chain head and the height it looks for, which
    [fork_choice] states; the two loops of [Devmode.finalizeBlock] end when the
    service stops answering that the block is not ready, and the theorem about
    them holds for every amount of fuel; [Signing.Bytes] takes its fuel from the
    logarithm of the number; [IntkeyClient.wait_loop] needs one unit per status
    request, and [waiting_ends] says how many are enough; a receive in [Isolation]
    and in [ConsensusSchedule] has one unit more than messages that have arrived, with
    which the code either finds its message or blocks; the concrete schedules of these
    two files take as many moves as there are messages on their way and steps left for
    each, a measure that every move decreases.  All other recursion is structural.

    ** What is proved

    - Messages: the awaited message is found and every other one kept; frames parse
      back; a stored message is handed out twice.
    - State access: any sequence of reads, writes and deletes through a context
      behaves as the same operations on a map, for a connection of its own and among
      concurrent workers.
    - The processor as a system: in every interleaving the requests of all workers
      are executed one after the other, each between its call and its return, with
      the reply going to the thread that asked; a waiting thread can always get its
      reply; and what a worker does with a transaction among the others is what the
      handler does alone.
    - Workers and router: each request is answered, by the first handler that
      serves it; replies reach the worker that asked and no other; requests are
      queued or denied within the bound of the queue; registration and shutdown.
    - Families: the invariants of stored data (intkey values in range, xo games
      legal, bank accounts well formed and the books balanced), what each accepted
      transaction does, which are refused, the inputs on which the handlers panic or
      lose money, and that every address lies in the registered namespace.
    - The intkey client: what it submits is signed, valid, and makes the handler do
      what was asked for; show and list read back what is stored; waiting for a batch
      ends.
    - The logger writes the records at or above the level in force; the first signal
      stops a processor gracefully and the second at once.
    - The consensus service: the calls are operations on the validator's chain, errors
      included; answers match their requests; block ids survive conversion.
    - The consensus engine as a system: in every interleaving the service's requests
      are executed one after the other and a call returns with its own reply;
      updates reach the engine in order, each once, and are acknowledged; a call can
      return unless its reply came before its identifier was noted or the update
      channel is full, and in these two cases it never returns.  Under every schedule
      that avoids both, the calls of an engine behind the driver are the operations on
      the validator's chain.
    - Devmode: the fork choice follows its rule and ends; at most one block is
      published per height; on a validator that follows its protocol the engine never
      panics, and announces what it finalized, alone and behind the driver; it does
      not hear the driver's shutdown.
    - Signatures: what a signer signs verifies under its public key, through the
      compact form.

    Theorems that are claims carry a number (C1 to C40) in their comment; those
    with hypotheses have a witness, at the end of their file, on concrete data.

    ** What is not modelled

    ZMQ, the protobuf runtime, CBOR, YAML, HTTP, the option parser, the curve
    library, the PEM loader in C, the UUID generator, the clock and the random number
    generator are parameters, with the laws their documentation gives where theorems
    need them.  The records that processor, worker, engine and handlers write to the
    log are left out (the client's and the entry points' are not), as are the
    generated mocks and the descriptor tables and reflection code that protoc
    generates.  The router's steps in [System] and the driver's in [ConsensusSystem]
    are those of their main loops; registration, activation and shutdown are modelled
    and verified in [Processor] and [ConsensusEngine] on their own, as they happen
    before and after these loops.  How a validator puts the transactions of a batch on
    one context after the other is its own affair and not in this repository.  Go promises
    nothing about the map of identifiers that [serviceRpc] and the driver share without
    a lock; [ConsensusSystem] takes each access to it as atomic. *)

From stdpp Require Export base tactics option list strings gmap pretty sorting countable relations.
From Stdlib Require Export Ascii ZArith Lia.

#[export] Set Default Goal Selector "!".

(** A Go [string] and the contents of a Go [[]byte] are both finite sequences of
    8-bit units; [string(b)] and [[]byte(s)] only change the type.  Both are
    modelled by [string]; where the code tells a nil slice from an empty one the
    model uses [option bytes]. *)
Abbreviation bytes := string (only parsing).

(** ** Outcomes of Go code *)

(** What running a Go function can come to: it returns, it panics, it waits for
    an event that never arrives, or (only where the model bounds a loop by fuel)
    the bound was used up before it returned. *)
Inductive Res (A : Type) : Type :=
| Ret (a : A)
| Panic (reason : string)
| Blocked
| OutOfFuel.
Arguments Ret {A} a.
Arguments Panic {A} reason.
Arguments Blocked {A}.
Arguments OutOfFuel {A}.

(** Stateful Go code over a state [S].  The state at the point of a panic is
    kept, because a deferred [recover] resumes from it. *)
Definition Go (S A : Type) : Type := S → Res A * S.

#[export] Instance Go_ret {S} : MRet (Go S) := λ A a s, (Ret a, s).
#[export] Instance Go_bind {S} : MBind (Go S) := λ A B f m s,
  match m s with
  | (Ret a, s') => f a s'
  | (Panic e, s') => (Panic e, s')
  | (Blocked, s') => (Blocked, s')
  | (OutOfFuel, s') => (OutOfFuel, s')
  end.

Definition go_panic {S A} (reason : string) : Go S A := λ s, (Panic reason, s).
Definition go_block {S A} : Go S A := λ s, (Blocked, s).
Definition go_get {S} : Go S S := λ s, (Ret s, s).
Definition go_put {S} (s : S) : Go S unit := λ _, (Ret tt, s).
Definition go_modify {S} (f : S → S) : Go S unit := λ s, (Ret tt, f s).

(** [defer func() { recover() ... }()]: a panic of the body becomes a normal
    return of the handler's result. *)
Definition go_recover {S A} (body : Go S A) (handler : string → Go S A) : Go S A :=
  λ s, match body s with
       | (Panic e, s') => handler e s'
       | r => r
       end.

(** Running code over a component of a larger state. *)
Definition zoom {S T A} (get : T → S) (set : S → T → T) (m : Go S A) : Go T A :=
  λ t, let '(r, s) := m (get t) in (r, set s t).

Section bind_laws.
Context {S A B : Type}.
Implicit Types (m : Go S A) (f : A → Go S B) (s : S).

Lemma go_bind_Ret m f s a s' : m s = (Ret a, s') → (m ≫= f) s = f a s'.
Proof. intros H. unfold mbind, Go_bind. by rewrite H. Qed.

Lemma go_bind_Panic m f s e s' : m s = (Panic e, s') → (m ≫= f) s = (Panic e, s').
Proof. intros H. unfold mbind, Go_bind. by rewrite H. Qed.

(** The inversion principle every "if it returned" proof uses. *)
Lemma go_bind_inv m f s b s'' :
  (m ≫= f) s = (Ret b, s'') → ∃ a s', m s = (Ret a, s') ∧ f a s' = (Ret b, s'').
Proof.
  unfold mbind, Go_bind. destruct (m s) as [[a|e| |] s1] eqn:E; intros H;
    simplify_eq; eauto.
Qed.
End bind_laws.

Lemma go_bind_ret_l {S A B} (a : A) (f : A → Go S B) s : (mret a ≫= f) s = f a s.
Proof. done. Qed.

Lemma go_bind_assoc {S A B C} (m : Go S A) (f : A → Go S B) (g : B → Go S C) s :
  ((m ≫= f) ≫= g) s = (m ≫= λ a, f a ≫= g) s.
Proof. unfold mbind, Go_bind. by destruct (m s) as [[] ?]. Qed.

(** ** Invariants of stateful code *)

(** [preserves P m]: whatever the outcome of [m], it leaves [P] true of the state
    when it was true before. *)
Definition preserves {S A} (P : S → Prop) (m : Go S A) : Prop :=
  ∀ s, P s → P (m s).2.

Section preserves.
Context {S : Type} (P : S → Prop).

Lemma preserves_ret {A} (a : A) : preserves P (mret a).
Proof. by intros s. Qed.

Lemma preserves_panic {A} e : preserves P (go_panic e : Go S A).
Proof. by intros s. Qed.

Lemma preserves_bind {A B} (m : Go S A) (f : A → Go S B) :
  preserves P m → (∀ a, preserves P (f a)) → preserves P (m ≫= f).
Proof.
  intros Hm Hf s Hs. specialize (Hm s Hs). unfold mbind, Go_bind.
  destruct (m s) as [[] s']; simpl in *; auto. by apply Hf.
Qed.

Lemma preserves_modify f : (∀ s, P s → P (f s)) → preserves P (go_modify f).
Proof. intros Hf s. apply Hf. Qed.

(** The state read back is known to satisfy the invariant. *)
Lemma preserves_get {A} (f : S → Go S A) :
  (∀ s, P s → P (f s s).2) → preserves P (go_get ≫= f).
Proof. intros Hf s. apply Hf. Qed.

Lemma preserves_if {A} (b : bool) (m1 m2 : Go S A) :
  preserves P m1 → preserves P m2 → preserves P (if b then m1 else m2).
Proof. by destruct b. Qed.

Lemma preserves_Ret {A} (m : Go S A) s a s' :
  preserves P m → m s = (Ret a, s') → P s → P s'.
Proof. intros Hm E Hs. specialize (Hm s Hs). by rewrite E in Hm. Qed.
End preserves.

Lemma preserves_zoom {S T A} (P : T → Prop) get set (m : Go S A) :
  (∀ t s, P t → P (set s t)) → preserves P (zoom get set m).
Proof. intros H t Ht. unfold zoom. destruct (m (get t)). simpl. auto. Qed.

(** [no_panic m]: no run of [m] panics. *)
Definition no_panic {S A} (m : Go S A) : Prop := ∀ s e, (m s).1 ≠ Panic e.

Lemma no_panic_ret {S A} (a : A) : no_panic (mret a : Go S A).
Proof. done. Qed.

Lemma no_panic_bind {S A B} (m : Go S A) (f : A → Go S B) :
  no_panic m → (∀ a, no_panic (f a)) → no_panic (m ≫= f).
Proof.
  intros Hm Hf s e. specialize (Hm s). unfold mbind, Go_bind.
  destruct (m s) as [[] s']; simpl in *; [apply Hf|by intros [= ->]; eapply Hm|done..].
Qed.

Lemma no_panic_modify {S} (f : S → S) : no_panic (go_modify f).
Proof. done. Qed.
Lemma no_panic_get {S} : no_panic (go_get : Go S S).
Proof. done. Qed.
Lemma no_panic_put {S} (s : S) : no_panic (go_put s).
Proof. done. Qed.
Lemma no_panic_fuel {S A} : no_panic (λ s, (OutOfFuel, s) : Res A * S).
Proof. done. Qed.

Lemma no_panic_zoom {S T A} get set (m : Go S A) :
  no_panic m → no_panic (zoom get set m : Go T A).
Proof.
  intros Hm t e. unfold zoom. specialize (Hm (get t) e). by destruct (m (get t)).
Qed.

(** Code that neither reads nor writes the state it runs over: its outcome is that
    over any other state. *)
Definition stateless {A} (m : ∀ S, Go S A) : Prop :=
  ∀ S (s : S), m S s = ((m unit tt).1, s).

Lemma stateless_ret {A} (a : A) : stateless (λ S, mret a).
Proof. done. Qed.
Lemma stateless_panic {A} e : stateless (λ S, go_panic e : Go S A).
Proof. done. Qed.
Lemma stateless_bind {A B} (m : ∀ S, Go S A) (f : ∀ S, A → Go S B) :
  stateless m → (∀ a, stateless (λ S, f S a)) → stateless (λ S, m S ≫= f S).
Proof.
  intros Hm Hf S s. unfold mbind, Go_bind. rewrite (Hm S s).
  destruct (m unit tt) as [[a|e| |] []] eqn:E; simpl; [|done..]. by rewrite (Hf a S s).
Qed.

(** ** Lists *)

(** Related lists: each element has its partner. *)
Lemma Forall2_elem_l {A B} (R : A → B → Prop) l1 l2 x :
  Forall2 R l1 l2 → x ∈ l1 → ∃ y, y ∈ l2 ∧ R x y.
Proof.
  induction 1 as [|a b l1 l2 Hab H IH]; [set_solver|].
  intros [->|Hx]%elem_of_cons; [set_solver|]. destruct (IH Hx) as (y & ? & ?). set_solver.
Qed.
Lemma Forall2_elem_r {A B} (R : A → B → Prop) l1 l2 y :
  Forall2 R l1 l2 → y ∈ l2 → ∃ x, x ∈ l1 ∧ R x y.
Proof. intros H%Forall2_flip. by apply (Forall2_elem_l (flip R)). Qed.

(** Distinct images come from one element. *)
Lemma NoDup_fmap_eq {A B} (f : A → B) l x y :
  NoDup (f <$> l) → x ∈ l → y ∈ l → f x = f y → x = y.
Proof.
  intros Hn [i Hi]%list_elem_of_lookup [j Hj]%list_elem_of_lookup E.
  assert (i = j) as <-; [|congruence].
  apply (NoDup_lookup _ i j (f x) Hn); rewrite list_lookup_fmap, ?Hi, ?Hj; simpl; congruence.
Qed.

Lemma omap_none {A B} (f : A → option B) l : Forall (λ x, f x = None) l → omap f l = [].
Proof. induction 1 as [|x l Hx Hl IH]; simpl; [done|]. by rewrite Hx. Qed.

(** Filtering a list that grew at its end. *)
Lemma filter_snoc_True {A} (P : A → Prop) `{∀ x, Decision (P x)} l x :
  P x → filter P (l ++ [x]) = filter P l ++ [x].
Proof. intros Hx. by rewrite filter_app, filter_cons_True, filter_nil by done. Qed.
Lemma filter_snoc_False {A} (P : A → Prop) `{∀ x, Decision (P x)} l x :
  ¬ P x → filter P (l ++ [x]) = filter P l.
Proof. intros Hx. by rewrite filter_app, filter_cons_False, filter_nil, app_nil_r by done. Qed.

(** ** Machine integers *)

Section ints.
Local Open Scope Z_scope.

(** The value of a [uint32], [int32] and of a 64-bit [int] after wrap-around. *)
Definition wrap_u32 (z : Z) : Z := z mod 2^32.
Definition wrap_u64 (z : Z) : Z := z mod 2^64.
Definition wrap_i32 (z : Z) : Z := (z + 2^31) mod 2^32 - 2^31.
Definition wrap_i64 (z : Z) : Z := (z + 2^63) mod 2^64 - 2^63.

Definition is_u32 (z : Z) : Prop := 0 ≤ z < 2^32.
Definition is_i32 (z : Z) : Prop := - 2^31 ≤ z < 2^31.
Definition is_i64 (z : Z) : Prop := - 2^63 ≤ z < 2^63.

Lemma wrap_u32_range z : is_u32 (wrap_u32 z).
Proof. unfold is_u32, wrap_u32. apply Z.mod_pos_bound. lia. Qed.

Lemma wrap_u32_small z : is_u32 z → wrap_u32 z = z.
Proof. unfold is_u32, wrap_u32. apply Z.mod_small. Qed.

Lemma wrap_i64_small z : is_i64 z → wrap_i64 z = z.
Proof.
  unfold is_i64, wrap_i64. intros H. rewrite Z.mod_small by lia. lia.
Qed.

Lemma wrap_i32_small z : is_i32 z → wrap_i32 z = z.
Proof.
  unfold is_i32, wrap_i32. intros H. rewrite Z.mod_small by lia. lia.
Qed.

Lemma wrap_u32_wrap_i64 z : wrap_u32 (wrap_i64 z) = wrap_u32 z.
Proof.
  unfold wrap_u32, wrap_i64.
  rewrite (Z.mod_eq (z + 2^63)) by lia.
  replace (z + 2 ^ 63 - 2 ^ 64 * ((z + 2 ^ 63) / 2 ^ 64) - 2 ^ 63)
    with (z + (- 2 ^ 32 * ((z + 2 ^ 63) / 2 ^ 64)) * 2 ^ 32) by lia.
  by rewrite Z.mod_add by lia.
Qed.
End ints.

Global Arguments wrap_u32 : simpl never.
Global Arguments wrap_u64 : simpl never.
Global Arguments wrap_i32 : simpl never.
Global Arguments wrap_i64 : simpl never.

(** ** Automation *)

Create HintDb sdk.
Create Rewrite HintDb sdk.
#[export] Hint Resolve wrap_u32_range : sdk.
#[export] Hint Resolve preserves_ret preserves_panic preserves_bind : sdk.
#[export] Hint Resolve no_panic_ret no_panic_bind no_panic_modify no_panic_get
  no_panic_put no_panic_fuel no_panic_zoom : sdk.
#[export] Hint Resolve stateless_ret stateless_panic : sdk.
#[export] Hint Rewrite @go_bind_ret_l : sdk.

(** [stateless] follows the structure of the code. *)
Ltac stateless_step :=
  first [ apply stateless_ret | apply stateless_panic
        | apply stateless_bind; [|intros ?] | case_match | assumption ].
Ltac solve_stateless := repeat (stateless_step || solve [auto with sdk]).

(** Case analysis on the outcome of the innermost [match] of a hypothesis or of
    the goal, with the equation kept. *)
Ltac go_case H :=
  match type of H with
  | context [match ?x with _ => _ end] =>
      lazymatch x with
      | context [match _ with _ => _ end] => fail
      | _ => let E := fresh "E" in destruct x eqn:E
      end
  end.

Ltac go_inv H :=
  repeat (first
    [ progress simplify_eq/=
    | apply go_bind_inv in H; destruct H as (? & ? & ? & H)
    | go_case H ]).

(** Read off what a hypothesis [mret a s = (Ret b, s')] says. *)
Ltac go_eq := unfold mret, Go_ret, go_get, go_put, go_modify in *; simplify_eq/=.

(** Split a goal over every branch the code takes. *)
Ltac go_split := repeat (case_match; simplify_eq/=).

(** One monadic step of a goal [(m ≫= f) s = _] whose first action is known. *)
Ltac go_step := erewrite go_bind_Ret; [|eassumption].

(** ** Generic lemmas on runs, lists and maps *)

(** A property every step keeps holds along a run. *)
Lemma rtc_keeps {A} (R : relation A) (P : A → Prop) x y :
  (∀ x y, P x → R x y → P y) → rtc R x y → P x → P y.
Proof. intros HR Hrun. induction Hrun; eauto. Qed.

Lemma Forall_lookup_total {A} (P : A → Prop) (l : list A) i x :
  Forall P l → l !! i = Some x → P x.
Proof. intros H. by apply Forall_lookup_1. Qed.

Lemma map_Forall_insert_intro {A} (P : string → A → Prop) (m : gmap string A) k x :
  P k x → map_Forall P m → map_Forall P (<[k:=x]> m).
Proof.
  intros Hx Hm i y. destruct (decide (k = i)) as [->|Hne].
  - rewrite lookup_insert_eq. by intros [= <-].
  - rewrite lookup_insert_ne by done. apply Hm.
Qed.
#[export] Hint Resolve map_Forall_insert_intro : sdk.
