(* ===== verification/GoLib.v ===== *)
(** * The parts of Go's standard library the SDK uses

    Executable definitions of the functions of [strings], [bytes], [strconv],
    [encoding/hex], [unicode/utf8], [sort] and [fmt] that the modelled code
    calls, restricted to the argument shapes it calls them with (single-byte
    separators, base-10 integers), and the lemmas about them that the components
    share: splitting inverts joining, hexadecimal decoding inverts encoding,
    UTF-8 decoding is the identity on ASCII. *)

From S2P Require Import Prelude.

(** ** Strings as sequences of bytes *)

Definition chars (s : string) : list ascii := String.list_ascii_of_string s.
Definition unchars (l : list ascii) : string := String.string_of_list_ascii l.

Lemma unchars_chars s : unchars (chars s) = s.
Proof. apply String.string_of_list_ascii_of_string. Qed.
Lemma chars_unchars l : chars (unchars l) = l.
Proof. apply String.list_ascii_of_string_of_list_ascii. Qed.
#[export] Hint Rewrite unchars_chars chars_unchars : sdk.

(** [len(s)] *)
Definition len (s : string) : nat := String.length s.

Lemma length_chars s : length (chars s) = len s.
Proof. unfold len. induction s; simpl; congruence. Qed.

Lemma len_app a b : len (a +:+ b) = len a + len b.
Proof. unfold len. induction a; simpl; [done|]. by rewrite IHa. Qed.

Lemma chars_app a b : chars (a +:+ b) = chars a ++ chars b.
Proof. induction a as [|c a IH]; [done|]. by simpl; f_equal. Qed.

Lemma str_app_assoc a b c : (a +:+ b) +:+ c = a +:+ (b +:+ c).
Proof.
  induction a as [|x a IH]; [done|].
  change (String x ((a +:+ b) +:+ c) = String x (a +:+ (b +:+ c))). by rewrite IH.
Qed.
Lemma str_app_nil_r a : a +:+ "" = a.
Proof.
  induction a as [|x a IH]; [done|].
  change (String x (a +:+ "") = String x a). by rewrite IH.
Qed.
Lemma str_app_cons x a b : String x a +:+ b = String x (a +:+ b).
Proof. done. Qed.
#[export] Hint Rewrite str_app_assoc str_app_nil_r len_app : sdk.

Lemma len_zero s : len s = 0%nat ↔ s = "".
Proof. by destruct s. Qed.

(** The byte at an index, [s[i]]; [None] where Go panics with an index out of
    range. *)
Definition str_at (s : string) (i : Z) : option ascii :=
  if (i <? 0)%Z then None else chars s !! Z.to_nat i.

(** Prefix and suffix slices, [s[:n]] and [s[n:]], total: [n] beyond the end
    gives what is there.  The callers slice SHA-512 digests, whose length is
    fixed ([Sha512.hexdigest_len]), so the bound is never exceeded. *)
Definition slice_to (n : nat) (s : string) : string := unchars (take n (chars s)).
Definition slice_from (n : nat) (s : string) : string := unchars (drop n (chars s)).

Lemma len_slice_to n s : n ≤ len s → len (slice_to n s) = n.
Proof.
  intros. unfold slice_to. rewrite <-length_chars, chars_unchars, length_take,
    length_chars. lia.
Qed.

(** ** strings *)

(** [strings.Split(s, sep)] for a one-byte separator. *)
Fixpoint Split (sep : ascii) (s : string) : list string :=
  match s with
  | EmptyString => [""]
  | String c s' =>
      if decide (c = sep) then "" :: Split sep s'
      else match Split sep s' with
           | [] => [String c ""]
           | p :: ps => String c p :: ps
           end
  end.

(** [strings.Join(l, sep)] for a one-byte separator. *)
Fixpoint Join (sep : ascii) (l : list string) : string :=
  match l with
  | [] => ""
  | [p] => p
  | p :: ps => p +:+ String sep (Join sep ps)
  end.

(** [strings.Contains(s, c)] for a one-byte pattern. *)
Definition Contains (s : string) (c : ascii) : bool := bool_decide (c ∈ chars s).

Lemma Contains_cons c x s :
  Contains (String x s) c = bool_decide (c = x) || Contains s c.
Proof.
  unfold Contains. simpl. rewrite (bool_decide_ext (c ∈ x :: chars s)
    (c = x ∨ c ∈ chars s)) by set_solver. apply bool_decide_or.
Qed.

Lemma Contains_false c s : Contains s c = false ↔ c ∉ chars s.
Proof. unfold Contains. case_bool_decide; naive_solver. Qed.

Lemma Split_ne sep s : Split sep s ≠ [].
Proof. destruct s; simpl; repeat case_match; done. Qed.

Lemma Split_no_sep sep s : Contains s sep = false → Split sep s = [s].
Proof.
  induction s as [|c s IH]; simpl; [done|]. rewrite Contains_cons.
  intros [H1 H2]%orb_false_iff. apply bool_decide_eq_false in H1.
  rewrite decide_False by congruence. by rewrite IH.
Qed.

Lemma Split_app_sep sep p s :
  Contains p sep = false → Split sep (p +:+ String sep s) = p :: Split sep s.
Proof.
  induction p as [|c p IH]; simpl.
  - intros _. by rewrite decide_True.
  - rewrite Contains_cons. intros [H1 H2]%orb_false_iff.
    apply bool_decide_eq_false in H1. rewrite decide_False by congruence.
    by rewrite IH.
Qed.

(** Splitting inverts joining on pieces that do not contain the separator. *)
Lemma Split_Join sep l :
  l ≠ [] → Forall (λ p, Contains p sep = false) l → Split sep (Join sep l) = l.
Proof.
  intros Hne Hl. induction Hl as [|p l Hp Hl IH]; [done|].
  destruct l as [|q l].
  - by apply Split_no_sep.
  - change (Split sep (p +:+ String sep (Join sep (q :: l))) = p :: q :: l).
    rewrite Split_app_sep by done. f_equal. by apply IH.
Qed.

Lemma Join_Split sep s : Join sep (Split sep s) = s.
Proof.
  induction s as [|c s IH]; simpl; [done|]. pose proof (Split_ne sep s) as Hne.
  case_decide; subst.
  - destruct (Split sep s) as [|p ps] eqn:E; [done|].
    change ("" +:+ String sep (Join sep (p :: ps)) = String sep s). by rewrite IH.
  - destruct (Split sep s) as [|p ps]; [done|]. rewrite <-IH.
    by destruct ps.
Qed.

Lemma Contains_app s1 s2 c : Contains (s1 +:+ s2) c = Contains s1 c || Contains s2 c.
Proof.
  induction s1 as [|x s1 IH]; [done|].
  rewrite str_app_cons, !Contains_cons, IH. by rewrite orb_assoc.
Qed.
#[export] Hint Rewrite Contains_app Contains_cons : sdk.

(** The pieces of a split hold no separator, and only bytes of the source. *)
Lemma Split_pieces sep s : Forall (λ p, Contains p sep = false) (Split sep s).
Proof.
  induction s as [|c s IH]; simpl; [by repeat constructor|]. case_decide.
  - by constructor.
  - destruct (Split sep s) as [|p ps]; simpl in *.
    + constructor; [|done]. rewrite Contains_cons. by rewrite bool_decide_eq_false_2.
    + inversion_clear IH. constructor; [|done]. rewrite Contains_cons.
      by rewrite bool_decide_eq_false_2.
Qed.

Lemma Split_Contains sep c s p :
  p ∈ Split sep s → Contains p c = true → Contains s c = true.
Proof.
  revert p. induction s as [|x s IH]; intros p; simpl.
  - intros ->%list_elem_of_singleton. done.
  - rewrite Contains_cons. case_decide.
    + intros [->|Hp]%elem_of_cons; [done|]. intros Hc.
      rewrite (IH p) by done. by rewrite orb_true_r.
    + destruct (Split sep s) as [|q qs] eqn:E.
      { by destruct (Split_ne sep s). }
      intros [->|Hp]%elem_of_cons.
      * rewrite Contains_cons. intros [->|Hq]%orb_true_iff; [done|].
        rewrite (IH q) by (done || set_solver). by rewrite orb_true_r.
      * intros Hc. rewrite (IH p) by (done || set_solver). by rewrite orb_true_r.
Qed.

(** [strings.Repeat(s, n)]; Go panics on a negative count. *)
Definition Repeat {S} (s : string) (n : Z) : Go S string :=
  if (n <? 0)%Z then go_panic "strings: negative Repeat count"
  else mret (Nat.iter (Z.to_nat n) (String.app s) "").

(** [strings.HasPrefix] *)
Definition HasPrefix (s p : string) : bool := String.prefix p s.

(** [strings.ToLower], on ASCII text. *)
Definition lower_ascii (c : ascii) : ascii :=
  let n := N_of_ascii c in
  if ((65 <=? n) && (n <=? 90))%N then ascii_of_N (n + 32) else c.
Definition ToLower (s : string) : string := unchars (lower_ascii <$> chars s).

(** ** bytes *)

(** [bytes.Compare(a, b) > 0] *)
Definition bytes_gt (a b : bytes) : bool :=
  match String.compare a b with Gt => true | _ => false end.

Lemma bytes_gt_irrefl a : bytes_gt a a = false.
Proof.
  unfold bytes_gt. pose proof (String.compare_antisym a a) as H.
  by destruct (String.compare a a).
Qed.

Lemma bytes_gt_asym a b : bytes_gt a b = true → bytes_gt b a = false.
Proof.
  unfold bytes_gt. rewrite (String.compare_antisym a b).
  by destruct (String.compare b a).
Qed.

Lemma bytes_gt_total a b : a ≠ b → bytes_gt a b = true ∨ bytes_gt b a = true.
Proof.
  unfold bytes_gt. rewrite (String.compare_antisym a b).
  destruct (String.compare b a) eqn:E; simpl; auto.
  apply String.compare_eq_iff in E. congruence.
Qed.

(** ** strconv and fmt *)

(** [strconv.Itoa] and the [%v]/[%d] rendering of an integer. *)
Definition Itoa (z : Z) : string := pretty z.

Definition digit_val (c : ascii) : option Z :=
  let n := Z.of_N (N_of_ascii c) in
  if ((48 <=? n) && (n <=? 57))%Z then Some (n - 48)%Z else None.

Fixpoint atoi_digits (acc : Z) (s : string) : option Z :=
  match s with
  | EmptyString => Some acc
  | String c s' =>
      match digit_val c with
      | Some d => atoi_digits (acc * 10 + d)%Z s'
      | None => None
      end
  end.

(** [strconv.Atoi] on a 64-bit platform: an optional sign, at least one decimal
    digit, nothing else, and a value in the range of [int]; [None] stands for a
    non-nil error. *)
Definition Atoi (s : string) : option Z :=
  let parse (sign : Z) (t : string) :=
    match t with
    | EmptyString => None
    | _ => match atoi_digits 0 t with
           | Some v =>
               let v := (sign * v)%Z in
               if ((- 2^63 <=? v) && (v <? 2^63))%Z then Some v else None
           | None => None
           end
    end in
  match s with
  | String "+" t => parse 1%Z t
  | String "-" t => parse (-1)%Z t
  | _ => parse 1%Z s
  end.

Example Atoi_plain : Atoi "42" = Some 42%Z. Proof. reflexivity. Qed.
Example Atoi_neg : Atoi "-7" = Some (-7)%Z. Proof. reflexivity. Qed.
Example Atoi_bad : Atoi "4x" = None. Proof. reflexivity. Qed.
Example Atoi_empty : Atoi "" = None. Proof. reflexivity. Qed.
Example Atoi_range : Atoi "9223372036854775808" = None. Proof. reflexivity. Qed.

Lemma Atoi_i64 s z : Atoi s = Some z → is_i64 z.
Proof. unfold Atoi, is_i64. intros H. go_split; lia. Qed.

(** The [%v] rendering of a [[]string]. *)
Definition fmt_strings (l : list string) : string := "[" +:+ Join " " l +:+ "]".

(** ** sort *)

(** [sort.Strings]: ascending in the byte-wise order of Go's [<]. *)
Definition sort_Strings (l : list string) : list string := merge_sort String.le l.

Lemma sort_Strings_perm l : sort_Strings l ≡ₚ l.
Proof. apply merge_sort_Permutation. Qed.
Lemma sort_Strings_sorted l : Sorted String.le (sort_Strings l).
Proof. apply Sorted_merge_sort. intros x y. apply String.le_total. Qed.

(** The order in which a map hands out its keys does not show in the sorted
    list. *)
Lemma sort_Strings_proper l1 l2 : l1 ≡ₚ l2 → sort_Strings l1 = sort_Strings l2.
Proof.
  intros H. apply (Sorted_unique String.le); [apply sort_Strings_sorted..|].
  by rewrite !sort_Strings_perm.
Qed.

(** ** encoding/hex *)

(** A hexadecimal digit, and [fromHexChar] of [encoding/hex]. *)
Definition hex_digit (n : N) : ascii :=
  if (n <? 10)%N then ascii_of_N (48 + n) else ascii_of_N (87 + n).

Definition fromHexChar (c : ascii) : option N :=
  let n := N_of_ascii c in
  if ((48 <=? n) && (n <=? 57))%N then Some (n - 48)%N
  else if ((97 <=? n) && (n <=? 102))%N then Some (n - 87)%N
  else if ((65 <=? n) && (n <=? 70))%N then Some (n - 55)%N
  else None.

(** [hex.EncodeToString] *)
Fixpoint hex_EncodeToString (b : bytes) : string :=
  match b with
  | EmptyString => ""
  | String c b' =>
      String (hex_digit (N_of_ascii c / 16))
        (String (hex_digit (N_of_ascii c mod 16)) (hex_EncodeToString b'))
  end.

(** The two errors of [hex.DecodeString]. *)
Inductive hex_error := InvalidByteError (c : ascii) | ErrLength.

(** [hex.DecodeString]: on malformed input it returns the bytes decoded before
    the error together with the error. *)
Fixpoint hex_DecodeString (s : string) : bytes * option hex_error :=
  match s with
  | EmptyString => ("", None)
  | String a EmptyString =>
      ("", Some match fromHexChar a with
                | None => InvalidByteError a
                | Some _ => ErrLength
                end)
  | String a (String b s') =>
      match fromHexChar a, fromHexChar b with
      | None, _ => ("", Some (InvalidByteError a))
      | Some _, None => ("", Some (InvalidByteError b))
      | Some x, Some y =>
          let '(r, e) := hex_DecodeString s' in
          (String (ascii_of_N (16 * x + y)) r, e)
      end
  end.

Lemma hex_byte_roundtrip c :
  fromHexChar (hex_digit (N_of_ascii c / 16)) = Some (N_of_ascii c / 16)%N ∧
  fromHexChar (hex_digit (N_of_ascii c mod 16)) = Some (N_of_ascii c mod 16)%N ∧
  ascii_of_N (16 * (N_of_ascii c / 16) + N_of_ascii c mod 16) = c.
Proof. destruct c as [[] [] [] [] [] [] [] []]; vm_compute; auto. Qed.

Lemma hex_roundtrip b : hex_DecodeString (hex_EncodeToString b) = (b, None).
Proof.
  induction b as [|c b IH]; [done|]. simpl.
  destruct (hex_byte_roundtrip c) as (H1 & H2 & H3).
  by rewrite H1, H2, IH, H3.
Qed.

Lemma hex_len b : len (hex_EncodeToString b) = (2 * len b)%nat.
Proof. unfold len. induction b; simpl in *; lia. Qed.

Lemma hex_inj b1 b2 : hex_EncodeToString b1 = hex_EncodeToString b2 → b1 = b2.
Proof.
  intros H. pose proof (hex_roundtrip b1) as H1. rewrite H, hex_roundtrip in H1.
  congruence.
Qed.

(** Encoded text is already lower case, and holds none of the separators the
    examples use. *)
Lemma hex_lower b : ToLower (hex_EncodeToString b) = hex_EncodeToString b.
Proof.
  unfold ToLower. induction b as [|c b IH]; [done|]. simpl. f_equal; [|f_equal].
  - destruct c as [[] [] [] [] [] [] [] []]; reflexivity.
  - destruct c as [[] [] [] [] [] [] [] []]; reflexivity.
  - apply IH.
Qed.

(** ** unicode/utf8: conversions between strings and runes *)

Section utf8.
Local Open Scope Z_scope.

Definition rune_error : Z := 65533.

Definition byte_val (c : ascii) : Z := Z.of_N (N_of_ascii c).
Definition in_range (lo hi : Z) (c : ascii) : bool :=
  (lo <=? byte_val c) && (byte_val c <=? hi).

(** Range of the second byte of a multi-byte sequence that starts with [b0]. *)
Definition second_range (b0 : Z) : Z * Z :=
  if b0 =? 224 then (160, 191) else if b0 =? 237 then (128, 159)
  else if b0 =? 240 then (144, 191) else if b0 =? 244 then (128, 143)
  else (128, 191).

(** [[]rune(s)]: each byte that does not start a valid encoding becomes one
    [RuneError]. *)
Fixpoint runes_of (l : list ascii) : list Z :=
  match l with
  | [] => []
  | c0 :: t =>
      let b0 := byte_val c0 in
      let bad := rune_error :: runes_of t in
      let '(lo, hi) := second_range b0 in
      if b0 <? 128 then b0 :: runes_of t
      else if (194 <=? b0) && (b0 <=? 223) then
        match t with
        | c1 :: t1 => if in_range 128 191 c1
            then ((b0 - 192) * 64 + (byte_val c1 - 128)) :: runes_of t1 else bad
        | _ => bad
        end
      else if (224 <=? b0) && (b0 <=? 239) then
        match t with
        | c1 :: c2 :: t2 => if in_range lo hi c1 && in_range 128 191 c2
            then ((b0 - 224) * 4096 + (byte_val c1 - 128) * 64
                  + (byte_val c2 - 128)) :: runes_of t2 else bad
        | _ => bad
        end
      else if (240 <=? b0) && (b0 <=? 244) then
        match t with
        | c1 :: c2 :: c3 :: t3 =>
            if in_range lo hi c1 && in_range 128 191 c2 && in_range 128 191 c3
            then ((b0 - 240) * 262144 + (byte_val c1 - 128) * 4096
                  + (byte_val c2 - 128) * 64 + (byte_val c3 - 128)) :: runes_of t3
            else bad
        | _ => bad
        end
      else bad
  end.

Definition byte_of (z : Z) : ascii := ascii_of_N (Z.to_N z).

(** UTF-8 encoding of one rune; surrogates and values out of range become
    [RuneError]. *)
Definition encode_rune (r : Z) : list ascii :=
  let r := if (r <? 0) || (1114111 <? r) || ((55296 <=? r) && (r <=? 57343))
           then rune_error else r in
  if r <=? 127 then [byte_of r]
  else if r <=? 2047 then [byte_of (192 + r / 64); byte_of (128 + r mod 64)]
  else if r <=? 65535 then
    [byte_of (224 + r / 4096); byte_of (128 + (r / 64) mod 64); byte_of (128 + r mod 64)]
  else
    [byte_of (240 + r / 262144); byte_of (128 + (r / 4096) mod 64);
     byte_of (128 + (r / 64) mod 64); byte_of (128 + r mod 64)].

(** [[]rune(s)] and [string(runes)] *)
Definition string_to_runes (s : string) : list Z := runes_of (chars s).
Definition runes_to_string (l : list Z) : string := unchars (l ≫= encode_rune).

Definition is_ascii (c : ascii) : Prop := byte_val c < 128.

Lemma runes_of_ascii l : Forall is_ascii l → runes_of l = byte_val <$> l.
Proof.
  unfold is_ascii. induction 1 as [|c l Hc Hl IH]; [done|].
  cbn [runes_of]. destruct (second_range (byte_val c)).
  destruct (Z.ltb_spec (byte_val c) 128); [|lia]. by rewrite IH.
Qed.

Lemma encode_rune_ascii c : is_ascii c → encode_rune (byte_val c) = [c].
Proof.
  intros H. destruct c as [[] [] [] [] [] [] [] []]; try reflexivity;
    vm_compute in H; discriminate.
Qed.

Lemma encode_runes_ascii l :
  Forall is_ascii l → (byte_val <$> l) ≫= encode_rune = l.
Proof.
  induction 1 as [|c l Hc Hl IH]; [done|]. rewrite fmap_cons, bind_cons.
  rewrite encode_rune_ascii by done. by rewrite IH.
Qed.
End utf8.

Global Arguments byte_val : simpl never.

(** ** Map iteration *)

(** The order in which [for k, v := range m] visits a map is up to the runtime:
    a parameter, of which only is known that it visits each entry once. *)
Class GoRuntime := {
  range : ∀ {A}, gmap string A → list (string * A);
  range_perm {A} (m : gmap string A) : range m ≡ₚ map_to_list m }.

(** A concrete order, for running the definitions. *)
Definition ordered_runtime : GoRuntime := {|
  range A m := map_to_list m; range_perm A m := reflexivity _ |}.

Section range.
Context `{GoRuntime} {A : Type}.
Implicit Types (m : gmap string A).

Lemma elem_of_range m k x : (k, x) ∈ range m ↔ m !! k = Some x.
Proof. by rewrite range_perm, elem_of_map_to_list. Qed.

Lemma range_nil_inv m : range m = [] → m = ∅.
Proof.
  intros E. apply map_to_list_empty_iff, Permutation_nil_r.
  by rewrite <-range_perm, E.
Qed.

Lemma range_empty : range (∅ : gmap string A) = [].
Proof. apply Permutation_nil_r. by rewrite range_perm, map_to_list_empty. Qed.

Lemma range_singleton k x : range ({[k := x]} : gmap string A) = [(k, x)].
Proof. apply Permutation_singleton_r. by rewrite range_perm, map_to_list_singleton. Qed.

Lemma range_to_map m : list_to_map (range m) = m.
Proof.
  rewrite <-(list_to_map_to_list m) at 2.
  apply list_to_map_proper; [|apply range_perm].
  rewrite range_perm. apply NoDup_fst_map_to_list.
Qed.
End range.
