(* ===== verification/Sha512.v ===== *)
(** * crypto/sha512 and the address digests

    An executable SHA-512 (FIPS 180-4, 64-bit words as [Z] modulo 2^64), the
    standard-library hash every example transaction family derives its state
    addresses from, and the [hexdigest] helper those families share.  Checked
    against the standard test vector and against the namespace prefixes the
    families are documented with. *)

From S2P Require Import Prelude GoLib.

Module sha512.
Local Open Scope Z_scope.

Definition mask : Z := 2^64 - 1.
Definition add64 (x y : Z) : Z := Z.land (x + y) mask.
Definition rotr (n x : Z) : Z :=
  Z.lor (Z.shiftr x n) (Z.land (Z.shiftl x (64 - n)) mask).

Definition Sigma0 x := Z.lxor (rotr 28 x) (Z.lxor (rotr 34 x) (rotr 39 x)).
Definition Sigma1 x := Z.lxor (rotr 14 x) (Z.lxor (rotr 18 x) (rotr 41 x)).
Definition sigma0 x := Z.lxor (rotr 1 x) (Z.lxor (rotr 8 x) (Z.shiftr x 7)).
Definition sigma1 x := Z.lxor (rotr 19 x) (Z.lxor (rotr 61 x) (Z.shiftr x 6)).
Definition Ch x y z := Z.lxor (Z.land x y) (Z.land (Z.lxor x mask) z).
Definition Maj x y z := Z.lxor (Z.land x y) (Z.lxor (Z.land x z) (Z.land y z)).

Definition K : list Z :=
  [0x428a2f98d728ae22; 0x7137449123ef65cd; 0xb5c0fbcfec4d3b2f;
   0xe9b5dba58189dbbc; 0x3956c25bf348b538; 0x59f111f1b605d019;
   0x923f82a4af194f9b; 0xab1c5ed5da6d8118; 0xd807aa98a3030242;
   0x12835b0145706fbe; 0x243185be4ee4b28c; 0x550c7dc3d5ffb4e2;
   0x72be5d74f27b896f; 0x80deb1fe3b1696b1; 0x9bdc06a725c71235;
   0xc19bf174cf692694; 0xe49b69c19ef14ad2; 0xefbe4786384f25e3;
   0x0fc19dc68b8cd5b5; 0x240ca1cc77ac9c65; 0x2de92c6f592b0275;
   0x4a7484aa6ea6e483; 0x5cb0a9dcbd41fbd4; 0x76f988da831153b5;
   0x983e5152ee66dfab; 0xa831c66d2db43210; 0xb00327c898fb213f;
   0xbf597fc7beef0ee4; 0xc6e00bf33da88fc2; 0xd5a79147930aa725;
   0x06ca6351e003826f; 0x142929670a0e6e70; 0x27b70a8546d22ffc;
   0x2e1b21385c26c926; 0x4d2c6dfc5ac42aed; 0x53380d139d95b3df;
   0x650a73548baf63de; 0x766a0abb3c77b2a8; 0x81c2c92e47edaee6;
   0x92722c851482353b; 0xa2bfe8a14cf10364; 0xa81a664bbc423001;
   0xc24b8b70d0f89791; 0xc76c51a30654be30; 0xd192e819d6ef5218;
   0xd69906245565a910; 0xf40e35855771202a; 0x106aa07032bbd1b8;
   0x19a4c116b8d2d0c8; 0x1e376c085141ab53; 0x2748774cdf8eeb99;
   0x34b0bcb5e19b48a8; 0x391c0cb3c5c95a63; 0x4ed8aa4ae3418acb;
   0x5b9cca4f7763e373; 0x682e6ff3d6b2b8a3; 0x748f82ee5defb2fc;
   0x78a5636f43172f60; 0x84c87814a1f0ab72; 0x8cc702081a6439ec;
   0x90befffa23631e28; 0xa4506cebde82bde9; 0xbef9a3f7b2c67915;
   0xc67178f2e372532b; 0xca273eceea26619c; 0xd186b8c721c0c207;
   0xeada7dd6cde0eb1e; 0xf57d4f7fee6ed178; 0x06f067aa72176fba;
   0x0a637dc5a2c898a6; 0x113f9804bef90dae; 0x1b710b35131c471b;
   0x28db77f523047d84; 0x32caab7b40c72493; 0x3c9ebe0a15c9bebc;
   0x431d67c49c100d4c; 0x4cc5d4becb3e42b6; 0x597f299cfc657e2a;
   0x5fcb6fab3ad6faec; 0x6c44198c4a475817].

Definition H0 : list Z :=
  [0x6a09e667f3bcc908; 0xbb67ae8584caa73b; 0x3c6ef372fe94f82b;
   0xa54ff53a5f1d36f1; 0x510e527fade682d1; 0x9b05688c2b3e6c1f;
   0x1f83d9abfb41bd6b; 0x5be0cd19137e2179].

(** One round on the working variables and the 16-word schedule window. *)
Definition round (st : list Z * list Z) (k : Z) : list Z * list Z :=
  match st with
  | ([a; b; c; d; e; f; g; h], w) =>
      let wi := nth 0 w 0 in
      let t1 := add64 (add64 (add64 h (Sigma1 e)) (add64 (Ch e f g) k)) wi in
      let t2 := add64 (Sigma0 a) (Maj a b c) in
      let wn := add64 (add64 (sigma1 (nth 14 w 0)) (nth 9 w 0))
                      (add64 (sigma0 (nth 1 w 0)) wi) in
      ([add64 t1 t2; a; b; c; add64 d t1; e; f; g], tl w ++ [wn])
  | _ => st
  end.

Definition compress (h : list Z) (block : list Z) : list Z :=
  zip_with add64 h (fst (foldl round (h, block) K)).

(** Big-endian conversions between bytes and 64-bit words. *)
Definition word_of (bs : list Z) : Z := foldl (λ acc b, acc * 256 + b) 0 bs.
Definition bytes_of_word (w : Z) : list Z :=
  (λ i, Z.land (Z.shiftr w (8 * i)) 255) <$> [7; 6; 5; 4; 3; 2; 1; 0].

Fixpoint words (n : nat) (bs : list Z) : list Z :=
  match n with
  | O => []
  | S n' => word_of (take 8 bs) :: words n' (drop 8 bs)
  end.

Fixpoint blocks (n : nat) (h : list Z) (bs : list Z) : list Z :=
  match n with
  | O => h
  | S n' => blocks n' (compress h (words 16 (take 128 bs))) (drop 128 bs)
  end.

(** Message padding: 0x80, zeros, and the bit length on 128 bits. *)
Definition pad (bs : list Z) : list Z :=
  let n := Z.of_nat (length bs) in
  let zeros := Z.to_nat ((111 - n) mod 128) in
  bs ++ [128] ++ replicate zeros 0
     ++ bytes_of_word (Z.shiftr (8 * n) 64) ++ bytes_of_word (Z.land (8 * n) mask).

(** [sha512.New(); Write(b); Sum(nil)] *)
Definition Sum (b : bytes) : bytes :=
  let bs := pad (byte_val <$> chars b) in
  let h := blocks (Nat.div (length bs) 128) H0 bs in
  unchars (byte_of <$> (h ≫= bytes_of_word)).

Lemma round_length st k : length (fst st) = 8%nat → length (fst (round st k)) = 8%nat.
Proof.
  destruct st as [l w]. simpl. intros H.
  do 9 (destruct l as [|? l]; try discriminate). reflexivity.
Qed.

Lemma rounds_length ks st :
  length (fst st) = 8%nat → length (fst (foldl round st ks)) = 8%nat.
Proof.
  revert st. induction ks as [|k ks IH]; intros st H; [done|]. simpl.
  apply IH, round_length, H.
Qed.

Lemma blocks_length n h bs : length h = 8%nat → length (blocks n h bs) = 8%nat.
Proof.
  revert h bs. induction n as [|n IH]; intros h bs H; [done|]. cbn [blocks].
  apply IH. unfold compress. rewrite length_zip_with, rounds_length by done. lia.
Qed.

Lemma Sum_len b : len (Sum b) = 64%nat.
Proof.
  unfold Sum. rewrite <-length_chars, chars_unchars, length_fmap.
  assert (Hl : ∀ l : list Z, length (l ≫= bytes_of_word) = (8 * length l)%nat).
  { induction l as [|x l IH]; [done|].
    rewrite bind_cons, length_app, IH. simpl. lia. }
  rewrite Hl, blocks_length by done. done.
Qed.
End sha512.

Global Arguments sha512.Sum : simpl never.

(** The [hexdigest] / [Hexdigest] helper of the intkey, noop, smallbank and xo
    families: the lower-case hexadecimal SHA-512 digest of a string. *)
Definition hexdigest (str : string) : string :=
  let hashBytes := sha512.Sum str in
  ToLower (hex_EncodeToString hashBytes).

Global Arguments hexdigest : simpl never.

Lemma hexdigest_eq str : hexdigest str = hex_EncodeToString (sha512.Sum str).
Proof. apply hex_lower. Qed.

Lemma hexdigest_len str : len (hexdigest str) = 128%nat.
Proof. rewrite hexdigest_eq, hex_len, sha512.Sum_len. done. Qed.

(** The digest of "abc" of FIPS 180-4, and the namespace prefixes under which
    the example families are registered. *)
Example sha512_abc : hexdigest "abc" =
  "ddaf35a193617abacc417349ae20413112e6fa4e89a97ea20a9eeee64b55d39a2192992a274fc1a836ba3c23a3feebbd454d4423643ce80e2a9ac94fa54ca49f".
Proof. vm_compute. reflexivity. Qed.
Example namespace_intkey : slice_to 6 (hexdigest "intkey") = "1cf126".
Proof. vm_compute. reflexivity. Qed.
Example namespace_xo : slice_to 6 (hexdigest "xo") = "5b7349".
Proof. vm_compute. reflexivity. Qed.
Example namespace_smallbank : slice_to 6 (hexdigest "smallbank") = "332514".
Proof. vm_compute. reflexivity. Qed.
