(* ===== verification/Sha256.v ===== *)
(** * crypto/sha256

    An executable SHA-256 (FIPS 180-4, 32-bit words as [Z] modulo 2^32), the
    standard-library hash that [signing/secp256k1.go] signs instead of the
    message.  Checked against the standard test vectors. *)

From S2P Require Import Prelude GoLib Sha512.

Module sha256.
Local Open Scope Z_scope.

Definition mask : Z := 2^32 - 1.
Definition add32 (x y : Z) : Z := Z.land (x + y) mask.
Definition rotr (n x : Z) : Z :=
  Z.lor (Z.shiftr x n) (Z.land (Z.shiftl x (32 - n)) mask).

Definition Sigma0 x := Z.lxor (rotr 2 x) (Z.lxor (rotr 13 x) (rotr 22 x)).
Definition Sigma1 x := Z.lxor (rotr 6 x) (Z.lxor (rotr 11 x) (rotr 25 x)).
Definition sigma0 x := Z.lxor (rotr 7 x) (Z.lxor (rotr 18 x) (Z.shiftr x 3)).
Definition sigma1 x := Z.lxor (rotr 17 x) (Z.lxor (rotr 19 x) (Z.shiftr x 10)).
Definition Ch x y z := Z.lxor (Z.land x y) (Z.land (Z.lxor x mask) z).
Definition Maj x y z := Z.lxor (Z.land x y) (Z.lxor (Z.land x z) (Z.land y z)).

(** The round constants and the initial value are the upper halves of those of
    SHA-512: both take the fractional parts of the same cube and square roots. *)
Definition upper_half (x : Z) : Z := Z.shiftr x 32.
Definition K : list Z := Eval vm_compute in upper_half <$> take 64 sha512.K.
Definition H0 : list Z := Eval vm_compute in upper_half <$> sha512.H0.

(** One round on the working variables and the 16-word schedule window. *)
Definition round (st : list Z * list Z) (k : Z) : list Z * list Z :=
  match st with
  | ([a; b; c; d; e; f; g; h], w) =>
      let wi := nth 0 w 0 in
      let t1 := add32 (add32 (add32 h (Sigma1 e)) (add32 (Ch e f g) k)) wi in
      let t2 := add32 (Sigma0 a) (Maj a b c) in
      let wn := add32 (add32 (sigma1 (nth 14 w 0)) (nth 9 w 0))
                      (add32 (sigma0 (nth 1 w 0)) wi) in
      ([add32 t1 t2; a; b; c; add32 d t1; e; f; g], tl w ++ [wn])
  | _ => st
  end.

Definition compress (h : list Z) (block : list Z) : list Z :=
  zip_with add32 h (fst (foldl round (h, block) K)).

(** Big-endian conversions between bytes and words, and the 64-bit length. *)
Definition word_of (bs : list Z) : Z := foldl (λ acc b, acc * 256 + b) 0 bs.
Definition bytes_of_word (w : Z) : list Z :=
  (λ i, Z.land (Z.shiftr w (8 * i)) 255) <$> [3; 2; 1; 0].

Fixpoint words (n : nat) (bs : list Z) : list Z :=
  match n with
  | O => []
  | S n' => word_of (take 4 bs) :: words n' (drop 4 bs)
  end.

Fixpoint blocks (n : nat) (h : list Z) (bs : list Z) : list Z :=
  match n with
  | O => h
  | S n' => blocks n' (compress h (words 16 (take 64 bs))) (drop 64 bs)
  end.

(** Message padding: 0x80, zeros, and the bit length on 64 bits. *)
Definition pad (bs : list Z) : list Z :=
  let n := Z.of_nat (length bs) in
  let zeros := Z.to_nat ((55 - n) mod 64) in
  bs ++ [128] ++ replicate zeros 0
     ++ bytes_of_word (Z.shiftr (8 * n) 32) ++ bytes_of_word (Z.land (8 * n) mask).

(** [sha256.New(); Write(b); Sum(nil)] *)
Definition Sum (b : bytes) : bytes :=
  let bs := pad (byte_val <$> chars b) in
  let h := blocks (Nat.div (length bs) 64) H0 bs in
  unchars (byte_of <$> (h ≫= bytes_of_word)).
End sha256.

Global Arguments sha256.Sum : simpl never.

Example sha256_abc : hex_EncodeToString (sha256.Sum "abc") =
  "ba7816bf8f01cfea414140de5dae2223b00361a396177a9cb410ff61f20015ad".
Proof. vm_compute. reflexivity. Qed.
Example sha256_two_blocks :
  hex_EncodeToString (sha256.Sum "abcdbcdecdefdefgefghfghighijhijkijkljklmklmnlmnomnopnopq") =
  "248d6a61d20638b8e5c026930c3e6039a33ce45964ff2167f6ecedd419db06c1".
Proof. vm_compute. reflexivity. Qed.
