(* ===== verification/Errors.v ===== *)
(** * Error values

    The error types of [processor/errors.go] and [consensus/errors.go] as
    records, and Go's [error] interface as the sum of the dynamic types that
    reach the modelled code.  A nil error is [None]; a type switch on an error
    is a [match] on the sum. *)

From S2P Require Import Prelude GoLib.

(** ** processor/errors.go *)

Record InvalidTransactionError := {
  InvalidTransactionError_Msg : string;
  InvalidTransactionError_ExtendedData : bytes }.

Record InternalError := {
  InternalError_Msg : string;
  InternalError_ExtendedData : bytes }.

Record AuthorizationException := {
  AuthorizationException_Msg : string;
  AuthorizationException_ExtendedData : bytes }.

Definition InvalidTransactionError_Error (err : InvalidTransactionError) : string :=
  "Invalid transaction: " +:+ InvalidTransactionError_Msg err.

Definition InternalError_Error (err : InternalError) : string :=
  "Internal error: " +:+ InternalError_Msg err.

Definition AuthorizationException_Error (err : AuthorizationException) : string :=
  "Authorization exception: " +:+ AuthorizationException_Msg err.

(** ** consensus/errors.go *)

Record EncodingError := { EncodingError_Msg : string }.
Record SendError := { SendError_Msg : string }.
Record ReceiveError := { ReceiveError_Msg : string }.
Record InvalidStateError := { InvalidStateError_Msg : string }.
Record UnknownBlockError := { UnknownBlockError_Msg : string }.
Record UnknownPeerError := { UnknownPeerError_Msg : string }.
Record NoChainHeadError := { }.
Record BlockNotReadyError := { }.

Definition EncodingError_Error (self : EncodingError) : string :=
  "EncodingError: " +:+ EncodingError_Msg self.
Definition SendError_Error (self : SendError) : string :=
  "SendError: " +:+ SendError_Msg self.
Definition ReceiveError_Error (self : ReceiveError) : string :=
  "ReceiveError: " +:+ ReceiveError_Msg self.
Definition InvalidStateError_Error (self : InvalidStateError) : string :=
  "InvalidState: " +:+ InvalidStateError_Msg self.
Definition UnknownBlockError_Error (self : UnknownBlockError) : string :=
  "UnknownBlock: " +:+ UnknownBlockError_Msg self.
Definition UnknownPeerError_Error (self : UnknownPeerError) : string :=
  "UnknownPeer: " +:+ UnknownPeerError_Msg self.
Definition NoChainHeadError_Error (self : NoChainHeadError) : string := "NoChainHead".
Definition BlockNotReadyError_Error (self : BlockNotReadyError) : string := "BlockNotReady".

(** ** The [error] interface *)

(** [errString] covers [fmt.Errorf], [errors.New] and the errors of the libraries,
    of which the code only ever uses the text. *)
Inductive error :=
| errString (text : string)
| errInvalidTransaction (e : InvalidTransactionError)
| errInternal (e : InternalError)
| errAuthorization (e : AuthorizationException)
| errEncoding (e : EncodingError)
| errSend (e : SendError)
| errReceive (e : ReceiveError)
| errInvalidState (e : InvalidStateError)
| errUnknownBlock (e : UnknownBlockError)
| errUnknownPeer (e : UnknownPeerError)
| errNoChainHead (e : NoChainHeadError)
| errBlockNotReady (e : BlockNotReadyError).

#[export] Instance error_eq_dec : EqDecision error.
Proof. unfold EqDecision, Decision. repeat decide equality. Defined.

(** The [Error] method, by dynamic type. *)
Definition Error (err : error) : string :=
  match err with
  | errString t => t
  | errInvalidTransaction e => InvalidTransactionError_Error e
  | errInternal e => InternalError_Error e
  | errAuthorization e => AuthorizationException_Error e
  | errEncoding e => EncodingError_Error e
  | errSend e => SendError_Error e
  | errReceive e => ReceiveError_Error e
  | errInvalidState e => InvalidStateError_Error e
  | errUnknownBlock e => UnknownBlockError_Error e
  | errUnknownPeer e => UnknownPeerError_Error e
  | errNoChainHead e => NoChainHeadError_Error e
  | errBlockNotReady e => BlockNotReadyError_Error e
  end.

(** Composite literals that set [Msg] only. *)
Definition invalidTransaction (msg : string) : error :=
  errInvalidTransaction {| InvalidTransactionError_Msg := msg;
                           InvalidTransactionError_ExtendedData := "" |}.
Definition internalError (msg : string) : error :=
  errInternal {| InternalError_Msg := msg; InternalError_ExtendedData := "" |}.
Definition authorizationException (msg : string) : error :=
  errAuthorization {| AuthorizationException_Msg := msg;
                      AuthorizationException_ExtendedData := "" |}.

(** The [Is...Error] predicates of [consensus/errors.go]; a nil error has no
    dynamic type. *)
Definition IsEncodingError (err : option error) : bool :=
  match err with Some (errEncoding _) => true | _ => false end.
Definition IsSendError (err : option error) : bool :=
  match err with Some (errSend _) => true | _ => false end.
Definition IsReceiveError (err : option error) : bool :=
  match err with Some (errReceive _) => true | _ => false end.
Definition IsInvalidStateError (err : option error) : bool :=
  match err with Some (errInvalidState _) => true | _ => false end.
Definition IsUnknownBlockError (err : option error) : bool :=
  match err with Some (errUnknownBlock _) => true | _ => false end.
Definition IsUnknownPeerError (err : option error) : bool :=
  match err with Some (errUnknownPeer _) => true | _ => false end.
Definition IsNoChainHeadError (err : option error) : bool :=
  match err with Some (errNoChainHead _) => true | _ => false end.
Definition IsBlockNotReadyError (err : option error) : bool :=
  match err with Some (errBlockNotReady _) => true | _ => false end.

(** The [%v] rendering of an error that may be nil. *)
Definition err_v (e : option error) : string := from_option Error "<nil>" e.

(** A function that returns [(T, error)] and whose value is only used when the
    error is nil returns [error + T]; [errorf] is [fmt.Errorf] on a rendered
    text. *)
Definition errorf {A} (text : string) : error + A := inl (errString text).
