(* ===== verification/Protobuf.v ===== *)
(** * Protocol Buffers messages of the transaction-processor protocol

    The message structs of [protobuf/*_pb2] that the SDK builds and reads, as
    records with the source's fields ([*T] fields as options, [[]*T] as lists,
    proto3 enums as the open [int32] they are, with their named values), and the
    interface of the protobuf runtime: [proto.Marshal] and [proto.Unmarshal] are
    library code and stay parameters ([Proto]), with the one documented fact the
    SDK relies on as a law ([ProtoLaws]: parsing a serialized message gives the
    message back). *)

From S2P Require Import Prelude GoLib Errors.

Local Open Scope Z_scope.

(** ** The protobuf runtime *)

(** [proto.Marshal(m)] and [proto.Unmarshal(b, &m)] for a message type; after a
    failed [Unmarshal] the target holds whatever was parsed, so both results are
    returned. *)
Class Proto (M : Type) := {
  Marshal : M → error + bytes;
  Unmarshal : bytes → M * option error }.
#[global] Hint Mode Proto ! : typeclass_instances.

Class ProtoLaws (M : Type) `{Proto M} : Prop :=
  Unmarshal_Marshal (m : M) b : Marshal m = inr b → Unmarshal b = (m, None).

(** A runtime whose [Marshal] never fails on messages of the type. *)
Class ProtoTotal (M : Type) `{Proto M} : Prop :=
  Marshal_total (m : M) : ∃ b, Marshal m = inr b.

(** A concrete lawful runtime, for any countable message type: the message's
    code written as a string of binary digits. *)
Fixpoint pos_bits (p : positive) : string :=
  match p with
  | xH => ""
  | xO p => String "0" (pos_bits p)
  | xI p => String "1" (pos_bits p)
  end.
Fixpoint bits_pos (s : string) : option positive :=
  match s with
  | EmptyString => Some xH
  | String c s =>
      if decide (c = "0"%char) then xO <$> bits_pos s
      else if decide (c = "1"%char) then xI <$> bits_pos s
      else None
  end.

Lemma bits_pos_bits p : bits_pos (pos_bits p) = Some p.
Proof. induction p as [p IH|p IH|]; simpl; rewrite ?IH; done. Qed.

Definition countable_proto (M : Type) `{Countable M} `{Inhabited M} : Proto M := {|
  Marshal m := inr (pos_bits (encode m));
  Unmarshal b := match bits_pos b ≫= decode with
                 | Some m => (m, None)
                 | None => (inhabitant, Some (errString "proto: cannot parse"))
                 end |}.

Lemma countable_proto_laws M `{Countable M} `{Inhabited M} :
  @ProtoLaws M (countable_proto M).
Proof.
  intros m b [= <-]. simpl. rewrite bits_pos_bits. simpl. by rewrite decode_encode.
Qed.
Lemma countable_proto_total M `{Countable M} `{Inhabited M} :
  @ProtoTotal M (countable_proto M).
Proof. intros m. by eexists. Qed.

(** [String()] of a proto3 enum value: its name, or its number when it has
    none. *)
Definition enum_String (names : list (Z * string)) (v : Z) : string :=
  match list_find (λ p, p.1 = v) names with
  | Some (_, (_, n)) => n
  | None => Itoa v
  end.

(** ** validator_pb2 *)

Definition Message_DEFAULT : Z := 0.
Definition Message_TP_REGISTER_REQUEST : Z := 1.
Definition Message_TP_REGISTER_RESPONSE : Z := 2.
Definition Message_TP_UNREGISTER_REQUEST : Z := 3.
Definition Message_TP_UNREGISTER_RESPONSE : Z := 4.
Definition Message_TP_PROCESS_REQUEST : Z := 5.
Definition Message_TP_PROCESS_RESPONSE : Z := 6.
Definition Message_TP_STATE_GET_REQUEST : Z := 7.
Definition Message_TP_STATE_GET_RESPONSE : Z := 8.
Definition Message_TP_STATE_SET_REQUEST : Z := 9.
Definition Message_TP_STATE_SET_RESPONSE : Z := 10.
Definition Message_TP_STATE_DELETE_REQUEST : Z := 11.
Definition Message_TP_STATE_DELETE_RESPONSE : Z := 12.
Definition Message_TP_RECEIPT_ADD_DATA_REQUEST : Z := 13.
Definition Message_TP_RECEIPT_ADD_DATA_RESPONSE : Z := 14.
Definition Message_TP_EVENT_ADD_REQUEST : Z := 15.
Definition Message_TP_EVENT_ADD_RESPONSE : Z := 16.
Definition Message_PING_REQUEST : Z := 700.
Definition Message_PING_RESPONSE : Z := 701.
Definition Message_CONSENSUS_REGISTER_REQUEST : Z := 800.
Definition Message_CONSENSUS_REGISTER_RESPONSE : Z := 801.
Definition Message_CONSENSUS_SEND_TO_REQUEST : Z := 802.
Definition Message_CONSENSUS_SEND_TO_RESPONSE : Z := 803.
Definition Message_CONSENSUS_BROADCAST_REQUEST : Z := 804.
Definition Message_CONSENSUS_BROADCAST_RESPONSE : Z := 805.
Definition Message_CONSENSUS_INITIALIZE_BLOCK_REQUEST : Z := 806.
Definition Message_CONSENSUS_INITIALIZE_BLOCK_RESPONSE : Z := 807.
Definition Message_CONSENSUS_FINALIZE_BLOCK_REQUEST : Z := 808.
Definition Message_CONSENSUS_FINALIZE_BLOCK_RESPONSE : Z := 809.
Definition Message_CONSENSUS_SUMMARIZE_BLOCK_REQUEST : Z := 828.
Definition Message_CONSENSUS_SUMMARIZE_BLOCK_RESPONSE : Z := 829.
Definition Message_CONSENSUS_CANCEL_BLOCK_REQUEST : Z := 810.
Definition Message_CONSENSUS_CANCEL_BLOCK_RESPONSE : Z := 811.
Definition Message_CONSENSUS_CHECK_BLOCKS_REQUEST : Z := 812.
Definition Message_CONSENSUS_CHECK_BLOCKS_RESPONSE : Z := 813.
Definition Message_CONSENSUS_COMMIT_BLOCK_REQUEST : Z := 814.
Definition Message_CONSENSUS_COMMIT_BLOCK_RESPONSE : Z := 815.
Definition Message_CONSENSUS_IGNORE_BLOCK_REQUEST : Z := 816.
Definition Message_CONSENSUS_IGNORE_BLOCK_RESPONSE : Z := 817.
Definition Message_CONSENSUS_FAIL_BLOCK_REQUEST : Z := 818.
Definition Message_CONSENSUS_FAIL_BLOCK_RESPONSE : Z := 819.
Definition Message_CONSENSUS_SETTINGS_GET_REQUEST : Z := 820.
Definition Message_CONSENSUS_SETTINGS_GET_RESPONSE : Z := 821.
Definition Message_CONSENSUS_STATE_GET_REQUEST : Z := 822.
Definition Message_CONSENSUS_STATE_GET_RESPONSE : Z := 823.
Definition Message_CONSENSUS_BLOCKS_GET_REQUEST : Z := 824.
Definition Message_CONSENSUS_BLOCKS_GET_RESPONSE : Z := 825.
Definition Message_CONSENSUS_CHAIN_HEAD_GET_REQUEST : Z := 826.
Definition Message_CONSENSUS_CHAIN_HEAD_GET_RESPONSE : Z := 827.
Definition Message_CONSENSUS_NOTIFY_PEER_CONNECTED : Z := 900.
Definition Message_CONSENSUS_NOTIFY_PEER_DISCONNECTED : Z := 901.
Definition Message_CONSENSUS_NOTIFY_PEER_MESSAGE : Z := 902.
Definition Message_CONSENSUS_NOTIFY_BLOCK_NEW : Z := 903.
Definition Message_CONSENSUS_NOTIFY_BLOCK_VALID : Z := 904.
Definition Message_CONSENSUS_NOTIFY_BLOCK_INVALID : Z := 905.
Definition Message_CONSENSUS_NOTIFY_BLOCK_COMMIT : Z := 906.
Definition Message_CONSENSUS_NOTIFY_ENGINE_ACTIVATED : Z := 907.
Definition Message_CONSENSUS_NOTIFY_ENGINE_DEACTIVATED : Z := 908.
Definition Message_CONSENSUS_NOTIFY_ACK : Z := 999.
Definition Message_MessageType_name : list (Z * string) :=
  [(0, "DEFAULT");
   (1, "TP_REGISTER_REQUEST");
   (2, "TP_REGISTER_RESPONSE");
   (3, "TP_UNREGISTER_REQUEST");
   (4, "TP_UNREGISTER_RESPONSE");
   (5, "TP_PROCESS_REQUEST");
   (6, "TP_PROCESS_RESPONSE");
   (7, "TP_STATE_GET_REQUEST");
   (8, "TP_STATE_GET_RESPONSE");
   (9, "TP_STATE_SET_REQUEST");
   (10, "TP_STATE_SET_RESPONSE");
   (11, "TP_STATE_DELETE_REQUEST");
   (12, "TP_STATE_DELETE_RESPONSE");
   (13, "TP_RECEIPT_ADD_DATA_REQUEST");
   (14, "TP_RECEIPT_ADD_DATA_RESPONSE");
   (15, "TP_EVENT_ADD_REQUEST");
   (16, "TP_EVENT_ADD_RESPONSE");
   (100, "CLIENT_BATCH_SUBMIT_REQUEST");
   (101, "CLIENT_BATCH_SUBMIT_RESPONSE");
   (102, "CLIENT_BLOCK_LIST_REQUEST");
   (103, "CLIENT_BLOCK_LIST_RESPONSE");
   (104, "CLIENT_BLOCK_GET_BY_ID_REQUEST");
   (105, "CLIENT_BLOCK_GET_RESPONSE");
   (106, "CLIENT_BATCH_LIST_REQUEST");
   (107, "CLIENT_BATCH_LIST_RESPONSE");
   (108, "CLIENT_BATCH_GET_REQUEST");
   (109, "CLIENT_BATCH_GET_RESPONSE");
   (110, "CLIENT_TRANSACTION_LIST_REQUEST");
   (111, "CLIENT_TRANSACTION_LIST_RESPONSE");
   (112, "CLIENT_TRANSACTION_GET_REQUEST");
   (113, "CLIENT_TRANSACTION_GET_RESPONSE");
   (114, "CLIENT_STATE_CURRENT_REQUEST");
   (115, "CLIENT_STATE_CURRENT_RESPONSE");
   (116, "CLIENT_STATE_LIST_REQUEST");
   (117, "CLIENT_STATE_LIST_RESPONSE");
   (118, "CLIENT_STATE_GET_REQUEST");
   (119, "CLIENT_STATE_GET_RESPONSE");
   (120, "CLIENT_BATCH_STATUS_REQUEST");
   (121, "CLIENT_BATCH_STATUS_RESPONSE");
   (122, "CLIENT_RECEIPT_GET_REQUEST");
   (123, "CLIENT_RECEIPT_GET_RESPONSE");
   (124, "CLIENT_BLOCK_GET_BY_NUM_REQUEST");
   (125, "CLIENT_PEERS_GET_REQUEST");
   (126, "CLIENT_PEERS_GET_RESPONSE");
   (127, "CLIENT_BLOCK_GET_BY_TRANSACTION_ID_REQUEST");
   (128, "CLIENT_BLOCK_GET_BY_BATCH_ID_REQUEST");
   (129, "CLIENT_STATUS_GET_REQUEST");
   (130, "CLIENT_STATUS_GET_RESPONSE");
   (500, "CLIENT_EVENTS_SUBSCRIBE_REQUEST");
   (501, "CLIENT_EVENTS_SUBSCRIBE_RESPONSE");
   (502, "CLIENT_EVENTS_UNSUBSCRIBE_REQUEST");
   (503, "CLIENT_EVENTS_UNSUBSCRIBE_RESPONSE");
   (504, "CLIENT_EVENTS");
   (505, "CLIENT_EVENTS_GET_REQUEST");
   (506, "CLIENT_EVENTS_GET_RESPONSE");
   (200, "GOSSIP_MESSAGE");
   (201, "GOSSIP_REGISTER");
   (202, "GOSSIP_UNREGISTER");
   (205, "GOSSIP_BLOCK_REQUEST");
   (206, "GOSSIP_BLOCK_RESPONSE");
   (207, "GOSSIP_BATCH_BY_BATCH_ID_REQUEST");
   (208, "GOSSIP_BATCH_BY_TRANSACTION_ID_REQUEST");
   (209, "GOSSIP_BATCH_RESPONSE");
   (210, "GOSSIP_GET_PEERS_REQUEST");
   (211, "GOSSIP_GET_PEERS_RESPONSE");
   (212, "GOSSIP_CONSENSUS_MESSAGE");
   (300, "NETWORK_ACK");
   (301, "NETWORK_CONNECT");
   (302, "NETWORK_DISCONNECT");
   (600, "AUTHORIZATION_CONNECTION_RESPONSE");
   (601, "AUTHORIZATION_VIOLATION");
   (602, "AUTHORIZATION_TRUST_REQUEST");
   (603, "AUTHORIZATION_TRUST_RESPONSE");
   (604, "AUTHORIZATION_CHALLENGE_REQUEST");
   (605, "AUTHORIZATION_CHALLENGE_RESPONSE");
   (606, "AUTHORIZATION_CHALLENGE_SUBMIT");
   (607, "AUTHORIZATION_CHALLENGE_RESULT");
   (700, "PING_REQUEST");
   (701, "PING_RESPONSE");
   (800, "CONSENSUS_REGISTER_REQUEST");
   (801, "CONSENSUS_REGISTER_RESPONSE");
   (802, "CONSENSUS_SEND_TO_REQUEST");
   (803, "CONSENSUS_SEND_TO_RESPONSE");
   (804, "CONSENSUS_BROADCAST_REQUEST");
   (805, "CONSENSUS_BROADCAST_RESPONSE");
   (806, "CONSENSUS_INITIALIZE_BLOCK_REQUEST");
   (807, "CONSENSUS_INITIALIZE_BLOCK_RESPONSE");
   (808, "CONSENSUS_FINALIZE_BLOCK_REQUEST");
   (809, "CONSENSUS_FINALIZE_BLOCK_RESPONSE");
   (828, "CONSENSUS_SUMMARIZE_BLOCK_REQUEST");
   (829, "CONSENSUS_SUMMARIZE_BLOCK_RESPONSE");
   (810, "CONSENSUS_CANCEL_BLOCK_REQUEST");
   (811, "CONSENSUS_CANCEL_BLOCK_RESPONSE");
   (812, "CONSENSUS_CHECK_BLOCKS_REQUEST");
   (813, "CONSENSUS_CHECK_BLOCKS_RESPONSE");
   (814, "CONSENSUS_COMMIT_BLOCK_REQUEST");
   (815, "CONSENSUS_COMMIT_BLOCK_RESPONSE");
   (816, "CONSENSUS_IGNORE_BLOCK_REQUEST");
   (817, "CONSENSUS_IGNORE_BLOCK_RESPONSE");
   (818, "CONSENSUS_FAIL_BLOCK_REQUEST");
   (819, "CONSENSUS_FAIL_BLOCK_RESPONSE");
   (820, "CONSENSUS_SETTINGS_GET_REQUEST");
   (821, "CONSENSUS_SETTINGS_GET_RESPONSE");
   (822, "CONSENSUS_STATE_GET_REQUEST");
   (823, "CONSENSUS_STATE_GET_RESPONSE");
   (824, "CONSENSUS_BLOCKS_GET_REQUEST");
   (825, "CONSENSUS_BLOCKS_GET_RESPONSE");
   (826, "CONSENSUS_CHAIN_HEAD_GET_REQUEST");
   (827, "CONSENSUS_CHAIN_HEAD_GET_RESPONSE");
   (900, "CONSENSUS_NOTIFY_PEER_CONNECTED");
   (901, "CONSENSUS_NOTIFY_PEER_DISCONNECTED");
   (902, "CONSENSUS_NOTIFY_PEER_MESSAGE");
   (903, "CONSENSUS_NOTIFY_BLOCK_NEW");
   (904, "CONSENSUS_NOTIFY_BLOCK_VALID");
   (905, "CONSENSUS_NOTIFY_BLOCK_INVALID");
   (906, "CONSENSUS_NOTIFY_BLOCK_COMMIT");
   (907, "CONSENSUS_NOTIFY_ENGINE_ACTIVATED");
   (908, "CONSENSUS_NOTIFY_ENGINE_DEACTIVATED");
   (999, "CONSENSUS_NOTIFY_ACK")].

Record Message := {
  Message_MessageType : Z;
  Message_CorrelationId : string;
  Message_Content : bytes }.
#[export] Instance Message_zero : Inhabited Message := populate {|
  Message_MessageType := 0;
  Message_CorrelationId := "";
  Message_Content := "" |}.
#[export] Instance Message_eq_dec : EqDecision Message.
Proof. solve_decision. Defined.
#[export] Instance Message_countable : Countable Message.
Proof.
  refine (inj_countable' (λ m, (Message_MessageType m, Message_CorrelationId m, Message_Content m))
    (λ '(x0, x1, x2), Build_Message x0 x1 x2) _). by intros [].
Defined.

(** ** transaction_pb2, batch_pb2 *)

Record TransactionHeader := {
  TransactionHeader_BatcherPublicKey : string;
  TransactionHeader_Dependencies : list string;
  TransactionHeader_FamilyName : string;
  TransactionHeader_FamilyVersion : string;
  TransactionHeader_Inputs : list string;
  TransactionHeader_Nonce : string;
  TransactionHeader_Outputs : list string;
  TransactionHeader_PayloadSha512 : string;
  TransactionHeader_SignerPublicKey : string }.
#[export] Instance TransactionHeader_zero : Inhabited TransactionHeader := populate {|
  TransactionHeader_BatcherPublicKey := "";
  TransactionHeader_Dependencies := [];
  TransactionHeader_FamilyName := "";
  TransactionHeader_FamilyVersion := "";
  TransactionHeader_Inputs := [];
  TransactionHeader_Nonce := "";
  TransactionHeader_Outputs := [];
  TransactionHeader_PayloadSha512 := "";
  TransactionHeader_SignerPublicKey := "" |}.
#[export] Instance TransactionHeader_eq_dec : EqDecision TransactionHeader.
Proof. solve_decision. Defined.
#[export] Instance TransactionHeader_countable : Countable TransactionHeader.
Proof.
  refine (inj_countable' (λ m, (TransactionHeader_BatcherPublicKey m, TransactionHeader_Dependencies m, TransactionHeader_FamilyName m, TransactionHeader_FamilyVersion m, TransactionHeader_Inputs m, TransactionHeader_Nonce m, TransactionHeader_Outputs m, TransactionHeader_PayloadSha512 m, TransactionHeader_SignerPublicKey m))
    (λ '(x0, x1, x2, x3, x4, x5, x6, x7, x8), Build_TransactionHeader x0 x1 x2 x3 x4 x5 x6 x7 x8) _). by intros [].
Defined.

Record Transaction := {
  Transaction_Header : bytes;
  Transaction_HeaderSignature : string;
  Transaction_Payload : bytes }.
#[export] Instance Transaction_zero : Inhabited Transaction := populate {|
  Transaction_Header := "";
  Transaction_HeaderSignature := "";
  Transaction_Payload := "" |}.
#[export] Instance Transaction_eq_dec : EqDecision Transaction.
Proof. solve_decision. Defined.
#[export] Instance Transaction_countable : Countable Transaction.
Proof.
  refine (inj_countable' (λ m, (Transaction_Header m, Transaction_HeaderSignature m, Transaction_Payload m))
    (λ '(x0, x1, x2), Build_Transaction x0 x1 x2) _). by intros [].
Defined.

Record BatchHeader := {
  BatchHeader_SignerPublicKey : string;
  BatchHeader_TransactionIds : list string }.
#[export] Instance BatchHeader_zero : Inhabited BatchHeader := populate {|
  BatchHeader_SignerPublicKey := "";
  BatchHeader_TransactionIds := [] |}.
#[export] Instance BatchHeader_eq_dec : EqDecision BatchHeader.
Proof. solve_decision. Defined.
#[export] Instance BatchHeader_countable : Countable BatchHeader.
Proof.
  refine (inj_countable' (λ m, (BatchHeader_SignerPublicKey m, BatchHeader_TransactionIds m))
    (λ '(x0, x1), Build_BatchHeader x0 x1) _). by intros [].
Defined.

Record Batch := {
  Batch_Header : bytes;
  Batch_HeaderSignature : string;
  Batch_Transactions : list Transaction;
  Batch_Trace : bool }.
#[export] Instance Batch_zero : Inhabited Batch := populate {|
  Batch_Header := "";
  Batch_HeaderSignature := "";
  Batch_Transactions := [];
  Batch_Trace := false |}.
#[export] Instance Batch_eq_dec : EqDecision Batch.
Proof. solve_decision. Defined.
#[export] Instance Batch_countable : Countable Batch.
Proof.
  refine (inj_countable' (λ m, (Batch_Header m, Batch_HeaderSignature m, Batch_Transactions m, Batch_Trace m))
    (λ '(x0, x1, x2, x3), Build_Batch x0 x1 x2 x3) _). by intros [].
Defined.

Record BatchList := {
  BatchList_Batches : list Batch }.
#[export] Instance BatchList_zero : Inhabited BatchList := populate {|
  BatchList_Batches := [] |}.
#[export] Instance BatchList_eq_dec : EqDecision BatchList.
Proof. solve_decision. Defined.
#[export] Instance BatchList_countable : Countable BatchList.
Proof.
  refine (inj_countable' (λ m, (BatchList_Batches m))
    (λ x0, Build_BatchList x0) _). by intros [].
Defined.

(** ** processor_pb2, network_pb2 *)

Definition TpRegisterResponse_STATUS_UNSET : Z := 0.
Definition TpRegisterResponse_OK : Z := 1.
Definition TpRegisterResponse_ERROR : Z := 2.
Definition TpRegisterResponse_Status_name : list (Z * string) :=
  [(0, "STATUS_UNSET");
   (1, "OK");
   (2, "ERROR")].

Definition TpUnregisterResponse_STATUS_UNSET : Z := 0.
Definition TpUnregisterResponse_OK : Z := 1.
Definition TpUnregisterResponse_ERROR : Z := 2.
Definition TpUnregisterResponse_Status_name : list (Z * string) :=
  [(0, "STATUS_UNSET");
   (1, "OK");
   (2, "ERROR")].

Definition TpProcessResponse_STATUS_UNSET : Z := 0.
Definition TpProcessResponse_OK : Z := 1.
Definition TpProcessResponse_INVALID_TRANSACTION : Z := 2.
Definition TpProcessResponse_INTERNAL_ERROR : Z := 3.
Definition TpProcessResponse_Status_name : list (Z * string) :=
  [(0, "STATUS_UNSET");
   (1, "OK");
   (2, "INVALID_TRANSACTION");
   (3, "INTERNAL_ERROR")].

Record TpRegisterRequest := {
  TpRegisterRequest_Family : string;
  TpRegisterRequest_Version : string;
  TpRegisterRequest_Namespaces : list string;
  TpRegisterRequest_MaxOccupancy : Z }.
#[export] Instance TpRegisterRequest_zero : Inhabited TpRegisterRequest := populate {|
  TpRegisterRequest_Family := "";
  TpRegisterRequest_Version := "";
  TpRegisterRequest_Namespaces := [];
  TpRegisterRequest_MaxOccupancy := 0 |}.
#[export] Instance TpRegisterRequest_eq_dec : EqDecision TpRegisterRequest.
Proof. solve_decision. Defined.
#[export] Instance TpRegisterRequest_countable : Countable TpRegisterRequest.
Proof.
  refine (inj_countable' (λ m, (TpRegisterRequest_Family m, TpRegisterRequest_Version m, TpRegisterRequest_Namespaces m, TpRegisterRequest_MaxOccupancy m))
    (λ '(x0, x1, x2, x3), Build_TpRegisterRequest x0 x1 x2 x3) _). by intros [].
Defined.

Record TpRegisterResponse := {
  TpRegisterResponse_Status : Z }.
#[export] Instance TpRegisterResponse_zero : Inhabited TpRegisterResponse := populate {|
  TpRegisterResponse_Status := 0 |}.
#[export] Instance TpRegisterResponse_eq_dec : EqDecision TpRegisterResponse.
Proof. solve_decision. Defined.
#[export] Instance TpRegisterResponse_countable : Countable TpRegisterResponse.
Proof.
  refine (inj_countable' (λ m, (TpRegisterResponse_Status m))
    (λ x0, Build_TpRegisterResponse x0) _). by intros [].
Defined.

Record TpUnregisterRequest := Build_TpUnregisterRequest { }.
#[export] Instance TpUnregisterRequest_zero : Inhabited TpUnregisterRequest := populate (Build_TpUnregisterRequest).
#[export] Instance TpUnregisterRequest_eq_dec : EqDecision TpUnregisterRequest.
Proof. solve_decision. Defined.
#[export] Instance TpUnregisterRequest_countable : Countable TpUnregisterRequest.
Proof. refine (inj_countable' (λ _, tt) (λ _, Build_TpUnregisterRequest) _). by intros []. Defined.

Record TpUnregisterResponse := {
  TpUnregisterResponse_Status : Z }.
#[export] Instance TpUnregisterResponse_zero : Inhabited TpUnregisterResponse := populate {|
  TpUnregisterResponse_Status := 0 |}.
#[export] Instance TpUnregisterResponse_eq_dec : EqDecision TpUnregisterResponse.
Proof. solve_decision. Defined.
#[export] Instance TpUnregisterResponse_countable : Countable TpUnregisterResponse.
Proof.
  refine (inj_countable' (λ m, (TpUnregisterResponse_Status m))
    (λ x0, Build_TpUnregisterResponse x0) _). by intros [].
Defined.

(** The payload is the one bytes field whose absence the handlers test (a nil
    slice), so it is an option. *)
Record TpProcessRequest := {
  TpProcessRequest_Header : option TransactionHeader;
  TpProcessRequest_Payload : option bytes;
  TpProcessRequest_Signature : string;
  TpProcessRequest_ContextId : string }.
#[export] Instance TpProcessRequest_zero : Inhabited TpProcessRequest := populate {|
  TpProcessRequest_Header := None;
  TpProcessRequest_Payload := None;
  TpProcessRequest_Signature := "";
  TpProcessRequest_ContextId := "" |}.
#[export] Instance TpProcessRequest_eq_dec : EqDecision TpProcessRequest.
Proof. solve_decision. Defined.
#[export] Instance TpProcessRequest_countable : Countable TpProcessRequest.
Proof.
  refine (inj_countable' (λ m, (TpProcessRequest_Header m, TpProcessRequest_Payload m, TpProcessRequest_Signature m, TpProcessRequest_ContextId m))
    (λ '(x0, x1, x2, x3), Build_TpProcessRequest x0 x1 x2 x3) _). by intros [].
Defined.

Record TpProcessResponse := {
  TpProcessResponse_Status : Z;
  TpProcessResponse_Message : string;
  TpProcessResponse_ExtendedData : bytes }.
#[export] Instance TpProcessResponse_zero : Inhabited TpProcessResponse := populate {|
  TpProcessResponse_Status := 0;
  TpProcessResponse_Message := "";
  TpProcessResponse_ExtendedData := "" |}.
#[export] Instance TpProcessResponse_eq_dec : EqDecision TpProcessResponse.
Proof. solve_decision. Defined.
#[export] Instance TpProcessResponse_countable : Countable TpProcessResponse.
Proof.
  refine (inj_countable' (λ m, (TpProcessResponse_Status m, TpProcessResponse_Message m, TpProcessResponse_ExtendedData m))
    (λ '(x0, x1, x2), Build_TpProcessResponse x0 x1 x2) _). by intros [].
Defined.

Record PingResponse := Build_PingResponse { }.
#[export] Instance PingResponse_zero : Inhabited PingResponse := populate (Build_PingResponse).
#[export] Instance PingResponse_eq_dec : EqDecision PingResponse.
Proof. solve_decision. Defined.
#[export] Instance PingResponse_countable : Countable PingResponse.
Proof. refine (inj_countable' (λ _, tt) (λ _, Build_PingResponse) _). by intros []. Defined.

(** ** events_pb2, state_context_pb2 *)

Record Event_Attribute := {
  Event_Attribute_Key : string;
  Event_Attribute_Value : string }.
#[export] Instance Event_Attribute_zero : Inhabited Event_Attribute := populate {|
  Event_Attribute_Key := "";
  Event_Attribute_Value := "" |}.
#[export] Instance Event_Attribute_eq_dec : EqDecision Event_Attribute.
Proof. solve_decision. Defined.
#[export] Instance Event_Attribute_countable : Countable Event_Attribute.
Proof.
  refine (inj_countable' (λ m, (Event_Attribute_Key m, Event_Attribute_Value m))
    (λ '(x0, x1), Build_Event_Attribute x0 x1) _). by intros [].
Defined.

Record Event := {
  Event_EventType : string;
  Event_Attributes : list Event_Attribute;
  Event_Data : bytes }.
#[export] Instance Event_zero : Inhabited Event := populate {|
  Event_EventType := "";
  Event_Attributes := [];
  Event_Data := "" |}.
#[export] Instance Event_eq_dec : EqDecision Event.
Proof. solve_decision. Defined.
#[export] Instance Event_countable : Countable Event.
Proof.
  refine (inj_countable' (λ m, (Event_EventType m, Event_Attributes m, Event_Data m))
    (λ '(x0, x1, x2), Build_Event x0 x1 x2) _). by intros [].
Defined.

Definition TpStateGetResponse_STATUS_UNSET : Z := 0.
Definition TpStateGetResponse_OK : Z := 1.
Definition TpStateGetResponse_AUTHORIZATION_ERROR : Z := 2.
Definition TpStateGetResponse_Status_name : list (Z * string) :=
  [(0, "STATUS_UNSET");
   (1, "OK");
   (2, "AUTHORIZATION_ERROR")].

Definition TpStateSetResponse_STATUS_UNSET : Z := 0.
Definition TpStateSetResponse_OK : Z := 1.
Definition TpStateSetResponse_AUTHORIZATION_ERROR : Z := 2.
Definition TpStateSetResponse_Status_name : list (Z * string) :=
  [(0, "STATUS_UNSET");
   (1, "OK");
   (2, "AUTHORIZATION_ERROR")].

Definition TpStateDeleteResponse_STATUS_UNSET : Z := 0.
Definition TpStateDeleteResponse_OK : Z := 1.
Definition TpStateDeleteResponse_AUTHORIZATION_ERROR : Z := 2.
Definition TpStateDeleteResponse_Status_name : list (Z * string) :=
  [(0, "STATUS_UNSET");
   (1, "OK");
   (2, "AUTHORIZATION_ERROR")].

Definition TpReceiptAddDataResponse_STATUS_UNSET : Z := 0.
Definition TpReceiptAddDataResponse_OK : Z := 1.
Definition TpReceiptAddDataResponse_ERROR : Z := 2.
Definition TpReceiptAddDataResponse_Status_name : list (Z * string) :=
  [(0, "STATUS_UNSET");
   (1, "OK");
   (2, "ERROR")].

Definition TpEventAddResponse_STATUS_UNSET : Z := 0.
Definition TpEventAddResponse_OK : Z := 1.
Definition TpEventAddResponse_ERROR : Z := 2.
Definition TpEventAddResponse_Status_name : list (Z * string) :=
  [(0, "STATUS_UNSET");
   (1, "OK");
   (2, "ERROR")].

Record TpStateEntry := {
  TpStateEntry_Address : string;
  TpStateEntry_Data : bytes }.
#[export] Instance TpStateEntry_zero : Inhabited TpStateEntry := populate {|
  TpStateEntry_Address := "";
  TpStateEntry_Data := "" |}.
#[export] Instance TpStateEntry_eq_dec : EqDecision TpStateEntry.
Proof. solve_decision. Defined.
#[export] Instance TpStateEntry_countable : Countable TpStateEntry.
Proof.
  refine (inj_countable' (λ m, (TpStateEntry_Address m, TpStateEntry_Data m))
    (λ '(x0, x1), Build_TpStateEntry x0 x1) _). by intros [].
Defined.

Record TpStateGetRequest := {
  TpStateGetRequest_ContextId : string;
  TpStateGetRequest_Addresses : list string }.
#[export] Instance TpStateGetRequest_zero : Inhabited TpStateGetRequest := populate {|
  TpStateGetRequest_ContextId := "";
  TpStateGetRequest_Addresses := [] |}.
#[export] Instance TpStateGetRequest_eq_dec : EqDecision TpStateGetRequest.
Proof. solve_decision. Defined.
#[export] Instance TpStateGetRequest_countable : Countable TpStateGetRequest.
Proof.
  refine (inj_countable' (λ m, (TpStateGetRequest_ContextId m, TpStateGetRequest_Addresses m))
    (λ '(x0, x1), Build_TpStateGetRequest x0 x1) _). by intros [].
Defined.

Record TpStateGetResponse := {
  TpStateGetResponse_Entries : list TpStateEntry;
  TpStateGetResponse_Status : Z }.
#[export] Instance TpStateGetResponse_zero : Inhabited TpStateGetResponse := populate {|
  TpStateGetResponse_Entries := [];
  TpStateGetResponse_Status := 0 |}.
#[export] Instance TpStateGetResponse_eq_dec : EqDecision TpStateGetResponse.
Proof. solve_decision. Defined.
#[export] Instance TpStateGetResponse_countable : Countable TpStateGetResponse.
Proof.
  refine (inj_countable' (λ m, (TpStateGetResponse_Entries m, TpStateGetResponse_Status m))
    (λ '(x0, x1), Build_TpStateGetResponse x0 x1) _). by intros [].
Defined.

Record TpStateSetRequest := {
  TpStateSetRequest_ContextId : string;
  TpStateSetRequest_Entries : list TpStateEntry }.
#[export] Instance TpStateSetRequest_zero : Inhabited TpStateSetRequest := populate {|
  TpStateSetRequest_ContextId := "";
  TpStateSetRequest_Entries := [] |}.
#[export] Instance TpStateSetRequest_eq_dec : EqDecision TpStateSetRequest.
Proof. solve_decision. Defined.
#[export] Instance TpStateSetRequest_countable : Countable TpStateSetRequest.
Proof.
  refine (inj_countable' (λ m, (TpStateSetRequest_ContextId m, TpStateSetRequest_Entries m))
    (λ '(x0, x1), Build_TpStateSetRequest x0 x1) _). by intros [].
Defined.

Record TpStateSetResponse := {
  TpStateSetResponse_Addresses : list string;
  TpStateSetResponse_Status : Z }.
#[export] Instance TpStateSetResponse_zero : Inhabited TpStateSetResponse := populate {|
  TpStateSetResponse_Addresses := [];
  TpStateSetResponse_Status := 0 |}.
#[export] Instance TpStateSetResponse_eq_dec : EqDecision TpStateSetResponse.
Proof. solve_decision. Defined.
#[export] Instance TpStateSetResponse_countable : Countable TpStateSetResponse.
Proof.
  refine (inj_countable' (λ m, (TpStateSetResponse_Addresses m, TpStateSetResponse_Status m))
    (λ '(x0, x1), Build_TpStateSetResponse x0 x1) _). by intros [].
Defined.

Record TpStateDeleteRequest := {
  TpStateDeleteRequest_ContextId : string;
  TpStateDeleteRequest_Addresses : list string }.
#[export] Instance TpStateDeleteRequest_zero : Inhabited TpStateDeleteRequest := populate {|
  TpStateDeleteRequest_ContextId := "";
  TpStateDeleteRequest_Addresses := [] |}.
#[export] Instance TpStateDeleteRequest_eq_dec : EqDecision TpStateDeleteRequest.
Proof. solve_decision. Defined.
#[export] Instance TpStateDeleteRequest_countable : Countable TpStateDeleteRequest.
Proof.
  refine (inj_countable' (λ m, (TpStateDeleteRequest_ContextId m, TpStateDeleteRequest_Addresses m))
    (λ '(x0, x1), Build_TpStateDeleteRequest x0 x1) _). by intros [].
Defined.

Record TpStateDeleteResponse := {
  TpStateDeleteResponse_Addresses : list string;
  TpStateDeleteResponse_Status : Z }.
#[export] Instance TpStateDeleteResponse_zero : Inhabited TpStateDeleteResponse := populate {|
  TpStateDeleteResponse_Addresses := [];
  TpStateDeleteResponse_Status := 0 |}.
#[export] Instance TpStateDeleteResponse_eq_dec : EqDecision TpStateDeleteResponse.
Proof. solve_decision. Defined.
#[export] Instance TpStateDeleteResponse_countable : Countable TpStateDeleteResponse.
Proof.
  refine (inj_countable' (λ m, (TpStateDeleteResponse_Addresses m, TpStateDeleteResponse_Status m))
    (λ '(x0, x1), Build_TpStateDeleteResponse x0 x1) _). by intros [].
Defined.

Record TpReceiptAddDataRequest := {
  TpReceiptAddDataRequest_ContextId : string;
  TpReceiptAddDataRequest_Data : bytes }.
#[export] Instance TpReceiptAddDataRequest_zero : Inhabited TpReceiptAddDataRequest := populate {|
  TpReceiptAddDataRequest_ContextId := "";
  TpReceiptAddDataRequest_Data := "" |}.
#[export] Instance TpReceiptAddDataRequest_eq_dec : EqDecision TpReceiptAddDataRequest.
Proof. solve_decision. Defined.
#[export] Instance TpReceiptAddDataRequest_countable : Countable TpReceiptAddDataRequest.
Proof.
  refine (inj_countable' (λ m, (TpReceiptAddDataRequest_ContextId m, TpReceiptAddDataRequest_Data m))
    (λ '(x0, x1), Build_TpReceiptAddDataRequest x0 x1) _). by intros [].
Defined.

Record TpReceiptAddDataResponse := {
  TpReceiptAddDataResponse_Status : Z }.
#[export] Instance TpReceiptAddDataResponse_zero : Inhabited TpReceiptAddDataResponse := populate {|
  TpReceiptAddDataResponse_Status := 0 |}.
#[export] Instance TpReceiptAddDataResponse_eq_dec : EqDecision TpReceiptAddDataResponse.
Proof. solve_decision. Defined.
#[export] Instance TpReceiptAddDataResponse_countable : Countable TpReceiptAddDataResponse.
Proof.
  refine (inj_countable' (λ m, (TpReceiptAddDataResponse_Status m))
    (λ x0, Build_TpReceiptAddDataResponse x0) _). by intros [].
Defined.

Record TpEventAddRequest := {
  TpEventAddRequest_ContextId : string;
  TpEventAddRequest_Event : option Event }.
#[export] Instance TpEventAddRequest_zero : Inhabited TpEventAddRequest := populate {|
  TpEventAddRequest_ContextId := "";
  TpEventAddRequest_Event := None |}.
#[export] Instance TpEventAddRequest_eq_dec : EqDecision TpEventAddRequest.
Proof. solve_decision. Defined.
#[export] Instance TpEventAddRequest_countable : Countable TpEventAddRequest.
Proof.
  refine (inj_countable' (λ m, (TpEventAddRequest_ContextId m, TpEventAddRequest_Event m))
    (λ '(x0, x1), Build_TpEventAddRequest x0 x1) _). by intros [].
Defined.

Record TpEventAddResponse := {
  TpEventAddResponse_Status : Z }.
#[export] Instance TpEventAddResponse_zero : Inhabited TpEventAddResponse := populate {|
  TpEventAddResponse_Status := 0 |}.
#[export] Instance TpEventAddResponse_eq_dec : EqDecision TpEventAddResponse.
Proof. solve_decision. Defined.
#[export] Instance TpEventAddResponse_countable : Countable TpEventAddResponse.
Proof.
  refine (inj_countable' (λ m, (TpEventAddResponse_Status m))
    (λ x0, Build_TpEventAddResponse x0) _). by intros [].
Defined.


(** ** Getters on pointers that may be nil *)

(** [msg.GetMessageType()], [GetCorrelationId()], [GetContent()] on a
    [*validator_pb2.Message]. *)
Definition Message_GetMessageType (m : option Message) : Z :=
  from_option Message_MessageType Message_DEFAULT m.
Definition Message_GetCorrelationId (m : option Message) : string :=
  from_option Message_CorrelationId "" m.
Definition Message_GetContent (m : option Message) : bytes :=
  from_option Message_Content "" m.

(** [header.GetFamilyName()] and friends on a [*TransactionHeader]. *)
Definition TransactionHeader_GetFamilyName (h : option TransactionHeader) : string :=
  from_option TransactionHeader_FamilyName "" h.
Definition TransactionHeader_GetFamilyVersion (h : option TransactionHeader) : string :=
  from_option TransactionHeader_FamilyVersion "" h.
Definition TransactionHeader_GetSignerPublicKey (h : option TransactionHeader) : string :=
  from_option TransactionHeader_SignerPublicKey "" h.

(** [%v] of a message type. *)
Definition MessageType_String (t : Z) : string := enum_String Message_MessageType_name t.
