(* ===== verification/Messaging.v ===== *)
(** * messaging: validator messages over ZMQ sockets

    Models [messaging/connection.go].  ZMQ and the UUID generator are libraries:
    a socket is any state with the operations of [ZmqSocket].  [ZmqConnection]
    carries the socket and the table of messages received out of turn; its
    methods are state-passing functions over it.  The [Connection] interface of
    the source is the class [Connection], against which the clients
    (transaction processor, consensus service) are written, with the contract
    they rely on in [ConnectionLaws]; [ZmqConnection] is its instance. *)

From S2P Require Import Prelude GoLib Errors Protobuf.

(** ** Libraries: sockets and identifiers *)

(** [SendMessage] and [RecvMessage] send and receive the frames of one ZMQ
    message; [RecvMessage] may wait forever.  [NewV4] renders a fresh UUID. *)
Class ZmqSocket (S : Type) := {
  SendMessage : list string → Go S (option error);
  RecvMessage : Go S (error + list string);
  NewV4 : Go S string;
  SocketClose : Go S unit }.
#[global] Hint Mode ZmqSocket ! : typeclass_instances.

(** ** The Connection interface *)

(** The operations through which clients send and receive; the two that hand out
    ZMQ handles, [Socket] and [Monitor], are definitions of [ZmqConnection]. *)
Class Connection (C : Type) := {
  SendData : string → bytes → Go C (option error);
  SendNewMsg : Z → bytes → Go C (string * option error);
  SendNewMsgTo : string → Z → bytes → Go C (string * option error);
  SendMsg : Z → bytes → string → Go C (option error);
  SendMsgTo : string → Z → bytes → string → Go C (option error);
  RecvData : Go C (error + string * bytes);
  RecvMsg : Go C (string * option Message * option error);
  RecvMsgWithId : string → Go C (string * option Message * option error);
  Close : Go C unit;
  Identity : C → string }.
#[global] Hint Mode Connection ! : typeclass_instances.

(** What clients rely on.  A connection has an invariant that its operations
    keep, and under it a receive by correlation id that hands over a message
    hands over one with that id, and one that hands over none reports an
    error. *)
Class ConnectionLaws (C : Type) `{Connection C} := {
  conn_ok : C → Prop;
  SendData_ok id data : preserves conn_ok (SendData id data);
  SendNewMsg_ok t c : preserves conn_ok (SendNewMsg t c);
  SendMsg_ok t c corrId : preserves conn_ok (SendMsg t c corrId);
  RecvData_ok : preserves conn_ok RecvData;
  RecvMsg_ok : preserves conn_ok RecvMsg;
  RecvMsgWithId_ok corrId : preserves conn_ok (RecvMsgWithId corrId);
  RecvMsgWithId_id corrId c id msg err c' :
    conn_ok c → RecvMsgWithId corrId c = (Ret (id, Some msg, err), c') →
    Message_CorrelationId msg = corrId;
  RecvMsgWithId_nil corrId (c : C) id err c' :
    RecvMsgWithId corrId c = (Ret (id, None, err), c') → err ≠ None }.

(** Library operations report failures as errors; they do not panic. *)
Class SocketSafe (S : Type) `{ZmqSocket S} : Prop := {
  SendMessage_safe fr : no_panic (SendMessage (S:=S) fr);
  RecvMessage_safe : no_panic (RecvMessage (S:=S));
  NewV4_safe : no_panic (NewV4 (S:=S));
  SocketClose_safe : no_panic (SocketClose (S:=S)) }.

(** A connection whose operations do not panic. *)
Class ConnectionSafe (C : Type) `{Connection C} : Prop := {
  SendData_safe id data : no_panic (SendData (C:=C) id data);
  SendNewMsg_safe t b : no_panic (SendNewMsg (C:=C) t b);
  SendMsg_safe t b corrId : no_panic (SendMsg (C:=C) t b corrId);
  RecvData_safe : no_panic (RecvData (C:=C));
  RecvMsg_safe : no_panic (RecvMsg (C:=C));
  RecvMsgWithId_safe corrId : no_panic (RecvMsgWithId (C:=C) corrId) }.
#[export] Hint Resolve SendMessage_safe RecvMessage_safe NewV4_safe SocketClose_safe
  SendData_safe SendNewMsg_safe SendMsg_safe RecvData_safe RecvMsg_safe
  RecvMsgWithId_safe : sdk.

(** A variable of interface type that holds pointers to connections: nil, a nil
    pointer, or a pointer.  One with a nil pointer is not equal to nil, and calls on it
    dereference the nil pointer. *)
Inductive Iface (C : Type) :=
| NilIface
| NilPtr
| Ptr (c : C).
Arguments NilIface {C}.
Arguments NilPtr {C}.
Arguments Ptr {C} c.

(** Assigning both results of a constructor without looking at the error. *)
Definition assigned {C} (r : error + C) : Iface C :=
  match r with inl _ => NilPtr | inr c => Ptr c end.

Definition call {C A} (m : Go C A) : Go (Iface C) A := λ i,
  match i with
  | Ptr c => let '(r, c') := m c in (r, Ptr c')
  | _ => (Panic "invalid memory address or nil pointer dereference", i)
  end.

(** ** Monitor sockets *)

(** The socket [Monitor] hands out: [RecvEvent] gives the event and the endpoint. *)
Class Monitor (M : Type) := {
  RecvEvent : Go M (error + Z * string);
  MonitorClose : Go M unit }.
#[global] Hint Mode Monitor ! : typeclass_instances.

(** [zmq.EVENT_DISCONNECTED] *)
Definition EVENT_DISCONNECTED : Z := 512%Z.

(** ** Serialization *)

Section msg.
Context `{Proto Message}.

Definition DumpMsg (t : Z) (c : bytes) (corrId : string) : error + bytes :=
  Marshal {| Message_MessageType := t; Message_CorrelationId := corrId;
             Message_Content := c |}.

(** The message returned is never nil, even when the error is not. *)
Definition LoadMsg (data : bytes) : Message * option error := Unmarshal data.

Lemma LoadMsg_DumpMsg `{!ProtoLaws Message} t c corrId b :
  DumpMsg t c corrId = inr b →
  LoadMsg b = ({| Message_MessageType := t; Message_CorrelationId := corrId;
                  Message_Content := c |}, None).
Proof. apply Unmarshal_Marshal. Qed.
End msg.

(** ** ZmqConnection *)

Record storedMsg := { storedMsg_Id : string; storedMsg_Msg : Message }.

Record ZmqConnection (S : Type) := {
  identity : string;
  uri : string;
  socket : S;
  incoming : gmap string storedMsg }.
Arguments identity {S} _.
Arguments uri {S} _.
Arguments socket {S} _.
Arguments incoming {S} _.

Section zmq.
Context {S : Type} `{ZmqSocket S, Proto Message, GoRuntime}.
Abbreviation conn := (ZmqConnection S).

Definition set_socket (s : S) (c : conn) : conn :=
  {| identity := identity c; uri := uri c; socket := s; incoming := incoming c |}.
Definition set_incoming (m : gmap string storedMsg) (c : conn) : conn :=
  {| identity := identity c; uri := uri c; socket := socket c; incoming := m |}.

(** Running a library operation on the wrapped socket. *)
Definition on_socket {A} : Go S A → Go conn A := zoom socket set_socket.

Definition GenerateId : Go S string := NewV4.

(** [NewConnection]: creating the socket and establishing it ([Bind] or
    [Connect]) are library calls; [newSocket] and [establish] stand for their
    results. *)
Definition NewConnection (newSocket : error + S) (uri : string) (bind : bool)
    (establish : bool → string → Go S (option error)) : Res (error + conn) :=
  match newSocket with
  | inl err => Ret (errorf ("Failed to create ZMQ socket: " +:+ Error err))
  | inr s =>
      match (identity ← GenerateId;
             err ← establish bind uri;
             mret (identity, err)) s with
      | (Ret (_, Some err), _) =>
          Ret (errorf ("Failed to establish connection to " +:+ uri +:+ ": "
                       +:+ Error err))
      | (Ret (identity, None), s') =>
          Ret (inr {| identity := identity; uri := uri; socket := s';
                      incoming := ∅ |})
      | (Panic e, _) => Panic e
      | (Blocked, _) => Blocked
      | (OutOfFuel, _) => OutOfFuel
      end
  end.

Definition zmq_SendData (id : string) (data : bytes) : Go conn (option error) :=
  if decide (id ≠ "") then on_socket (SendMessage [id; data])
  else on_socket (SendMessage [data]).

Definition zmq_SendMsgTo (id : string) (t : Z) (c : bytes) (corrId : string) :
    Go conn (option error) :=
  match DumpMsg t c corrId with
  | inl err => mret (Some err)
  | inr data => zmq_SendData id data
  end.

Definition zmq_SendNewMsgTo (id : string) (t : Z) (c : bytes) :
    Go conn (string * option error) :=
  corrId ← on_socket GenerateId;
  err ← zmq_SendMsgTo id t c corrId;
  mret (corrId, err).

Definition zmq_SendNewMsg (t : Z) (c : bytes) : Go conn (string * option error) :=
  zmq_SendNewMsgTo "" t c.

Definition zmq_SendMsg (t : Z) (c : bytes) (corrId : string) : Go conn (option error) :=
  zmq_SendMsgTo "" t c corrId.

(** The identity and the data in the frames of a received ZMQ message. *)
Definition split_frames (msg : list string) : error + string * bytes :=
  match msg with
  | [data] => inr ("", data)
  | [id; data] => inr (id, data)
  | _ => errorf ("Receive message with unexpected length: "
                 +:+ Itoa (Z.of_nat (length msg)))
  end.

Definition zmq_RecvData : Go conn (error + string * bytes) :=
  r ← on_socket RecvMessage;
  match r with
  | inl err => mret (inl err)
  | inr msg => mret (split_frames msg)
  end.

Definition zmq_RecvMsg : Go conn (string * option Message * option error) :=
  c ← go_get;
  match range (incoming c) with
  | (corrId, stored) :: _ =>
      _ ← go_put (set_incoming (delete corrId (incoming c)) c);
      mret (storedMsg_Id stored, Some (storedMsg_Msg stored), None)
  | [] =>
      r ← zmq_RecvData;
      match r with
      | inl err => mret ("", None, Some err)
      | inr (id, bytes) =>
          let '(msg, err) := LoadMsg bytes in mret (id, Some msg, err)
      end
  end.

(** The receive loop of [RecvMsgWithId], bounded by fuel: one unit per message
    taken off the socket. *)
Fixpoint recv_loop (fuel : nat) (corrId : string) :
    Go conn (string * option Message * option error) :=
  match fuel with
  | O => λ c, (OutOfFuel, c)
  | Datatypes.S fuel' =>
      r ← zmq_RecvData;
      match r with
      | inl err => mret ("", None, Some err)
      | inr (id, bytes) =>
          let '(msg, err) := LoadMsg bytes in
          if decide (Message_CorrelationId msg = corrId)
          then mret (id, Some msg, err)
          else
            _ ← go_modify (λ c, set_incoming
                  (<[Message_CorrelationId msg :=
                       {| storedMsg_Id := id; storedMsg_Msg := msg |}]> (incoming c)) c);
            recv_loop fuel' corrId
      end
  end.

Definition zmq_RecvMsgWithId (fuel : nat) (corrId : string) :
    Go conn (string * option Message * option error) :=
  c ← go_get;
  match incoming c !! corrId with
  | Some stored => mret (storedMsg_Id stored, Some (storedMsg_Msg stored), None)
  | None => recv_loop fuel corrId
  end.

Definition zmq_Close : Go conn unit := on_socket SocketClose.

Definition zmq_Identity (c : conn) : string := identity c.

(** The wrapped socket, for a poller to watch. *)
Definition zmq_Socket (c : conn) : S := socket c.

(** [Monitor]: [startMonitor] is the wrapped socket's own [Monitor], [newSocket]
    the result of [NewSocket] (a handle, whether or not there is an error) and
    [connect] the handle's [Connect].  The error of [NewSocket] is overwritten
    by that of [Connect]. *)
Definition monitor_endpoint (identity : string) : string :=
  "inproc://monitor." +:+ identity.

Definition zmq_Monitor {M} (startMonitor : string → Z → Go S (option error))
    (newSocket : M * option error) (connect : string → M → option error * M)
    (events : Z) : Go conn (option M * option error) :=
  self ← go_get;
  let endpoint := monitor_endpoint (identity self) in
  err ← on_socket (startMonitor endpoint events);
  match err with
  | Some err => mret (None, Some err)
  | None =>
      let '(monitor, _) := newSocket in
      let '(err, monitor) := connect endpoint monitor in
      match err with
      | Some err => mret (None, Some err)
      | None => mret (Some monitor, None)
      end
  end.

(** [*ZmqConnection] implements [Connection]; the bound is that of the receive
    loop. *)
Definition zmq_connection (fuel : nat) : Connection conn := {|
  SendData := zmq_SendData;
  SendNewMsg := zmq_SendNewMsg;
  SendNewMsgTo := zmq_SendNewMsgTo;
  SendMsg := zmq_SendMsg;
  SendMsgTo := zmq_SendMsgTo;
  RecvData := zmq_RecvData;
  RecvMsg := zmq_RecvMsg;
  RecvMsgWithId := zmq_RecvMsgWithId fuel;
  Close := zmq_Close;
  Identity := zmq_Identity |}.
End zmq.

(** ** Properties of ZmqConnection *)

Section zmq_properties.
Context {S : Type} `{ZmqSocket S, Proto Message, GoRuntime}.
Abbreviation conn := (ZmqConnection S).
Implicit Types (c : conn) (corrId : string).

(** The table of early messages is keyed by their correlation ids. *)
Definition conn_wf (c : conn) : Prop :=
  map_Forall (λ k st, Message_CorrelationId (storedMsg_Msg st) = k) (incoming c).

(** A monitor handed out listens where this connection, and none with another
    identity, publishes its events, and the connection stays well formed. *)
Lemma monitor_listens {M} start (new : M * option error) connect events c m c' :
  zmq_Monitor start new connect events c = (Ret (Some m, None), c') →
  ∃ s, start (monitor_endpoint (identity c)) events (socket c) = (Ret None, s) ∧
    connect (monitor_endpoint (identity c)) new.1 = (None, m) ∧ c' = set_socket s c.
Proof.
  unfold zmq_Monitor. destruct new as [m0 e0]. intros Hr.
  apply go_bind_inv in Hr as (c1 & c2 & Hg & Hr). go_eq.
  apply go_bind_inv in Hr as ([err|] & c3 & Hs & Hr); [by go_eq|].
  unfold on_socket, zoom in Hs. destruct (start _ _ _) as [r s] eqn:Es.
  destruct (connect _ _) as [[err|] m1] eqn:Ec; go_eq. by exists s.
Qed.

Lemma monitor_endpoint_inj i j : monitor_endpoint i = monitor_endpoint j → i = j.
Proof. by intros [=]. Qed.

Lemma on_socket_wf {A} (m : Go S A) : preserves conn_wf (on_socket m).
Proof. by apply preserves_zoom. Qed.
Hint Resolve on_socket_wf : sdk.

Lemma zmq_SendData_wf id data : preserves conn_wf (zmq_SendData id data).
Proof. unfold zmq_SendData. case_decide; auto with sdk. Qed.
Hint Resolve zmq_SendData_wf : sdk.

Lemma zmq_SendMsgTo_wf id t b corrId : preserves conn_wf (zmq_SendMsgTo id t b corrId).
Proof. unfold zmq_SendMsgTo. case_match; auto with sdk. Qed.
Hint Resolve zmq_SendMsgTo_wf : sdk.

Lemma zmq_SendNewMsgTo_wf id t b : preserves conn_wf (zmq_SendNewMsgTo id t b).
Proof. unfold zmq_SendNewMsgTo. auto 10 with sdk. Qed.

Lemma zmq_RecvData_wf : preserves conn_wf zmq_RecvData.
Proof. apply preserves_bind; [auto with sdk|]. intros []; auto with sdk. Qed.
Hint Resolve zmq_RecvData_wf : sdk.

Lemma zmq_RecvMsg_wf : preserves conn_wf zmq_RecvMsg.
Proof.
  apply preserves_get. intros c Hc. destruct (range (incoming c)) as [|[k st] l].
  - revert Hc. apply preserves_bind; [auto with sdk|].
    intros [|[]]; [auto with sdk|]. case_match. auto with sdk.
  - by apply map_Forall_delete.
Qed.

Lemma recv_loop_wf fuel corrId : preserves conn_wf (recv_loop fuel corrId).
Proof.
  induction fuel as [|fuel IH]; [by intros c|]. cbn [recv_loop].
  apply preserves_bind; [auto with sdk|]. intros [err|[id bs]]; [auto with sdk|].
  destruct (LoadMsg bs) as [msg err]. case_decide; [auto with sdk|].
  apply preserves_bind; [|done]. apply preserves_modify. intros c Hc.
  by apply map_Forall_insert_intro.
Qed.

Lemma zmq_RecvMsgWithId_wf fuel corrId : preserves conn_wf (zmq_RecvMsgWithId fuel corrId).
Proof.
  apply preserves_get. intros c Hc. case_match; [done|]. by apply recv_loop_wf.
Qed.

Lemma recv_loop_id fuel corrId c id msg err c' :
  recv_loop fuel corrId c = (Ret (id, Some msg, err), c') →
  Message_CorrelationId msg = corrId.
Proof.
  revert c. induction fuel as [|fuel IH]; intros c; [done|]. cbn [recv_loop].
  intros Hr. apply go_bind_inv in Hr as ([e|[i b]] & c1 & _ & Hr); [done|].
  destruct (LoadMsg b) as [m e]. case_decide; [by go_eq|].
  apply go_bind_inv in Hr as (? & c2 & _ & Hr). by eapply IH.
Qed.

Lemma recv_loop_nil fuel corrId c id err c' :
  recv_loop fuel corrId c = (Ret (id, None, err), c') → err ≠ None.
Proof.
  revert c. induction fuel as [|fuel IH]; intros c; [done|]. cbn [recv_loop].
  intros Hr. apply go_bind_inv in Hr as ([e|[i b]] & c1 & _ & Hr); [by go_eq|].
  destruct (LoadMsg b) as [m e]. case_decide; [by go_eq|].
  apply go_bind_inv in Hr as (? & c2 & _ & Hr). by eapply IH.
Qed.

(** [ZmqConnection] keeps the contract of the [Connection] interface. *)
Program Definition zmq_connection_laws (fuel : nat) :
    @ConnectionLaws conn (zmq_connection fuel) :=
  {| conn_ok := conn_wf |}.
Next Obligation. intros. apply zmq_SendData_wf. Qed.
Next Obligation. intros. apply zmq_SendNewMsgTo_wf. Qed.
Next Obligation. intros. apply zmq_SendMsgTo_wf. Qed.
Next Obligation. intros. apply zmq_RecvData_wf. Qed.
Next Obligation. intros. apply zmq_RecvMsg_wf. Qed.
Next Obligation. intros. apply zmq_RecvMsgWithId_wf. Qed.
Next Obligation.
  simpl. unfold zmq_RecvMsgWithId. intros fuel corrId c id msg err c' Hc Hr.
  apply go_bind_inv in Hr as (c1 & c2 & Hg & Hr). go_eq.
  case_match; [go_eq; by apply Hc|]. by eapply recv_loop_id.
Qed.
Next Obligation.
  simpl. unfold zmq_RecvMsgWithId. intros fuel corrId c id err c' Hr.
  apply go_bind_inv in Hr as (c1 & c2 & Hg & Hr). go_eq.
  case_match; [by go_eq|]. by eapply recv_loop_nil.
Qed.

(** *** Panics *)

Section safe.
Context `{!SocketSafe S}.

Lemma on_socket_safe {A} (m : Go S A) : no_panic m → no_panic (on_socket m).
Proof. apply no_panic_zoom. Qed.
Hint Resolve on_socket_safe : sdk.

Lemma zmq_SendData_safe id data : no_panic (zmq_SendData (S:=S) id data).
Proof. unfold zmq_SendData. case_decide; auto with sdk. Qed.
Hint Resolve zmq_SendData_safe : sdk.

Lemma zmq_SendMsgTo_safe id t b corrId : no_panic (zmq_SendMsgTo (S:=S) id t b corrId).
Proof. unfold zmq_SendMsgTo. case_match; auto with sdk. Qed.
Hint Resolve zmq_SendMsgTo_safe : sdk.

Lemma zmq_SendNewMsgTo_safe id t b : no_panic (zmq_SendNewMsgTo (S:=S) id t b).
Proof. unfold zmq_SendNewMsgTo, GenerateId. auto 10 with sdk. Qed.

Lemma zmq_RecvData_safe : no_panic (zmq_RecvData (S:=S)).
Proof. apply no_panic_bind; [auto with sdk|]. intros []; auto with sdk. Qed.
Hint Resolve zmq_RecvData_safe : sdk.

Lemma zmq_RecvMsg_safe : no_panic (zmq_RecvMsg (S:=S)).
Proof.
  apply no_panic_bind; [done|]. intros c. case_match; [|case_match; auto with sdk].
  apply no_panic_bind; [auto with sdk|]. intros []; repeat case_match; auto with sdk.
Qed.

Lemma recv_loop_safe fuel corrId : no_panic (recv_loop (S:=S) fuel corrId).
Proof.
  induction fuel as [|fuel IH]; [done|]. cbn [recv_loop].
  apply no_panic_bind; [auto with sdk|].
  intros [|[]]; repeat case_match; auto with sdk.
Qed.

Lemma zmq_RecvMsgWithId_safe fuel corrId : no_panic (zmq_RecvMsgWithId (S:=S) fuel corrId).
Proof.
  apply no_panic_bind; [done|]. intros c. case_match; [done|]. apply recv_loop_safe.
Qed.

Lemma zmq_connection_safe fuel : @ConnectionSafe conn (zmq_connection fuel).
Proof.
  split; simpl; intros.
  - apply zmq_SendData_safe.
  - apply zmq_SendNewMsgTo_safe.
  - apply zmq_SendMsgTo_safe.
  - apply zmq_RecvData_safe.
  - apply zmq_RecvMsg_safe.
  - apply zmq_RecvMsgWithId_safe.
Qed.
End safe.

(** *** What the socket delivers *)

(** [delivers s frs s']: the socket hands over the ZMQ messages [frs], in this
    order, and is then in state [s']. *)
Inductive delivers : S → list (list string) → S → Prop :=
| delivers_nil s : delivers s [] s
| delivers_cons s fr s1 frs s2 :
    RecvMessage s = (Ret (inr fr), s1) → delivers s1 frs s2 →
    delivers s (fr :: frs) s2.

(** The validator message carried by the frames of a ZMQ message. *)
Definition frame_msg (fr : list string) : option (string * Message * option error) :=
  match split_frames fr with
  | inl _ => None
  | inr (id, b) => let '(m, e) := LoadMsg b in Some (id, m, e)
  end.

Definition frame_corr (fr : list string) : option string :=
  (λ x, Message_CorrelationId x.1.2) <$> frame_msg fr.

(** Filing early messages in the table, the last one of an id winning. *)
Definition stash (tbl : gmap string storedMsg) (frs : list (list string)) :
    gmap string storedMsg :=
  foldl (λ tbl fr,
    match frame_msg fr with
    | Some (id, m, _) => <[Message_CorrelationId m :=
                             {| storedMsg_Id := id; storedMsg_Msg := m |}]> tbl
    | None => tbl
    end) tbl frs.

Lemma frame_msg_inv fr x :
  frame_msg fr = Some x →
  ∃ b, split_frames fr = inr (x.1.1, b) ∧ LoadMsg b = (x.1.2, x.2).
Proof.
  unfold frame_msg. destruct (split_frames fr) as [|[i b]]; [done|].
  destruct (LoadMsg b) as [m e] eqn:E. intros [= <-]. eauto.
Qed.

Lemma RecvData_frames c fr s1 :
  RecvMessage (socket c) = (Ret (inr fr), s1) →
  zmq_RecvData c = (Ret (split_frames fr), set_socket s1 c).
Proof.
  intros E. unfold zmq_RecvData.
  erewrite go_bind_Ret; [|unfold on_socket, zoom; by rewrite E]. done.
Qed.

Lemma stash_app tbl l1 l2 : stash tbl (l1 ++ l2) = stash (stash tbl l1) l2.
Proof. apply foldl_app. Qed.

(** Filing messages with other ids does not touch the entry of an id. *)
Lemma stash_other tbl frs k :
  Forall (λ fr, frame_corr fr ≠ Some k) frs → stash tbl frs !! k = tbl !! k.
Proof.
  intros Hf. revert tbl. induction Hf as [|fr frs Hk Hf IH]; intros tbl; [done|].
  change (stash tbl (fr :: frs)) with (stash (stash tbl [fr]) frs).
  rewrite IH. unfold stash, frame_corr in *. simpl.
  destruct (frame_msg fr) as [[[i m] e]|]; [|done]. simpl in *.
  rewrite lookup_insert_ne; congruence.
Qed.

Lemma stash_kept tbl l1 l2 fr id m e :
  frame_msg fr = Some (id, m, e) →
  Forall (λ fr', frame_corr fr' ≠ Some (Message_CorrelationId m)) l2 →
  stash tbl (l1 ++ fr :: l2) !! Message_CorrelationId m
    = Some {| storedMsg_Id := id; storedMsg_Msg := m |}.
Proof.
  intros Hfr Hl2. rewrite stash_app.
  change (stash ?t (fr :: l2)) with (stash (stash t [fr]) l2).
  rewrite stash_other by done. unfold stash at 1. simpl. rewrite Hfr.
  apply lookup_insert_eq.
Qed.

Lemma recv_loop_step fuel corrId c fr s1 id m e :
  RecvMessage (socket c) = (Ret (inr fr), s1) → frame_msg fr = Some (id, m, e) →
  recv_loop (Datatypes.S fuel) corrId c =
    if decide (Message_CorrelationId m = corrId)
    then (Ret (id, Some m, e), set_socket s1 c)
    else recv_loop fuel corrId (set_incoming (stash (incoming c) [fr]) (set_socket s1 c)).
Proof.
  intros Hr (b & Hs & Hl)%frame_msg_inv. cbn [recv_loop].
  erewrite go_bind_Ret; [|by apply RecvData_frames].
  assert (Hm : frame_msg fr = Some (id, m, e)) by (unfold frame_msg; by rewrite Hs, Hl).
  unfold stash. simpl. rewrite Hs, Hm. simpl in *. rewrite Hl. by case_decide.
Qed.

Lemma recv_loop_delivers fuel corrId c pre s1 fr s2 id m e :
  delivers (socket c) pre s1 →
  Forall (λ fr, ∃ k, frame_corr fr = Some k ∧ k ≠ corrId) pre →
  RecvMessage s1 = (Ret (inr fr), s2) → frame_msg fr = Some (id, m, e) →
  Message_CorrelationId m = corrId → length pre < fuel →
  recv_loop fuel corrId c =
    (Ret (id, Some m, e), set_socket s2 (set_incoming (stash (incoming c) pre) c)).
Proof.
  intros Hd. remember (socket c) as s0 eqn:Es. revert c Es fuel.
  induction Hd as [s|s fr0 s' frs s'' Hr Hd IH]; intros c -> fuel Hpre Hlast Hfr Hid Hlen.
  - destruct fuel as [|fuel]; [simpl in Hlen; lia|].
    rewrite (recv_loop_step _ _ _ _ _ _ _ _ Hlast Hfr). by rewrite decide_True.
  - destruct fuel as [|fuel]; simpl in Hlen; [lia|].
    apply Forall_cons_1 in Hpre as [(k & Hk & Hne) Hpre].
    unfold frame_corr in Hk. destruct (frame_msg fr0) as [[[i0 m0] e0]|] eqn:Em; [|done].
    injection Hk as <-.
    rewrite (recv_loop_step _ _ _ _ _ _ _ _ Hr Em). rewrite decide_False by done.
    rewrite (IH (set_incoming (stash (incoming c) [fr0]) (set_socket s' c))
               eq_refl); [done|auto; lia..].
Qed.
End zmq_properties.

(** ** A scripted socket *)

(** A concrete socket that delivers a fixed list of messages, records what is
    sent and takes identifiers from a list; with an empty script it waits
    forever. *)
Record Script := {
  script_inbox : list (error + list string);
  script_outbox : list (list string);
  script_ids : list string }.

#[export] Instance script_socket : ZmqSocket Script := {|
  SendMessage fr := λ s,
    (Ret None, {| script_inbox := script_inbox s;
                  script_outbox := script_outbox s ++ [fr];
                  script_ids := script_ids s |});
  RecvMessage := λ s,
    match script_inbox s with
    | [] => (Blocked, s)
    | r :: rs => (Ret r, {| script_inbox := rs; script_outbox := script_outbox s;
                            script_ids := script_ids s |})
    end;
  NewV4 := λ s,
    match script_ids s with
    | [] => (Blocked, s)
    | i :: rest => (Ret i, {| script_inbox := script_inbox s;
                            script_outbox := script_outbox s; script_ids := rest |})
    end;
  SocketClose := λ s, (Ret tt, s) |}.

(** ** Claims *)

Section claims.
Context {S : Type} `{ZmqSocket S, Proto Message, GoRuntime}.
Abbreviation conn := (ZmqConnection S).

(** C7. [RecvMsgWithId] takes messages off the socket until the one with the
    wanted correlation id arrives and returns exactly that one; every message
    it took before is filed in the table of early messages.  With as much fuel
    as there are messages to take, it does return. *)
Theorem RecvMsgWithId_finds fuel corrId (c : conn) pre s1 fr s2 id m e :
  incoming c !! corrId = None →
  delivers (socket c) pre s1 →
  Forall (λ fr, ∃ k, frame_corr fr = Some k ∧ k ≠ corrId) pre →
  RecvMessage s1 = (Ret (inr fr), s2) → frame_msg fr = Some (id, m, e) →
  Message_CorrelationId m = corrId → length pre < fuel →
  zmq_RecvMsgWithId fuel corrId c =
    (Ret (id, Some m, e), set_socket s2 (set_incoming (stash (incoming c) pre) c)).
Proof.
  intros Hno Hd Hpre Hr Hfr Hid Hlen. unfold zmq_RecvMsgWithId.
  erewrite go_bind_Ret by done. rewrite Hno. by eapply recv_loop_delivers.
Qed.

(** No early message is lost: a message that arrived while another one was
    awaited (and was not superseded by a later one with the same id) is
    returned by the next receive for its id, without touching the socket. *)
Theorem early_message_kept fuel fuel' corrId (c : conn) l1 l2 fr0 s1 fr s2 id m e id0 m0 e0 :
  incoming c !! corrId = None →
  delivers (socket c) (l1 ++ fr0 :: l2) s1 →
  Forall (λ fr, ∃ k, frame_corr fr = Some k ∧ k ≠ corrId) (l1 ++ fr0 :: l2) →
  frame_msg fr0 = Some (id0, m0, e0) →
  Forall (λ fr', frame_corr fr' ≠ Some (Message_CorrelationId m0)) l2 →
  RecvMessage s1 = (Ret (inr fr), s2) → frame_msg fr = Some (id, m, e) →
  Message_CorrelationId m = corrId → length (l1 ++ fr0 :: l2) < fuel →
  ∃ c', zmq_RecvMsgWithId fuel corrId c = (Ret (id, Some m, e), c') ∧
    zmq_RecvMsgWithId fuel' (Message_CorrelationId m0) c'
      = (Ret (id0, Some m0, None), c').
Proof.
  intros Hno Hd Hpre Hfr0 Hl2 Hr Hfr Hid Hlen. eexists. split.
  { unfold zmq_RecvMsgWithId. erewrite go_bind_Ret by done. rewrite Hno.
    by eapply recv_loop_delivers. }
  unfold zmq_RecvMsgWithId. erewrite go_bind_Ret by done. simpl.
  by rewrite (stash_kept _ _ _ _ _ _ _ Hfr0 Hl2).
Qed.

(** A message found in the table stays there: [RecvMsgWithId] returns it
    again on every further call, and it is still waiting for [RecvMsg]. *)
Theorem stored_message_not_consumed fuel corrId (c : conn) st :
  incoming c !! corrId = Some st →
  zmq_RecvMsgWithId fuel corrId c
    = (Ret (storedMsg_Id st, Some (storedMsg_Msg st), None), c) ∧
  ∃ k st' c', zmq_RecvMsg c = (Ret (storedMsg_Id st', Some (storedMsg_Msg st'), None), c')
    ∧ incoming c !! k = Some st' ∧ incoming c' = delete k (incoming c)
    ∧ socket c' = socket c.
Proof.
  intros Hst. split.
  { unfold zmq_RecvMsgWithId. erewrite go_bind_Ret by done. by rewrite Hst. }
  unfold zmq_RecvMsg. erewrite go_bind_Ret by done.
  destruct (range (incoming c)) as [|[k st'] l] eqn:E.
  { apply range_nil_inv in E. rewrite E in Hst. by rewrite lookup_empty in Hst. }
  exists k, st'. eexists. split; [done|]. split; [|done].
  apply elem_of_range. rewrite E. set_solver.
Qed.

(** What [SendMsgTo] puts on the wire is what the receiving side reads: the
    frames it sends carry the destination (when there is one) and parse back
    to the message type, content and correlation id that were sent. *)
Theorem SendMsgTo_wire `{!ProtoLaws Message} id t b corrId data (c : conn) :
  DumpMsg t b corrId = inr data →
  ∃ fr, zmq_SendMsgTo id t b corrId c = on_socket (SendMessage fr) c ∧
    frame_msg fr = Some (id, {| Message_MessageType := t;
      Message_CorrelationId := corrId; Message_Content := b |}, None).
Proof.
  intros Hd. unfold zmq_SendMsgTo, zmq_SendData, frame_msg. rewrite Hd.
  case_decide as Hid.
  - exists [id; data]. split; [done|]. simpl. by rewrite (LoadMsg_DumpMsg _ _ _ _ Hd).
  - subst id. exists [data]. split; [done|]. simpl.
    by rewrite (LoadMsg_DumpMsg _ _ _ _ Hd).
Qed.
End claims.

(** ** Witnesses *)

Module witness.
#[local] Existing Instance ordered_runtime.
#[local] Instance msg_proto : Proto Message := countable_proto Message.

Definition mk (corr content : string) : Message :=
  {| Message_MessageType := 8; Message_CorrelationId := corr; Message_Content := content |}.
Definition wire (m : Message) : list string := [pos_bits (encode m)].
Definition m1 := mk "a" "early".
Definition m2 := mk "b" "reply".
Definition c0 : ZmqConnection Script := {|
  identity := "me"; uri := "tcp://v";
  socket := {| script_inbox := [inr (wire m1); inr (wire m2)];
               script_outbox := []; script_ids := [] |};
  incoming := ∅ |}.
Definition s_mid : Script :=
  {| script_inbox := [inr (wire m2)]; script_outbox := []; script_ids := [] |}.
Definition s_end : Script := {| script_inbox := []; script_outbox := []; script_ids := [] |}.

Lemma RecvMsgWithId_finds_witness :
  zmq_RecvMsgWithId 2 "b" c0
    = (Ret ("", Some m2, None), set_socket s_end (set_incoming (stash ∅ [wire m1]) c0)).
Proof.
  apply (RecvMsgWithId_finds 2 "b" c0 [wire m1] s_mid (wire m2) s_end "" m2 None);
    [done| |repeat constructor; by exists "a"|done|by vm_compute|done|simpl; lia].
  eapply delivers_cons; [done|]. constructor.
Defined.

Lemma early_message_kept_witness :
  ∃ c', zmq_RecvMsgWithId 2 "b" c0 = (Ret ("", Some m2, None), c') ∧
    zmq_RecvMsgWithId 0 "a" c' = (Ret ("", Some m1, None), c').
Proof.
  apply (early_message_kept 2 0 "b" c0 [] [] (wire m1) s_mid (wire m2) s_end
           "" m2 None "" m1 None);
    [done| |repeat constructor; by exists "a"|by vm_compute|constructor|done
    |by vm_compute|done|simpl; lia].
  eapply delivers_cons; [done|]. constructor.
Defined.

Definition st1 : storedMsg := {| storedMsg_Id := ""; storedMsg_Msg := m1 |}.
Definition c1 : ZmqConnection Script := set_incoming {["a" := st1]} c0.

Lemma stored_message_not_consumed_witness :
  zmq_RecvMsgWithId 0 "a" c1 = (Ret ("", Some m1, None), c1).
Proof. apply (stored_message_not_consumed 0 "a" c1 st1). reflexivity. Defined.

Lemma SendMsgTo_wire_witness :
  ∃ fr, zmq_SendMsgTo "w" 8 "reply" "b" c0 = on_socket (SendMessage fr) c0 ∧
    frame_msg fr = Some ("w", m2, None).
Proof.
  apply (@SendMsgTo_wire Script _ msg_proto (countable_proto_laws Message)
           "w" 8 "reply" "b" (pos_bits (encode m2)) c0).
  reflexivity.
Defined.
End witness.
