(* ===== verification/Answering.v ===== *)
(** * A validator at the other end of a socket

    The reference environment of the components that send a request and wait for its
    reply: a socket behind which a validator, given as a function from its state and a
    request to a reply and the state after it, answers each request at once.  What is
    proved is that a request sent and received for through a [ZmqConnection] is one
    application of that function. *)

From S2P Require Import Prelude GoLib Errors Protobuf Messaging.

Local Open Scope Z_scope.

(** The validator's state, the replies under way and the number of identifiers given
    out. *)
Record Peer (V : Type) := {
  peer_state : V;
  peer_inbox : list (list string);
  peer_ids : nat }.
Arguments peer_state {V} _.
Arguments peer_inbox {V} _.
Arguments peer_ids {V} _.

Section peer.
Context {V : Type} `{Proto Message, GoRuntime}.
(** The reply to a request message: its type, its content and the state after it;
    [None] when the request is not understood. *)
Context (serve : V → Message → option (Z * bytes * V)).

Definition peer_send (fr : list string) : Go (Peer V) (option error) := λ s,
  match frame_msg fr with
  | Some (_, m, None) =>
      match serve (peer_state s) m with
      | Some (t, b, v) =>
          match DumpMsg t b (Message_CorrelationId m) with
          | inr d => (Ret None, {| peer_state := v; peer_inbox := peer_inbox s ++ [[d]];
                                   peer_ids := peer_ids s |})
          | inl e => (Ret (Some e), s)
          end
      | None => (Ret None, s)
      end
  | _ => (Ret None, s)
  end.

Definition peer_recv : Go (Peer V) (error + list string) := λ s,
  match peer_inbox s with
  | [] => (Blocked, s)
  | fr :: rest => (Ret (inr fr), {| peer_state := peer_state s; peer_inbox := rest;
                                    peer_ids := peer_ids s |})
  end.

Definition peer_uuid : Go (Peer V) string := λ s,
  (Ret (pretty (peer_ids s)),
   {| peer_state := peer_state s; peer_inbox := peer_inbox s; peer_ids := S (peer_ids s) |}).

Definition peer_socket : ZmqSocket (Peer V) := {|
  SendMessage := peer_send; RecvMessage := peer_recv; NewV4 := peer_uuid;
  SocketClose := mret tt |}.

(** Nothing is under way. *)
Definition peer_ok (c : ZmqConnection (Peer V)) : Prop :=
  incoming c = ∅ ∧ peer_inbox (socket c) = [].
Definition peer_val (c : ZmqConnection (Peer V)) : V := peer_state (socket c).

#[local] Instance peer_sock : ZmqSocket (Peer V) := peer_socket.
Context `{!ProtoLaws Message, !ProtoTotal Message}.

(** A request and its reply. *)
Lemma peer_exchange fuel t b respType resp v c :
  peer_ok c →
  (∀ corr, serve (peer_val c) {| Message_MessageType := t; Message_CorrelationId := corr;
                                 Message_Content := b |} = Some (respType, resp, v)) →
  ∃ corr c1 c2,
    zmq_SendNewMsg t b c = (Ret (corr, None), c1) ∧
    zmq_RecvMsgWithId (S fuel) corr c1 =
      (Ret ("", Some {| Message_MessageType := respType; Message_CorrelationId := corr;
                        Message_Content := resp |}, None), c2) ∧
    peer_ok c2 ∧ peer_val c2 = v.
Proof.
  intros [Hinc Hbox] Hreply. destruct c as [ident u [st box n] inc]. simpl in *. subst.
  change (peer_val _) with st in Hreply. set (corr := pretty n).
  destruct (Marshal_total {| Message_MessageType := t; Message_CorrelationId := corr;
    Message_Content := b |}) as [d Hd].
  destruct (Marshal_total {| Message_MessageType := respType; Message_CorrelationId := corr;
    Message_Content := resp |}) as [d' Hd'].
  exists corr, {| identity := ident; uri := u; incoming := ∅;
       socket := {| peer_state := v; peer_inbox := [[d']]; peer_ids := S n |} |},
    {| identity := ident; uri := u; incoming := ∅;
       socket := {| peer_state := v; peer_inbox := []; peer_ids := S n |} |}.
  split; [|split; [|done]].
  - cbn -[pretty]. unfold zmq_SendNewMsg, zmq_SendNewMsgTo, zmq_SendMsgTo, zmq_SendData.
    unfold mbind, Go_bind, on_socket, zoom, GenerateId. cbn -[pretty].
    fold corr. unfold DumpMsg. rewrite Hd, decide_False by tauto. cbn -[pretty].
    unfold peer_send, frame_msg. cbn -[pretty].
    unfold LoadMsg. rewrite (Unmarshal_Marshal _ _ Hd). cbn -[pretty].
    rewrite Hreply. unfold DumpMsg. simpl. by rewrite Hd'.
  - simpl. unfold zmq_RecvMsgWithId. erewrite go_bind_Ret by done.
    cbn -[recv_loop]. rewrite lookup_empty.
    erewrite recv_loop_step; [|done|].
    2: { unfold frame_msg. simpl. unfold LoadMsg. by rewrite (Unmarshal_Marshal _ _ Hd'). }
    by rewrite decide_True.
Qed.
End peer.
