(* ===== verification/ProcContext.v ===== *)
(** * processor.Context: validator state as seen by a transaction handler

    Models [processor/context.go].  A [Context] is a context id and a connection;
    the connection is the state the operations run over, any implementation of
    the [Connection] interface.  All five operations send a request and wait for
    the response with the same correlation id; [exchange] is that common
    sequence, which the source writes out in each of them with its own texts. *)

From S2P Require Import Prelude GoLib Errors Protobuf Messaging.

(** The protobuf runtime at the message types the context uses. *)
Class ContextProtos := {
  get_req :: Proto TpStateGetRequest; get_resp :: Proto TpStateGetResponse;
  set_req :: Proto TpStateSetRequest; set_resp :: Proto TpStateSetResponse;
  del_req :: Proto TpStateDeleteRequest; del_resp :: Proto TpStateDeleteResponse;
  receipt_req :: Proto TpReceiptAddDataRequest;
  receipt_resp :: Proto TpReceiptAddDataResponse;
  event_req :: Proto TpEventAddRequest; event_resp :: Proto TpEventAddResponse }.

Record Context := { contextId : string }.

Record Attribute := { Attribute_Key : string; Attribute_Value : string }.

Definition NewContext (contextId : string) : Context := {| contextId := contextId |}.

Section context.
Context {C : Type} `{Connection C, ContextProtos, GoRuntime}.

(** The texts an operation puts in its errors. *)
Record texts := {
  marshal_text : string; send_text : string; expect_text : string }.

(** Marshal a request, send it under a fresh correlation id, wait for the
    response and check its correlation id and type.  A failed receive shows as a
    wrong correlation id: the error it returned is not looked at. *)
Definition exchange {R} `{Proto R} (tx : texts) (reqType respType : Z) (request : R) :
    Go C (error + option Message) :=
  match Marshal request with
  | inl err => mret (errorf (marshal_text tx +:+ Error err))
  | inr bytes =>
      r ← SendNewMsg reqType bytes;
      let '(corrId, err) := r in
      match err with
      | Some err => mret (errorf (send_text tx +:+ Error err))
      | None =>
          r ← RecvMsgWithId corrId;
          let '(_, msg, _) := r in
          if decide (Message_GetCorrelationId msg ≠ corrId) then
            mret (errorf ("Expected message with correlation id " +:+ corrId
                          +:+ " but got " +:+ Message_GetCorrelationId msg))
          else if decide (Message_GetMessageType msg ≠ respType) then
            mret (errorf (expect_text tx
                          +:+ MessageType_String (Message_GetMessageType msg)))
          else mret (inr msg)
      end
  end.

(** The direct field access [msg.Content], which panics on a nil message. *)
Definition msg_Content (msg : option Message) : Go C bytes :=
  match msg with
  | Some m => mret (Message_Content m)
  | None => go_panic "invalid memory address or nil pointer dereference"
  end.

(** The map built from the entries of a get response: entries with empty data
    are left out, later entries replace earlier ones. *)
Definition entries_map (entries : list TpStateEntry) : gmap string bytes :=
  foldl (λ results entry,
    if decide (len (TpStateEntry_Data entry) ≠ 0%nat)
    then <[TpStateEntry_Address entry := TpStateEntry_Data entry]> results
    else results) ∅ entries.

Definition GetState (self : Context) (addresses : list string) :
    Go C (error + gmap string bytes) :=
  let request := {| TpStateGetRequest_ContextId := contextId self;
                    TpStateGetRequest_Addresses := addresses |} in
  r ← exchange {| marshal_text := "Failed to marshal TpStateGetRequest: ";
                  send_text := "Failed to send TpStateGetRequest: ";
                  expect_text := "Expected TpStateGetResponse but got " |}
        Message_TP_STATE_GET_REQUEST Message_TP_STATE_GET_RESPONSE request;
  match r with
  | inl err => mret (inl err)
  | inr msg =>
      let '(response, err) := Unmarshal (Message_GetContent msg) in
      match err with
      | Some err => mret (errorf ("Failed to unmarshal TpStateGetResponse: " +:+ Error err))
      | None =>
          if decide (TpStateGetResponse_Status response
                     = TpStateGetResponse_AUTHORIZATION_ERROR)
          then mret (inl (authorizationException
                 ("Tried to get unauthorized address: " +:+ fmt_strings addresses)))
          else mret (inr (entries_map (TpStateGetResponse_Entries response)))
      end
  end.

Definition SetState (self : Context) (pairs : gmap string bytes) :
    Go C (error + list string) :=
  let entries := (λ p, {| TpStateEntry_Address := p.1; TpStateEntry_Data := p.2 |})
                   <$> range pairs in
  let request := {| TpStateSetRequest_ContextId := contextId self;
                    TpStateSetRequest_Entries := entries |} in
  r ← exchange {| marshal_text := "Failed to marshal: ";
                  send_text := "Failed to send set: ";
                  expect_text := "Expected TP_STATE_SET_RESPONSE but got " |}
        Message_TP_STATE_SET_REQUEST Message_TP_STATE_SET_RESPONSE request;
  match r with
  | inl err => mret (inl err)
  | inr msg =>
      content ← msg_Content msg;
      let '(response, err) := Unmarshal content in
      match err with
      | Some err => mret (errorf ("Failed to unmarshal TpStateSetResponse: " +:+ Error err))
      | None =>
          if decide (TpStateSetResponse_Status response
                     = TpStateSetResponse_AUTHORIZATION_ERROR)
          then mret (inl (authorizationException
                 ("Tried to set unauthorized address: " +:+ fmt_strings (range pairs).*1)))
          else mret (inr (TpStateSetResponse_Addresses response))
      end
  end.

Definition DeleteState (self : Context) (addresses : list string) :
    Go C (error + list string) :=
  let request := {| TpStateDeleteRequest_ContextId := contextId self;
                    TpStateDeleteRequest_Addresses := addresses |} in
  r ← exchange {| marshal_text := "Failed to marshal TpStateDeleteRequest: ";
                  send_text := "Failed to send TpStateDeleteRequest: ";
                  expect_text := "Expected TpStateDeleteResponse but got " |}
        Message_TP_STATE_DELETE_REQUEST Message_TP_STATE_DELETE_RESPONSE request;
  match r with
  | inl err => mret (inl err)
  | inr msg =>
      let '(response, err) := Unmarshal (Message_GetContent msg) in
      match err with
      | Some err =>
          mret (errorf ("Failed to unmarshal TpStatedDeleteResponse: " +:+ Error err))
      | None =>
          if decide (TpStateDeleteResponse_Status response
                     = TpStateDeleteResponse_AUTHORIZATION_ERROR)
          then mret (inl (authorizationException
                 ("Tried to get unauthorized address: " +:+ fmt_strings addresses)))
          else mret (inr (TpStateDeleteResponse_Addresses response))
      end
  end.

Definition AddReceiptData (self : Context) (data : bytes) : Go C (option error) :=
  let request := {| TpReceiptAddDataRequest_ContextId := contextId self;
                    TpReceiptAddDataRequest_Data := data |} in
  r ← exchange {| marshal_text := "Failed to marshal: ";
                  send_text := "Failed to add receipt data: ";
                  expect_text := "Expected TP_RECEIPT_ADD_DATA_RESPONSE but got " |}
        Message_TP_RECEIPT_ADD_DATA_REQUEST Message_TP_RECEIPT_ADD_DATA_RESPONSE request;
  match r with
  | inl err => mret (Some err)
  | inr msg =>
      content ← msg_Content msg;
      let '(response, err) := Unmarshal content in
      match err with
      | Some err =>
          mret (Some (errString ("Failed to unmarshal TpReceiptAddDataResponse: "
                                 +:+ Error err)))
      | None =>
          if decide (TpReceiptAddDataResponse_Status response
                     = TpReceiptAddDataResponse_ERROR)
          then mret (Some (errString "Failed to add receipt data"))
          else mret None
      end
  end.

Definition AddEvent (self : Context) (event_type : string)
    (attributes : list Attribute) (event_data : bytes) : Go C (option error) :=
  let event_attributes :=
    (λ a, {| Event_Attribute_Key := Attribute_Key a;
             Event_Attribute_Value := Attribute_Value a |}) <$> attributes in
  let event := {| Event_EventType := event_type; Event_Attributes := event_attributes;
                  Event_Data := event_data |} in
  let request := {| TpEventAddRequest_ContextId := contextId self;
                    TpEventAddRequest_Event := Some event |} in
  r ← exchange {| marshal_text := "Failed to marshal: ";
                  send_text := "Failed to add event: ";
                  expect_text := "Expected TP_EVENT_ADD_RESPONSE but got " |}
        Message_TP_EVENT_ADD_REQUEST Message_TP_EVENT_ADD_RESPONSE request;
  match r with
  | inl err => mret (Some err)
  | inr msg =>
      content ← msg_Content msg;
      let '(response, err) := Unmarshal content in
      match err with
      | Some err =>
          mret (Some (errString ("Failed to unmarshal TpEventAddResponse: " +:+ Error err)))
      | None =>
          if decide (TpEventAddResponse_Status response = TpEventAddResponse_ERROR)
          then mret (Some (errString "Failed to add event"))
          else mret None
      end
  end.
End context.
