(* ===== verification/Worker.v ===== *)
(** * The worker threads of the transaction processor

    Models [processor/handler.go] and [processor/worker.go]: the handler
    interface, the search for a handler, and the loop of a worker thread, which
    runs the handler of each request and answers the validator.  The queue is
    the sequence of messages the thread takes off the channel before it is
    closed; log output is not modelled. *)

From S2P Require Import Prelude GoLib Errors Protobuf Messaging ProcContext.

(** The [TransactionHandler] interface, over a connection type. *)
Record TransactionHandler (C : Type) := {
  FamilyName : string;
  FamilyVersions : list string;
  Namespaces : list string;
  Apply : TpProcessRequest → Context → Go C (option error) }.
Arguments FamilyName {C} _.
Arguments FamilyVersions {C} _.
Arguments Namespaces {C} _.
Arguments Apply {C} _ _ _.

Section worker.
Context {C : Type} `{Connection C, Proto TpProcessRequest, Proto TpProcessResponse}.
Abbreviation handler := (TransactionHandler C).

(** The inner loop of [findHandler]: is the header's version listed? *)
Fixpoint has_version (HeaderVersion : string) (versions : list string) : bool :=
  match versions with
  | [] => false
  | version :: rest =>
      if decide (version = HeaderVersion) then true else has_version HeaderVersion rest
  end.

Fixpoint findHandler (handlers : list handler) (header : option TransactionHeader) :
    error + handler :=
  match handlers with
  | [] => errorf ("Unknown handler: (" +:+ TransactionHeader_GetFamilyName header +:+ ", "
                  +:+ TransactionHeader_GetFamilyVersion header +:+ ")")
  | h :: rest =>
      if decide (TransactionHeader_GetFamilyName header ≠ FamilyName h)
      then findHandler rest header
      else if negb (has_version (TransactionHeader_GetFamilyVersion header)
                      (FamilyVersions h))
      then findHandler rest header
      else inr h
  end.

(** The response for the outcome of [Apply]: the type switch on its error. *)
Definition process_response (err : option error) : TpProcessResponse :=
  match err with
  | Some (errInvalidTransaction e) =>
      {| TpProcessResponse_Status := TpProcessResponse_INVALID_TRANSACTION;
         TpProcessResponse_Message := InvalidTransactionError_Msg e;
         TpProcessResponse_ExtendedData := InvalidTransactionError_ExtendedData e |}
  | Some (errInternal e) =>
      {| TpProcessResponse_Status := TpProcessResponse_INTERNAL_ERROR;
         TpProcessResponse_Message := InternalError_Msg e;
         TpProcessResponse_ExtendedData := InternalError_ExtendedData e |}
  | Some (errAuthorization e) =>
      {| TpProcessResponse_Status := TpProcessResponse_INVALID_TRANSACTION;
         TpProcessResponse_Message := AuthorizationException_Msg e;
         TpProcessResponse_ExtendedData := AuthorizationException_ExtendedData e |}
  | Some e =>
      {| TpProcessResponse_Status := TpProcessResponse_INTERNAL_ERROR;
         TpProcessResponse_Message := Error e;
         TpProcessResponse_ExtendedData := "" |}
  | None =>
      {| TpProcessResponse_Status := TpProcessResponse_OK;
         TpProcessResponse_Message := ""; TpProcessResponse_ExtendedData := "" |}
  end.

(** One turn of the loop; [false] is a [break]. *)
Definition worker_turn (handlers : list handler) (msg : Message) : Go C bool :=
  let '(request, err) := Unmarshal (Message_Content msg) in
  match err with
  | Some _ => mret false
  | None =>
      let header := TpProcessRequest_Header request in
      match findHandler handlers header with
      | inl _ => mret false
      | inr h =>
          let context := NewContext (TpProcessRequest_ContextId request) in
          err ← Apply h request context;
          match Marshal (process_response err) with
          | inl _ => mret false
          | inr responseData =>
              err ← SendMsg Message_TP_PROCESS_RESPONSE responseData
                      (Message_CorrelationId msg);
              match err with
              | Some _ => mret false
              | None => mret true
              end
          end
      end
  end.

(** [for msg := range queue] *)
Fixpoint worker_loop (handlers : list handler) (queue : list Message) : Go C unit :=
  match queue with
  | [] => mret tt
  | msg :: rest =>
      continue ← worker_turn handlers msg;
      if (continue : bool) then worker_loop handlers rest else mret tt
  end.

(** A worker thread: what it reports on the [done] channel, and the connection it
    leaves.  [connection] is the outcome of connecting to the main thread; the
    deferred [Close] runs after the report. *)
Definition worker (connection : error + C) (handlers : list handler)
    (queue : list Message) : Res bool * option C :=
  match connection with
  | inl _ => (Ret false, None)
  | inr c =>
      let '(r, c') := (_ ← worker_loop handlers queue; _ ← Close; mret true) c in
      (r, Some c')
  end.

(** ** Properties *)

Implicit Types (h : handler) (hs : list handler).

Lemma has_version_spec v l : has_version v l = true ↔ v ∈ l.
Proof.
  induction l as [|x l IH]; simpl; [set_solver|]. case_decide; subst; [set_solver|].
  rewrite IH. set_solver.
Qed.

(** A handler serves a header when it has the family and lists the version. *)
Definition serves (header : option TransactionHeader) h : Prop :=
  TransactionHeader_GetFamilyName header = FamilyName h ∧
  TransactionHeader_GetFamilyVersion header ∈ FamilyVersions h.

Lemma findHandler_cons h hs header :
  (serves header h ∧ findHandler (h :: hs) header = inr h) ∨
  (¬ serves header h ∧ findHandler (h :: hs) header = findHandler hs header).
Proof.
  unfold serves. simpl. case_decide as Hn; [tauto|].
  destruct (has_version _ _) eqn:E; simpl.
  - apply has_version_spec in E. left. done.
  - right. split; [|done]. rewrite <-has_version_spec, E. naive_solver.
Qed.

(** *** What a thread sends *)

(** A log of the process responses sent over a connection: [SendMsg] of a
    response adds to it, the handlers (which only talk to the validator through
    their context) do not. *)
Class ResponseLog hs := {
  sent : C → list (bytes * string);
  sent_SendMsg b corrId c c' :
    SendMsg Message_TP_PROCESS_RESPONSE b corrId c = (Ret None, c') →
    sent c' = sent c ++ [(b, corrId)];
  sent_Apply h req ctx c err c' :
    h ∈ hs → Apply h req ctx c = (Ret err, c') → sent c' = sent c }.

(** [answers hs msg resp]: [resp] is the answer to [msg] made from what the
    handler serving its request returned. *)
Definition answers hs (msg : Message) (resp : bytes * string) : Prop :=
  ∃ request h c1 err c2,
    Unmarshal (Message_Content msg) = (request, None) ∧
    findHandler hs (TpProcessRequest_Header request) = inr h ∧
    Apply h request (NewContext (TpProcessRequest_ContextId request)) c1 = (Ret err, c2) ∧
    Marshal (process_response err) = inr resp.1 ∧
    resp.2 = Message_CorrelationId msg.

Lemma findHandler_elem hs header h : findHandler hs header = inr h → h ∈ hs.
Proof.
  induction hs as [|h' hs IH]; [done|].
  destruct (findHandler_cons h' hs header) as [[_ ->]|[_ ->]].
  - intros [= ->]. set_solver.
  - intros ?%IH. set_solver.
Qed.

(** A turn that goes on has answered its message. *)
Lemma worker_turn_answers hs `{!ResponseLog hs} msg c c' :
  worker_turn hs msg c = (Ret true, c') →
  ∃ resp, sent c' = sent c ++ [resp] ∧ answers hs msg resp.
Proof.
  unfold worker_turn. destruct (Unmarshal _) as [request [e|]] eqn:Eu; [by intros [=]|].
  destruct (findHandler hs _) as [e|h] eqn:Eh; [by intros [=]|].
  intros Ht. apply go_bind_inv in Ht as (err & c1 & Ha & Ht).
  destruct (Marshal _) as [e|b] eqn:Em; [by go_eq|].
  apply go_bind_inv in Ht as (err' & c2 & Hs & Ht). destruct err'; go_eq.
  exists (b, Message_CorrelationId msg). split.
  - rewrite (sent_SendMsg _ _ _ _ Hs).
    by rewrite (sent_Apply _ _ _ _ _ _ (findHandler_elem _ _ _ Eh) Ha).
  - by exists request, h, c, err, c1.
Qed.
End worker.

(** ** Claims *)

Section claims.
Context {C : Type} `{Connection C, Proto TpProcessRequest, Proto TpProcessResponse}.

(** [findHandler] returns the first registered handler of the transaction's
    family that lists the transaction's version, and fails exactly when there is
    none. *)
Theorem findHandler_first (hs : list (TransactionHandler C)) header :
  match findHandler hs header with
  | inr h => ∃ l1 l2, hs = l1 ++ h :: l2 ∧ serves header h ∧
               Forall (λ h', ¬ serves header h') l1
  | inl e => Forall (λ h', ¬ serves header h') hs ∧
             e = errString ("Unknown handler: (" +:+ TransactionHeader_GetFamilyName header
                   +:+ ", " +:+ TransactionHeader_GetFamilyVersion header +:+ ")")
  end.
Proof.
  induction hs as [|h hs IH]; [by split|].
  destruct (findHandler_cons h hs header) as [[Hs ->]|[Hs ->]].
  - exists [], hs. auto.
  - destruct (findHandler hs header) as [e|h'].
    + destruct IH. auto.
    + destruct IH as (l1 & l2 & -> & ? & ?). exists (h :: l1), l2. auto.
Qed.


(** A request that does not parse, or that no handler serves, ends the
    thread: the requests after it are not taken, nothing is sent for any of
    them, and the thread still reports a normal end. *)
Theorem bad_request_ends_worker (hs : list (TransactionHandler C)) msg rest (c c1 : C) :
  (Unmarshal (M := TpProcessRequest) (Message_Content msg)).2 ≠ None ∨
  (∃ e, findHandler hs
     (TpProcessRequest_Header (Unmarshal (Message_Content msg)).1) = inl e) →
  Close c = (Ret tt, c1) →
  worker_loop hs (msg :: rest) c = (Ret tt, c) ∧
  worker (inr c) hs (msg :: rest) = (Ret true, Some c1).
Proof.
  intros Hbad Hclose.
  assert (Hl : worker_loop hs (msg :: rest) c = (Ret tt, c)).
  { cbn [worker_loop]. erewrite go_bind_Ret; [|unfold worker_turn].
    2: { destruct (Unmarshal (Message_Content msg)) as [r [e|]]; [done|].
         destruct Hbad as [Hbad|[e He]]; [done|]. simpl in He. by rewrite He. }
    done. }
  split; [done|]. unfold worker. rewrite (go_bind_Ret _ _ _ _ _ Hl).
  by rewrite (go_bind_Ret _ _ _ _ _ Hclose).
Qed.

(** The response classifies the handler's error: OK exactly for no error,
    INVALID_TRANSACTION exactly for invalid transactions and refused addresses,
    INTERNAL_ERROR for everything else. *)
Theorem process_response_class err :
  let r := process_response err in
  (TpProcessResponse_Status r = TpProcessResponse_OK ↔ err = None) ∧
  (TpProcessResponse_Status r = TpProcessResponse_INVALID_TRANSACTION ↔
     (∃ e, err = Some (errInvalidTransaction e)) ∨
     (∃ e, err = Some (errAuthorization e))) ∧
  (TpProcessResponse_Status r = TpProcessResponse_INTERNAL_ERROR ↔
     ∃ e, err = Some e ∧ (∀ x, e ≠ errInvalidTransaction x) ∧ (∀ x, e ≠ errAuthorization x)).
Proof.
  destruct err as [[]|]; simpl; repeat split; try done; naive_solver.
Qed.
End claims.

(** ** Witnesses *)

Module witness.
#[local] Existing Instance ordered_runtime.
#[local] Instance wmsg : Proto Message := countable_proto Message.
#[local] Instance wreq : Proto TpProcessRequest := countable_proto TpProcessRequest.
#[local] Instance wresp : Proto TpProcessResponse := countable_proto TpProcessResponse.
#[local] Instance wconn : Connection (ZmqConnection Script) := zmq_connection 5.

(** The process responses among the messages sent on a scripted socket. *)
Definition script_sent (c : ZmqConnection Script) : list (bytes * string) :=
  omap (λ fr, match frame_msg fr with
              | Some (_, m, None) =>
                  if decide (Message_MessageType m = Message_TP_PROCESS_RESPONSE)
                  then Some (Message_Content m, Message_CorrelationId m) else None
              | _ => None
              end) (script_outbox (socket c)).

(** A handler that accepts everything. *)
Definition accept (family : string) : TransactionHandler (ZmqConnection Script) := {|
  FamilyName := family; FamilyVersions := ["1.0"]; Namespaces := [];
  Apply _ _ := mret None |}.
Definition hs := [accept "noop"; accept "intkey"].

Lemma script_SendMsg b corrId (c : ZmqConnection Script) :
  ∃ c', SendMsg Message_TP_PROCESS_RESPONSE b corrId c = (Ret None, c') ∧
    script_sent c' = script_sent c ++ [(b, corrId)].
Proof.
  eexists. split; [reflexivity|]. unfold script_sent. cbn [script_outbox socket set_socket].
  rewrite omap_app. f_equal. simpl. unfold frame_msg, LoadMsg. simpl.
  rewrite bits_pos_bits. simpl. by rewrite decode_encode.
Qed.

#[local] Instance script_log : ResponseLog hs.
Proof.
  refine {| sent := script_sent |}.
  - intros b corrId c c' E. destruct (script_SendMsg b corrId c) as (c2 & E2 & Hs).
    rewrite E in E2. injection E2 as <-. done.
  - intros h req ctx c err c' Hh E.
    assert (Apply h req ctx = mret None) as Ha.
    { unfold hs in Hh. by repeat (apply elem_of_cons in Hh as [->|Hh]; [done|]);
        apply not_elem_of_nil in Hh. }
    rewrite Ha in E. by injection E as _ <-.
Defined.

Definition request (family : string) : TpProcessRequest := {|
  TpProcessRequest_Header := Some {|
    TransactionHeader_BatcherPublicKey := ""; TransactionHeader_Dependencies := [];
    TransactionHeader_FamilyName := family; TransactionHeader_FamilyVersion := "1.0";
    TransactionHeader_Inputs := []; TransactionHeader_Nonce := "";
    TransactionHeader_Outputs := []; TransactionHeader_PayloadSha512 := "";
    TransactionHeader_SignerPublicKey := "" |};
  TpProcessRequest_Payload := None; TpProcessRequest_Signature := "";
  TpProcessRequest_ContextId := "c" |}.
Definition req_msg (family corr : string) : Message := {|
  Message_MessageType := Message_TP_PROCESS_REQUEST; Message_CorrelationId := corr;
  Message_Content := pos_bits (encode (request family)) |}.
Definition conn0 : ZmqConnection Script := {|
  identity := "w"; uri := "u"; incoming := ∅;
  socket := {| script_inbox := []; script_outbox := []; script_ids := [] |} |}.

Lemma parse_request family corr :
  Unmarshal (Message_Content (req_msg family corr)) = (request family, None).
Proof. apply countable_proto_laws. reflexivity. Qed.


Lemma bad_request_ends_worker_witness :
  worker (inr conn0) hs [req_msg "xo" "1"; req_msg "noop" "2"] = (Ret true, Some conn0).
Proof.
  apply (bad_request_ends_worker hs (req_msg "xo" "1") [req_msg "noop" "2"] conn0 conn0);
    [|reflexivity].
  right. rewrite parse_request. eexists. reflexivity.
Defined.
End witness.
