(* ===== verification/Validator.v ===== *)
(** * The validator behind a Context: abstract store and refinement

    A transaction handler uses the [Context] operations as reads and writes of a
    map from addresses to data, guarded by the addresses the transaction
    declared.  [StateBacked] states that promise as an interface: under it the
    handlers of the example families are verified.  [sim_backed] discharges it
    for the whole stack of the SDK ([Context] over [ZmqConnection] over a
    socket) talking to a validator that answers state requests; the validator
    is [Sim], a reference environment that follows the request and response
    messages of [state_context.proto]. *)

From S2P Require Import Prelude GoLib Errors Protobuf Messaging Answering ProcContext.

(** ** The abstract store *)

(** What a read of some addresses returns: the non-empty data stored there. *)
Definition store_view (st : gmap string bytes) (addrs : list string) : gmap string bytes :=
  filter (λ p, p.1 ∈ addrs ∧ p.2 ≠ "") st.

(** Removing a list of addresses. *)
Definition store_delete (st : gmap string bytes) (addrs : list string) : gmap string bytes :=
  filter (λ p, p.1 ∉ addrs) st.

Lemma lookup_store_view st addrs a d :
  store_view st addrs !! a = Some d ↔ st !! a = Some d ∧ a ∈ addrs ∧ d ≠ "".
Proof. unfold store_view. by rewrite map_lookup_filter_Some. Qed.

Lemma lookup_store_view_one st a :
  store_view st [a] !! a = (st !! a) ≫= λ d, if decide (d = "") then None else Some d.
Proof.
  apply option_eq. intros d. rewrite lookup_store_view. destruct (st !! a) as [x|]; simpl.
  - destruct (decide (x = "")) as [->|]; set_solver.
  - naive_solver.
Qed.

Lemma lookup_store_delete st addrs a :
  store_delete st addrs !! a = if decide (a ∈ addrs) then None else st !! a.
Proof.
  apply option_eq. intros d. unfold store_delete. rewrite map_lookup_filter_Some. simpl.
  destruct (decide (a ∈ addrs)); naive_solver.
Qed.

Definition get_denied (addrs : list string) : error :=
  authorizationException ("Tried to get unauthorized address: " +:+ fmt_strings addrs).
Definition set_denied (addrs : list string) : error :=
  authorizationException ("Tried to set unauthorized address: " +:+ fmt_strings addrs).

(** ** The interface handlers are verified against *)

Class StateBacked (C : Type) `{Connection C, ContextProtos, GoRuntime} := {
  vok : Context → C → Prop;
  vstate : C → gmap string bytes;
  readable : string → bool;
  writable : string → bool;
  GetState_backed ctx addrs c :
    vok ctx c → ∃ c', vok ctx c' ∧ vstate c' = vstate c ∧
      GetState ctx addrs c =
        (Ret (if forallb readable addrs then inr (store_view (vstate c) addrs)
              else inl (get_denied addrs)), c');
  SetState_backed ctx (pairs : gmap string bytes) c :
    vok ctx c → ∃ c', vok ctx c' ∧
      vstate c' = (if forallb writable (range pairs).*1
                   then pairs ∪ vstate c else vstate c) ∧
      SetState ctx pairs c =
        (Ret (if forallb writable (range pairs).*1 then inr (range pairs).*1
              else inl (set_denied (range pairs).*1)), c');
  DeleteState_backed ctx addrs c :
    vok ctx c → ∃ c' del, vok ctx c' ∧
      vstate c' = (if forallb writable addrs
                   then store_delete (vstate c) addrs else vstate c) ∧
      DeleteState ctx addrs c =
        (Ret (if forallb writable addrs then inr del
              else inl (get_denied addrs)), c') }.
#[global] Hint Mode StateBacked ! - - - : typeclass_instances.

(** Reading and writing a single address, as the families do. *)
Section one_entry.
Context {C : Type} `{Connection C, ContextProtos, GoRuntime, !StateBacked C}.
Implicit Types c : C.

Lemma GetState_entry ctx address c :
  vok ctx c → ∃ c', vok ctx c' ∧ vstate c' = vstate c ∧
    GetState ctx [address] c =
      (Ret (if readable (C:=C) address then inr (store_view (vstate c) [address])
            else inl (get_denied [address])), c').
Proof.
  intros Hc. destruct (GetState_backed ctx [address] c Hc) as (c' & Hc' & Hst & E).
  simpl in E. rewrite andb_true_r in E. eauto.
Qed.

Lemma SetState_entry ctx address data c :
  vok ctx c → ∃ c', vok ctx c' ∧
    vstate c' = (if writable (C:=C) address then <[address := data]> (vstate c)
                 else vstate c) ∧
    SetState ctx {[address := data]} c =
      (Ret (if writable (C:=C) address then inr [address] else inl (set_denied [address])), c').
Proof.
  intros Hc. destruct (SetState_backed ctx {[address := data]} c Hc) as (c' & Hc' & Hst & E).
  rewrite range_singleton in Hst, E. simpl in Hst, E. rewrite andb_true_r in Hst, E.
  exists c'. split; [done|]. split; [|done].
  by rewrite <-insert_union_singleton_l in Hst.
Qed.

End one_entry.

(** ** A reference validator *)

(** The runtime parses what it serialized and serializes every message of the
    protocol. *)
Class ContextProtosOk `{Proto Message, ContextProtos} : Prop := {
  ok_msg :: ProtoLaws Message; tot_msg :: ProtoTotal Message;
  ok_get_req :: ProtoLaws TpStateGetRequest; tot_get_req :: ProtoTotal TpStateGetRequest;
  ok_get_resp :: ProtoLaws TpStateGetResponse; tot_get_resp :: ProtoTotal TpStateGetResponse;
  ok_set_req :: ProtoLaws TpStateSetRequest; tot_set_req :: ProtoTotal TpStateSetRequest;
  ok_set_resp :: ProtoLaws TpStateSetResponse; tot_set_resp :: ProtoTotal TpStateSetResponse;
  ok_del_req :: ProtoLaws TpStateDeleteRequest; tot_del_req :: ProtoTotal TpStateDeleteRequest;
  ok_del_resp :: ProtoLaws TpStateDeleteResponse;
  tot_del_resp :: ProtoTotal TpStateDeleteResponse }.

(** The validator's store for the context, behind a socket. *)
Abbreviation Sim := (Peer (gmap string bytes)).

Section sim.
Context `{Proto Message, ContextProtos, GoRuntime}.
Context (rd wr : string → bool).

(** The data field a get response carries for an address: empty when unset. *)
Definition sim_entry (st : gmap string bytes) (a : string) : TpStateEntry :=
  {| TpStateEntry_Address := a; TpStateEntry_Data := default "" (st !! a) |}.

Definition sim_get (st : gmap string bytes) (addrs : list string) : TpStateGetResponse :=
  if forallb rd addrs
  then {| TpStateGetResponse_Entries := sim_entry st <$> addrs;
          TpStateGetResponse_Status := TpStateGetResponse_OK |}
  else {| TpStateGetResponse_Entries := [];
          TpStateGetResponse_Status := TpStateGetResponse_AUTHORIZATION_ERROR |}.

Definition sim_set (st : gmap string bytes) (entries : list TpStateEntry) :
    TpStateSetResponse * gmap string bytes :=
  let addrs := TpStateEntry_Address <$> entries in
  if forallb wr addrs
  then ({| TpStateSetResponse_Addresses := addrs;
           TpStateSetResponse_Status := TpStateSetResponse_OK |},
        list_to_map ((λ e, (TpStateEntry_Address e, TpStateEntry_Data e)) <$> entries) ∪ st)
  else ({| TpStateSetResponse_Addresses := [];
           TpStateSetResponse_Status := TpStateSetResponse_AUTHORIZATION_ERROR |}, st).

Definition sim_delete (st : gmap string bytes) (addrs : list string) :
    TpStateDeleteResponse * gmap string bytes :=
  if forallb wr addrs
  then ({| TpStateDeleteResponse_Addresses := filter (λ a, is_Some (st !! a)) addrs;
           TpStateDeleteResponse_Status := TpStateDeleteResponse_OK |},
        store_delete st addrs)
  else ({| TpStateDeleteResponse_Addresses := [];
           TpStateDeleteResponse_Status := TpStateDeleteResponse_AUTHORIZATION_ERROR |}, st).

(** The reply to a request message: its type, its content and the store after
    it; [None] when the request is not understood. *)
Definition sim_reply (st : gmap string bytes) (m : Message) :
    option (Z * bytes * gmap string bytes) :=
  if decide (Message_MessageType m = Message_TP_STATE_GET_REQUEST) then
    let r : TpStateGetRequest := (Unmarshal (Message_Content m)).1 in
    match Marshal (sim_get st (TpStateGetRequest_Addresses r)) with
    | inr b => Some (Message_TP_STATE_GET_RESPONSE, b, st)
    | inl _ => None
    end
  else if decide (Message_MessageType m = Message_TP_STATE_SET_REQUEST) then
    let r : TpStateSetRequest := (Unmarshal (Message_Content m)).1 in
    let '(resp, st') := sim_set st (TpStateSetRequest_Entries r) in
    match Marshal resp with
    | inr b => Some (Message_TP_STATE_SET_RESPONSE, b, st')
    | inl _ => None
    end
  else if decide (Message_MessageType m = Message_TP_STATE_DELETE_REQUEST) then
    let r : TpStateDeleteRequest := (Unmarshal (Message_Content m)).1 in
    let '(resp, st') := sim_delete st (TpStateDeleteRequest_Addresses r) in
    match Marshal resp with
    | inr b => Some (Message_TP_STATE_DELETE_RESPONSE, b, st')
    | inl _ => None
    end
  else None.

(** The context a state request is for. *)
Definition request_context (m : Message) : option string :=
  if decide (Message_MessageType m = Message_TP_STATE_GET_REQUEST) then
    Some (TpStateGetRequest_ContextId (Unmarshal (Message_Content m)).1)
  else if decide (Message_MessageType m = Message_TP_STATE_SET_REQUEST) then
    Some (TpStateSetRequest_ContextId (Unmarshal (Message_Content m)).1)
  else if decide (Message_MessageType m = Message_TP_STATE_DELETE_REQUEST) then
    Some (TpStateDeleteRequest_ContextId (Unmarshal (Message_Content m)).1)
  else None.

Definition sim_socket : ZmqSocket Sim := peer_socket sim_reply.
End sim.

(** ** From exchanges to the store *)

(** A connection whose exchanges with the validator go as the reference says, for
    the contexts in [ok], implements the interface. *)
Section over_exchange.
Context {C : Type} `{Connection C, Proto Message, ContextProtos, GoRuntime, !ContextProtosOk}.
Context (rd wr : string → bool) (ok : Context → C → Prop) (store : C → gmap string bytes).
Hypothesis exchanges : ∀ {R} `{Proto R} (tx : texts) reqType respType (req : R) b st' resp ctx c,
  ok ctx c → Marshal req = inr b →
  (∀ corr, request_context {| Message_MessageType := reqType; Message_CorrelationId := corr;
                              Message_Content := b |} = Some (contextId ctx)) →
  (∀ corr, sim_reply rd wr (store c)
     {| Message_MessageType := reqType; Message_CorrelationId := corr;
        Message_Content := b |} = Some (respType, resp, st')) →
  ∃ c' corr, ok ctx c' ∧ store c' = st' ∧
    exchange tx reqType respType req c =
      (Ret (inr (Some {| Message_MessageType := respType; Message_CorrelationId := corr;
                         Message_Content := resp |})), c').

Lemma entries_map_sim st addrs : entries_map (sim_entry st <$> addrs) = store_view st addrs.
Proof.
  apply map_eq. intros a.
  assert (Hgen : ∀ m : gmap string bytes,
    foldl (λ results entry,
      if decide (len (TpStateEntry_Data entry) ≠ 0%nat)
      then <[TpStateEntry_Address entry := TpStateEntry_Data entry]> results
      else results) m (sim_entry st <$> addrs) !! a
    = match store_view st addrs !! a with Some d => Some d | None => m !! a end).
  { induction addrs as [|x addrs IH]; intros m; simpl.
    - destruct (store_view st [] !! a) eqn:E; [|done].
      apply lookup_store_view in E. set_solver.
    - rewrite IH. clear IH.
      destruct (store_view st addrs !! a) as [d|] eqn:E.
      + assert (store_view st (x :: addrs) !! a = Some d) as ->; [|done].
        apply lookup_store_view in E. apply lookup_store_view. set_solver.
      + destruct (decide (x = a)) as [->|Hne].
        * destruct (store_view st (a :: addrs) !! a) as [d|] eqn:E'.
          -- apply lookup_store_view in E' as (Hst & _ & Hd). rewrite Hst. simpl.
             rewrite decide_True by (rewrite len_zero; done). apply lookup_insert_eq.
          -- rewrite decide_False; [done|]. rewrite len_zero. intros Hd.
             destruct (st !! a) as [d|] eqn:Hst; [|done]. simpl in Hd.
             assert (store_view st (a :: addrs) !! a = Some d); [|congruence].
             apply lookup_store_view. set_solver.
        * assert (store_view st (x :: addrs) !! a = None) as ->.
          { apply eq_None_not_Some. intros [d Hd]. apply lookup_store_view in Hd.
            assert (store_view st addrs !! a = Some d); [|congruence].
            apply lookup_store_view. set_solver. }
          destruct (decide _); [by rewrite lookup_insert_ne|done]. }
  unfold entries_map. rewrite Hgen. by destruct (store_view st addrs !! a).
Qed.

Lemma exchange_GetState ctx addrs c :
  ok ctx c → ∃ c', ok ctx c' ∧ store c' = store c ∧
    GetState ctx addrs c =
      (Ret (if forallb rd addrs then inr (store_view (store c) addrs)
            else inl (get_denied addrs)), c').
Proof.
  intros Hc.
  destruct (Marshal_total {| TpStateGetRequest_ContextId := contextId ctx;
    TpStateGetRequest_Addresses := addrs |}) as [b Hb].
  destruct (Marshal_total (sim_get rd (store c) addrs)) as [r Hr].
  edestruct (exchanges {| marshal_text := "Failed to marshal TpStateGetRequest: ";
                  send_text := "Failed to send TpStateGetRequest: ";
                  expect_text := "Expected TpStateGetResponse but got " |}
    Message_TP_STATE_GET_REQUEST Message_TP_STATE_GET_RESPONSE _ b (store c) r ctx c Hc Hb)
    as (c' & corr & Hok & Hst & E).
  { intros corr. unfold request_context. rewrite decide_True by done. simpl.
    by rewrite (Unmarshal_Marshal _ _ Hb). }
  { intros corr. unfold sim_reply. rewrite decide_True by done. cbn -[sim_get].
    rewrite (Unmarshal_Marshal _ _ Hb). cbn -[sim_get]. by rewrite Hr. }
  exists c'. split; [done|]. split; [done|]. unfold GetState.
  rewrite (go_bind_Ret _ _ _ _ _ E). cbn -[sim_get].
  rewrite (Unmarshal_Marshal _ _ Hr). unfold sim_get.
  destruct (forallb rd addrs); simpl; [|done]. by rewrite entries_map_sim.
Qed.

Lemma exchange_SetState ctx (pairs : gmap string bytes) c :
  ok ctx c → ∃ c', ok ctx c' ∧
    store c' = (if forallb wr (range pairs).*1
                    then pairs ∪ store c else store c) ∧
    SetState ctx pairs c =
      (Ret (if forallb wr (range pairs).*1 then inr (range pairs).*1
            else inl (set_denied (range pairs).*1)), c').
Proof.
  intros Hc.
  set (entries := (λ p, {| TpStateEntry_Address := p.1; TpStateEntry_Data := p.2 |})
                    <$> range pairs).
  destruct (Marshal_total {| TpStateSetRequest_ContextId := contextId ctx;
    TpStateSetRequest_Entries := entries |}) as [b Hb].
  destruct (Marshal_total (sim_set wr (store c) entries).1) as [r Hr].
  edestruct (exchanges {| marshal_text := "Failed to marshal: ";
                  send_text := "Failed to send set: ";
                  expect_text := "Expected TP_STATE_SET_RESPONSE but got " |}
    Message_TP_STATE_SET_REQUEST Message_TP_STATE_SET_RESPONSE _ b
    (sim_set wr (store c) entries).2 r ctx c Hc Hb) as (c' & corr & Hok & Hst & E).
  { intros corr. unfold request_context. rewrite decide_False, decide_True by done. simpl.
    by rewrite (Unmarshal_Marshal _ _ Hb). }
  { intros corr. unfold sim_reply. rewrite decide_False, decide_True by done.
    cbn -[sim_set]. rewrite (Unmarshal_Marshal _ _ Hb). cbn -[sim_set].
    destruct (sim_set wr (store c) entries) as [resp st']. simpl in *. by rewrite Hr. }
  assert (Ha : TpStateEntry_Address <$> entries = (range pairs).*1).
  { unfold entries. rewrite <-list_fmap_compose. done. }
  assert (Hp : list_to_map ((λ e, (TpStateEntry_Address e, TpStateEntry_Data e))
                              <$> entries) = pairs).
  { unfold entries. rewrite <-list_fmap_compose.
    rewrite <-(range_to_map pairs) at 2. f_equal. rewrite <-(list_fmap_id (range pairs)) at 2.
    apply list_fmap_ext. intros i [k x] _. done. }
  exists c'. split; [done|]. split.
  { rewrite Hst. unfold sim_set. rewrite Ha, Hp. by destruct (forallb wr _). }
  unfold SetState. fold entries. rewrite (go_bind_Ret _ _ _ _ _ E). cbn -[sim_set range].
  rewrite go_bind_ret_l. rewrite (Unmarshal_Marshal _ _ Hr). unfold sim_set. rewrite Ha.
  by destruct (forallb wr (range pairs).*1).
Qed.

Lemma exchange_DeleteState ctx addrs c :
  ok ctx c → ∃ c' del, ok ctx c' ∧
    store c' = (if forallb wr addrs
                    then store_delete (store c) addrs else store c) ∧
    DeleteState ctx addrs c =
      (Ret (if forallb wr addrs then inr del else inl (get_denied addrs)), c').
Proof.
  intros Hc.
  destruct (Marshal_total {| TpStateDeleteRequest_ContextId := contextId ctx;
    TpStateDeleteRequest_Addresses := addrs |}) as [b Hb].
  destruct (Marshal_total (sim_delete wr (store c) addrs).1) as [r Hr].
  edestruct (exchanges {| marshal_text := "Failed to marshal TpStateDeleteRequest: ";
                  send_text := "Failed to send TpStateDeleteRequest: ";
                  expect_text := "Expected TpStateDeleteResponse but got " |}
    Message_TP_STATE_DELETE_REQUEST Message_TP_STATE_DELETE_RESPONSE _ b
    (sim_delete wr (store c) addrs).2 r ctx c Hc Hb) as (c' & corr & Hok & Hst & E).
  { intros corr. unfold request_context. rewrite !decide_False, decide_True by done. simpl.
    by rewrite (Unmarshal_Marshal _ _ Hb). }
  { intros corr. unfold sim_reply. rewrite !decide_False, decide_True by done.
    cbn -[sim_delete]. rewrite (Unmarshal_Marshal _ _ Hb). cbn -[sim_delete].
    destruct (sim_delete wr (store c) addrs) as [resp st']. simpl in *. by rewrite Hr. }
  exists c'. eexists. split; [done|]. split.
  { rewrite Hst. unfold sim_delete. by destruct (forallb wr _). }
  unfold DeleteState. rewrite (go_bind_Ret _ _ _ _ _ E). cbn -[sim_delete].
  rewrite (Unmarshal_Marshal _ _ Hr). unfold sim_delete.
  by destruct (forallb wr addrs).
Qed.

Definition exchange_backed : StateBacked C := {|
  vok := ok; vstate := store; readable := rd; writable := wr;
  GetState_backed := exchange_GetState; SetState_backed := exchange_SetState;
  DeleteState_backed := exchange_DeleteState |}.
End over_exchange.

(** ** The stack over the reference validator implements the store *)

Section refinement.
Context `{Proto Message, ContextProtos, GoRuntime, !ContextProtosOk}.
Context (rd wr : string → bool) (fuel : nat).

#[local] Instance sim_sock : ZmqSocket Sim := sim_socket rd wr.
#[local] Instance sim_conn : Connection (ZmqConnection Sim) := zmq_connection (S fuel).

(** Nothing is under way. *)
Definition sim_ok (c : ZmqConnection Sim) : Prop :=
  incoming c = ∅ ∧ peer_inbox (socket c) = [].
Definition sim_store (c : ZmqConnection Sim) : gmap string bytes := peer_state (socket c).

Lemma sim_exchange {R} `{Proto R} (tx : texts) reqType respType (req : R) b st' resp c :
  sim_ok c → Marshal req = inr b →
  (∀ corr, sim_reply rd wr (sim_store c)
     {| Message_MessageType := reqType; Message_CorrelationId := corr;
        Message_Content := b |} = Some (respType, resp, st')) →
  ∃ c' corr, sim_ok c' ∧ sim_store c' = st' ∧
    exchange tx reqType respType req c =
      (Ret (inr (Some {| Message_MessageType := respType; Message_CorrelationId := corr;
                         Message_Content := resp |})), c').
Proof.
  intros Hc Hb Hreply.
  destruct (peer_exchange (sim_reply rd wr) fuel reqType b respType resp st' c Hc Hreply)
    as (corr & c1 & c2 & Es & Er & Hok & Hst).
  exists c2, corr. split; [done|]. split; [done|]. unfold exchange. rewrite Hb.
  rewrite (go_bind_Ret _ _ _ _ _ Es). cbn [sim_conn zmq_connection RecvMsgWithId].
  rewrite (go_bind_Ret _ _ _ _ _ Er).
  simpl. rewrite !decide_False by tauto. done.
Qed.

(** The stack discharges the interface. *)
Definition sim_backed : StateBacked (ZmqConnection Sim).
Proof.
  refine (exchange_backed rd wr (λ _, sim_ok) sim_store _).
  intros R HR tx reqType respType req b st' resp ctx c Hc Hb _ Hreply.
  by apply (sim_exchange tx reqType respType req b).
Defined.
End refinement.

(** ** Sequences of operations *)

Inductive state_op :=
| OpGet (addrs : list string)
| OpSet (pairs : gmap string bytes)
| OpDelete (addrs : list string).

(** What the caller sees: the data read, the addresses written, or whether the
    deletion was refused. *)
Inductive op_result :=
| RGet (r : error + gmap string bytes)
| RSet (r : error + list string)
| RDelete (r : option error).

Section ops.
Context {C : Type} `{Connection C, ContextProtos, GoRuntime}.

Definition run_op (ctx : Context) (op : state_op) : Go C op_result :=
  match op with
  | OpGet addrs => r ← GetState ctx addrs; mret (RGet r)
  | OpSet pairs => r ← SetState ctx pairs; mret (RSet r)
  | OpDelete addrs =>
      r ← DeleteState ctx addrs;
      mret (RDelete match r with inl e => Some e | inr _ => None end)
  end.

Fixpoint run_ops (ctx : Context) (ops : list state_op) : Go C (list op_result) :=
  match ops with
  | [] => mret []
  | op :: ops => r ← run_op ctx op; rs ← run_ops ctx ops; mret (r :: rs)
  end.
End ops.

(** The same operations on the abstract store. *)
Section spec.
Context `{GoRuntime} (rd wr : string → bool).

Definition spec_op (op : state_op) (st : gmap string bytes) : op_result * gmap string bytes :=
  match op with
  | OpGet addrs =>
      (RGet (if forallb rd addrs then inr (store_view st addrs)
             else inl (get_denied addrs)), st)
  | OpSet pairs =>
      let keys := (range pairs).*1 in
      if forallb wr keys then (RSet (inr keys), pairs ∪ st)
      else (RSet (inl (set_denied keys)), st)
  | OpDelete addrs =>
      if forallb wr addrs then (RDelete None, store_delete st addrs)
      else (RDelete (Some (get_denied addrs)), st)
  end.

Fixpoint spec_ops (ops : list state_op) (st : gmap string bytes) :
    list op_result * gmap string bytes :=
  match ops with
  | [] => ([], st)
  | op :: ops =>
      let '(r, st1) := spec_op op st in
      let '(rs, st2) := spec_ops ops st1 in (r :: rs, st2)
  end.
End spec.

Lemma run_op_refines {C} `{Connection C, ContextProtos, GoRuntime, !StateBacked C}
    ctx op (c : C) :
  vok ctx c → ∃ c', vok ctx c' ∧ vstate c' = (spec_op (readable (C:=C)) (writable (C:=C)) op (vstate c)).2 ∧
    run_op ctx op c = (Ret (spec_op (readable (C:=C)) (writable (C:=C)) op (vstate c)).1, c').
Proof.
  intros Hc. destruct op as [addrs|pairs|addrs]; simpl.
  - destruct (GetState_backed ctx addrs c Hc) as (c' & ? & ? & E).
    exists c'. by rewrite (go_bind_Ret _ _ _ _ _ E).
  - destruct (SetState_backed ctx pairs c Hc) as (c' & ? & ? & E).
    exists c'. rewrite (go_bind_Ret _ _ _ _ _ E). by destruct (forallb (writable (C:=C)) _).
  - destruct (DeleteState_backed ctx addrs c Hc) as (c' & del & ? & ? & E).
    exists c'. rewrite (go_bind_Ret _ _ _ _ _ E). by destruct (forallb (writable (C:=C)) _).
Qed.

Lemma run_ops_refines {C} `{Connection C, ContextProtos, GoRuntime, !StateBacked C}
    ctx ops (c : C) :
  vok ctx c → ∃ c', vok ctx c' ∧ vstate c' = (spec_ops (readable (C:=C)) (writable (C:=C)) ops (vstate c)).2 ∧
    run_ops ctx ops c = (Ret (spec_ops (readable (C:=C)) (writable (C:=C)) ops (vstate c)).1, c').
Proof.
  revert c. induction ops as [|op ops IH]; intros c Hc; simpl; [by exists c|].
  destruct (run_op_refines ctx op c Hc) as (c1 & Hc1 & Hst1 & E1).
  destruct (spec_op (readable (C:=C)) (writable (C:=C)) op (vstate c)) as [r st1]. simpl in *.
  destruct (IH c1 Hc1) as (c2 & Hc2 & Hst2 & E2). rewrite Hst1 in *.
  destruct (spec_ops (readable (C:=C)) (writable (C:=C)) ops st1) as [rs st2]. simpl in *.
  exists c2. split; [done|]. split; [done|].
  rewrite (go_bind_Ret _ _ _ _ _ E1). by rewrite (go_bind_Ret _ _ _ _ _ E2).
Qed.

(** ** Claims *)

Section claims.
Context `{Proto Message, ContextProtos, GoRuntime, !ContextProtosOk}.

(** C8. Refinement: any sequence of [GetState], [SetState] and [DeleteState]
    calls through a [Context], a [ZmqConnection] and the validator behind its
    socket returns, and gives the results the same calls give on a map from
    addresses to data; the validator's store ends as that map.  Addresses the
    transaction did not declare are refused with an [AuthorizationException] and
    change nothing. *)
Theorem context_refines_store rd wr fuel ctx ops (c : ZmqConnection Sim) :
  sim_ok c →
  ∃ c', sim_ok c' ∧ sim_store c' = (spec_ops rd wr ops (sim_store c)).2 ∧
    run_ops (H := @zmq_connection Sim (sim_socket rd wr) _ _ (S fuel)) ctx ops c
      = (Ret (spec_ops rd wr ops (sim_store c)).1, c').
Proof.
  apply (@run_ops_refines _ _ _ _ (sim_backed rd wr fuel)).
Qed.
End claims.

(** ** A concrete stack *)

(** All parameters instantiated: the environment in which the families'
    theorems are run on examples.  Every address may be read; [wr] says which
    may be written. *)
Module demo.
#[export] Existing Instance ordered_runtime.
#[export] Instance message_proto : Proto Message := countable_proto Message.
#[export] Instance context_protos : ContextProtos := {|
  get_req := countable_proto _; get_resp := countable_proto _;
  set_req := countable_proto _; set_resp := countable_proto _;
  del_req := countable_proto _; del_resp := countable_proto _;
  receipt_req := countable_proto _; receipt_resp := countable_proto _;
  event_req := countable_proto _; event_resp := countable_proto _ |}.
#[export] Instance protos_ok : ContextProtosOk.
Proof. split; apply countable_proto_laws || apply countable_proto_total. Qed.

Definition all (a : string) : bool := true.
Definition conn (wr : string → bool) : Connection (ZmqConnection Sim) :=
  @zmq_connection Sim (sim_socket all wr) _ _ 1.
Definition backed (wr : string → bool) : @StateBacked _ (conn wr) _ _ :=
  sim_backed all wr 0.

(** A connection at rest with a given store. *)
Definition at_rest (st : gmap string bytes) : ZmqConnection Sim := {|
  identity := "w"; uri := "u"; incoming := ∅;
  socket := {| peer_state := st; peer_inbox := []; peer_ids := 0 |} |}.

Lemma at_rest_ok st : sim_ok (at_rest st).
Proof. by split. Qed.
End demo.

Module witness.
Import demo.
Definition only_x (a : string) : bool := bool_decide (a = "x").
Definition conn0 : ZmqConnection Sim := at_rest ∅.
Definition ops : list state_op :=
  [OpSet {["x" := "1"]}; OpGet ["x"; "y"]; OpSet {["y" := "2"]}; OpDelete ["x"]; OpGet ["x"]].

Lemma context_refines_store_witness :
  ∃ c', sim_ok c' ∧ sim_store c' = ∅ ∧
    run_ops (H := @zmq_connection Sim (sim_socket all only_x) _ _ 1) (NewContext "ctx") ops conn0
      = (Ret [RSet (inr ["x"]); RGet (inr {["x" := "1"]});
              RSet (inl (set_denied ["y"])); RDelete None; RGet (inr ∅)], c').
Proof.
  assert (E : spec_ops all only_x ops (sim_store conn0)
    = ([RSet (inr ["x"]); RGet (inr {["x" := "1"]});
        RSet (inl (set_denied ["y"])); RDelete None; RGet (inr ∅)], ∅)) by reflexivity.
  pose proof (context_refines_store all only_x 0 (NewContext "ctx") ops conn0) as Hr.
  rewrite E in Hr. apply Hr. by split.
Defined.
End witness.
