(* ===== verification/Intkey.v ===== *)
(** * The intkey transaction family

    Models [examples/intkey_go/src/sawtooth_intkey/handler/handler.go].  The CBOR
    library is a parameter ([Cbor]): decoding into a target returns what the
    target then holds together with the outcome, which may be a panic (the
    handler recovers from it).  [map[string]int] is an option, [None] being the
    nil map.  The handler is verified against [StateBacked]: every accepted
    transaction sets, increments or decrements one name, and the stored values
    stay within the family's bounds. *)

From S2P Require Import Prelude GoLib Sha512 Errors Protobuf Messaging Answering ProcContext Worker Validator.

Module intkey.
Local Open Scope Z_scope.

Record IntkeyPayload := { Verb : string; Name : string; Value : Z }.

Record IntkeyHandler := { namespace : string }.
Definition NewIntkeyHandler (namespace : string) : IntkeyHandler :=
  {| namespace := namespace |}.

Definition MIN_VALUE : Z := 0.
Definition MAX_VALUE : Z := 4294967295.
Definition MAX_NAME_LENGTH : nat := 20.
Definition FAMILY_NAME : string := "intkey".

(** [cbor.Loads] into a zero payload and into a nil map, [cbor.Dumps] of a map. *)
Class Cbor := {
  Loads_payload : bytes → IntkeyPayload * Res (option error);
  Loads_map : bytes → option (gmap string Z) * Res (option error);
  Dumps_map : gmap string Z → error + bytes }.

(** What the handler relies on: a map that was written is read back, writing a
    map yields some data. *)
Class CborLaws `{Cbor} : Prop := {
  Dumps_total m : ∃ d, Dumps_map m = inr d;
  Dumps_ne m d : Dumps_map m = inr d → d ≠ "";
  Loads_Dumps m d : Dumps_map m = inr d → Loads_map d = (Some m, Ret None) }.

(** [DecodeCBOR]: the deferred function recovers from a panic, but the value it
    returns is dropped, and the result of [DecodeCBOR] is then nil. *)
Definition DecodeCBOR {A} (loads : A * Res (option error)) : A * option error :=
  match loads with
  | (target, Ret err) => (target, err)
  | (target, _) => (target, None)
  end.

Section handler.
Context {C : Type} `{Connection C, ContextProtos, GoRuntime, Cbor}.

(** [collisionMap[name] = newValue], which panics on a nil map. *)
Definition map_assign (m : option (gmap string Z)) (k : string) (v : Z) :
    Go C (gmap string Z) :=
  match m with
  | Some m => mret (<[k := v]> m)
  | None => go_panic "assignment to entry in nil map"
  end.

(** The new value for the verb, or the error with which the transaction is
    refused. *)
Definition new_value (verb : string) (value : Z) (stored : option Z) : error + Z :=
  if decide (verb = "inc" ∨ verb = "dec") then
    match stored with
    | None => inl (invalidTransaction "Need existing value for inc/dec")
    | Some storedValue =>
        let newValue := if decide (verb = "inc") then wrap_i64 (storedValue + value)
                        else wrap_i64 (storedValue - value) in
        if newValue <? MIN_VALUE then
          inl (invalidTransaction "New Value must be >= %!(EXTRA int=0)")
        else if MAX_VALUE <? newValue then
          inl (invalidTransaction "New Value must be <= %!(EXTRA int=4294967295)")
        else inr newValue
    end
  else match stored with
       | Some _ => inl (invalidTransaction "Cannot set existing value")
       | None => inr value
       end.

Definition EncodeCBOR (value : gmap string Z) : error + bytes := Dumps_map value.

Definition make_address (self : IntkeyHandler) (name : string) : string :=
  let hashed_name := hexdigest name in
  namespace self +:+ slice_from (len hashed_name - 64) hashed_name.

(** The checks on the decoded payload. *)
Definition check_payload (p : IntkeyPayload) : option error :=
  if decide (MAX_NAME_LENGTH < len (Name p))%nat then
    Some (invalidTransaction "Name must be a string of no more than 20 characters")
  else if Value p <? MIN_VALUE then
    Some (invalidTransaction ("Value must be >= 0, not: " +:+ Itoa (Value p)))
  else if MAX_VALUE <? Value p then
    Some (invalidTransaction ("Value must be <= 4294967295, not: " +:+ Itoa (Value p)))
  else if decide (¬ (Verb p = "set" ∨ Verb p = "inc" ∨ Verb p = "dec")) then
    Some (invalidTransaction ("Invalid verb: " +:+ Verb p))
  else None.

Definition Apply (self : IntkeyHandler) (request : TpProcessRequest) (context : Context) :
    Go C (option error) :=
  match TpProcessRequest_Payload request with
  | None => mret (Some (invalidTransaction "Must contain payload"))
  | Some payloadData =>
      let '(payload, err) := DecodeCBOR (Loads_payload payloadData) in
      match err with
      | Some err => mret (Some (invalidTransaction ("Failed to decode payload: "
                                                    +:+ Error err)))
      | None =>
      match check_payload payload with
      | Some err => mret (Some err)
      | None =>
          let verb := Verb payload in
          let name := Name payload in
          let value := Value payload in
          let address := make_address self name in
          results ← GetState context [address];
          match results with
          | inl err => mret (Some err)
          | inr results =>
              let '(collisionMap, err) :=
                match results !! address with
                | Some data => if decide (0 < len data)%nat
                               then DecodeCBOR (Loads_map data) else (Some ∅, None)
                | None => (Some ∅, None)
                end in
              match err with
              | Some err => mret (Some (internalError ("Failed to decode data: "
                                                       +:+ Error err)))
              | None =>
                  match new_value verb value (collisionMap ≫= λ m, m !! name) with
                  | inl err => mret (Some err)
                  | inr newValue =>
                      collisionMap ← map_assign collisionMap name newValue;
                      match EncodeCBOR collisionMap with
                      | inl err => mret (Some (internalError ("Failed to encode new map:"
                                                              +:+ Error err)))
                      | inr data =>
                          addresses ← SetState context {[address := data]};
                          match addresses with
                          | inl err => mret (Some err)
                          | inr addresses =>
                              if decide (length addresses = 0%nat)
                              then mret (Some (internalError "No addresses in set response"))
                              else mret None
                          end
                      end
                  end
              end
          end
      end
      end
  end.

(** The handler as registered with the processor. *)
Definition handler (self : IntkeyHandler) : TransactionHandler C := {|
  FamilyName := FAMILY_NAME;
  FamilyVersions := ["1.0"];
  Namespaces := [namespace self];
  Worker.Apply := Apply self |}.
End handler.

(** ** Specification *)

(** The values the family allows. *)
Definition in_range (v : Z) : Prop := MIN_VALUE ≤ v ≤ MAX_VALUE.

(** [accepts m verb name value new]: on the map [m] of a state entry the verb is
    allowed and leaves [new] under the name. *)
Inductive accepts (m : gmap string Z) : string → string → Z → Z → Prop :=
| accepts_set name value :
    m !! name = None → accepts m "set" name value value
| accepts_inc name value old :
    m !! name = Some old → old + value ≤ MAX_VALUE →
    accepts m "inc" name value (old + value)
| accepts_dec name value old :
    m !! name = Some old → 0 ≤ old - value →
    accepts m "dec" name value (old - value).

(** A payload that passes the checks. *)
Definition valid_payload (p : IntkeyPayload) : Prop :=
  (len (Name p) ≤ MAX_NAME_LENGTH)%nat ∧ in_range (Value p) ∧
  Verb p ∈ ["set"; "inc"; "dec"].

Section props.
Context {C : Type} `{Connection C, ContextProtos, GoRuntime, !StateBacked C}.
Context `{Cbor, !CborLaws}.
Implicit Types (self : IntkeyHandler) (c : C) (st : gmap string bytes).

Lemma check_payload_ok p : check_payload p = None ↔ valid_payload p.
Proof.
  unfold check_payload, valid_payload, in_range, MIN_VALUE, MAX_VALUE.
  destruct (decide (MAX_NAME_LENGTH < len (Name p))%nat) as [|Hn]; [intuition (done || lia)|].
  destruct (Z.ltb_spec (Value p) 0); [intuition (done || lia)|].
  destruct (Z.ltb_spec 4294967295 (Value p)); [intuition (done || lia)|].
  destruct (decide _) as [Hv|Hv]; [split; [done|set_solver]|].
  split; [|done]. intros _. split; [lia|]. split; [lia|].
  destruct (decide (Verb p = "set" ∨ Verb p = "inc" ∨ Verb p = "dec")); [set_solver|tauto].
Qed.

(** The data a read of an address gives, decoded as the handler decodes it. *)
Definition stored_map st (address : string) : option (gmap string Z) * option error :=
  match st !! address with
  | Some data => if decide (data = "") then (Some ∅, None) else DecodeCBOR (Loads_map data)
  | None => (Some ∅, None)
  end.

(** Under the checks and the bounds the machine arithmetic does not wrap, and
    [new_value] decides [accepts]. *)
Lemma new_value_spec m p :
  valid_payload p → map_Forall (λ _, in_range) m →
  match new_value (Verb p) (Value p) (m !! Name p) with
  | inr new => accepts m (Verb p) (Name p) (Value p) new ∧ in_range new
  | inl e => (∀ new, ¬ accepts m (Verb p) (Name p) (Value p) new) ∧
             ∃ msg, e = invalidTransaction msg
  end.
Proof.
  intros (_ & Hv & Hverb) Hm. unfold new_value, in_range, MIN_VALUE, MAX_VALUE in *.
  destruct (m !! Name p) as [old|] eqn:E.
  - assert (Ho : 0 ≤ old ≤ 4294967295) by exact (Hm _ _ E).
    assert (Hw1 : wrap_i64 (old + Value p) = old + Value p)
      by (apply wrap_i64_small; unfold is_i64; lia).
    assert (Hw2 : wrap_i64 (old - Value p) = old - Value p)
      by (apply wrap_i64_small; unfold is_i64; lia).
    assert (Verb p = "set" ∨ Verb p = "inc" ∨ Verb p = "dec") as [Eb|[Eb|Eb]]
      by set_solver; rewrite Eb; simpl; rewrite ?Hw1, ?Hw2.
    + split; [|eauto]. intros new Ha. inversion Ha; congruence.
    + destruct (Z.ltb_spec (old + Value p) 0); [lia|].
      destruct (Z.ltb_spec 4294967295 (old + Value p)).
      * split; [|eauto]. intros new Ha. inversion Ha; simplify_eq.
        unfold MAX_VALUE in *. lia.
      * split; [|lia]. by econstructor.
    + destruct (Z.ltb_spec (old - Value p) 0).
      * split; [|eauto]. intros new Ha. inversion Ha; simplify_eq. lia.
      * destruct (Z.ltb_spec 4294967295 (old - Value p)); [lia|].
        split; [|lia]. by econstructor.
  - assert (Verb p = "set" ∨ Verb p = "inc" ∨ Verb p = "dec") as [Eb|[Eb|Eb]]
      by set_solver; rewrite Eb; simpl.
    + split; [|lia]. by constructor.
    + split; [|eauto]. intros new Ha. inversion Ha; congruence.
    + split; [|eauto]. intros new Ha. inversion Ha; congruence.
Qed.

(** *** The handler as a transition of the store *)

Definition store_entry (name : string) (new : Z) (m : gmap string Z) (address : string)
    st : Res (option error) * gmap string bytes :=
  match EncodeCBOR (<[name := new]> m) with
  | inl err => (Ret (Some (internalError ("Failed to encode new map:" +:+ Error err))), st)
  | inr data => if writable (C:=C) address then (Ret None, <[address := data]> st)
                else (Ret (Some (set_denied [address])), st)
  end.

Definition transition self (payload : option bytes) st :
    Res (option error) * gmap string bytes :=
  match payload with
  | None => (Ret (Some (invalidTransaction "Must contain payload")), st)
  | Some d =>
      match DecodeCBOR (Loads_payload d) with
      | (_, Some err) => (Ret (Some (invalidTransaction ("Failed to decode payload: "
                                                         +:+ Error err))), st)
      | (p, None) =>
          let address := make_address self (Name p) in
          match check_payload p with
          | Some err => (Ret (Some err), st)
          | None =>
              if readable (C:=C) address then
                match stored_map st address with
                | (_, Some err) =>
                    (Ret (Some (internalError ("Failed to decode data: " +:+ Error err))), st)
                | (cm, None) =>
                    match new_value (Verb p) (Value p) (cm ≫= λ m, m !! Name p), cm with
                    | inl err, _ => (Ret (Some err), st)
                    | inr _, None => (Panic "assignment to entry in nil map", st)
                    | inr new, Some m => store_entry (Name p) new m address st
                    end
                end
              else (Ret (Some (get_denied [address])), st)
          end
      end
  end.

Lemma stored_map_read st address :
  match store_view st [address] !! address with
  | Some data => if decide (0 < len data)%nat then DecodeCBOR (Loads_map data)
                 else (Some ∅, None)
  | None => (Some ∅, None)
  end = stored_map st address.
Proof.
  rewrite lookup_store_view_one. unfold stored_map.
  destruct (st !! address) as [d|]; simpl; [|done].
  destruct (decide (d = "")) as [->|Hd]; [done|].
  rewrite decide_True; [done|]. rewrite <-len_zero in Hd. lia.
Qed.

(** The handler run over a connection to a validator makes exactly this
    transition of the validator's store. *)
Lemma Apply_transition self req ctx c :
  vok ctx c → ∃ c', vok ctx c' ∧
    vstate c' = (transition self (TpProcessRequest_Payload req) (vstate c)).2 ∧
    Apply self req ctx c =
      ((transition self (TpProcessRequest_Payload req) (vstate c)).1, c').
Proof.
  intros Hc. unfold Apply, transition.
  destruct (TpProcessRequest_Payload req) as [d|]; [|by exists c].
  destruct (DecodeCBOR (Loads_payload d)) as [p [e|]]; [by exists c|].
  destruct (check_payload p) as [e|]; [by exists c|].
  set (address := make_address self (Name p)).
  destruct (GetState_entry ctx address c Hc) as (c1 & Hc1 & Hst1 & E1).
  rewrite (go_bind_Ret _ _ _ _ _ E1).
  destruct (readable (C:=C) address); [|by exists c1].
  rewrite stored_map_read. destruct (stored_map (vstate c) address) as [cm [e|]];
    [by exists c1|].
  destruct (new_value _ _ _) as [e|new]; [by exists c1|].
  destruct cm as [m|]; [|by exists c1]. unfold map_assign. rewrite go_bind_ret_l.
  unfold store_entry. destruct (EncodeCBOR _) as [e|data]; [by exists c1|].
  destruct (SetState_entry ctx address data c1 Hc1) as (c2 & Hc2 & Hst2 & E2).
  exists c2. rewrite (go_bind_Ret _ _ _ _ _ E2), Hst2, Hst1.
  by destruct (writable (C:=C) address).
Qed.

(** *** What a transition can do *)

(** Every transition either leaves the store alone and does not report success,
    or sets one entry to the map the specification asks for. *)
Lemma transition_cases self payload st :
  (transition self payload st).2 = st ∧ (transition self payload st).1 ≠ Ret None ∨
  ∃ d p m new data,
    payload = Some d ∧ DecodeCBOR (Loads_payload d) = (p, None) ∧ valid_payload p ∧
    stored_map st (make_address self (Name p)) = (Some m, None) ∧
    new_value (Verb p) (Value p) (m !! Name p) = inr new ∧
    Dumps_map (<[Name p := new]> m) = inr data ∧
    transition self payload st = (Ret None, <[make_address self (Name p) := data]> st).
Proof.
  unfold transition. destruct payload as [d|]; [|by left].
  destruct (DecodeCBOR (Loads_payload d)) as [p [e|]] eqn:Ep; [by left|].
  destruct (check_payload p) as [e|] eqn:Ec; [by left|].
  destruct (readable (C:=C) _); [|by left].
  destruct (stored_map st _) as [cm [e|]] eqn:Em; [by left|].
  destruct (new_value _ _ _) as [e|new] eqn:En; [by left|].
  destruct cm as [m|]; [|by left]. unfold store_entry.
  destruct (EncodeCBOR _) as [e|data] eqn:Ed; [by left|].
  destruct (writable (C:=C) _) eqn:Ew; [|by left]. right.
  exists d, p, m, new, data. rewrite check_payload_ok in Ec. done.
Qed.

Lemma new_value_range p stored new :
  valid_payload p → new_value (Verb p) (Value p) stored = inr new → in_range new.
Proof.
  intros (_ & Hv & _). unfold new_value, in_range in *. intros E.
  repeat (case_match; simplify_eq/=); lia.
Qed.

(** What the store holds under a name. *)
Definition value_of self st (name : string) : option Z :=
  match stored_map st (make_address self name) with
  | (Some m, None) => m !! name
  | _ => None
  end.

Lemma stored_map_written st address m data :
  Dumps_map m = inr data → stored_map (<[address := data]> st) address = (Some m, None).
Proof.
  intros Hd. unfold stored_map. rewrite lookup_insert_eq.
  rewrite decide_False by (by eapply Dumps_ne). by rewrite (Loads_Dumps _ _ Hd).
Qed.

Lemma stored_map_other st address address' data :
  address ≠ address' → stored_map (<[address := data]> st) address' = stored_map st address'.
Proof. intros Hne. unfold stored_map. by rewrite lookup_insert_ne. Qed.

(** Writing the entry of a name changes the value of that name only, even when
    other names share its address. *)
Lemma value_of_written self st name m new data other :
  stored_map st (make_address self name) = (Some m, None) →
  Dumps_map (<[name := new]> m) = inr data →
  value_of self (<[make_address self name := data]> st) other =
    if decide (other = name) then Some new else value_of self st other.
Proof.
  intros Hm Hd. unfold value_of.
  destruct (decide (make_address self other = make_address self name)) as [Ea|Ea].
  - rewrite Ea, (stored_map_written _ _ _ _ Hd), Hm.
    destruct (decide (other = name)) as [->|Hne]; [by rewrite lookup_insert_eq|].
    by rewrite lookup_insert_ne.
  - rewrite stored_map_other by done. rewrite decide_False by congruence. done.
Qed.

(** Every value stored under the handler's namespace is within the bounds. *)
Definition store_wf self st : Prop :=
  ∀ address m, HasPrefix address (namespace self) = true →
    stored_map st address = (Some m, None) → map_Forall (λ _, in_range) m.

Lemma prefix_app a b : String.prefix a (a +:+ b) = true.
Proof.
  induction a as [|x a IH]; [by destruct b|]. simpl.
  destruct (ascii_dec x x); [|done]. apply IH.
Qed.
End props.

(** ** Claims *)

Section claims.
Context {C : Type} `{Connection C, ContextProtos, GoRuntime, !StateBacked C}.
Context `{Cbor, !CborLaws}.

(** What the handler does with a payload that passes the checks, its address being
    declared and its entry readable. *)
Lemma transaction_effect self req ctx (c : C) d p m :
  vok ctx c →
  TpProcessRequest_Payload req = Some d → DecodeCBOR (Loads_payload d) = (p, None) →
  valid_payload p →
  readable (C:=C) (make_address self (Name p)) = true →
  writable (C:=C) (make_address self (Name p)) = true →
  stored_map (vstate c) (make_address self (Name p)) = (Some m, None) →
  map_Forall (λ _, in_range) m →
  (∃ new c', accepts m (Verb p) (Name p) (Value p) new ∧
     Apply self req ctx c = (Ret None, c') ∧
     ∀ name, value_of self (vstate c') name =
       if decide (name = Name p) then Some new else value_of self (vstate c) name) ∨
  ((∀ new, ¬ accepts m (Verb p) (Name p) (Value p) new) ∧
   ∃ msg c', Apply self req ctx c = (Ret (Some (invalidTransaction msg)), c') ∧
     vstate c' = vstate c).
Proof.
  intros Hc Hd Hp Hvalid Hrd Hwr Hm Hrange.
  destruct (Apply_transition self req ctx c Hc) as (c' & Hc' & Hst & E).
  pose proof (new_value_spec m p Hvalid Hrange) as Hnew.
  unfold transition in Hst, E. rewrite Hd, Hp in Hst, E.
  rewrite (proj2 (check_payload_ok p) Hvalid), Hrd, Hm in Hst, E. simpl in Hst, E.
  destruct (new_value _ _ _) as [e|new].
  - right. destruct Hnew as [Hno [msg ->]]. eauto.
  - left. destruct Hnew as [Hacc _]. destruct (Dumps_total (<[Name p := new]> m)) as [data Hdt].
    unfold store_entry, EncodeCBOR in Hst, E. rewrite Hdt, Hwr in Hst, E. exists new, c'.
    split; [done|]. split; [done|]. intros name. rewrite Hst.
    by apply (value_of_written _ _ _ _ _ _ _ Hm Hdt).
Qed.

(** C28. Functional correctness of intkey transactions: on a well-formed payload,
    with the address declared and the entry decodable and within bounds, the
    handler succeeds exactly when the verb is allowed, the name then has the
    value the verb asks for (no overflow occurs) and every other name keeps its
    value, also when it shares the address; otherwise it reports an invalid
    transaction and the store is unchanged. *)
Theorem intkey_transaction self req ctx (c : C) d p m :
  vok ctx c →
  TpProcessRequest_Payload req = Some d → DecodeCBOR (Loads_payload d) = (p, None) →
  valid_payload p →
  readable (C:=C) (make_address self (Name p)) = true →
  writable (C:=C) (make_address self (Name p)) = true →
  stored_map (vstate c) (make_address self (Name p)) = (Some m, None) →
  map_Forall (λ _, in_range) m →
  (∃ new c', accepts m (Verb p) (Name p) (Value p) new ∧
     Apply self req ctx c = (Ret None, c') ∧
     ∀ name, value_of self (vstate c') name =
       if decide (name = Name p) then Some new else value_of self (vstate c) name) ∨
  ((∀ new, ¬ accepts m (Verb p) (Name p) (Value p) new) ∧
   ∃ msg c', Apply self req ctx c = (Ret (Some (invalidTransaction msg)), c') ∧
     vstate c' = vstate c).
Proof. apply transaction_effect. Qed.

(** C14. The bounds are an invariant of the family: whatever the request and
    whatever the outcome, if every value under the namespace was between 0 and
    2^32-1 before a transaction, it still is after it. *)
Theorem intkey_values_bounded self req ctx (c : C) :
  vok ctx c → store_wf self (vstate c) → store_wf self (vstate (Apply self req ctx c).2).
Proof.
  intros Hc Hwf. destruct (Apply_transition self req ctx c Hc) as (c' & Hc' & Hst & E).
  rewrite E. simpl. rewrite Hst.
  destruct (transition_cases (C:=C) self (TpProcessRequest_Payload req) (vstate c))
    as [[-> _]|(d & p & m & new & data & _ & _ & Hv & Hm & Hn & Hd & ->)]; [done|].
  intros address m' Hpre Hm'. simpl in Hm'.
  destruct (decide (make_address self (Name p) = address)) as [<-|Hne].
  - rewrite (stored_map_written _ _ _ _ Hd) in Hm'. injection Hm' as <-.
    apply map_Forall_insert_intro; [by eapply new_value_range|]. by eapply Hwf.
  - rewrite stored_map_other in Hm' by done. by eapply Hwf.
Qed.

(** A state entry on which the CBOR decoder panics is not reported as
    undecodable: the recovered panic leaves a nil map and a nil error, and a
    [set] transaction on it makes the handler panic. *)
Theorem corrupt_entry_panics self req ctx (c : C) d p data e :
  vok ctx c →
  TpProcessRequest_Payload req = Some d → DecodeCBOR (Loads_payload d) = (p, None) →
  valid_payload p → Verb p = "set" →
  readable (C:=C) (make_address self (Name p)) = true →
  vstate c !! make_address self (Name p) = Some data → data ≠ "" →
  Loads_map data = (None, Panic e) →
  ∃ c', Apply self req ctx c = (Panic "assignment to entry in nil map", c').
Proof.
  intros Hc Hd Hp Hvalid Hverb Hrd Hdata Hne Hloads.
  destruct (Apply_transition self req ctx c Hc) as (c' & Hc' & Hst & E). exists c'.
  rewrite E. f_equal. unfold transition. rewrite Hd, Hp.
  rewrite (proj2 (check_payload_ok p) Hvalid), Hrd. unfold stored_map.
  rewrite Hdata, decide_False by done. rewrite Hloads. simpl.
  unfold new_value. by rewrite Hverb.
Qed.
End claims.

(** ** Witnesses *)

Module witness.
Import demo.

(** A concrete CBOR: maps and payloads by their codes, with one input on which
    decoding panics. *)
Definition payload_code (p : IntkeyPayload) : bytes :=
  pos_bits (encode (Verb p, Name p, Value p)).
#[export] Instance cbor : Cbor := {|
  Loads_payload d :=
    match bits_pos d ≫= decode (A := string * string * Z) with
    | Some (v, n, z) => ({| Verb := v; Name := n; Value := z |}, Ret None)
    | None => ({| Verb := ""; Name := ""; Value := 0 |}, Ret (Some (errString "cbor")))
    end;
  Loads_map d :=
    match d with
    | String "m" s =>
        match bits_pos s ≫= decode with
        | Some m => (Some m, Ret None)
        | None => (None, Ret (Some (errString "cbor")))
        end
    | _ => (None, Panic "cbor: unexpected type")
    end;
  Dumps_map m := inr (String "m" (pos_bits (encode m))) |}.
#[export] Instance cbor_laws : CborLaws.
Proof.
  split.
  - intros m. by eexists.
  - intros m d [= <-]. done.
  - intros m d [= <-]. simpl. rewrite bits_pos_bits. simpl. by rewrite decode_encode.
Qed.

Definition h : IntkeyHandler := NewIntkeyHandler "1cf126".
Definition pay (verb : string) (value : Z) : IntkeyPayload :=
  {| Verb := verb; Name := "n"; Value := value |}.
Definition req (p : IntkeyPayload) : TpProcessRequest := {|
  TpProcessRequest_Header := None; TpProcessRequest_Payload := Some (payload_code p);
  TpProcessRequest_Signature := ""; TpProcessRequest_ContextId := "c" |}.
Definition store (m : gmap string Z) : gmap string bytes :=
  {[make_address h "n" := String "m" (pos_bits (encode m))]}.
Definition ctx := NewContext "c".
#[local] Existing Instance conn.
#[local] Instance wbacked : @StateBacked _ (conn all) _ _ := backed all.

Lemma decode_pay p : DecodeCBOR (Loads_payload (payload_code p)) = (p, None).
Proof.
  unfold payload_code. simpl. rewrite bits_pos_bits. cbn -[decode encode].
  rewrite decode_encode. by destruct p.
Qed.

Lemma intkey_transaction_witness :
  ∃ new c', accepts {["n" := 40]} "inc" "n" 2 new ∧
    Apply (H := conn all) h (req (pay "inc" 2)) ctx (at_rest (store {["n" := 40]}))
      = (Ret None, c').
Proof.
  destruct (intkey_transaction (H := conn all) h (req (pay "inc" 2)) ctx
    (at_rest (store {["n" := 40]})) (payload_code (pay "inc" 2)) (pay "inc" 2) {["n" := 40]})
    as [(new & c' & Ha & E & _)|[Hno _]].
  - apply at_rest_ok.
  - reflexivity.
  - apply decode_pay.
  - split; [vm_compute; lia|]. split; [vm_compute; split; discriminate|].
    simpl. set_solver.
  - reflexivity.
  - reflexivity.
  - unfold store. cbn -[make_address encode]. unfold vstate. simpl.
    unfold sim_store. simpl. apply (stored_map_written ∅). reflexivity.
  - apply map_Forall_singleton. vm_compute. split; discriminate.
  - exists new, c'. split; [exact Ha|exact E].
  - exfalso. apply (Hno 42). apply (accepts_inc _ "n" 2 40); [done|].
    vm_compute. discriminate.
Defined.

Lemma intkey_values_bounded_witness :
  store_wf h (vstate (Apply (H := conn all) h (req (pay "dec" 50)) ctx
                        (at_rest (store {["n" := 40]}))).2).
Proof.
  apply (intkey_values_bounded (H := conn all)); [apply at_rest_ok|].
  intros address m _ Hm. revert Hm. unfold vstate. simpl. unfold sim_store. simpl.
  unfold store. destruct (decide (make_address h "n" = address)) as [<-|Hne].
  - rewrite <-insert_empty, (stored_map_written ∅ _ {["n" := 40]}) by reflexivity.
    intros [= <-].
    apply map_Forall_singleton. vm_compute. split; discriminate.
  - unfold stored_map. rewrite lookup_singleton_ne by done. intros [= <-].
    apply map_Forall_empty.
Defined.

Lemma corrupt_entry_panics_witness :
  ∃ c', Apply (H := conn all) h (req (pay "set" 1)) ctx
          (at_rest {[make_address h "n" := "?"]})
    = (Panic "assignment to entry in nil map", c').
Proof.
  apply (corrupt_entry_panics (H := conn all) h (req (pay "set" 1)) ctx _
    (payload_code (pay "set" 1)) (pay "set" 1) "?" "cbor: unexpected type").
  - apply at_rest_ok.
  - reflexivity.
  - apply decode_pay.
  - split; [vm_compute; lia|]. split; [vm_compute; split; discriminate|].
    simpl. set_solver.
  - reflexivity.
  - reflexivity.
  - unfold vstate. simpl. unfold sim_store. simpl. apply lookup_singleton_eq.
  - done.
  - reflexivity.
Defined.
End witness.
End intkey.
