(* ===== verification/Smallbank.v ===== *)
(** * The smallbank transaction family

    Models [examples/smallbank/smallbank_go/src/sawtooth_smallbank/handler] and
    the message structs of [smallbank_pb2] it uses (nested message names without
    the [SmallbankTransactionPayload_] prefix).  Balances are [uint32]: their
    arithmetic wraps and is written out so.  A nil transaction-data pointer
    makes the handler panic, as dereferencing it does in the source.  The
    handler is verified against [StateBacked]. *)

From S2P Require Import Prelude GoLib Sha512 Errors Protobuf Messaging Answering ProcContext Worker Validator.

Module smallbank.
Local Open Scope Z_scope.

(** ** smallbank_pb2 *)

Definition SmallbankTransactionPayload_PAYLOAD_TYPE_UNSET : Z := 0.
Definition SmallbankTransactionPayload_CREATE_ACCOUNT : Z := 1.
Definition SmallbankTransactionPayload_DEPOSIT_CHECKING : Z := 2.
Definition SmallbankTransactionPayload_WRITE_CHECK : Z := 3.
Definition SmallbankTransactionPayload_TRANSACT_SAVINGS : Z := 4.
Definition SmallbankTransactionPayload_SEND_PAYMENT : Z := 5.
Definition SmallbankTransactionPayload_AMALGAMATE : Z := 6.
Definition SmallbankTransactionPayload_PayloadType_name : list (Z * string) :=
  [(0, "PAYLOAD_TYPE_UNSET");
   (1, "CREATE_ACCOUNT");
   (2, "DEPOSIT_CHECKING");
   (3, "WRITE_CHECK");
   (4, "TRANSACT_SAVINGS");
   (5, "SEND_PAYMENT");
   (6, "AMALGAMATE")].

Record Account := {
  Account_CustomerId : Z;
  Account_CustomerName : string;
  Account_SavingsBalance : Z;
  Account_CheckingBalance : Z }.
#[export] Instance Account_zero : Inhabited Account := populate {|
  Account_CustomerId := 0;
  Account_CustomerName := "";
  Account_SavingsBalance := 0;
  Account_CheckingBalance := 0 |}.
#[export] Instance Account_eq_dec : EqDecision Account.
Proof. solve_decision. Defined.
#[export] Instance Account_countable : Countable Account.
Proof.
  refine (inj_countable' (λ m, (Account_CustomerId m, Account_CustomerName m, Account_SavingsBalance m, Account_CheckingBalance m))
    (λ '(x0, x1, x2, x3), Build_Account x0 x1 x2 x3) _). by intros [].
Defined.

Record CreateAccountTransactionData := {
  CreateAccountTransactionData_CustomerId : Z;
  CreateAccountTransactionData_CustomerName : string;
  CreateAccountTransactionData_InitialSavingsBalance : Z;
  CreateAccountTransactionData_InitialCheckingBalance : Z }.
#[export] Instance CreateAccountTransactionData_zero : Inhabited CreateAccountTransactionData := populate {|
  CreateAccountTransactionData_CustomerId := 0;
  CreateAccountTransactionData_CustomerName := "";
  CreateAccountTransactionData_InitialSavingsBalance := 0;
  CreateAccountTransactionData_InitialCheckingBalance := 0 |}.
#[export] Instance CreateAccountTransactionData_eq_dec : EqDecision CreateAccountTransactionData.
Proof. solve_decision. Defined.
#[export] Instance CreateAccountTransactionData_countable : Countable CreateAccountTransactionData.
Proof.
  refine (inj_countable' (λ m, (CreateAccountTransactionData_CustomerId m, CreateAccountTransactionData_CustomerName m, CreateAccountTransactionData_InitialSavingsBalance m, CreateAccountTransactionData_InitialCheckingBalance m))
    (λ '(x0, x1, x2, x3), Build_CreateAccountTransactionData x0 x1 x2 x3) _). by intros [].
Defined.

Record DepositCheckingTransactionData := {
  DepositCheckingTransactionData_CustomerId : Z;
  DepositCheckingTransactionData_Amount : Z }.
#[export] Instance DepositCheckingTransactionData_zero : Inhabited DepositCheckingTransactionData := populate {|
  DepositCheckingTransactionData_CustomerId := 0;
  DepositCheckingTransactionData_Amount := 0 |}.
#[export] Instance DepositCheckingTransactionData_eq_dec : EqDecision DepositCheckingTransactionData.
Proof. solve_decision. Defined.
#[export] Instance DepositCheckingTransactionData_countable : Countable DepositCheckingTransactionData.
Proof.
  refine (inj_countable' (λ m, (DepositCheckingTransactionData_CustomerId m, DepositCheckingTransactionData_Amount m))
    (λ '(x0, x1), Build_DepositCheckingTransactionData x0 x1) _). by intros [].
Defined.

Record WriteCheckTransactionData := {
  WriteCheckTransactionData_CustomerId : Z;
  WriteCheckTransactionData_Amount : Z }.
#[export] Instance WriteCheckTransactionData_zero : Inhabited WriteCheckTransactionData := populate {|
  WriteCheckTransactionData_CustomerId := 0;
  WriteCheckTransactionData_Amount := 0 |}.
#[export] Instance WriteCheckTransactionData_eq_dec : EqDecision WriteCheckTransactionData.
Proof. solve_decision. Defined.
#[export] Instance WriteCheckTransactionData_countable : Countable WriteCheckTransactionData.
Proof.
  refine (inj_countable' (λ m, (WriteCheckTransactionData_CustomerId m, WriteCheckTransactionData_Amount m))
    (λ '(x0, x1), Build_WriteCheckTransactionData x0 x1) _). by intros [].
Defined.

Record TransactSavingsTransactionData := {
  TransactSavingsTransactionData_CustomerId : Z;
  TransactSavingsTransactionData_Amount : Z }.
#[export] Instance TransactSavingsTransactionData_zero : Inhabited TransactSavingsTransactionData := populate {|
  TransactSavingsTransactionData_CustomerId := 0;
  TransactSavingsTransactionData_Amount := 0 |}.
#[export] Instance TransactSavingsTransactionData_eq_dec : EqDecision TransactSavingsTransactionData.
Proof. solve_decision. Defined.
#[export] Instance TransactSavingsTransactionData_countable : Countable TransactSavingsTransactionData.
Proof.
  refine (inj_countable' (λ m, (TransactSavingsTransactionData_CustomerId m, TransactSavingsTransactionData_Amount m))
    (λ '(x0, x1), Build_TransactSavingsTransactionData x0 x1) _). by intros [].
Defined.

Record SendPaymentTransactionData := {
  SendPaymentTransactionData_SourceCustomerId : Z;
  SendPaymentTransactionData_DestCustomerId : Z;
  SendPaymentTransactionData_Amount : Z }.
#[export] Instance SendPaymentTransactionData_zero : Inhabited SendPaymentTransactionData := populate {|
  SendPaymentTransactionData_SourceCustomerId := 0;
  SendPaymentTransactionData_DestCustomerId := 0;
  SendPaymentTransactionData_Amount := 0 |}.
#[export] Instance SendPaymentTransactionData_eq_dec : EqDecision SendPaymentTransactionData.
Proof. solve_decision. Defined.
#[export] Instance SendPaymentTransactionData_countable : Countable SendPaymentTransactionData.
Proof.
  refine (inj_countable' (λ m, (SendPaymentTransactionData_SourceCustomerId m, SendPaymentTransactionData_DestCustomerId m, SendPaymentTransactionData_Amount m))
    (λ '(x0, x1, x2), Build_SendPaymentTransactionData x0 x1 x2) _). by intros [].
Defined.

Record AmalgamateTransactionData := {
  AmalgamateTransactionData_SourceCustomerId : Z;
  AmalgamateTransactionData_DestCustomerId : Z }.
#[export] Instance AmalgamateTransactionData_zero : Inhabited AmalgamateTransactionData := populate {|
  AmalgamateTransactionData_SourceCustomerId := 0;
  AmalgamateTransactionData_DestCustomerId := 0 |}.
#[export] Instance AmalgamateTransactionData_eq_dec : EqDecision AmalgamateTransactionData.
Proof. solve_decision. Defined.
#[export] Instance AmalgamateTransactionData_countable : Countable AmalgamateTransactionData.
Proof.
  refine (inj_countable' (λ m, (AmalgamateTransactionData_SourceCustomerId m, AmalgamateTransactionData_DestCustomerId m))
    (λ '(x0, x1), Build_AmalgamateTransactionData x0 x1) _). by intros [].
Defined.

Record SmallbankTransactionPayload := {
  SmallbankTransactionPayload_PayloadType : Z;
  SmallbankTransactionPayload_CreateAccount : option CreateAccountTransactionData;
  SmallbankTransactionPayload_DepositChecking : option DepositCheckingTransactionData;
  SmallbankTransactionPayload_WriteCheck : option WriteCheckTransactionData;
  SmallbankTransactionPayload_TransactSavings : option TransactSavingsTransactionData;
  SmallbankTransactionPayload_SendPayment : option SendPaymentTransactionData;
  SmallbankTransactionPayload_Amalgamate : option AmalgamateTransactionData }.
#[export] Instance SmallbankTransactionPayload_zero : Inhabited SmallbankTransactionPayload := populate {|
  SmallbankTransactionPayload_PayloadType := 0;
  SmallbankTransactionPayload_CreateAccount := None;
  SmallbankTransactionPayload_DepositChecking := None;
  SmallbankTransactionPayload_WriteCheck := None;
  SmallbankTransactionPayload_TransactSavings := None;
  SmallbankTransactionPayload_SendPayment := None;
  SmallbankTransactionPayload_Amalgamate := None |}.
#[export] Instance SmallbankTransactionPayload_eq_dec : EqDecision SmallbankTransactionPayload.
Proof. solve_decision. Defined.
#[export] Instance SmallbankTransactionPayload_countable : Countable SmallbankTransactionPayload.
Proof.
  refine (inj_countable' (λ m, (SmallbankTransactionPayload_PayloadType m, SmallbankTransactionPayload_CreateAccount m, SmallbankTransactionPayload_DepositChecking m, SmallbankTransactionPayload_WriteCheck m, SmallbankTransactionPayload_TransactSavings m, SmallbankTransactionPayload_SendPayment m, SmallbankTransactionPayload_Amalgamate m))
    (λ '(x0, x1, x2, x3, x4, x5, x6), Build_SmallbankTransactionPayload x0 x1 x2 x3 x4 x5 x6) _). by intros [].
Defined.


(** ** The handler *)

Definition namespace : string := slice_to 6 (hexdigest "smallbank").

Section handler.
Context {C : Type} `{Connection C, ContextProtos, GoRuntime}.
Context `{Proto SmallbankTransactionPayload, Proto Account}.

Definition make_address (customer_id : Z) : string :=
  namespace +:+ slice_to 64 (hexdigest (Itoa customer_id)).

Definition unpackPayload (payloadData : bytes) : error + SmallbankTransactionPayload :=
  let '(payload, err) := Unmarshal payloadData in
  match err with
  | Some err =>
      inl (internalError ("Failed to unmarshal SmallbankTransaction: %v" +:+ Error err))
  | None => inr payload
  end.

Definition unpackAccount (accountData : bytes) : error + Account :=
  let '(account, err) := Unmarshal accountData in
  match err with
  | Some err => inl (internalError ("Failed to unmarshal Account: %v" +:+ Error err))
  | None => inr account
  end.

Definition loadAccount (customer_id : Z) (context : Context) :
    Go C (error + option Account) :=
  let address := make_address customer_id in
  results ← GetState context [address];
  match results with
  | inl err => mret (inl err)
  | inr results =>
      let data := default "" (results !! address) in
      if decide (0 < len data)%nat then
        match unpackAccount data with
        | inl err => mret (inl err)
        | inr account => mret (inr (Some account))
        end
      else mret (inr None)
  end.

Definition saveAccount (account : Account) (context : Context) : Go C (option error) :=
  let address := make_address (Account_CustomerId account) in
  match Marshal account with
  | inl err => mret (Some (internalError ("Failed to serialize Account:" +:+ Error err)))
  | inr data =>
      addresses ← SetState context {[address := data]};
      match addresses with
      | inl err => mret (Some err)
      | inr addresses =>
          if decide (length addresses = 0%nat)
          then mret (Some (internalError "No addresses in set response"))
          else mret None
      end
  end.

Definition nil_deref {A} : Go C A :=
  go_panic "invalid memory address or nil pointer dereference".

Definition applyCreateAccount (createAccountData : option CreateAccountTransactionData)
    (context : Context) : Go C (option error) :=
  match createAccountData with
  | None => nil_deref
  | Some d =>
      account ← loadAccount (CreateAccountTransactionData_CustomerId d) context;
      match account with
      | inl err => mret (Some err)
      | inr (Some _) => mret (Some (invalidTransaction "Account already exists"))
      | inr None =>
          if decide (CreateAccountTransactionData_CustomerName d = "")
          then mret (Some (invalidTransaction "Customer Name must be set"))
          else
            let new_account := {|
              Account_CustomerId := CreateAccountTransactionData_CustomerId d;
              Account_CustomerName := CreateAccountTransactionData_CustomerName d;
              Account_SavingsBalance := CreateAccountTransactionData_InitialSavingsBalance d;
              Account_CheckingBalance :=
                CreateAccountTransactionData_InitialCheckingBalance d |} in
            _ ← saveAccount new_account context;
            mret None
      end
  end.

Definition applyDepositChecking (depositCheckingData : option DepositCheckingTransactionData)
    (context : Context) : Go C (option error) :=
  match depositCheckingData with
  | None => nil_deref
  | Some d =>
      account ← loadAccount (DepositCheckingTransactionData_CustomerId d) context;
      match account with
      | inl err => mret (Some err)
      | inr None => mret (Some (invalidTransaction "Account must exist"))
      | inr (Some account) =>
          let new_account := {|
            Account_CustomerId := Account_CustomerId account;
            Account_CustomerName := Account_CustomerName account;
            Account_SavingsBalance := Account_SavingsBalance account;
            Account_CheckingBalance := wrap_u32 (Account_CheckingBalance account
              + DepositCheckingTransactionData_Amount d) |} in
          _ ← saveAccount new_account context;
          mret None
      end
  end.

Definition applyWriteCheck (writeCheckData : option WriteCheckTransactionData)
    (context : Context) : Go C (option error) :=
  match writeCheckData with
  | None => nil_deref
  | Some d =>
      account ← loadAccount (WriteCheckTransactionData_CustomerId d) context;
      match account with
      | inl err => mret (Some err)
      | inr None => mret (Some (invalidTransaction "Account must exist"))
      | inr (Some account) =>
          let new_account := {|
            Account_CustomerId := Account_CustomerId account;
            Account_CustomerName := Account_CustomerName account;
            Account_SavingsBalance := Account_SavingsBalance account;
            Account_CheckingBalance := wrap_u32 (Account_CheckingBalance account
              - WriteCheckTransactionData_Amount d) |} in
          _ ← saveAccount new_account context;
          mret None
      end
  end.

(** The new savings balance of [applyTransactSavings]; [None] when the funds do
    not suffice.  The amount is an [int32], negated in [int32] and converted to
    [uint32]. *)
Definition new_savings (balance amount : Z) : option Z :=
  if amount <? 0 then
    if balance <? wrap_u32 (wrap_i32 (- amount)) then None
    else Some (wrap_u32 (balance - wrap_u32 (wrap_i32 (- amount))))
  else Some (wrap_u32 (balance + wrap_u32 amount)).

Definition applyTransactSavings (transactSavingsData : option TransactSavingsTransactionData)
    (context : Context) : Go C (option error) :=
  match transactSavingsData with
  | None => nil_deref
  | Some d =>
      account ← loadAccount (TransactSavingsTransactionData_CustomerId d) context;
      match account with
      | inl err => mret (Some err)
      | inr None => mret (Some (invalidTransaction "Account must exist"))
      | inr (Some account) =>
          match new_savings (Account_SavingsBalance account)
                  (TransactSavingsTransactionData_Amount d) with
          | None =>
              mret (Some (invalidTransaction "Insufficient funds in source savings account"))
          | Some new_balance =>
              let new_account := {|
                Account_CustomerId := Account_CustomerId account;
                Account_CustomerName := Account_CustomerName account;
                Account_SavingsBalance := new_balance;
                Account_CheckingBalance := Account_CheckingBalance account |} in
              _ ← saveAccount new_account context;
              mret None
          end
      end
  end.

Definition applySendPayment (sendPaymentData : option SendPaymentTransactionData)
    (context : Context) : Go C (option error) :=
  match sendPaymentData with
  | None => nil_deref
  | Some d =>
      source_account ← loadAccount (SendPaymentTransactionData_SourceCustomerId d) context;
      match source_account with
      | inl err => mret (Some err)
      | inr source_account =>
      dest_account ← loadAccount (SendPaymentTransactionData_DestCustomerId d) context;
      match dest_account with
      | inl err => mret (Some err)
      | inr dest_account =>
      match source_account, dest_account with
      | Some source_account, Some dest_account =>
          let amount := SendPaymentTransactionData_Amount d in
          if Account_CheckingBalance source_account <? amount then
            mret (Some (invalidTransaction "Insufficient funds in source checking account"))
          else
            let new_source_account := {|
              Account_CustomerId := Account_CustomerId source_account;
              Account_CustomerName := Account_CustomerName source_account;
              Account_SavingsBalance := Account_SavingsBalance source_account;
              Account_CheckingBalance :=
                wrap_u32 (Account_CheckingBalance source_account - amount) |} in
            let new_dest_account := {|
              Account_CustomerId := Account_CustomerId dest_account;
              Account_CustomerName := Account_CustomerName dest_account;
              Account_SavingsBalance := Account_SavingsBalance dest_account;
              Account_CheckingBalance :=
                wrap_u32 (Account_CheckingBalance dest_account + amount) |} in
            _ ← saveAccount new_source_account context;
            _ ← saveAccount new_dest_account context;
            mret None
      | _, _ =>
          mret (Some (invalidTransaction "Both source and dest accounts must exist"))
      end
      end
      end
  end.

Definition applyAmalgamate (amalgamateData : option AmalgamateTransactionData)
    (context : Context) : Go C (option error) :=
  match amalgamateData with
  | None => nil_deref
  | Some d =>
      source_account ← loadAccount (AmalgamateTransactionData_SourceCustomerId d) context;
      match source_account with
      | inl err => mret (Some err)
      | inr source_account =>
      dest_account ← loadAccount (AmalgamateTransactionData_DestCustomerId d) context;
      match dest_account with
      | inl err => mret (Some err)
      | inr dest_account =>
      match source_account, dest_account with
      | Some source_account, Some dest_account =>
          let new_source_account := {|
            Account_CustomerId := Account_CustomerId source_account;
            Account_CustomerName := Account_CustomerName source_account;
            Account_SavingsBalance := 0;
            Account_CheckingBalance := Account_CheckingBalance source_account |} in
          let new_dest_account := {|
            Account_CustomerId := Account_CustomerId dest_account;
            Account_CustomerName := Account_CustomerName dest_account;
            Account_SavingsBalance := Account_SavingsBalance dest_account;
            Account_CheckingBalance := wrap_u32 (Account_CheckingBalance dest_account
              + Account_SavingsBalance source_account) |} in
          _ ← saveAccount new_source_account context;
          _ ← saveAccount new_dest_account context;
          mret None
      | _, _ =>
          mret (Some (invalidTransaction "Both source and dest accounts must exist"))
      end
      end
      end
  end.

Definition Apply (request : TpProcessRequest) (context : Context) : Go C (option error) :=
  match unpackPayload (default "" (TpProcessRequest_Payload request)) with
  | inl err => mret (Some err)
  | inr payload =>
      let t := SmallbankTransactionPayload_PayloadType payload in
      if decide (t = SmallbankTransactionPayload_CREATE_ACCOUNT) then
        applyCreateAccount (SmallbankTransactionPayload_CreateAccount payload) context
      else if decide (t = SmallbankTransactionPayload_DEPOSIT_CHECKING) then
        applyDepositChecking (SmallbankTransactionPayload_DepositChecking payload) context
      else if decide (t = SmallbankTransactionPayload_WRITE_CHECK) then
        applyWriteCheck (SmallbankTransactionPayload_WriteCheck payload) context
      else if decide (t = SmallbankTransactionPayload_TRANSACT_SAVINGS) then
        applyTransactSavings (SmallbankTransactionPayload_TransactSavings payload) context
      else if decide (t = SmallbankTransactionPayload_SEND_PAYMENT) then
        applySendPayment (SmallbankTransactionPayload_SendPayment payload) context
      else if decide (t = SmallbankTransactionPayload_AMALGAMATE) then
        applyAmalgamate (SmallbankTransactionPayload_Amalgamate payload) context
      else
        mret (Some (invalidTransaction ("Invalid PayloadType: '"
          +:+ enum_String SmallbankTransactionPayload_PayloadType_name t +:+ "'")))
  end.

(** The handler as registered with the processor. *)
Definition handler : TransactionHandler C := {|
  FamilyName := "smallbank"; FamilyVersions := ["1.0"]; Namespaces := [namespace];
  Worker.Apply := Apply |}.
End handler.

(** ** Properties *)

(** What the family relies on of the protobuf runtime: accounts are read back as
    written, and a message with a non-empty field is not serialized to
    nothing. *)
Class AccountProto `{Proto Account} : Prop := {
  account_laws :: ProtoLaws Account;
  account_total :: ProtoTotal Account;
  account_nonempty a d : Marshal a = inr d → Account_CustomerName a ≠ "" → d ≠ "" }.

Section props.
Context {C : Type} `{Connection C, ContextProtos, GoRuntime, !StateBacked C}.
Context `{Proto SmallbankTransactionPayload, Proto Account, !AccountProto}.
Implicit Types (c : C) (st : gmap string bytes) (a b : Account).

(** The account the store holds for a customer. *)
Definition account_of st (id : Z) : option Account :=
  match st !! make_address id with
  | Some d => if decide (d = "") then None
              else match unpackAccount d with inr a => Some a | inl _ => None end
  | None => None
  end.

(** An account under its own id, with the name every created account has. *)
Definition holds st (id : Z) a : Prop :=
  account_of st id = Some a ∧ Account_CustomerId a = id ∧ Account_CustomerName a ≠ "".

Lemma default_view st address :
  default "" (store_view st [address] !! address) = default "" (st !! address).
Proof.
  rewrite lookup_store_view_one. destruct (st !! address) as [d|]; [|done]. simpl.
  by destruct (decide (d = "")).
Qed.

Lemma loadAccount_found id ctx c a :
  vok ctx c → readable (C:=C) (make_address id) = true → account_of (vstate c) id = Some a →
  ∃ c', vok ctx c' ∧ vstate c' = vstate c ∧ loadAccount id ctx c = (Ret (inr (Some a)), c').
Proof.
  intros Hc Hrd Ha.
  destruct (GetState_entry ctx (make_address id) c Hc) as (c' & Hc' & Hst & E).
  rewrite Hrd in E. exists c'. split; [done|]. split; [done|]. unfold loadAccount.
  rewrite (go_bind_Ret _ _ _ _ _ E), default_view. unfold account_of in Ha.
  destruct (vstate c !! make_address id) as [d|]; [|done]. simpl.
  destruct (decide (d = "")) as [|Hd]; [done|].
  rewrite decide_True by (rewrite <-len_zero in Hd; lia).
  by destruct (unpackAccount d); simplify_eq.
Qed.

Lemma loadAccount_absent id ctx c :
  vok ctx c → readable (C:=C) (make_address id) = true →
  default "" (vstate c !! make_address id) = "" →
  ∃ c', vok ctx c' ∧ vstate c' = vstate c ∧ loadAccount id ctx c = (Ret (inr None), c').
Proof.
  intros Hc Hrd Ha.
  destruct (GetState_entry ctx (make_address id) c Hc) as (c' & Hc' & Hst & E).
  rewrite Hrd in E. exists c'. split; [done|]. split; [done|]. unfold loadAccount.
  by rewrite (go_bind_Ret _ _ _ _ _ E), default_view, Ha.
Qed.

(** Whatever [saveAccount] reports, the write happens exactly when the address
    may be written. *)
Lemma saveAccount_backed a ctx c :
  vok ctx c → ∃ d e c', Marshal a = inr d ∧ vok ctx c' ∧
    vstate c' = (if writable (C:=C) (make_address (Account_CustomerId a))
                 then <[make_address (Account_CustomerId a) := d]> (vstate c)
                 else vstate c) ∧
    saveAccount a ctx c = (Ret e, c').
Proof.
  intros Hc. destruct (Marshal_total a) as [d Hd].
  destruct (SetState_entry ctx (make_address (Account_CustomerId a)) d c Hc)
    as (c' & Hc' & Hst & E).
  exists d. unfold saveAccount. rewrite Hd, (go_bind_Ret _ _ _ _ _ E).
  destruct (writable (C:=C) _); eauto 10.
Qed.

Lemma account_of_saved st a d id :
  Marshal a = inr d → Account_CustomerName a ≠ "" →
  account_of (<[make_address (Account_CustomerId a) := d]> st) id =
    if decide (make_address id = make_address (Account_CustomerId a)) then Some a
    else account_of st id.
Proof.
  intros Hd Hn. unfold account_of.
  destruct (decide (make_address id = make_address (Account_CustomerId a))) as [->|Hne].
  - rewrite lookup_insert_eq, decide_False by (by eapply account_nonempty).
    unfold unpackAccount. by rewrite (Unmarshal_Marshal _ _ Hd).
  - by rewrite lookup_insert_ne.
Qed.

(** One save, or two in a row, seen on the accounts. *)
Lemma save_one a ctx c :
  vok ctx c → Account_CustomerName a ≠ "" →
  writable (C:=C) (make_address (Account_CustomerId a)) = true →
  ∃ e c', vok ctx c' ∧ saveAccount a ctx c = (Ret e, c') ∧
    ∀ id, account_of (vstate c') id =
      if decide (make_address id = make_address (Account_CustomerId a)) then Some a
      else account_of (vstate c) id.
Proof.
  intros Hc Hn Hw. destruct (saveAccount_backed a ctx c Hc) as (d & e & c' & Hd & Hc' & Hst & E).
  rewrite Hw in Hst. exists e, c'. split; [done|]. split; [done|]. intros id. rewrite Hst.
  by apply account_of_saved.
Qed.

Lemma save_two a b ctx c :
  vok ctx c → Account_CustomerName a ≠ "" → Account_CustomerName b ≠ "" →
  writable (C:=C) (make_address (Account_CustomerId a)) = true →
  writable (C:=C) (make_address (Account_CustomerId b)) = true →
  ∃ c', vok ctx c' ∧
    (_ ← saveAccount a ctx; _ ← saveAccount b ctx; mret (None : option error)) c
      = (Ret None, c') ∧
    ∀ id, account_of (vstate c') id =
      if decide (make_address id = make_address (Account_CustomerId b)) then Some b
      else if decide (make_address id = make_address (Account_CustomerId a)) then Some a
      else account_of (vstate c) id.
Proof.
  intros Hc Ha Hb Hwa Hwb.
  destruct (save_one a ctx c Hc Ha Hwa) as (e1 & c1 & Hc1 & E1 & Hs1).
  destruct (save_one b ctx c1 Hc1 Hb Hwb) as (e2 & c2 & Hc2 & E2 & Hs2).
  exists c2. split; [done|]. split.
  { by rewrite (go_bind_Ret _ _ _ _ _ E1), (go_bind_Ret _ _ _ _ _ E2). }
  intros id. by rewrite Hs2, Hs1.
Qed.

Lemma wrap_u32_neg z : - 2^32 ≤ z < 0 → wrap_u32 z = z + 2^32.
Proof.
  intros Hz. unfold wrap_u32. rewrite <-(Z_mod_plus_full z 1), Z.mod_small; lia.
Qed.
End props.

(** ** Claims *)

#[local] Opaque make_address namespace.

Section claims.
Context {C : Type} `{Connection C, ContextProtos, GoRuntime, !StateBacked C}.
Context `{Proto SmallbankTransactionPayload, Proto Account, !AccountProto}.
Implicit Types (c : C) (a b : Account).


(** A payment of a customer to himself creates money: both accounts are
    loaded before either is saved, so the second save overwrites the debit and
    the balance grows by the amount. *)
Theorem self_payment_creates_money d ctx c a :
  let id := SendPaymentTransactionData_SourceCustomerId d in
  let amount := SendPaymentTransactionData_Amount d in
  SendPaymentTransactionData_DestCustomerId d = id →
  vok ctx c → holds (vstate c) id a →
  readable (C:=C) (make_address id) = true → writable (C:=C) (make_address id) = true →
  0 < amount ≤ Account_CheckingBalance a → is_u32 (Account_CheckingBalance a + amount) →
  ∃ c' a', applySendPayment (Some d) ctx c = (Ret None, c') ∧ holds (vstate c') id a' ∧
    Account_CheckingBalance a' = Account_CheckingBalance a + amount.
Proof.
  intros id amount Hdst Hc (Ha & Hida & Hna) Hrd Hwr Hamt Hsum.
  destruct (loadAccount_found id ctx c a Hc Hrd Ha) as (c1 & Hc1 & Hst1 & E1).
  rewrite <-Hst1 in Ha. destruct (loadAccount_found id ctx c1 a Hc1 Hrd Ha)
    as (c2 & Hc2 & Hst2 & E2).
  unfold applySendPayment. rewrite Hdst. fold id amount.
  rewrite (go_bind_Ret _ _ _ _ _ E1). cbv beta iota zeta.
  rewrite (go_bind_Ret _ _ _ _ _ E2). cbv beta iota zeta.
  destruct (Z.ltb_spec (Account_CheckingBalance a) amount) as [Hlt|Hge]; [lia|].
  match goal with |- context [saveAccount ?x ctx ≫= λ _, saveAccount ?y ctx ≫= _] =>
    set (a' := x); set (b' := y) end.
  destruct (save_two a' b' ctx c2 Hc2) as (c' & Hc' & E & Hall); [done..| | |].
  { simpl. by rewrite Hida. } { simpl. by rewrite Hida. }
  exists c', b'. rewrite E. split; [done|]. simpl in Hall. rewrite Hida in Hall.
  repeat split; simpl; try done.
  - rewrite Hall. by rewrite decide_True.
  - by apply wrap_u32_small.
Qed.

(** Amalgamation between two customers with different addresses moves the
    source's whole savings into the destination's checking account and changes
    nothing else. *)
Theorem amalgamate_moves_savings d ctx c a b :
  let src := AmalgamateTransactionData_SourceCustomerId d in
  let dst := AmalgamateTransactionData_DestCustomerId d in
  vok ctx c → holds (vstate c) src a → holds (vstate c) dst b →
  make_address src ≠ make_address dst →
  (∀ id, id = src ∨ id = dst → readable (C:=C) (make_address id) = true ∧
                               writable (C:=C) (make_address id) = true) →
  is_u32 (Account_CheckingBalance b + Account_SavingsBalance a) →
  ∃ c' a' b', applyAmalgamate (Some d) ctx c = (Ret None, c') ∧
    holds (vstate c') src a' ∧ holds (vstate c') dst b' ∧
    (∀ id, make_address id ≠ make_address src → make_address id ≠ make_address dst →
       account_of (vstate c') id = account_of (vstate c) id) ∧
    Account_SavingsBalance a' = 0 ∧
    Account_CheckingBalance a' = Account_CheckingBalance a ∧
    Account_SavingsBalance b' = Account_SavingsBalance b ∧
    Account_CheckingBalance b' = Account_CheckingBalance b + Account_SavingsBalance a.
Proof.
  intros src dst Hc (Ha & Hida & Hna) (Hb & Hidb & Hnb) Hne Hperm Hu.
  destruct (Hperm src) as [Hrs Hws]; [auto|]. destruct (Hperm dst) as [Hrd Hwd]; [auto|].
  destruct (loadAccount_found src ctx c a Hc Hrs Ha) as (c1 & Hc1 & Hst1 & E1).
  rewrite <-Hst1 in Hb. destruct (loadAccount_found dst ctx c1 b Hc1 Hrd Hb)
    as (c2 & Hc2 & Hst2 & E2).
  unfold applyAmalgamate. fold src dst.
  rewrite (go_bind_Ret _ _ _ _ _ E1). cbv beta iota zeta.
  rewrite (go_bind_Ret _ _ _ _ _ E2). cbv beta iota zeta.
  match goal with |- context [saveAccount ?x ctx ≫= λ _, saveAccount ?y ctx ≫= _] =>
    set (a' := x); set (b' := y) end.
  destruct (save_two a' b' ctx c2 Hc2) as (c' & Hc' & E & Hall); [done..| | |].
  { simpl. by rewrite Hida. } { simpl. by rewrite Hidb. }
  exists c', a', b'. rewrite E. split; [done|]. simpl in Hall. rewrite Hida, Hidb in Hall.
  repeat split; simpl; try done.
  - rewrite Hall. rewrite decide_False by done. by rewrite decide_True.
  - rewrite Hall. by rewrite decide_True.
  - intros id Hi1 Hi2. rewrite Hall, !decide_False by done. congruence.
  - by apply wrap_u32_small.
Qed.

(** Savings transactions, at machine width: a deposit or withdrawal is
    refused exactly when it would make the balance negative (the smallest int32
    amount included), and otherwise the new balance is the exact sum as long as
    that fits in 32 bits. *)
Theorem new_savings_exact balance amount :
  is_u32 balance → is_i32 amount →
  match new_savings balance amount with
  | None => balance + amount < 0
  | Some new => 0 ≤ balance + amount ∧
                (balance + amount < 2^32 → new = balance + amount)
  end.
Proof.
  unfold is_u32, is_i32, new_savings. intros Hb Ha.
  destruct (Z.ltb_spec amount 0).
  - assert (Hw : wrap_u32 (wrap_i32 (- amount)) = - amount).
    { destruct (decide (amount = - 2^31)) as [->|]; [reflexivity|].
      rewrite wrap_i32_small by (unfold is_i32; lia).
      apply wrap_u32_small. unfold is_u32. lia. }
    rewrite Hw. destruct (Z.ltb_spec balance (- amount)); [lia|]. split; [lia|].
    intros _. rewrite wrap_u32_small; unfold is_u32; lia.
  - split; [lia|]. intros Hs. rewrite (wrap_u32_small amount) by (unfold is_u32; lia).
    apply wrap_u32_small. unfold is_u32. lia.
Qed.

(** A check for more than the balance is honoured and the balance wraps
    around: the account ends up with [2^32] minus what it is short of. *)
Theorem overdraft_wraps d ctx c a :
  let id := WriteCheckTransactionData_CustomerId d in
  let amount := WriteCheckTransactionData_Amount d in
  vok ctx c → holds (vstate c) id a →
  readable (C:=C) (make_address id) = true → writable (C:=C) (make_address id) = true →
  is_u32 (Account_CheckingBalance a) → is_u32 amount → Account_CheckingBalance a < amount →
  ∃ c' a', applyWriteCheck (Some d) ctx c = (Ret None, c') ∧ holds (vstate c') id a' ∧
    Account_CheckingBalance a' = 2^32 - (amount - Account_CheckingBalance a).
Proof.
  intros id amount Hc (Ha & Hida & Hna) Hrd Hwr Hu Hm Hlt.
  destruct (loadAccount_found id ctx c a Hc Hrd Ha) as (c1 & Hc1 & Hst1 & E1).
  unfold applyWriteCheck. fold id amount. rewrite (go_bind_Ret _ _ _ _ _ E1).
  cbv beta iota zeta.
  match goal with |- context [saveAccount ?x ctx ≫= _] => set (a' := x) end.
  destruct (save_one a' ctx c1 Hc1) as (e & c' & Hc' & E & Hall); [done| |].
  { simpl. by rewrite Hida. }
  exists c', a'. rewrite (go_bind_Ret _ _ _ _ _ E). split; [done|].
  simpl in Hall. rewrite Hida in Hall. repeat split; simpl; try done.
  - rewrite Hall. by rewrite decide_True.
  - unfold is_u32 in *. rewrite wrap_u32_neg; lia.
Qed.

(** A deposit whose write the validator refuses is reported as a success:
    the error of [saveAccount] is dropped, the balance is unchanged and the
    handler returns no error. *)
Theorem refused_write_reported_as_success d ctx c a :
  let id := DepositCheckingTransactionData_CustomerId d in
  vok ctx c → holds (vstate c) id a →
  readable (C:=C) (make_address id) = true → writable (C:=C) (make_address id) = false →
  ∃ c', applyDepositChecking (Some d) ctx c = (Ret None, c') ∧ vstate c' = vstate c.
Proof.
  intros id Hc (Ha & Hida & Hna) Hrd Hwr.
  destruct (loadAccount_found id ctx c a Hc Hrd Ha) as (c1 & Hc1 & Hst1 & E1).
  unfold applyDepositChecking. fold id. rewrite (go_bind_Ret _ _ _ _ _ E1).
  cbv beta iota zeta.
  match goal with |- context [saveAccount ?x ctx ≫= _] => set (a' := x) end.
  destruct (saveAccount_backed a' ctx c1 Hc1) as (data & e & c' & _ & Hc' & Hst' & E).
  exists c'. rewrite (go_bind_Ret _ _ _ _ _ E). split; [done|].
  simpl in Hst'. rewrite Hida, Hwr in Hst'. congruence.
Qed.
End claims.
#[local] Transparent make_address namespace.

(** ** Witnesses *)

Module witness.
Import demo.

#[export] Instance account_proto : Proto Account := {|
  Marshal a := inr (String "a" (pos_bits (encode a)));
  Unmarshal b :=
    match b with
    | String _ s => match bits_pos s ≫= decode with
                    | Some a => (a, None)
                    | None => (inhabitant, Some (errString "proto: cannot parse"))
                    end
    | "" => (inhabitant, None)
    end |}.
#[export] Instance account_proto_ok : AccountProto.
Proof.
  split.
  - intros a d [= <-]. simpl. rewrite bits_pos_bits. simpl. by rewrite decode_encode.
  - intros a. by eexists.
  - intros a d [= <-]. done.
Qed.
#[export] Instance payload_proto : Proto SmallbankTransactionPayload :=
  countable_proto SmallbankTransactionPayload.

Definition acc (id savings checking : Z) : Account := {|
  Account_CustomerId := id; Account_CustomerName := "c";
  Account_SavingsBalance := savings; Account_CheckingBalance := checking |}.
Definition save (st : gmap string bytes) (a : Account) : gmap string bytes :=
  <[make_address (Account_CustomerId a) := String "a" (pos_bits (encode a))]> st.
Definition st1 : gmap string bytes := save ∅ (acc 1 30 100).
Definition st2 : gmap string bytes := save st1 (acc 2 5 7).
Definition ctx := NewContext "c".
Definition none (a : string) : bool := false.
#[local] Instance wbacked wr : @StateBacked _ (conn wr) _ _ := backed wr.

Lemma addresses_differ : make_address 1 ≠ make_address 2.
Proof. vm_compute. discriminate. Qed.
Lemma holds_st1 : holds st1 1 (acc 1 30 100).
Proof. split; [vm_compute; reflexivity|done]. Qed.
Lemma holds_st2 : holds st2 1 (acc 1 30 100) ∧ holds st2 2 (acc 2 5 7).
Proof. split; (split; [vm_compute; reflexivity|done]). Qed.


Lemma self_payment_creates_money_witness :
  ∃ c' a', applySendPayment (H := conn all)
      (Some (Build_SendPaymentTransactionData 1 1 60)) ctx (at_rest st1) = (Ret None, c') ∧
    holds (sim_store c') 1 a' ∧ Account_CheckingBalance a' = 160.
Proof.
  destruct (self_payment_creates_money (H := conn all)
    (Build_SendPaymentTransactionData 1 1 60) ctx (at_rest st1) (acc 1 30 100))
    as (c' & a' & E & Ha & Hca).
  - reflexivity.
  - apply at_rest_ok.
  - apply holds_st1.
  - reflexivity.
  - reflexivity.
  - simpl. lia.
  - unfold is_u32. simpl. lia.
  - exists c', a'. split; [exact E|]. split; [exact Ha|exact Hca].
Defined.

Lemma amalgamate_moves_savings_witness :
  ∃ c' a' b', applyAmalgamate (H := conn all)
      (Some (Build_AmalgamateTransactionData 1 2)) ctx (at_rest st2) = (Ret None, c') ∧
    holds (sim_store c') 1 a' ∧ holds (sim_store c') 2 b' ∧
    Account_SavingsBalance a' = 0 ∧ Account_CheckingBalance b' = 37.
Proof.
  destruct (amalgamate_moves_savings (H := conn all) (Build_AmalgamateTransactionData 1 2) ctx
    (at_rest st2) (acc 1 30 100) (acc 2 5 7)) as (c' & a' & b' & E & Ha & Hb & _ & Hs & _ & _ & Hc).
  - apply at_rest_ok.
  - apply holds_st2.
  - apply holds_st2.
  - apply addresses_differ.
  - intros id _. split; reflexivity.
  - unfold is_u32. simpl. lia.
  - exists c', a', b'. split; [exact E|]. split; [exact Ha|]. split; [exact Hb|].
    split; [exact Hs|exact Hc].
Defined.

Lemma new_savings_exact_witness :
  is_u32 100 ∧ is_i32 (-40) ∧
  match new_savings 100 (-40) with
  | None => 100 + (-40) < 0
  | Some new => 0 ≤ 100 + (-40) ∧ (100 + (-40) < 2^32 → new = 100 + (-40))
  end.
Proof.
  split; [unfold is_u32; lia|]. split; [unfold is_i32; lia|].
  apply (new_savings_exact 100 (-40)); [unfold is_u32|unfold is_i32]; lia.
Defined.

Lemma overdraft_wraps_witness :
  ∃ c' a', applyWriteCheck (H := conn all)
      (Some (Build_WriteCheckTransactionData 1 101)) ctx (at_rest st1) = (Ret None, c') ∧
    holds (sim_store c') 1 a' ∧ Account_CheckingBalance a' = 4294967295.
Proof.
  destruct (overdraft_wraps (H := conn all) (Build_WriteCheckTransactionData 1 101) ctx
    (at_rest st1) (acc 1 30 100)) as (c' & a' & E & Ha & Hca).
  - apply at_rest_ok.
  - apply holds_st1.
  - reflexivity.
  - reflexivity.
  - unfold is_u32. simpl. lia.
  - unfold is_u32. simpl. lia.
  - simpl. lia.
  - exists c', a'. split; [exact E|]. split; [exact Ha|exact Hca].
Defined.

Lemma refused_write_reported_as_success_witness :
  ∃ c', applyDepositChecking (H := conn none)
      (Some (Build_DepositCheckingTransactionData 1 10)) ctx (at_rest st1) = (Ret None, c') ∧
    sim_store c' = st1.
Proof.
  destruct (refused_write_reported_as_success (H := conn none)
    (Build_DepositCheckingTransactionData 1 10) ctx (at_rest st1) (acc 1 30 100))
    as (c' & E & Hst).
  - apply at_rest_ok.
  - apply holds_st1.
  - reflexivity.
  - reflexivity.
  - exists c'. split; [exact E|exact Hst].
Defined.
End witness.
End smallbank.
