(* ===== verification/Xo.v ===== *)
(** * The xo transaction family

    Models [examples/xo_go/src/sawtooth_xo]: the payload parser
    ([xo_payload.FromBytes]), the state wrapper with its address cache
    ([xo_state]) and the handler ([handler.Apply] with its validation and display
    helpers).  Code of [XoState] runs over the pair of the wrapper and the
    connection; indexing, slicing and [strings.Repeat] panic as in Go.  What the
    display helpers print is their result, a list of lines.  The handler is
    verified against [StateBacked]. *)

From S2P Require Import Prelude GoLib Sha512 Errors Protobuf Messaging Answering ProcContext Worker Validator.

Module xo.
Local Open Scope Z_scope.

(** ** xo_payload *)

Record XoPayload := {
  XoPayload_Name : string; XoPayload_Action : string; XoPayload_Space : Z }.

Definition FromBytes (payloadData : option bytes) : error + XoPayload :=
  match payloadData with
  | None => inl (invalidTransaction "Must contain payload")
  | Some payloadData =>
      match Split "," payloadData with
      | [p0; p1; p2] =>
          if decide (len p0 < 1)%nat then inl (invalidTransaction "Name is required")
          else if decide (len p1 < 1)%nat then inl (invalidTransaction "Action is required")
          else
            let space := if decide (p1 = "take") then
                           match Atoi p2 with
                           | None => inl (invalidTransaction
                                            ("Invalid Space: '" +:+ p2 +:+ "'"))
                           | Some space => inr space
                           end
                         else inr 0 in
            match space with
            | inl err => inl err
            | inr space =>
                if Contains p0 "|" then
                  inl (invalidTransaction ("Invalid Name (char '|' not allowed): '"
                                           +:+ p2 +:+ "'"))
                else inr {| XoPayload_Name := p0; XoPayload_Action := p1;
                            XoPayload_Space := space |}
            end
      | _ => inl (invalidTransaction "Payload is malformed")
      end
  end.

(** ** xo_state *)

Definition Namespace : string := slice_to 6 (hexdigest "xo").

Record Game := {
  Game_Board : string; Game_State : string; Game_Player1 : string;
  Game_Player2 : string; Game_Name : string }.

(** The cache maps an address to its data; [None] is the nil slice it holds for
    an address without data. *)
Record XoState := {
  context : Context;
  addressCache : gmap string (option bytes) }.

Definition NewXoState (context : Context) : XoState :=
  {| context := context; addressCache := ∅ |}.

Definition makeAddress (name : string) : string :=
  Namespace +:+ slice_to 64 (hexdigest name).

Definition game_of_parts (parts : list string) : option Game :=
  match parts with
  | [p0; p1; p2; p3; p4] =>
      Some {| Game_Name := p0; Game_Board := p1; Game_State := p2;
              Game_Player1 := p3; Game_Player2 := p4 |}
  | _ => None
  end.

(** The loop of [deserialize] over the pieces of the data. *)
Fixpoint deserialize_loop (data : bytes) (strs : list string) (games : gmap string Game) :
    error + gmap string Game :=
  match strs with
  | [] => inr games
  | str :: rest =>
      match game_of_parts (Split "," str) with
      | None => inl (internalError ("Malformed game data: '" +:+ data +:+ "'"))
      | Some game => deserialize_loop data rest (<[Game_Name game := game]> games)
      end
  end.
Definition deserialize (data : bytes) : error + gmap string Game :=
  deserialize_loop data (Split "|" data) ∅.

(** The loop of [serialize]: every game but the last is followed by a bar. *)
Fixpoint serialize_loop (games : list Game) : bytes :=
  match games with
  | [] => ""
  | game :: rest =>
      Game_Name game +:+ "," +:+ Game_Board game +:+ "," +:+ Game_State game +:+ ","
      +:+ Game_Player1 game +:+ "," +:+ Game_Player2 game
      +:+ match rest with [] => "" | _ => "|" +:+ serialize_loop rest end
  end.
(** [buffer.Bytes()] is nil when nothing was written. *)
Definition serialize (games : list Game) : option bytes :=
  let buffer := serialize_loop games in
  if decide (buffer = "") then None else Some buffer.

Section state.
Context {C : Type} `{Connection C, ContextProtos, GoRuntime}.

Definition xs_cache (address : string) (data : option bytes) : Go (XoState * C) unit :=
  go_modify (λ '(self, c), ({| context := context self;
                               addressCache := <[address := data]> (addressCache self) |}, c)).

(** A call to the validator through the wrapper's context. *)
Definition xs_call {A} (f : Context → Go C A) : Go (XoState * C) A := λ '(self, c),
  let '(r, c') := f (context self) c in (r, (self, c')).

Definition loadGames (name : string) : Go (XoState * C) (error + gmap string Game) :=
  let address := makeAddress name in
  '(self, _) ← go_get;
  match addressCache self !! address with
  | Some data =>
      match data with
      | Some data => mret (deserialize data)
      | None => mret (inr ∅)
      end
  | None =>
      results ← xs_call (λ ctx, GetState ctx [address]);
      match results with
      | inl err => mret (inl err)
      | inr results =>
          let data := results !! address in
          if decide (0 < len (default "" data))%nat then
            _ ← xs_cache address data;
            mret (deserialize (default "" data))
          else
            _ ← xs_cache address None;
            mret (inr ∅)
      end
  end.

Definition storeGames (name : string) (games : gmap string Game) :
    Go (XoState * C) (option error) :=
  let address := makeAddress name in
  let names := sort_Strings (range games).*1 in
  let g := omap (λ name, games !! name) names in
  let data := serialize g in
  _ ← xs_cache address data;
  r ← xs_call (λ ctx, SetState ctx {[address := default "" data]});
  match r with
  | inl err => mret (Some err)
  | inr _ => mret None
  end.

Definition deleteGames (name : string) : Go (XoState * C) (option error) :=
  let address := makeAddress name in
  r ← xs_call (λ ctx, DeleteState ctx [address]);
  match r with
  | inl err => mret (Some err)
  | inr _ => mret None
  end.

Definition GetGame (name : string) : Go (XoState * C) (error + option Game) :=
  games ← loadGames name;
  match games with
  | inl err => mret (inl err)
  | inr games => mret (inr (games !! name))
  end.

Definition SetGame (name : string) (game : Game) : Go (XoState * C) (option error) :=
  games ← loadGames name;
  match games with
  | inl err => mret (Some err)
  | inr games => storeGames name (<[name := game]> games)
  end.

Definition DeleteGame (name : string) : Go (XoState * C) (option error) :=
  games ← loadGames name;
  match games with
  | inl err => mret (Some err)
  | inr games =>
      let games := delete name games in
      if decide (0 < size games)%nat then storeGames name games else deleteGames name
  end.
End state.

(** ** handler: the board *)

Section board.
Context {S : Type}.

(** [s[i]] on a string. *)
Definition index (s : string) (i : Z) : Go S ascii :=
  match str_at s i with
  | Some c => mret c
  | None => go_panic "index out of range"
  end.

(** [s[:n]] *)
Definition slice (s : string) (n : nat) : Go S string :=
  if decide (n ≤ len s)%nat then mret (slice_to n s)
  else go_panic "slice bounds out of range".

(** [boardRunes := []rune(board); boardRunes[i] = r; string(boardRunes)] *)
Definition set_rune (board : string) (i : Z) (r : Z) : Go S string :=
  let boardRunes := string_to_runes board in
  if ((0 <=? i) && (i <? Z.of_nat (length boardRunes)))%Z
  then mret (runes_to_string (<[Z.to_nat i := r]> boardRunes))
  else go_panic "index out of range".

Definition wins : list (Z * Z * Z) :=
  [(1, 2, 3); (4, 5, 6); (7, 8, 9);
   (1, 4, 7); (2, 5, 8); (3, 6, 9);
   (1, 5, 9); (3, 5, 7)].

(** The condition of the loop of [isWin], with its short-circuit evaluation. *)
Definition full_line (board : string) (letter : ascii) (win : Z * Z * Z) : Go S bool :=
  let '(w0, w1, w2) := win in
  b0 ← index board (w0 - 1);
  if decide (b0 ≠ letter) then mret false else
  b1 ← index board (w1 - 1);
  if decide (b1 ≠ letter) then mret false else
  b2 ← index board (w2 - 1);
  mret (bool_decide (b2 = letter)).

Fixpoint isWin_loop (board : string) (letter : ascii) (l : list (Z * Z * Z)) : Go S bool :=
  match l with
  | [] => mret false
  | win :: rest =>
      full ← full_line board letter win;
      if (full : bool) then mret true else isWin_loop board letter rest
  end.
Definition isWin (board : string) (letter : ascii) : Go S bool :=
  isWin_loop board letter wins.

(** ** handler: display *)

Definition blankify (char : ascii) : ascii := if decide (char = "-"%char) then " " else char.

Definition center (text : string) (width : Z) : Go S string :=
  let l := Z.of_nat (len text) in
  let space := width - l - 2 in
  if Z.rem space 2 =? 0 then
    s1 ← Repeat " " (Z.quot space 2);
    s2 ← Repeat " " (Z.quot space 2);
    mret ("+" +:+ s1 +:+ text +:+ s2 +:+ "+")
  else
    s1 ← Repeat " " (Z.quot space 2);
    s2 ← Repeat " " (Z.quot space 2 + 1);
    mret ("+" +:+ s1 +:+ text +:+ s2 +:+ "+").

Definition sliceIfLongEnough (text : string) (num : nat) : string :=
  if decide (num < len text)%nat then slice_to num text
  else if decide (0 < len text)%nat then slice_to (len text - 1) text
  else text.

Definition displayCreate (payload : XoPayload) (signer : string) : Go S (list string) :=
  signer6 ← slice signer 6;
  let s := "+ Player " +:+ signer6 +:+ " created game " +:+ XoPayload_Name payload +:+ " +" in
  let sLength := Z.of_nat (len s) in
  dashes ← Repeat "-" (sLength - 2);
  let border := "+" +:+ dashes +:+ "+" in
  mret [border; s; border].

(** One row of the board: [%c] of a byte prints the rune with its number. *)
Definition board_row (space : string) (board : string) (i : Z) : Go S string :=
  let c x := unchars (encode_rune (byte_val (blankify x))) in
  x ← index board i;
  y ← index board (i + 1);
  z ← index board (i + 2);
  mret ("+" +:+ space +:+ " " +:+ c x +:+ " | " +:+ c y +:+ " | " +:+ c z +:+ " "
        +:+ space +:+ "+").

Definition displayTake (payload : XoPayload) (signer : string) (game : Game) :
    Go S (list string) :=
  signer6 ← slice signer 6;
  let s := "+ Player " +:+ signer6 +:+ " takes space " +:+ Itoa (XoPayload_Space payload)
           +:+ " +" in
  let sLength := Z.of_nat (len s) in
  dashes ← Repeat "-" (sLength - 2);
  let border := "+" +:+ dashes +:+ "+" in
  blanks ← Repeat " " (sLength - 2);
  let blank := "+" +:+ blanks +:+ "+" in
  g ← center ("Game: " +:+ Game_Name game) sLength;
  state ← center ("State: " +:+ Game_State game) sLength;
  p1 ← center ("Player1: " +:+ sliceIfLongEnough (Game_Player1 game) 6) sLength;
  p2 ← center ("Player2: " +:+ sliceIfLongEnough (Game_Player2 game) 6) sLength;
  space ← Repeat " " (Z.quot (sLength - 2 - 11) 2);
  let xoBoardLine := "+" +:+ space +:+ "---|---|---" +:+ space +:+ "+" in
  row1 ← board_row space (Game_Board game) 0;
  row2 ← board_row space (Game_Board game) 3;
  row3 ← board_row space (Game_Board game) 6;
  mret [border; s; blank; g; state; p1; p2; row1; xoBoardLine; row2; xoBoardLine; row3; border].

(** ** handler: a move *)

(** Players are assigned on their first move. *)
Definition assign_players (game : Game) (player : string) : Game :=
  if decide (Game_Player1 game = "") then
    {| Game_Board := Game_Board game; Game_State := Game_State game;
       Game_Player1 := player; Game_Player2 := Game_Player2 game;
       Game_Name := Game_Name game |}
  else if decide (Game_Player2 game = "") then
    {| Game_Board := Game_Board game; Game_State := Game_State game;
       Game_Player1 := Game_Player1 game; Game_Player2 := player;
       Game_Name := Game_Name game |}
  else game.

Definition with_board (game : Game) (board state : string) : Game :=
  {| Game_Board := board; Game_State := state; Game_Player1 := Game_Player1 game;
     Game_Player2 := Game_Player2 game; Game_Name := Game_Name game |}.

(** The state after a move, from the new board. *)
Definition judge (game : Game) : Go S Game :=
  x ← isWin (Game_Board game) "X";
  if (x : bool) then mret (with_board game (Game_Board game) "P1-WIN") else
  o ← isWin (Game_Board game) "O";
  if (o : bool) then mret (with_board game (Game_Board game) "P2-WIN") else
  if negb (Contains (Game_Board game) "-")
  then mret (with_board game (Game_Board game) "TIE") else mret game.

(** The part of the "take" case between reading and displaying the game. *)
Definition take_turn (game : Game) (player : string) (space : Z) : Go S (error + Game) :=
  let game := assign_players game player in
  if decide (Game_State game = "P1-NEXT" ∧ player = Game_Player1 game) then
    board ← set_rune (Game_Board game) (wrap_i64 (space - 1)) (byte_val "X");
    game ← judge (with_board game board "P2-NEXT");
    mret (inr game)
  else if decide (Game_State game = "P2-NEXT" ∧ player = Game_Player2 game) then
    board ← set_rune (Game_Board game) (wrap_i64 (space - 1)) (byte_val "O");
    game ← judge (with_board game board "P1-NEXT");
    mret (inr game)
  else mret (inl (invalidTransaction ("Not this player's turn: '" +:+ player +:+ "'"))).
End board.

(** ** handler: Apply *)

Section handler.
Context {C : Type} `{Connection C, ContextProtos, GoRuntime}.

Definition validateCreate (name : string) : Go (XoState * C) (option error) :=
  game ← GetGame name;
  match game with
  | inl err => mret (Some err)
  | inr (Some _) => mret (Some (invalidTransaction "Game already exists"))
  | inr None => mret None
  end.

Definition validateDelete (name : string) : Go (XoState * C) (option error) :=
  game ← GetGame name;
  match game with
  | inl err => mret (Some err)
  | inr None => mret (Some (invalidTransaction "Delete requires an existing game"))
  | inr (Some _) => mret None
  end.

(** The state test is written twice in the source; the second one is never
    reached with a finished game. *)
Definition validateTake (payload : XoPayload) (signer : string) :
    Go (XoState * C) (option error) :=
  game ← GetGame (XoPayload_Name payload);
  match game with
  | inl err => mret (Some err)
  | inr None => mret (Some (invalidTransaction "Take requires an existing game"))
  | inr (Some game) =>
      if decide (Game_State game = "P1-WIN" ∨ Game_State game = "P2-WIN" ∨
                 Game_State game = "TIE")
      then mret (Some (invalidTransaction "Game has ended"))
      else
        c ← index (Game_Board game) (wrap_i64 (XoPayload_Space payload - 1));
        if decide (c ≠ "-"%char) then mret (Some (invalidTransaction "Space already taken"))
        else mret None
  end.

Definition new_game (name : string) : Game := {|
  Game_Board := "---------"; Game_State := "P1-NEXT"; Game_Player1 := "";
  Game_Player2 := ""; Game_Name := name |}.

(** The cases of the switch on the action. *)
Definition apply_create (payload : XoPayload) (player : string) :
    Go (XoState * C) (option error) :=
  err ← validateCreate (XoPayload_Name payload);
  match err with
  | Some err => mret (Some err)
  | None =>
      _ ← displayCreate payload player;
      SetGame (XoPayload_Name payload) (new_game (XoPayload_Name payload))
  end.

Definition apply_delete (payload : XoPayload) : Go (XoState * C) (option error) :=
  err ← validateDelete (XoPayload_Name payload);
  match err with
  | Some err => mret (Some err)
  | None => DeleteGame (XoPayload_Name payload)
  end.

Definition apply_take (payload : XoPayload) (player : string) :
    Go (XoState * C) (option error) :=
  err ← validateTake payload player;
  match err with
  | Some err => mret (Some err)
  | None =>
      game ← GetGame (XoPayload_Name payload);
      match game with
      | inl err => mret (Some err)
      | inr None => go_panic "invalid memory address or nil pointer dereference"
      | inr (Some game) =>
          game ← take_turn game player (XoPayload_Space payload);
          match game with
          | inl err => mret (Some err)
          | inr game =>
              _ ← displayTake payload player game;
              SetGame (XoPayload_Name payload) game
          end
      end
  end.

Definition apply_action (payload : XoPayload) (player : string) :
    Go (XoState * C) (option error) :=
  if decide (XoPayload_Action payload = "create") then apply_create payload player
  else if decide (XoPayload_Action payload = "delete") then apply_delete payload
  else if decide (XoPayload_Action payload = "take") then apply_take payload player
  else mret (Some (invalidTransaction
                     ("Invalid Action : '" +:+ XoPayload_Action payload +:+ "'"))).

(** Code over a fresh [XoState], which is dropped at the end. *)
Definition with_state {A} (xs : XoState) (m : Go (XoState * C) A) : Go C A := λ c,
  let '(r, (_, c')) := m (xs, c) in (r, c').

Definition Apply (request : TpProcessRequest) (context : Context) : Go C (option error) :=
  let header := TpProcessRequest_Header request in
  let player := TransactionHeader_GetSignerPublicKey header in
  match FromBytes (TpProcessRequest_Payload request) with
  | inl err => mret (Some err)
  | inr payload => with_state (NewXoState context) (apply_action payload player)
  end.

(** The handler as registered with the processor. *)
Definition handler : TransactionHandler C := {|
  FamilyName := "xo"; FamilyVersions := ["1.0"]; Namespaces := [Namespace];
  Worker.Apply := Apply |}.
End handler.

(** ** Serialization *)

(** A field that can be stored: it has neither of the separators. *)
Definition field_ok (s : string) : Prop := Contains s "," = false ∧ Contains s "|" = false.

Definition game_clean (g : Game) : Prop :=
  field_ok (Game_Name g) ∧ field_ok (Game_Board g) ∧ field_ok (Game_State g) ∧
  field_ok (Game_Player1 g) ∧ field_ok (Game_Player2 g).

(** What is stored at an address: clean games under their own names. *)
Definition games_clean (games : gmap string Game) : Prop :=
  map_Forall (λ n g, Game_Name g = n ∧ game_clean g) games.

Definition game_line (g : Game) : string :=
  Join "," [Game_Name g; Game_Board g; Game_State g; Game_Player1 g; Game_Player2 g].

Lemma serialize_line g rest :
  serialize_loop (g :: rest) =
    game_line g +:+ match rest with [] => "" | _ => "|" +:+ serialize_loop rest end.
Proof.
  unfold game_line. cbn [serialize_loop Join].
  by repeat first [rewrite !str_app_assoc | rewrite !str_app_cons].
Qed.

Lemma serialize_Join games : serialize_loop games = Join "|" (game_line <$> games).
Proof.
  induction games as [|g rest IH]; [done|]. rewrite serialize_line, IH.
  destruct rest as [|g' rest]; [by rewrite str_app_nil_r|done].
Qed.

Lemma Contains_Join c sep l :
  Contains (Join sep l) c = true → sep = c ∨ ∃ p, p ∈ l ∧ Contains p c = true.
Proof.
  induction l as [|p l IH]; [done|]. destruct l as [|q l].
  - simpl. right. exists p. set_solver.
  - change (Join sep (p :: q :: l)) with (p +:+ String sep (Join sep (q :: l))).
    rewrite Contains_app, Contains_cons. intros [Hp|[Hs|Hr]%orb_true_iff]%orb_true_iff.
    + right. exists p. set_solver.
    + left. by apply bool_decide_eq_true in Hs.
    + destruct (IH Hr) as [|(p' & ? & ?)]; [by left|]. right. exists p'. set_solver.
Qed.

Lemma game_line_no_bar g : game_clean g → Contains (game_line g) "|" = false.
Proof.
  intros ([_ H0] & [_ H1] & [_ H2] & [_ H3] & [_ H4]). apply not_true_iff_false. intros H.
  apply Contains_Join in H as [|(p & Hp & H)]; [done|].
  rewrite !elem_of_cons in Hp. destruct Hp as [->|[->|[->|[->|[->|Hp]]]]]; [congruence..|].
  by apply not_elem_of_nil in Hp.
Qed.

Lemma game_of_line g : game_clean g → game_of_parts (Split "," (game_line g)) = Some g.
Proof.
  intros ([H0 _] & [H1 _] & [H2 _] & [H3 _] & [H4 _]). unfold game_line.
  rewrite Split_Join; [by destruct g|done|]. by repeat constructor.
Qed.

Lemma deserialize_lines data games m :
  Forall game_clean games →
  deserialize_loop data (game_line <$> games) m =
    inr (foldl (λ m g, <[Game_Name g := g]> m) m games).
Proof.
  intros Hg. revert m. induction Hg as [|g games Hg _ IH]; intros m; [done|]. simpl.
  by rewrite game_of_line, IH.
Qed.

Lemma foldl_games (m : gmap string Game) games (acc : gmap string Game) :
  Forall (λ g, m !! Game_Name g = Some g) games →
  ∀ k, foldl (λ m g, <[Game_Name g := g]> m) acc games !! k =
       if decide (k ∈ Game_Name <$> games) then m !! k else acc !! k.
Proof.
  intros Hg. revert acc. induction Hg as [|g games Hg _ IH]; intros acc k; simpl; [done|].
  rewrite IH. destruct (decide (k ∈ Game_Name <$> games)) as [Hk|Hk].
  - rewrite decide_True by set_solver. done.
  - destruct (decide (k = Game_Name g)) as [->|Hne].
    + rewrite decide_True by set_solver. by rewrite lookup_insert_eq.
    + rewrite lookup_insert_ne by done. rewrite decide_False by set_solver. done.
Qed.

(** The games of a map in the order in which they are stored. *)
Definition sorted_games `{GoRuntime} (games : gmap string Game) : list Game :=
  omap (λ name, games !! name) (sort_Strings (range games).*1).

Section roundtrip.
Context `{GoRuntime}.
Implicit Types games : gmap string Game.

Lemma elem_of_sorted_games games g :
  g ∈ sorted_games games ↔ ∃ n, games !! n = Some g.
Proof.
  unfold sorted_games. rewrite list_elem_of_omap. split; [naive_solver|].
  intros [n Hn]. exists n. split; [|done]. rewrite sort_Strings_perm.
  apply list_elem_of_fmap. exists (n, g). by rewrite elem_of_range.
Qed.

Lemma serialize_some games :
  games ≠ ∅ → serialize (sorted_games games) = Some (serialize_loop (sorted_games games)).
Proof.
  intros Hne. unfold serialize. rewrite decide_False; [done|]. intros E.
  apply map_choose in Hne as (n & g & Hg).
  assert (Hin : g ∈ sorted_games games) by (apply elem_of_sorted_games; eauto).
  destruct (sorted_games games) as [|g' rest]; [set_solver|].
  simpl in E. by destruct (Game_Name g').
Qed.

Lemma deserialize_sorted games :
  games ≠ ∅ → games_clean games →
  deserialize (serialize_loop (sorted_games games)) = inr games.
Proof.
  intros Hne Hcl. assert (Hall : Forall (λ g, game_clean g ∧ games !! Game_Name g = Some g)
                                   (sorted_games games)).
  { apply list.Forall_forall. intros g [n Hn]%elem_of_sorted_games.
    destruct (Hcl n g Hn) as [<- ?]. done. }
  assert (Hclean : Forall game_clean (sorted_games games))
    by (eapply list.Forall_impl; [exact Hall|]; by intros ? [? ?]).
  assert (Hlook : Forall (λ g, games !! Game_Name g = Some g) (sorted_games games))
    by (eapply list.Forall_impl; [exact Hall|]; by intros ? [? ?]).
  unfold deserialize. rewrite serialize_Join. rewrite Split_Join.
  - rewrite deserialize_lines by done. f_equal. apply map_eq. intros k.
    rewrite (foldl_games games) by done. destruct (decide _) as [Hk|Hk]; [done|].
    rewrite lookup_empty. destruct (games !! k) as [g|] eqn:E; [|done]. exfalso. apply Hk.
    apply list_elem_of_fmap. exists g. split; [by destruct (Hcl k g E)|].
    apply elem_of_sorted_games. eauto.
  - intros E%fmap_nil_inv. apply map_choose in Hne as (n & g & Hg).
    assert (Hin : g ∈ sorted_games games) by (apply elem_of_sorted_games; eauto).
    rewrite E in Hin. by apply not_elem_of_nil in Hin.
  - apply Forall_fmap. eapply list.Forall_impl; [exact Hclean|]. intros g Hg. by apply game_line_no_bar.
Qed.
End roundtrip.

(** Whatever parses is clean. *)
Lemma deserialize_loop_clean data strs acc games :
  Forall (λ s, Contains s "|" = false) strs → games_clean acc →
  deserialize_loop data strs acc = inr games → games_clean games.
Proof.
  intros Hs. revert acc. induction Hs as [|s strs Hs _ IH]; intros acc Hacc E; simpl in E.
  { by simplify_eq. }
  destruct (game_of_parts (Split "," s)) as [g|] eqn:Eg; [|done].
  apply IH in E; [done|]. apply map_Forall_insert_intro; [|done]. split; [done|].
  assert (Hp : Forall field_ok (Split "," s)).
  { apply list.Forall_forall. intros p Hp. split.
    - pose proof (Split_pieces "," s) as Hall. rewrite list.Forall_forall in Hall. by apply Hall.
    - apply not_true_iff_false. intros Hc. by rewrite (Split_Contains _ _ _ _ Hp Hc) in Hs. }
  unfold game_of_parts in Eg. go_split. unfold game_clean. simpl.
  repeat match goal with Hf : Forall _ (_ :: _) |- _ => apply Forall_cons_1 in Hf as [? Hf] end.
  auto.
Qed.

Lemma deserialize_clean data games : deserialize data = inr games → games_clean games.
Proof.
  apply deserialize_loop_clean; [apply Split_pieces|apply map_Forall_empty].
Qed.

(** ** The board code is stateless *)

Lemma stateless_index s i : stateless (λ S, index (S:=S) s i).
Proof. unfold index. solve_stateless. Qed.
Lemma stateless_slice s n : stateless (λ S, slice (S:=S) s n).
Proof. unfold slice. solve_stateless. Qed.
Lemma stateless_Repeat s n : stateless (λ S, Repeat (S:=S) s n).
Proof. unfold Repeat. solve_stateless. Qed.
Lemma stateless_set_rune b i r : stateless (λ S, set_rune (S:=S) b i r).
Proof. unfold set_rune. solve_stateless. Qed.
#[local] Hint Resolve stateless_index stateless_slice stateless_Repeat
  stateless_set_rune : sdk.

Lemma stateless_isWin b l : stateless (λ S, isWin (S:=S) b l).
Proof.
  unfold isWin. induction wins as [|w ws IH]; simpl; [solve_stateless|].
  apply stateless_bind; [|intros []; solve_stateless]. unfold full_line.
  destruct w as [[w0 w1] w2]. solve_stateless.
Qed.
#[local] Hint Resolve stateless_isWin : sdk.

Lemma stateless_take_turn g player space : stateless (λ S, take_turn (S:=S) g player space).
Proof. unfold take_turn, judge. solve_stateless. Qed.
Lemma stateless_displayCreate p s : stateless (λ S, displayCreate (S:=S) p s).
Proof. unfold displayCreate. solve_stateless. Qed.
Lemma stateless_center t w : stateless (λ S, center (S:=S) t w).
Proof. unfold center. solve_stateless. Qed.
#[local] Hint Resolve stateless_center : sdk.
Lemma stateless_displayTake p s g : stateless (λ S, displayTake (S:=S) p s g).
Proof. unfold displayTake, board_row. solve_stateless. Qed.

(** ** The state wrapper against the validator *)

#[local] Opaque makeAddress Namespace.

(** The games stored for a name. *)
Definition games_at (st : gmap string bytes) (name : string) : error + gmap string Game :=
  match st !! makeAddress name with
  | Some d => if decide (d = "") then inr ∅ else deserialize d
  | None => inr ∅
  end.

Section backed.
Context {C : Type} `{Connection C, ContextProtos, GoRuntime, !StateBacked C}.
Implicit Types (p : XoState * C) (st : gmap string bytes).

(** The cache agrees with the validator: it holds what is stored, for readable
    addresses. *)
Definition cached_ok st (address : string) (data : option bytes) : Prop :=
  readable (C:=C) address = true ∧
  match data with
  | Some d => st !! address = Some d ∧ d ≠ ""
  | None => default "" (st !! address) = ""
  end.
Section in_context.
Context (ctx : Context).

Definition xs_ok p : Prop :=
  context p.1 = ctx ∧ vok ctx p.2 ∧ map_Forall (cached_ok (vstate p.2)) (addressCache p.1).

Definition load_result st (name : string) : error + gmap string Game :=
  if readable (C:=C) (makeAddress name) then games_at st name
  else inl (get_denied [makeAddress name]).

Lemma loadGames_cached name p data :
  xs_ok p → addressCache p.1 !! makeAddress name = Some data →
  load_result (vstate p.2) name =
    match data with Some d => deserialize d | None => inr ∅ end.
Proof.
  intros (_ & _ & Hcache) E. destruct (Hcache _ _ E) as [Hrd Hdata].
  unfold load_result, games_at. rewrite Hrd. destruct data as [d|].
  - destruct Hdata as [-> Hd]. by rewrite decide_False.
  - destruct (vstate p.2 !! makeAddress name) as [d|]; simpl in Hdata; [|done].
    subst. by rewrite decide_True.
Qed.

(** [loadGames] reads what is stored, from the cache or from the validator, and
    changes nothing. *)
Lemma loadGames_backed name p :
  xs_ok p → ∃ p', xs_ok p' ∧ vstate p'.2 = vstate p.2 ∧
    loadGames name p = (Ret (load_result (vstate p.2) name), p').
Proof.
  intros Hp. destruct (addressCache p.1 !! makeAddress name) as [data|] eqn:E.
  - exists p. split; [done|]. split; [done|]. rewrite (loadGames_cached _ _ _ Hp E).
    destruct p as [self c]. unfold loadGames, go_get, mbind, Go_bind. simpl in *. rewrite E.
    by destruct data.
  - destruct p as [self c], Hp as (Hctx & Hc & Hcache). simpl in *.
    destruct (GetState_entry ctx (makeAddress name) c Hc)
      as (c' & Hc' & Hst & EG).
    unfold loadGames, go_get, mbind, Go_bind, xs_call, load_result. simpl. rewrite E, Hctx, EG.
    rewrite <-Hst in Hcache.
    destruct (readable (C:=C) (makeAddress name)) eqn:Hrd.
    + rewrite lookup_store_view_one. unfold games_at.
      destruct (vstate c !! makeAddress name) as [d|] eqn:Ed; simpl.
      * destruct (decide (d = "")) as [->|Hd]; simpl.
        -- eexists. split; [|split; [|reflexivity]]; [|done]. do 2 (split; [done|]).
           apply map_Forall_insert_intro; [|done]. split; [done|]. simpl. by rewrite Hst, Ed.
        -- rewrite decide_True by (rewrite <-len_zero in Hd; lia).
           eexists. split; [|split; [|reflexivity]]; [|done]. do 2 (split; [done|]).
           apply map_Forall_insert_intro; [|done]. split; [done|]. simpl. by rewrite Hst.
      * eexists. split; [|split; [|reflexivity]]; [|done]. do 2 (split; [done|]).
        apply map_Forall_insert_intro; [|done]. split; [done|]. simpl. by rewrite Hst, Ed.
    + eexists. split; [|split; [|reflexivity]]; done.
Qed.

Lemma GetGame_backed name p :
  xs_ok p → ∃ p', xs_ok p' ∧ vstate p'.2 = vstate p.2 ∧
    GetGame name p = (Ret (match load_result (vstate p.2) name with
                           | inl err => inl err
                           | inr games => inr (games !! name)
                           end), p').
Proof.
  intros Hp. destruct (loadGames_backed name p Hp) as (p' & Hp' & Hst & E).
  exists p'. split; [done|]. split; [done|]. unfold GetGame.
  rewrite (go_bind_Ret _ _ _ _ _ E). by destruct (load_result (vstate p.2) name).
Qed.

(** Writing and deleting the games of a name, on the store. *)
Definition put st (name : string) (games : gmap string Game) :
    Res (option error) * gmap string bytes :=
  if writable (C:=C) (makeAddress name)
  then (Ret None, <[makeAddress name := default "" (serialize (sorted_games games))]> st)
  else (Ret (Some (set_denied [makeAddress name])), st).
Definition drop st (name : string) : Res (option error) * gmap string bytes :=
  if writable (C:=C) (makeAddress name)
  then (Ret None, store_delete st [makeAddress name])
  else (Ret (Some (get_denied [makeAddress name])), st).

Lemma storeGames_backed name games p :
  xs_ok p → ∃ p', storeGames name games p = ((put (vstate p.2) name games).1, p') ∧
    vok ctx p'.2 ∧ vstate p'.2 = (put (vstate p.2) name games).2.
Proof.
  destruct p as [self c]. intros (Hctx & Hc & _). simpl in Hctx.
  destruct (SetState_entry ctx (makeAddress name)
    (default "" (serialize (sorted_games games))) c Hc) as (c' & Hc' & Hst & E).
  unfold storeGames, mbind, Go_bind, xs_cache, go_modify, xs_call, put. simpl.
  unfold sorted_games in *. rewrite Hctx, E. simpl in *.
  destruct (writable (C:=C) (makeAddress name)); eexists; split; done.
Qed.

Lemma deleteGames_backed name p :
  xs_ok p → ∃ p', deleteGames name p = ((drop (vstate p.2) name).1, p') ∧
    vok ctx p'.2 ∧ vstate p'.2 = (drop (vstate p.2) name).2.
Proof.
  destruct p as [self c]. intros (Hctx & Hc & _). simpl in Hctx.
  destruct (DeleteState_backed ctx [makeAddress name] c Hc)
    as (c' & del & Hc' & Hst & E). simpl in Hst, E. rewrite andb_true_r in Hst, E.
  unfold deleteGames, mbind, Go_bind, xs_call, drop. simpl. rewrite Hctx, E.
  destruct (writable (C:=C) (makeAddress name)); eexists; split; done.
Qed.

(** *** The handler as a transition of the store *)

Definition set_game st (name : string) (game : Game) :
    Res (option error) * gmap string bytes :=
  match load_result st name with
  | inl err => (Ret (Some err), st)
  | inr games => put st name (<[name := game]> games)
  end.

Definition delete_game st (name : string) : Res (option error) * gmap string bytes :=
  match load_result st name with
  | inl err => (Ret (Some err), st)
  | inr games => if decide (0 < size (delete name games))%nat
                 then put st name (delete name games) else drop st name
  end.

Lemma SetGame_backed name game p :
  xs_ok p → ∃ p', SetGame name game p = ((set_game (vstate p.2) name game).1, p') ∧
    vok ctx p'.2 ∧ vstate p'.2 = (set_game (vstate p.2) name game).2.
Proof.
  intros Hp. destruct (loadGames_backed name p Hp) as (p' & Hp' & Hst & E).
  unfold SetGame, set_game. rewrite (go_bind_Ret _ _ _ _ _ E), <-Hst.
  destruct (load_result (vstate p'.2) name) as [err|games].
  - exists p'. by destruct Hp' as (_ & ? & _).
  - by apply storeGames_backed.
Qed.

Lemma DeleteGame_backed name p :
  xs_ok p → ∃ p', DeleteGame name p = ((delete_game (vstate p.2) name).1, p') ∧
    vok ctx p'.2 ∧ vstate p'.2 = (delete_game (vstate p.2) name).2.
Proof.
  intros Hp. destruct (loadGames_backed name p Hp) as (p' & Hp' & Hst & E).
  unfold DeleteGame, delete_game. rewrite (go_bind_Ret _ _ _ _ _ E), <-Hst.
  destruct (load_result (vstate p'.2) name) as [err|games]; simpl.
  - exists p'. by destruct Hp' as (_ & ? & _).
  - case_decide; [by apply storeGames_backed|by apply deleteGames_backed].
Qed.

Definition andthen {A} (r : Res A) st (k : A → Res (option error) * gmap string bytes) :
    Res (option error) * gmap string bytes :=
  match r with
  | Ret a => k a
  | Panic e => (Panic e, st)
  | Blocked => (Blocked, st)
  | OutOfFuel => (OutOfFuel, st)
  end.

Definition refuse st (err : error) : Res (option error) * gmap string bytes :=
  (Ret (Some err), st).

Definition get_game st (name : string) (k : option Game → Res (option error) * gmap string bytes) :
    Res (option error) * gmap string bytes :=
  match load_result st name with
  | inl err => refuse st err
  | inr games => k (games !! name)
  end.

Definition create st (p : XoPayload) (player : string) :=
  get_game st (XoPayload_Name p) (λ game,
  match game with
  | Some _ => refuse st (invalidTransaction "Game already exists")
  | None => andthen (displayCreate (S:=unit) p player tt).1 st (λ _,
              set_game st (XoPayload_Name p) (new_game (XoPayload_Name p)))
  end).

Definition remove st (p : XoPayload) :=
  get_game st (XoPayload_Name p) (λ game,
  match game with
  | None => refuse st (invalidTransaction "Delete requires an existing game")
  | Some _ => delete_game st (XoPayload_Name p)
  end).

Definition finished (g : Game) : Prop :=
  Game_State g = "P1-WIN" ∨ Game_State g = "P2-WIN" ∨ Game_State g = "TIE".
#[export] Instance finished_dec g : Decision (finished g).
Proof. unfold finished. apply _. Defined.

Definition take st (p : XoPayload) (player : string) :=
  get_game st (XoPayload_Name p) (λ game,
  match game with
  | None => refuse st (invalidTransaction "Take requires an existing game")
  | Some g =>
      if decide (finished g) then refuse st (invalidTransaction "Game has ended") else
      andthen (index (S:=unit) (Game_Board g) (wrap_i64 (XoPayload_Space p - 1)) tt).1 st (λ c,
      if decide (c ≠ "-"%char) then refuse st (invalidTransaction "Space already taken") else
      andthen (take_turn (S:=unit) g player (XoPayload_Space p) tt).1 st (λ r,
      match r with
      | inl err => refuse st err
      | inr g' => andthen (displayTake (S:=unit) p player g' tt).1 st (λ _,
                    set_game st (XoPayload_Name p) g')
      end))
  end).

Definition transition (payload : option bytes) (player : string) st :
    Res (option error) * gmap string bytes :=
  match FromBytes payload with
  | inl err => refuse st err
  | inr p =>
      if decide (XoPayload_Action p = "create") then create st p player
      else if decide (XoPayload_Action p = "delete") then remove st p
      else if decide (XoPayload_Action p = "take") then take st p player
      else refuse st (invalidTransaction
                        ("Invalid Action : '" +:+ XoPayload_Action p +:+ "'"))
  end.

(** Code over the wrapper that makes a given transition of the store. *)
Definition implements (m : Go (XoState * C) (option error)) st
    (tr : Res (option error) * gmap string bytes) : Prop :=
  ∀ p, xs_ok p → vstate p.2 = st →
  ∃ p', m p = (tr.1, p') ∧ vok ctx p'.2 ∧ vstate p'.2 = tr.2.

Lemma implements_refuse st err : implements (mret (Some err)) st (refuse st err).
Proof. intros p (_ & Hp & _) <-. by exists p. Qed.

Lemma implements_stateless {A} (m : ∀ S, Go S A) f st k :
  stateless m → (∀ a, implements (f a) st (k a)) →
  implements (m _ ≫= f) st (andthen (m unit tt).1 st k).
Proof.
  intros Hm Hf p Hp Hst. unfold mbind, Go_bind. rewrite Hm.
  destruct (m unit tt) as [[a|e| |] []]; simpl; [by apply Hf|..];
    exists p; split_and!; try done; apply Hp.
Qed.

Lemma implements_GetGame name (f : error + option Game → Go (XoState * C) (option error)) st k :
  (∀ err, implements (f (inl err)) st (refuse st err)) →
  (∀ g, implements (f (inr g)) st (k g)) →
  implements (GetGame name ≫= f) st (get_game st name k).
Proof.
  intros Herr Hf p Hp <-. destruct (GetGame_backed name p Hp) as (p' & Hp' & Hst & E).
  rewrite (go_bind_Ret _ _ _ _ _ E). unfold get_game.
  destruct (load_result (vstate p.2) name) as [err|games]; [by apply Herr|by apply Hf].
Qed.

Lemma implements_bind_assoc {A B} (m : Go (XoState * C) A) (f : A → Go (XoState * C) B) g st tr :
  implements (m ≫= λ a, f a ≫= g) st tr → implements ((m ≫= f) ≫= g) st tr.
Proof. intros Hm p. rewrite go_bind_assoc. apply Hm. Qed.

Lemma implements_bind_ret {B} (b : B) g st tr :
  implements (g b) st tr → implements (mret b ≫= g) st tr.
Proof. done. Qed.

Lemma implements_set st name g : implements (SetGame name g) st (set_game st name g).
Proof. intros p Hp <-. by apply SetGame_backed. Qed.
Lemma implements_delete st name : implements (DeleteGame name) st (delete_game st name).
Proof. intros p Hp <-. by apply DeleteGame_backed. Qed.
#[local] Hint Resolve implements_refuse implements_set implements_delete : sdk.

Lemma create_implements st (p : XoPayload) player : implements (apply_create p player) st (create st p player).
Proof.
  apply implements_bind_assoc, implements_GetGame; [intros err; apply implements_refuse|].
  intros [g|]; apply implements_bind_ret; [apply implements_refuse|].
  apply (implements_stateless (λ S, displayCreate (S:=S) p player));
    [apply stateless_displayCreate|auto with sdk].
Qed.

Lemma remove_implements st (p : XoPayload) : implements (apply_delete p) st (remove st p).
Proof.
  apply implements_bind_assoc, implements_GetGame; [intros err; apply implements_refuse|].
  intros [g|]; apply implements_bind_ret; [apply implements_delete|apply implements_refuse].
Qed.

(** The game read again after the validation is the same. *)
Lemma implements_reread name f st k g :
  (∃ games, load_result st name = inr games ∧ games !! name = Some g) →
  implements (f (inr (Some g))) st k →
  implements (GetGame name ≫= f) st k.
Proof.
  intros (games & El & Eg) Hf p Hp Hst.
  destruct (GetGame_backed name p Hp) as (p' & Hp' & Hst' & E).
  rewrite (go_bind_Ret _ _ _ _ _ E), Hst, El, Eg. apply Hf; congruence.
Qed.

Lemma take_implements st (p : XoPayload) player : implements (apply_take p player) st (take st p player).
Proof.
  apply implements_bind_assoc. unfold take, get_game.
  destruct (load_result st (XoPayload_Name p)) as [err|games] eqn:El.
  { intros q Hq Hst. destruct (GetGame_backed (XoPayload_Name p) q Hq) as (q' & Hq' & Hst' & E).
    rewrite (go_bind_Ret _ _ _ _ _ E), Hst, El. exists q'. split; [done|].
    split; [apply Hq'|]. simpl. congruence. }
  destruct (games !! XoPayload_Name p) as [g|] eqn:Eg.
  2: { intros q Hq Hst.
    destruct (GetGame_backed (XoPayload_Name p) q Hq) as (q' & Hq' & Hst' & E).
    rewrite (go_bind_Ret _ _ _ _ _ E), Hst, El, Eg. exists q'. split; [done|].
    split; [apply Hq'|]. simpl. congruence. }
  apply (implements_reread _ _ _ _ g); [eauto|]. unfold finished.
  destruct (decide _); [apply implements_bind_ret; auto with sdk|].
  apply implements_bind_assoc.
  apply (implements_stateless
    (λ S, index (S:=S) (Game_Board g) (wrap_i64 (XoPayload_Space p - 1))));
    [apply stateless_index|intros c].
  destruct (decide _); apply implements_bind_ret; [auto with sdk|].
  apply (implements_reread _ _ _ _ g); [eauto|].
  apply (implements_stateless (λ S, take_turn (S:=S) g player (XoPayload_Space p)));
    [apply stateless_take_turn|intros [err|g']; [auto with sdk|]].
  apply (implements_stateless (λ S, displayTake (S:=S) p player g'));
    [apply stateless_displayTake|auto with sdk].
Qed.

End in_context.

(** The handler run over a connection to a validator makes exactly the
    transition of the validator's store. *)
Lemma xo_Apply_transition req ctx (c : C) :
  let tr := transition (TpProcessRequest_Payload req)
              (TransactionHeader_GetSignerPublicKey (TpProcessRequest_Header req)) (vstate c) in
  vok ctx c → ∃ c', vok ctx c' ∧ vstate c' = tr.2 ∧ Apply req ctx c = (tr.1, c').
Proof.
  intros tr Hc. subst tr. unfold Apply, transition.
  destruct (FromBytes (TpProcessRequest_Payload req)) as [err|p]; [by exists c|].
  set (player := TransactionHeader_GetSignerPublicKey _).
  assert (Hi : ∀ m tr, implements ctx m (vstate c) tr → ∃ c', vok ctx c' ∧ vstate c' = tr.2 ∧
    with_state (NewXoState ctx) m c = (tr.1, c')).
  { intros m tr Hm. destruct (Hm (NewXoState ctx, c)) as ([xs c'] & E & Hc' & Hst);
      [do 2 (split; [done|]); apply map_Forall_empty|done|].
    exists c'. unfold with_state. by rewrite E. }
  apply Hi. unfold apply_action. repeat (destruct (decide _));
    auto using create_implements, remove_implements, take_implements, implements_refuse.
Qed.
End backed.

(** ** Legal games *)

Section legal.
Implicit Types (b : list ascii) (g : Game) (l m : ascii) (i : nat).

Definition marks l b : nat := length (filter (λ c, c = l) b).

Definition line b l (win : Z * Z * Z) : bool :=
  let '(w0, w1, w2) := win in
  bool_decide (b !! Z.to_nat (w0 - 1) = Some l) &&
  bool_decide (b !! Z.to_nat (w1 - 1) = Some l) &&
  bool_decide (b !! Z.to_nat (w2 - 1) = Some l).
(** Has the letter a full line? *)
Definition won b l : bool := existsb (line b l) wins.

(** Which boards go with which state of a game: the players have moved in turn,
    at most one has won, and the game is over exactly when somebody has or the
    board is full. *)
Inductive status b : string → Prop :=
| st_p1_next : marks "X" b = marks "O" b → won b "X" = false → won b "O" = false →
    "-"%char ∈ b → status b "P1-NEXT"
| st_p2_next : marks "X" b = S (marks "O" b) → won b "X" = false → won b "O" = false →
    "-"%char ∈ b → status b "P2-NEXT"
| st_p1_win : marks "X" b = S (marks "O" b) → won b "X" = true → won b "O" = false →
    status b "P1-WIN"
| st_p2_win : marks "X" b = marks "O" b → won b "X" = false → won b "O" = true →
    status b "P2-WIN"
| st_tie : (marks "X" b = marks "O" b ∨ marks "X" b = S (marks "O" b)) →
    won b "X" = false → won b "O" = false → "-"%char ∉ b → status b "TIE".

Definition is_cell (c : ascii) : Prop := c = "X"%char ∨ c = "O"%char ∨ c = "-"%char.

Definition legal g : Prop :=
  length (chars (Game_Board g)) = 9%nat ∧ Forall is_cell (chars (Game_Board g)) ∧
  status (chars (Game_Board g)) (Game_State g).

Lemma is_cell_ascii b : Forall is_cell b → Forall is_ascii b.
Proof. intros Hb. eapply list.Forall_impl; [exact Hb|]. by intros c [->|[->| ->]]. Qed.

Lemma is_cell_ok b : Forall is_cell b → field_ok (unchars b).
Proof.
  intros Hb. rewrite list.Forall_forall in Hb.
  split; apply Contains_false; rewrite chars_unchars; intros Hin;
    destruct (Hb _ Hin) as [|[|]]; done.
Qed.

Lemma marks_insert b i l m :
  b !! i = Some "-"%char → l ≠ "-"%char →
  marks l (<[i:=m]> b) = if decide (m = l) then S (marks l b) else marks l b.
Proof.
  unfold marks. intros Hi Hl. apply list_elem_of_split_length in Hi as (b1 & b2 & -> & ->).
  rewrite insert_app_r_alt, Nat.sub_diag by done. simpl. rewrite !list.filter_app, !length_app, !filter_cons.
  rewrite (decide_False (P := "-"%char = l)) by congruence.
  destruct (decide (m = l)); simpl; lia.
Qed.

Lemma line_insert b i l m w :
  b !! i = Some "-"%char → l ≠ m → line (<[i:=m]> b) l w = true → line b l w = true.
Proof.
  intros Hi Hl. assert (Hc : ∀ j, <[i:=m]> b !! j = Some l → b !! j = Some l).
  { intros j. rewrite list_lookup_insert. case_decide; congruence. }
  destruct w as [[w0 w1] w2]. unfold line. rewrite !andb_true_iff, !bool_decide_eq_true.
  naive_solver.
Qed.

Lemma won_insert b i l m :
  b !! i = Some "-"%char → l ≠ m → won b l = false → won (<[i:=m]> b) l = false.
Proof.
  intros Hi Hl Hw. apply not_true_iff_false. intros Hw'. apply not_true_iff_false in Hw.
  apply Hw. unfold won in *. rewrite existsb_exists in *. destruct Hw' as (w & Hin & H).
  exists w. split; [done|]. by eapply line_insert.
Qed.

(** *** The code on a full board *)

Lemma index_in {S} s i c (x : S) :
  chars s !! i = Some c → index s (Z.of_nat i) x = (Ret c, x).
Proof.
  intros Hi. unfold index, str_at. rewrite (proj2 (Z.ltb_ge _ _)) by lia.
  by rewrite Nat2Z.id, Hi.
Qed.

Lemma isWin_won {S} s l (x : S) :
  length (chars s) = 9%nat → isWin s l x = (Ret (won (chars s) l), x).
Proof.
  intros Hlen. unfold isWin, won.
  assert (Hw : Forall (λ '(w0, w1, w2), 1 ≤ w0 ≤ 9 ∧ 1 ≤ w1 ≤ 9 ∧ 1 ≤ w2 ≤ 9) wins).
  { unfold wins. repeat constructor; lia. }
  induction Hw as [|[[w0 w1] w2] ws (H0 & H1 & H2) _ IH]; [done|].
  assert (Hc : ∀ w, 1 ≤ w ≤ 9 → ∃ c, chars s !! Z.to_nat (w - 1) = Some c ∧
                                     index s (w - 1) x = (Ret c, x)).
  { intros w Hw. destruct (lookup_lt_is_Some_2 (chars s) (Z.to_nat (w - 1))) as [c Hc]; [lia|].
    exists c. split; [done|]. rewrite <-(Z2Nat.id (w - 1)) by lia. by apply index_in. }
  destruct (Hc w0 H0) as (c0 & L0 & E0), (Hc w1 H1) as (c1 & L1 & E1),
    (Hc w2 H2) as (c2 & L2 & E2).
  cbn [isWin_loop existsb]. unfold line, full_line. rewrite L0, L1, L2.
  unfold mbind, Go_bind. rewrite E0.
  destruct (decide (c0 ≠ l)) as [Hn|<-%dec_stable].
  { rewrite (bool_decide_eq_false_2 (Some c0 = _)) by congruence. apply IH. }
  rewrite (bool_decide_eq_true_2 (Some c0 = _)) by done. rewrite E1.
  destruct (decide (c1 ≠ c0)) as [Hn|<-%dec_stable].
  { rewrite (bool_decide_eq_false_2 (Some c1 = _)) by congruence. apply IH. }
  rewrite (bool_decide_eq_true_2 (Some c1 = _)) by done. rewrite E2.
  destruct (decide (c2 = c1)) as [->|Hn].
  - by rewrite (bool_decide_eq_true_2 (c1 = _)), (bool_decide_eq_true_2 (Some c1 = _)).
  - rewrite (bool_decide_eq_false_2 (c2 = _)), (bool_decide_eq_false_2 (Some c2 = _)) by congruence.
    apply IH.
Qed.

Lemma set_rune_ascii {S} s i m (x : S) :
  Forall is_ascii (chars s) → is_ascii m → (i < length (chars s))%nat →
  set_rune s (Z.of_nat i) (byte_val m) x = (Ret (unchars (<[i:=m]> (chars s))), x).
Proof.
  intros Hs Hm Hi. unfold set_rune, string_to_runes, runes_to_string.
  rewrite runes_of_ascii by done. rewrite length_fmap.
  rewrite (proj2 (Z.leb_le _ _)), (proj2 (Z.ltb_lt _ _)) by lia. simpl.
  rewrite Nat2Z.id, <-list_fmap_insert, encode_runes_ascii; [done|].
  by apply Forall_insert.
Qed.

(** *** A move, in terms of the board *)

Definition verdict b (next : string) : string :=
  if won b "X" then "P1-WIN" else if won b "O" then "P2-WIN"
  else if bool_decide ("-"%char ∈ b) then next else "TIE".

(** The letter a player may place now, with the state that follows. *)
Definition turn g (player : string) : option (ascii * string) :=
  if decide (Game_State g = "P1-NEXT" ∧ player = Game_Player1 g) then Some ("X"%char, "P2-NEXT")
  else if decide (Game_State g = "P2-NEXT" ∧ player = Game_Player2 g)
  then Some ("O"%char, "P1-NEXT") else None.

Definition placed g i m (next : string) : Game :=
  let b := <[i:=m]> (chars (Game_Board g)) in
  with_board g (unchars b) (verdict b next).

Lemma judge_verdict {S} g b next (x : S) :
  length b = 9%nat →
  judge (with_board g (unchars b) next) x =
    (Ret (with_board g (unchars b) (verdict b next)), x).
Proof.
  intros Hb. assert (Hw : ∀ l, isWin (unchars b) l x = (Ret (won b l), x))
    by (intros l; rewrite isWin_won; by rewrite chars_unchars).
  unfold judge, verdict. simpl. rewrite (go_bind_Ret _ _ _ _ _ (Hw _)).
  destruct (won b "X"); [done|]. rewrite (go_bind_Ret _ _ _ _ _ (Hw _)).
  destruct (won b "O"); [done|].
  unfold Contains. rewrite chars_unchars. by destruct (bool_decide _).
Qed.

Lemma assign_board g player :
  Game_Board (assign_players g player) = Game_Board g ∧
  Game_State (assign_players g player) = Game_State g ∧
  Game_Name (assign_players g player) = Game_Name g.
Proof. unfold assign_players. by repeat case_decide. Qed.

Lemma take_turn_move {S} g player i space (x : S) :
  legal g → (i < 9)%nat → wrap_i64 (space - 1) = Z.of_nat i →
  take_turn g player space x =
    (Ret (match turn (assign_players g player) player with
          | Some (m, next) => inr (placed (assign_players g player) i m next)
          | None => inl (invalidTransaction ("Not this player's turn: '" +:+ player +:+ "'"))
          end), x).
Proof.
  intros (Hlen & Hcells & _) Hi Hspace. unfold take_turn, turn, placed.
  destruct (assign_board g player) as (Hb & _ & _).
  rewrite <-Hb in Hlen, Hcells. set (g1 := assign_players g player) in *.
  rewrite Hspace.
  assert (Hl : ∀ m, length (<[i:=m]> (chars (Game_Board g1))) = 9%nat)
    by (intros m; by rewrite length_insert).
  assert (Hset : ∀ m, is_ascii m → set_rune (Game_Board g1) (Z.of_nat i) (byte_val m) x
    = (Ret (unchars (<[i:=m]> (chars (Game_Board g1)))), x)).
  { intros m Hm. apply set_rune_ascii; [by apply is_cell_ascii|done|lia]. }
  destruct (decide (Game_State g1 = "P1-NEXT" ∧ player = Game_Player1 g1)).
  { rewrite (go_bind_Ret _ _ _ _ _ (Hset "X"%char eq_refl)).
    by rewrite (go_bind_Ret _ _ _ _ _ (judge_verdict _ _ _ _ (Hl _))). }
  destruct (decide (Game_State g1 = "P2-NEXT" ∧ player = Game_Player2 g1)); [|done].
  rewrite (go_bind_Ret _ _ _ _ _ (Hset "O"%char eq_refl)).
  by rewrite (go_bind_Ret _ _ _ _ _ (judge_verdict _ _ _ _ (Hl _))).
Qed.

(** A move into a free cell keeps the game legal. *)
Lemma placed_legal g player i m next :
  legal g → chars (Game_Board g) !! i = Some "-"%char → turn g player = Some (m, next) →
  legal (placed g i m next).
Proof.
  intros (Hlen & Hcells & Hst) Hi Ht. unfold legal, placed. simpl. rewrite chars_unchars.
  set (b := chars (Game_Board g)) in *.
  assert (Hm : is_cell m) by (unfold turn in Ht; unfold is_cell; repeat case_decide; naive_solver).
  split; [by rewrite length_insert|]. split; [by apply Forall_insert|].
  pose proof (marks_insert b i "X" m Hi ltac:(done)) as HX.
  pose proof (marks_insert b i "O" m Hi ltac:(done)) as HO.
  unfold turn in Ht.
  inversion Hst as [Hc Hx Ho _ E|Hc Hx Ho _ E|Hc Hx Ho E|Hc Hx Ho E|Hc Hx Ho _ E];
    rewrite <-E in Ht; simpl in Ht; repeat case_decide; simplify_eq;
    try (exfalso; naive_solver); simpl in HX, HO; unfold verdict.
  - pose proof (won_insert b i "O" "X" Hi ltac:(done) Ho) as HwO. rewrite HwO.
    destruct (won (<[i:="X"%char]> b) "X") eqn:HwX; [constructor; congruence|].
    case_bool_decide; [by constructor; try congruence|].
    constructor; try done; right; congruence.
  - pose proof (won_insert b i "X" "O" Hi ltac:(done) Hx) as HwX. rewrite HwX.
    destruct (won (<[i:="O"%char]> b) "O") eqn:HwO; [constructor; congruence|].
    case_bool_decide; [by constructor; try congruence|].
    constructor; try done; left; congruence.
Qed.

Lemma assign_legal g player : legal g → legal (assign_players g player).
Proof.
  unfold legal. destruct (assign_board g player) as (-> & -> & _). done.
Qed.

Lemma assign_clean g player : game_clean g → field_ok player → game_clean (assign_players g player).
Proof. unfold assign_players, game_clean. intros ? ?. repeat case_decide; simpl; tauto. Qed.

Lemma status_ok b st : status b st → field_ok st.
Proof. by destruct 1. Qed.

Lemma placed_clean g i m next :
  game_clean g → legal (placed g i m next) → game_clean (placed g i m next).
Proof.
  intros (Hn & _ & _ & H1 & H2) (_ & Hc & Hs). apply status_ok in Hs.
  unfold placed in *. simpl in *. rewrite chars_unchars in Hc. apply is_cell_ok in Hc.
  by repeat split; try apply Hn; try apply Hc; try apply Hs; try apply H1; try apply H2.
Qed.
End legal.

Lemma new_game_legal name : legal (new_game name).
Proof. split; [done|]. split; [by repeat constructor; right; right|]. constructor; vm_compute; try done. set_solver. Qed.

Lemma FromBytes_name d p : FromBytes d = inr p → field_ok (XoPayload_Name p).
Proof.
  unfold FromBytes. intros E. pose proof (Split_pieces "," (default "" d)) as Hp.
  destruct d as [d|]; [|done]. simpl in Hp.
  go_split; apply Forall_cons_1 in Hp as [? _]; by split.
Qed.

(** *** What the display helpers need *)

Section display.
Context {S : Type}.
Implicit Types s : S.

Lemma Repeat_ret t n s : 0 ≤ n → Repeat t n s = (Ret (Nat.iter (Z.to_nat n) (String.app t) ""), s).
Proof. intros Hn. unfold Repeat. by rewrite (proj2 (Z.ltb_ge _ _)). Qed.

Lemma center_ret t w s : Z.of_nat (len t) + 1 ≤ w → ∃ r, center t w s = (Ret r, s).
Proof.
  intros Hw. unfold center. set (n := w - Z.of_nat (len t) - 2).
  assert (0 ≤ Z.quot n 2).
  { destruct (decide (n = -1)) as [->|]; [done|]. apply Z.quot_pos; lia. }
  destruct (Z.rem n 2 =? 0); rewrite (go_bind_Ret _ _ _ _ _ (Repeat_ret _ _ _ ltac:(done)));
    (erewrite go_bind_Ret; [|apply Repeat_ret; lia]); by eexists.
Qed.

Lemma center_panics t w s :
  w ≤ Z.of_nat (len t) → center t w s = (Panic "strings: negative Repeat count", s).
Proof.
  intros Hw. unfold center. set (n := w - Z.of_nat (len t) - 2).
  assert (Hq : Z.quot n 2 < 0).
  { subst n. rewrite <-(Z.opp_involutive (w - _ - 2)), Z.quot_opp_l by done.
    assert (1 ≤ Z.quot (- (w - Z.of_nat (len t) - 2)) 2); [|lia].
    apply (Z.quot_le_lower_bound _ 2 1); lia. }
  assert (HR : Repeat " " (Z.quot n 2) s = (Panic "strings: negative Repeat count", s)).
  { unfold Repeat. by rewrite (proj2 (Z.ltb_lt _ _)). }
  destruct (Z.rem n 2 =? 0); by rewrite (go_bind_Panic _ _ _ _ _ HR).
Qed.

Lemma slice_ret t n s : (n ≤ len t)%nat → slice t n s = (Ret (slice_to n t), s).
Proof. intros Hn. unfold slice. by rewrite decide_True. Qed.

Lemma displayCreate_ret p signer s :
  (6 ≤ len signer)%nat → ∃ r, displayCreate p signer s = (Ret r, s).
Proof.
  intros Hs. unfold displayCreate. rewrite (go_bind_Ret _ _ _ _ _ (slice_ret _ _ _ Hs)).
  erewrite go_bind_Ret; [by eexists|]. apply Repeat_ret. rewrite !len_app. simpl. lia.
Qed.

Lemma board_row_ret sp b i s :
  0 ≤ i → i + 2 < Z.of_nat (len b) → ∃ r, board_row sp b i s = (Ret r, s).
Proof.
  intros Hi Hl. assert (Hx : ∀ j, 0 ≤ j < Z.of_nat (len b) → ∃ c, index b j s = (Ret c, s)).
  { intros j Hj. destruct (lookup_lt_is_Some_2 (chars b) (Z.to_nat j)) as [c Hc];
      [rewrite length_chars; lia|].
    exists c. rewrite <-(Z2Nat.id j) by lia. by apply index_in. }
  destruct (Hx i) as [c0 E0]; [lia|]. destruct (Hx (i + 1)) as [c1 E1]; [lia|].
  destruct (Hx (i + 2)) as [c2 E2]; [lia|]. unfold board_row.
  rewrite (go_bind_Ret _ _ _ _ _ E0), (go_bind_Ret _ _ _ _ _ E1), (go_bind_Ret _ _ _ _ _ E2).
  by eexists.
Qed.

Lemma sliceIfLongEnough_len t n : (len (sliceIfLongEnough t n) ≤ n)%nat.
Proof.
  unfold sliceIfLongEnough. repeat case_decide; [rewrite len_slice_to by lia; lia..|lia].
Qed.

Lemma Itoa_digit space : 1 ≤ space ≤ 9 → len (Itoa space) = 1%nat.
Proof.
  intros Hs. assert (space = 1 ∨ space = 2 ∨ space = 3 ∨ space = 4 ∨ space = 5 ∨ space = 6 ∨
    space = 7 ∨ space = 8 ∨ space = 9) by lia.
  by destruct_or!; subst.
Qed.

(** The width of the box: the line that announces the move. *)
Lemma take_line_len signer space :
  (6 ≤ len signer)%nat → 1 ≤ space ≤ 9 →
  Z.of_nat (len ("+ Player " +:+ slice_to 6 signer +:+ " takes space " +:+ Itoa space +:+ " +"))
    = 31.
Proof.
  intros Hs Hsp. rewrite !len_app, len_slice_to, Itoa_digit by done. done.
Qed.

Lemma displayTake_ret p signer g s :
  (6 ≤ len signer)%nat → 1 ≤ XoPayload_Space p ≤ 9 → (len (Game_Name g) ≤ 24)%nat →
  (len (Game_State g) ≤ 7)%nat → len (Game_Board g) = 9%nat →
  ∃ r, displayTake p signer g s = (Ret r, s).
Proof.
  intros Hs Hsp Hn Hst Hb. unfold displayTake.
  rewrite (go_bind_Ret _ _ _ _ _ (slice_ret _ _ _ Hs)). rewrite take_line_len by done.
  erewrite go_bind_Ret; [|by apply Repeat_ret]. erewrite go_bind_Ret; [|by apply Repeat_ret].
  pose proof (sliceIfLongEnough_len (Game_Player1 g) 6).
  pose proof (sliceIfLongEnough_len (Game_Player2 g) 6).
  destruct (center_ret ("Game: " +:+ Game_Name g) 31 s) as [r1 E1];
    [rewrite len_app; simpl; lia|].
  destruct (center_ret ("State: " +:+ Game_State g) 31 s) as [r2 E2];
    [rewrite len_app; simpl; lia|].
  destruct (center_ret ("Player1: " +:+ sliceIfLongEnough (Game_Player1 g) 6) 31 s) as [r3 E3];
    [rewrite len_app; simpl; lia|].
  destruct (center_ret ("Player2: " +:+ sliceIfLongEnough (Game_Player2 g) 6) 31 s) as [r4 E4];
    [rewrite len_app; simpl; lia|].
  rewrite (go_bind_Ret _ _ _ _ _ E1), (go_bind_Ret _ _ _ _ _ E2), (go_bind_Ret _ _ _ _ _ E3),
    (go_bind_Ret _ _ _ _ _ E4).
  erewrite go_bind_Ret; [|by apply Repeat_ret].
  match goal with |- context [board_row ?sp _ _] => set (space := sp) end.
  destruct (board_row_ret space (Game_Board g) 0 s) as [r5 E5]; [lia..|].
  destruct (board_row_ret space (Game_Board g) 3 s) as [r6 E6]; [lia..|].
  destruct (board_row_ret space (Game_Board g) 6 s) as [r7 E7]; [lia..|].
  rewrite (go_bind_Ret _ _ _ _ _ E5), (go_bind_Ret _ _ _ _ _ E6), (go_bind_Ret _ _ _ _ _ E7).
  by eexists.
Qed.

(** A name of 25 bytes or more does not fit the box. *)
Lemma displayTake_panics p signer g s :
  (6 ≤ len signer)%nat → 1 ≤ XoPayload_Space p ≤ 9 → (25 ≤ len (Game_Name g))%nat →
  displayTake p signer g s = (Panic "strings: negative Repeat count", s).
Proof.
  intros Hs Hsp Hn. unfold displayTake.
  rewrite (go_bind_Ret _ _ _ _ _ (slice_ret _ _ _ Hs)). rewrite take_line_len by done.
  erewrite go_bind_Ret; [|by apply Repeat_ret]. erewrite go_bind_Ret; [|by apply Repeat_ret].
  apply go_bind_Panic, center_panics. rewrite len_app. simpl. lia.
Qed.
End display.

(** ** The store *)

(** Every name has readable data, and all of its games are legal. *)
Definition store_legal (st : gmap string bytes) : Prop :=
  ∀ name, ∃ games, games_at st name = inr games ∧ map_Forall (λ _, legal) games.

Lemma games_at_clean st name games : games_at st name = inr games → games_clean games.
Proof.
  unfold games_at. intros E. go_split; try apply map_Forall_empty.
  by eapply deserialize_clean.
Qed.

Section store.
Context {C : Type} `{Connection C, ContextProtos, GoRuntime, !StateBacked C}.
Implicit Types (c : C) (st : gmap string bytes) (games : gmap string Game).

Lemma games_at_put st name games name' :
  games ≠ ∅ → games_clean games →
  games_at (<[makeAddress name := default "" (serialize (sorted_games games))]> st) name' =
    if decide (makeAddress name' = makeAddress name) then inr games else games_at st name'.
Proof.
  intros Hne Hcl. unfold games_at. destruct (decide _) as [->|Hn].
  - rewrite lookup_insert_eq, serialize_some by done. simpl.
    pose proof (serialize_some games Hne) as Hs. unfold serialize in Hs.
    destruct (decide (serialize_loop (sorted_games games) = "")) as [|_]; [done|].
    by apply deserialize_sorted.
  - by rewrite lookup_insert_ne.
Qed.

Lemma put_legal st name games :
  store_legal st → games ≠ ∅ → games_clean games → map_Forall (λ _, legal) games →
  store_legal (put (C:=C) st name games).2.
Proof.
  intros Hst Hne Hcl Hl name'. unfold put. destruct (writable _); [|apply Hst]. simpl.
  rewrite games_at_put by done. destruct (decide _); [eauto|apply Hst].
Qed.

Lemma set_game_legal st name g :
  store_legal st → legal g → game_clean g → Game_Name g = name →
  store_legal (set_game (C:=C) st name g).2.
Proof.
  intros Hst Hg Hcl Hn. unfold set_game, load_result.
  destruct (readable _); [|done]. destruct (Hst name) as (games & E & Hall). rewrite E.
  apply put_legal; [done|apply insert_non_empty|..].
  - apply map_Forall_insert_intro; [done|]. by eapply games_at_clean.
  - by apply (map_Forall_insert_intro (λ _, legal)).
Qed.

Lemma delete_game_legal st name :
  store_legal st → store_legal (delete_game (C:=C) st name).2.
Proof.
  intros Hst. unfold delete_game, load_result.
  destruct (readable _); [|done]. destruct (Hst name) as (games & E & Hall). rewrite E.
  case_decide as Hsz.
  - apply put_legal; [done| |by apply map_Forall_delete, (games_at_clean st name)|
      by apply map_Forall_delete].
    intros Hem. rewrite Hem, map_size_empty in Hsz. lia.
  - unfold drop. destruct (writable _); [|done]. simpl. intros name'. unfold games_at.
    rewrite lookup_store_delete. case_decide; [|apply Hst].
    exists ∅. split; [done|apply map_Forall_empty].
Qed.

Lemma transition_legal payload player st :
  field_ok player → store_legal st → store_legal (transition (C:=C) payload player st).2.
Proof.
  intros Hpl Hst. unfold transition. destruct (FromBytes payload) as [|p] eqn:Ep; [done|].
  pose proof (FromBytes_name _ _ Ep) as Hname.
  unfold create, remove, take, get_game, load_result.
  destruct (readable _); [|repeat case_decide; done].
  destruct (Hst (XoPayload_Name p)) as (games & Eg & Hall). rewrite Eg.
  pose proof (games_at_clean _ _ _ Eg) as Hcl.
  destruct (games !! XoPayload_Name p) as [g|] eqn:E.
  2: { repeat case_decide; try done.
    destruct (displayCreate (S:=unit) p player tt) as [[] ?]; try done. simpl.
    apply set_game_legal; [done|apply new_game_legal|by repeat split; apply Hname|done]. }
  case_decide; [done|]. case_decide; [by apply delete_game_legal|]. case_decide; [|done].
  case_decide; [done|].
  pose proof (Hall _ _ E) as Hg. destruct (Hcl _ _ E) as [Hgn Hgc].
  unfold index. destruct (str_at (Game_Board g) _) as [ch|] eqn:Ei; [|done]. simpl.
  destruct (decide (ch ≠ "-"%char)) as [| ->%dec_stable]; [done|].
  unfold str_at in Ei. destruct (Z.ltb_spec (wrap_i64 (XoPayload_Space p - 1)) 0); [done|].
  set (i := Z.to_nat (wrap_i64 (XoPayload_Space p - 1))) in *.
  assert (Hi9 : (i < 9)%nat).
  { destruct Hg as [<- _]. by eapply lookup_lt_Some. }
  rewrite (take_turn_move g player i) by (try done; subst i; lia).
  destruct (turn (assign_players g player) player) as [[m next]|] eqn:Et; [|done]. simpl.
  destruct (displayTake (S:=unit) p player _ tt) as [[] ?]; try done. simpl.
  destruct (assign_board g player) as (Hb & _ & Hn').
  assert (Hpl' : legal (placed (assign_players g player) i m next)).
  { eapply placed_legal; [by apply assign_legal|by rewrite Hb|done]. }
  apply set_game_legal; [done|done| |simpl; congruence].
  apply placed_clean; [by apply assign_clean|done].
Qed.
End store.

(** ** Claims *)

Section claims.
Context {C : Type} `{Connection C, ContextProtos, GoRuntime, !StateBacked C}.
Implicit Types (c : C) (games : gmap string Game) (p : XoPayload).

(** The identity under which the signer of a request plays. *)
Definition player_of (req : TpProcessRequest) : string :=
  TransactionHeader_GetSignerPublicKey (TpProcessRequest_Header req).

(** What the three theorems on moves assume: the request is a "take" for cell [i]
    (counted from 0) of an existing game at an address the transaction may use,
    signed with a key of at least six bytes. *)
Record take_request (req : TpProcessRequest) ctx c p games (g : Game) : Prop := {
  tr_ok : vok ctx c;
  tr_parse : FromBytes (TpProcessRequest_Payload req) = inr p;
  tr_action : XoPayload_Action p = "take";
  tr_read : readable (C:=C) (makeAddress (XoPayload_Name p)) = true;
  tr_write : writable (C:=C) (makeAddress (XoPayload_Name p)) = true;
  tr_games : games_at (vstate c) (XoPayload_Name p) = inr games;
  tr_game : games !! XoPayload_Name p = Some g;
  tr_legal : legal g;
  tr_signer : (6 ≤ len (player_of req))%nat }.

Lemma take_transition req ctx c p games g :
  take_request req ctx c p games g →
  ∃ c', vok ctx c' ∧ vstate c' = (take (C:=C) (vstate c) p (player_of req)).2 ∧
    Apply req ctx c = ((take (C:=C) (vstate c) p (player_of req)).1, c') ∧
    load_result (C:=C) (vstate c) (XoPayload_Name p) = inr games.
Proof.
  intros []. destruct (xo_Apply_transition req ctx c tr_ok0) as (c' & Hc' & Hst & E).
  unfold transition in Hst, E. rewrite tr_parse0, tr_action0 in Hst, E. simpl in Hst, E.
  exists c'. split; [done|]. split; [done|]. split; [done|].
  unfold load_result. by rewrite tr_read0.
Qed.

Lemma status_len b st : status b st → (len st ≤ 7)%nat.
Proof. destruct 1; vm_compute; lia. Qed.

(** C15. Legal play: whatever transaction the handler processes and whatever it
    answers, every name in the store keeps readable data and every stored game
    stays legal: nine cells of X, O and -, X and O alternating, at most one
    winner, and a state that says exactly who is next or how the game ended. *)
Theorem xo_games_legal req ctx c :
  vok ctx c → field_ok (player_of req) →
  store_legal (vstate c) → store_legal (vstate (Apply req ctx c).2).
Proof.
  intros Hc Hpl Hst. destruct (xo_Apply_transition req ctx c Hc) as (c' & _ & Hst' & E).
  rewrite E. simpl. rewrite Hst'. by apply transition_legal.
Qed.


(** A game whose name has 25 bytes or more can be created but never played:
    every otherwise valid move makes the handler panic while it prints the board,
    and nothing is stored. *)
Theorem long_name_take_panics req ctx c p games g i :
  take_request req ctx c p games g → (25 ≤ len (XoPayload_Name p))%nat →
  (i < 9)%nat → XoPayload_Space p = Z.of_nat i + 1 → ¬ finished g →
  chars (Game_Board g) !! i = Some "-"%char →
  turn (assign_players g (player_of req)) (player_of req) ≠ None →
  ∃ c', Apply req ctx c = (Panic "strings: negative Repeat count", c') ∧
    vstate c' = vstate c.
Proof.
  intros Hreq Hn Hi Hsp Hf Hch Ht.
  destruct (take_transition req ctx c p games g Hreq) as (c' & _ & Hst & E & El).
  unfold take, get_game in Hst, E. rewrite El, (tr_game _ _ _ _ _ _ Hreq) in Hst, E.
  rewrite decide_False in Hst, E by done.
  assert (Hw : wrap_i64 (XoPayload_Space p - 1) = Z.of_nat i).
  { rewrite wrap_i64_small; unfold is_i64; lia. }
  rewrite Hw, (index_in _ _ _ _ Hch) in Hst, E. simpl in Hst, E.
  rewrite (take_turn_move g _ i) in Hst, E by (done || apply Hreq). simpl in Hst, E.
  destruct (turn _ _) as [[m next]|]; [|done]. simpl in Hst, E.
  pose proof (games_at_clean _ _ _ (tr_games _ _ _ _ _ _ Hreq)) as Hcl.
  destruct (Hcl _ _ (tr_game _ _ _ _ _ _ Hreq)) as [Hgn _].
  destruct (assign_board g (player_of req)) as (_ & _ & Hname).
  rewrite displayTake_panics in Hst, E
    by (apply Hreq || lia || (simpl; rewrite Hname, Hgn; lia)).
  simpl in *. eauto.
Qed.

(** A move to a space outside 1 to 9 of a running game is not refused but
    makes the handler panic. *)
Theorem space_out_of_range_panics req ctx c p games g :
  take_request req ctx c p games g → ¬ finished g →
  ¬ (1 ≤ XoPayload_Space p ≤ 9) → is_i64 (XoPayload_Space p) →
  ∃ c', Apply req ctx c = (Panic "index out of range", c') ∧ vstate c' = vstate c.
Proof.
  intros Hreq Hf Hsp Hi64.
  destruct (take_transition req ctx c p games g Hreq) as (c' & _ & Hst & E & El).
  unfold take, get_game in Hst, E. rewrite El, (tr_game _ _ _ _ _ _ Hreq) in Hst, E.
  rewrite decide_False in Hst, E by done.
  assert (Hnone : str_at (Game_Board g) (wrap_i64 (XoPayload_Space p - 1)) = None).
  { unfold str_at. destruct (Z.ltb_spec (wrap_i64 (XoPayload_Space p - 1)) 0); [done|].
    apply lookup_ge_None. destruct (tr_legal _ _ _ _ _ _ Hreq) as [-> _].
    destruct (decide (XoPayload_Space p = - 2^63)) as [->|].
    - change (wrap_i64 (- 2^63 - 1)) with (2^63 - 1). lia.
    - revert H2. rewrite wrap_i64_small; unfold is_i64 in *; lia. }
  unfold index in Hst, E. rewrite Hnone in Hst, E. simpl in Hst, E. eauto.
Qed.

(** C34. Stored games are read back as they were written, in whatever order the
    runtime hands out the map: any non-empty map of games under their own names,
    whose fields contain neither separator. *)
Theorem stored_games_roundtrip games :
  games ≠ ∅ → games_clean games →
  ∃ data, serialize (sorted_games games) = Some data ∧ deserialize data = inr games.
Proof.
  intros Hne Hcl. eexists. split; [by apply serialize_some|by apply deserialize_sorted].
Qed.
End claims.
#[local] Transparent makeAddress Namespace.

(** ** Witnesses *)

Module witness.
Import demo.

Definition alice : string := "02aabbcc".
Definition req (payload : string) : TpProcessRequest := {|
  TpProcessRequest_Header := Some {|
    TransactionHeader_BatcherPublicKey := ""; TransactionHeader_Dependencies := [];
    TransactionHeader_FamilyName := "xo"; TransactionHeader_FamilyVersion := "1.0";
    TransactionHeader_Inputs := []; TransactionHeader_Nonce := "";
    TransactionHeader_Outputs := []; TransactionHeader_PayloadSha512 := "";
    TransactionHeader_SignerPublicKey := alice |};
  TpProcessRequest_Payload := Some payload;
  TpProcessRequest_Signature := ""; TpProcessRequest_ContextId := "c" |}.
Definition pay (name : string) (space : Z) : XoPayload :=
  {| XoPayload_Name := name; XoPayload_Action := "take"; XoPayload_Space := space |}.
Definition store (name : string) : gmap string bytes :=
  {[makeAddress name := name +:+ ",---------,P1-NEXT,,"]}.
Definition long : string := "a_name_of_twenty_five_byte".
Definition ctx := NewContext "c".
#[local] Instance wbacked : @StateBacked _ (conn all) _ _ := backed all.

Lemma take_request_of name payload space :
  FromBytes (Some payload) = inr (pay name space) →
  games_at (store name) name = inr {[name := new_game name]} →
  take_request (H := conn all) (req payload) ctx (at_rest (store name)) (pay name space)
    {[name := new_game name]} (new_game name).
Proof.
  intros Hp Hg. split.
  - apply at_rest_ok.
  - exact Hp.
  - reflexivity.
  - reflexivity.
  - reflexivity.
  - exact Hg.
  - apply lookup_singleton_eq.
  - apply new_game_legal.
  - vm_compute. lia.
Qed.

Lemma store_legal_store name :
  games_at (store name) name = inr {[name := new_game name]} → store_legal (store name).
Proof.
  intros E name'. destruct (decide (makeAddress name' = makeAddress name)) as [Ea|Ha].
  - exists {[name := new_game name]}. split.
    + unfold games_at in *. by rewrite Ea.
    + apply map_Forall_singleton, new_game_legal.
  - exists ∅. split; [|apply map_Forall_empty]. unfold games_at, store.
    by rewrite lookup_singleton_ne.
Qed.

Lemma xo_games_legal_witness :
  store_legal (vstate (Apply (H := conn all) (req "g,take,5") ctx (at_rest (store "g"))).2).
Proof.
  apply (xo_games_legal (H := conn all)); [apply at_rest_ok|done|].
  apply store_legal_store. vm_compute. reflexivity.
Defined.


Lemma long_name_take_panics_witness :
  ∃ c', Apply (H := conn all) (req (long +:+ ",take,5")) ctx (at_rest (store long))
          = (Panic "strings: negative Repeat count", c') ∧ vstate c' = vstate (at_rest (store long)).
Proof.
  apply (long_name_take_panics (H := conn all) (req (long +:+ ",take,5")) ctx
    (at_rest (store long)) (pay long 5) {[long := new_game long]} (new_game long) 4).
  - apply take_request_of; vm_compute; reflexivity.
  - vm_compute. lia.
  - lia.
  - reflexivity.
  - intros [|[|]]; discriminate.
  - reflexivity.
  - done.
Defined.

Lemma space_out_of_range_panics_witness :
  ∃ c', Apply (H := conn all) (req "g,take,0") ctx (at_rest (store "g"))
          = (Panic "index out of range", c') ∧ vstate c' = vstate (at_rest (store "g")).
Proof.
  apply (space_out_of_range_panics (H := conn all) (req "g,take,0") ctx
    (at_rest (store "g")) (pay "g" 0) {["g" := new_game "g"]} (new_game "g")).
  - apply take_request_of; vm_compute; reflexivity.
  - intros [|[|]]; discriminate.
  - simpl. lia.
  - unfold is_i64. simpl. lia.
Defined.

Lemma stored_games_roundtrip_witness :
  ∃ data, serialize (sorted_games {["a" := new_game "a"; "b" := new_game "b"]}) = Some data ∧
    deserialize data = inr {["a" := new_game "a"; "b" := new_game "b"]}.
Proof.
  apply (stored_games_roundtrip {["a" := new_game "a"; "b" := new_game "b"]}).
  - apply insert_non_empty.
  - apply map_Forall_insert_intro; [by repeat split|]. apply map_Forall_singleton.
    by repeat split.
Defined.
End witness.
End xo.
