(* ===== verification/Noop.v ===== *)
(** * The noop transaction family

    Models [examples/noop_go/src/sawtooth_noop/handler]: a handler that accepts
    every transaction and touches no state. *)

From S2P Require Import Prelude GoLib Errors Protobuf Messaging ProcContext Worker.

Module noop.

Record NoopHandler := { namespace : string }.
Definition NewNoopHandler (namespace : string) : NoopHandler := {| namespace := namespace |}.

Definition FAMILY_NAME : string := "noop".

Definition Apply {C} (self : NoopHandler) (request : TpProcessRequest) (state : Context) :
    Go C (option error) := mret None.

(** The handler as registered with the processor. *)
Definition handler {C} (self : NoopHandler) : TransactionHandler C := {|
  FamilyName := FAMILY_NAME; FamilyVersions := ["1.0"]; Namespaces := [namespace self];
  Worker.Apply := Apply self |}.
End noop.
