(* ===== verification/Agreement.v ===== *)
(** * Handlers see nothing but the state

    Two connections may reach the validator in quite different ways; a handler that
    uses them only through a context cannot tell them apart.  [agrees] relates the
    same code over two connections that implement the interface of [Validator] with
    the same permissions: run on equal stores, both come to the same outcome and
    leave equal stores.  All four families satisfy it. *)

From S2P Require Import Prelude GoLib Errors Protobuf Messaging Answering ProcContext Worker Validator Intkey Smallbank Xo Noop.

Module agreement.
Local Open Scope Z_scope.

(** The example families. *)
Inductive family :=
| Intkey (h : intkey.IntkeyHandler)
| Smallbank
| Xo
| Noop (h : noop.NoopHandler).

Definition family_handler {C} `{Connection C, ContextProtos, GoRuntime}
    `{intkey.Cbor, Proto smallbank.SmallbankTransactionPayload, Proto smallbank.Account}
    (f : family) : TransactionHandler C :=
  match f with
  | Intkey h => intkey.handler h
  | Smallbank => smallbank.handler
  | Xo => xo.handler
  | Noop h => noop.handler h
  end.

Section agreement.
Context {C1 : Type} `{Connection C1} {C2 : Type} `{Connection C2}.
Context `{ContextProtos, GoRuntime, !StateBacked C1, !StateBacked C2}.
Context (same_readable : readable (C:=C1) = readable (C:=C2)).
Context (same_writable : writable (C:=C1) = writable (C:=C2)).
Context (ctx : Context).

Definition agrees {A} (m1 : Go C1 A) (m2 : Go C2 A) : Prop := ∀ c1 c2,
  vok ctx c1 → vok ctx c2 → vstate c1 = vstate c2 →
  (m1 c1).1 = (m2 c2).1 ∧ vok ctx (m1 c1).2 ∧ vok ctx (m2 c2).2 ∧
  vstate (m1 c1).2 = vstate (m2 c2).2.

Lemma agrees_ret {A} (a : A) : agrees (mret a) (mret a).
Proof. by intros c1 c2. Qed.
Lemma agrees_panic {A} e : agrees (go_panic e : Go C1 A) (go_panic e).
Proof. by intros c1 c2. Qed.

Lemma agrees_bind {A B} m1 m2 (f1 : A → Go C1 B) (f2 : A → Go C2 B) :
  agrees m1 m2 → (∀ a, agrees (f1 a) (f2 a)) → agrees (m1 ≫= f1) (m2 ≫= f2).
Proof.
  intros Hm Hf c1 c2 Hc1 Hc2 Hst. destruct (Hm c1 c2 Hc1 Hc2 Hst) as (Hr & Hc1' & Hc2' & Hst').
  unfold mbind, Go_bind. destruct (m1 c1) as [r1 c1'], (m2 c2) as [r2 c2']. simpl in *. subst r2.
  destruct r1 as [a| | |]; try done. by apply Hf.
Qed.

Lemma agrees_GetState addrs : agrees (GetState ctx addrs) (GetState ctx addrs).
Proof.
  intros c1 c2 Hc1 Hc2 Hst.
  destruct (GetState_backed ctx addrs c1 Hc1) as (c1' & ? & Hst1 & ->).
  destruct (GetState_backed ctx addrs c2 Hc2) as (c2' & ? & Hst2 & ->). simpl.
  rewrite Hst1, Hst2, Hst, same_readable. done.
Qed.

Lemma agrees_SetState pairs : agrees (SetState ctx pairs) (SetState ctx pairs).
Proof.
  intros c1 c2 Hc1 Hc2 Hst.
  destruct (SetState_backed ctx pairs c1 Hc1) as (c1' & ? & Hst1 & ->).
  destruct (SetState_backed ctx pairs c2 Hc2) as (c2' & ? & Hst2 & ->). simpl.
  rewrite Hst1, Hst2, Hst, same_writable. done.
Qed.

(** Code that makes a transition of the store. *)
Lemma agrees_transition {A} (m1 : Go C1 A) (m2 : Go C2 A) tr1 tr2 :
  (∀ st, tr1 st = tr2 st) →
  (∀ c, vok ctx c → ∃ c', vok ctx c' ∧ vstate c' = (tr1 (vstate c)).2 ∧ m1 c = ((tr1 (vstate c)).1, c')) →
  (∀ c, vok ctx c → ∃ c', vok ctx c' ∧ vstate c' = (tr2 (vstate c)).2 ∧ m2 c = ((tr2 (vstate c)).1, c')) →
  agrees m1 m2.
Proof.
  intros Htr Hm1 Hm2 c1 c2 Hc1 Hc2 Hst.
  destruct (Hm1 c1 Hc1) as (c1' & ? & Hst1 & ->), (Hm2 c2 Hc2) as (c2' & ? & Hst2 & ->).
  rewrite Htr, Hst in Hst1 |- *. simpl. by rewrite Hst1, Hst2.
Qed.

(** ** The families *)

Section handlers.
Context `{intkey.Cbor, Proto smallbank.SmallbankTransactionPayload, Proto smallbank.Account}.

Lemma intkey_agrees h req : agrees (intkey.Apply h req ctx) (intkey.Apply h req ctx).
Proof.
  eapply agrees_transition; [|intros c; apply intkey.Apply_transition..].
  intros st. unfold intkey.transition, intkey.store_entry.
  by rewrite same_readable, same_writable.
Qed.

Lemma xo_agrees req : agrees (xo.Apply req ctx) (xo.Apply req ctx).
Proof.
  eapply agrees_transition; [|intros c; apply xo.xo_Apply_transition..].
  intros st. unfold xo.transition, xo.create, xo.remove, xo.take, xo.get_game, xo.set_game,
    xo.delete_game, xo.load_result, xo.put, xo.drop.
  by rewrite same_readable, same_writable.
Qed.

Lemma noop_agrees h req : agrees (noop.Apply h req ctx) (noop.Apply h req ctx).
Proof. apply agrees_ret. Qed.

Lemma loadAccount_agrees id : agrees (smallbank.loadAccount id ctx) (smallbank.loadAccount id ctx).
Proof.
  apply agrees_bind; [apply agrees_GetState|]. intros [err|results]; [apply agrees_ret|].
  cbv zeta. destruct (decide _); [|apply agrees_ret].
  destruct (smallbank.unpackAccount _); apply agrees_ret.
Qed.

Lemma saveAccount_agrees a : agrees (smallbank.saveAccount a ctx) (smallbank.saveAccount a ctx).
Proof.
  unfold smallbank.saveAccount. cbv zeta. destruct (Marshal a) as [err|data]; [apply agrees_ret|].
  apply agrees_bind; [apply agrees_SetState|]. intros [err|addresses]; [apply agrees_ret|].
  destruct (decide _); apply agrees_ret.
Qed.

(** The code of a transaction: loads and saves, and decisions on what was loaded. *)
Ltac agree :=
  repeat first
    [ apply agrees_ret
    | apply agrees_panic
    | apply loadAccount_agrees
    | apply saveAccount_agrees
    | apply agrees_bind; [|intros ?]
    | match goal with |- agrees (match ?x with _ => _ end) _ => destruct x end ].

Lemma smallbank_agrees req : agrees (smallbank.Apply req ctx) (smallbank.Apply req ctx).
Proof.
  unfold smallbank.Apply. destruct (smallbank.unpackPayload _) as [err|p]; [apply agrees_ret|].
  cbv zeta. repeat (destruct (decide _)); try apply agrees_ret.
  - unfold smallbank.applyCreateAccount, smallbank.nil_deref. cbv zeta. agree.
  - unfold smallbank.applyDepositChecking, smallbank.nil_deref. cbv zeta. agree.
  - unfold smallbank.applyWriteCheck, smallbank.nil_deref. cbv zeta. agree.
  - unfold smallbank.applyTransactSavings, smallbank.nil_deref. cbv zeta. agree.
  - unfold smallbank.applySendPayment, smallbank.nil_deref. cbv zeta. agree.
  - unfold smallbank.applyAmalgamate, smallbank.nil_deref. cbv zeta. agree.
Qed.

Lemma family_agrees f req :
  agrees (Apply (family_handler (C:=C1) f) req ctx) (Apply (family_handler (C:=C2) f) req ctx).
Proof.
  destruct f as [h| | |h];
    [apply intkey_agrees|apply smallbank_agrees|apply xo_agrees|apply noop_agrees].
Qed.
End handlers.
End agreement.
End agreement.
