(* ===== verification/Processor.v ===== *)
(** * The transaction processor

    Models [processor/processor.go]: the [TransactionProcessor], the router that
    passes messages between the validator and the worker threads, registration,
    and shutdown.  The router's state is the record [Router]: the table [ids] of
    the worker that waits for each correlation id, the four connections, the work
    queue (a channel with its capacity), and what workers have reported on the
    [done] channel.  [poller.Poll(-1)] is an input: a run is given the sequence of
    poll results, each with what the other threads did to the router's channels
    and connections before it ([Turn]).  Log output is left out. *)

From S2P Require Import Prelude GoLib Errors Protobuf Messaging ProcContext Worker.

Local Open Scope Z_scope.

(** ** TransactionProcessor *)

Definition DEFAULT_MAX_WORK_QUEUE_SIZE : Z := 100.

Record TransactionProcessor (C : Type) := {
  tp_uri : string;
  tp_ids : gmap string string;
  handlers : list (TransactionHandler C);
  nThreads : Z;
  maxQueue : Z;
  tp_shutdown_tx : Iface C }.
Arguments tp_uri {C} _.
Arguments tp_ids {C} _.
Arguments handlers {C} _.
Arguments nThreads {C} _.
Arguments maxQueue {C} _.
Arguments tp_shutdown_tx {C} _.

Record Router (C M : Type) := {
  ids : gmap string string;
  validator : C;
  workers : C;
  shutdown_rx : C;
  shutdown_tx : Iface C;
  monitor : M;
  queue : list Message;
  queue_cap : nat;
  queue_closed : bool;
  workers_done : list bool }.
Arguments ids {C M} _.
Arguments validator {C M} _.
Arguments workers {C M} _.
Arguments shutdown_rx {C M} _.
Arguments shutdown_tx {C M} _.
Arguments monitor {C M} _.
Arguments queue {C M} _.
Arguments queue_cap {C M} _.
Arguments queue_closed {C M} _.
Arguments workers_done {C M} _.

(** Which sockets a poll reports as ready. *)
Inductive Ready := ReadyValidator | ReadyMonitor | ReadyWorkers | ReadyShutdown.
#[export] Instance Ready_eq_dec : EqDecision Ready.
Proof. solve_decision. Defined.

(** A poll: what the other threads did since the last one, and its result. *)
Record Turn (C M : Type) := {
  meanwhile : Router C M → Router C M;
  polled : error + list Ready }.
Arguments meanwhile {C M} _.
Arguments polled {C M} _.

Section processor.
Context {C M : Type} `{Connection C, Monitor M, Proto Message}.
Context `{Proto TpProcessResponse, Proto PingResponse, Proto TpUnregisterRequest}.
Context `{Proto TpRegisterRequest, Proto TpRegisterResponse}.
Abbreviation router := (Router C M).

Definition NewTransactionProcessor (uri : string) (gomaxprocs : Z) :
    TransactionProcessor C := {|
  tp_uri := uri; tp_ids := ∅; handlers := []; nThreads := gomaxprocs;
  maxQueue := DEFAULT_MAX_WORK_QUEUE_SIZE; tp_shutdown_tx := NilIface |}.

Definition AddHandler (handler : TransactionHandler C) (self : TransactionProcessor C) :
    TransactionProcessor C := {|
  tp_uri := tp_uri self; tp_ids := tp_ids self; handlers := handlers self ++ [handler];
  nThreads := nThreads self; maxQueue := maxQueue self;
  tp_shutdown_tx := tp_shutdown_tx self |}.

Definition SetThreadCount (n : Z) (self : TransactionProcessor C) :
    TransactionProcessor C := {|
  tp_uri := tp_uri self; tp_ids := tp_ids self; handlers := handlers self;
  nThreads := n; maxQueue := maxQueue self; tp_shutdown_tx := tp_shutdown_tx self |}.

Definition SetMaxQueueSize (n : Z) (self : TransactionProcessor C) :
    TransactionProcessor C := {|
  tp_uri := tp_uri self; tp_ids := tp_ids self; handlers := handlers self;
  nThreads := nThreads self; maxQueue := n; tp_shutdown_tx := tp_shutdown_tx self |}.

Definition set_shutdown_tx (tx : Iface C) (self : TransactionProcessor C) :
    TransactionProcessor C := {|
  tp_uri := tp_uri self; tp_ids := tp_ids self; handlers := handlers self;
  nThreads := nThreads self; maxQueue := maxQueue self; tp_shutdown_tx := tx |}.

Definition Shutdown : Go (TransactionProcessor C) unit := λ self,
  match tp_shutdown_tx self with
  | NilIface => (Ret tt, self)
  | tx =>
      let '(r, tx') := call (_ ← SendData "" "shutdown"; mret tt) tx in
      (r, set_shutdown_tx tx' self)
  end.

(** ** The router's state *)

Definition set_ids (x : gmap string string) (r : router) : router := {|
  ids := x; validator := validator r; workers := workers r; shutdown_rx := shutdown_rx r;
  shutdown_tx := shutdown_tx r; monitor := monitor r; queue := queue r;
  queue_cap := queue_cap r; queue_closed := queue_closed r; workers_done := workers_done r |}.
Definition set_validator (x : C) (r : router) : router := {|
  ids := ids r; validator := x; workers := workers r; shutdown_rx := shutdown_rx r;
  shutdown_tx := shutdown_tx r; monitor := monitor r; queue := queue r;
  queue_cap := queue_cap r; queue_closed := queue_closed r; workers_done := workers_done r |}.
Definition set_workers (x : C) (r : router) : router := {|
  ids := ids r; validator := validator r; workers := x; shutdown_rx := shutdown_rx r;
  shutdown_tx := shutdown_tx r; monitor := monitor r; queue := queue r;
  queue_cap := queue_cap r; queue_closed := queue_closed r; workers_done := workers_done r |}.
Definition set_shutdown_rx (x : C) (r : router) : router := {|
  ids := ids r; validator := validator r; workers := workers r; shutdown_rx := x;
  shutdown_tx := shutdown_tx r; monitor := monitor r; queue := queue r;
  queue_cap := queue_cap r; queue_closed := queue_closed r; workers_done := workers_done r |}.
Definition set_tx (x : Iface C) (r : router) : router := {|
  ids := ids r; validator := validator r; workers := workers r; shutdown_rx := shutdown_rx r;
  shutdown_tx := x; monitor := monitor r; queue := queue r;
  queue_cap := queue_cap r; queue_closed := queue_closed r; workers_done := workers_done r |}.
Definition set_monitor (x : M) (r : router) : router := {|
  ids := ids r; validator := validator r; workers := workers r; shutdown_rx := shutdown_rx r;
  shutdown_tx := shutdown_tx r; monitor := x; queue := queue r;
  queue_cap := queue_cap r; queue_closed := queue_closed r; workers_done := workers_done r |}.
Definition set_queue (x : list Message) (r : router) : router := {|
  ids := ids r; validator := validator r; workers := workers r; shutdown_rx := shutdown_rx r;
  shutdown_tx := shutdown_tx r; monitor := monitor r; queue := x;
  queue_cap := queue_cap r; queue_closed := queue_closed r; workers_done := workers_done r |}.
Definition set_closed (r : router) : router := {|
  ids := ids r; validator := validator r; workers := workers r; shutdown_rx := shutdown_rx r;
  shutdown_tx := shutdown_tx r; monitor := monitor r; queue := queue r;
  queue_cap := queue_cap r; queue_closed := true; workers_done := workers_done r |}.
Definition set_done (x : list bool) (r : router) : router := {|
  ids := ids r; validator := validator r; workers := workers r; shutdown_rx := shutdown_rx r;
  shutdown_tx := shutdown_tx r; monitor := monitor r; queue := queue r;
  queue_cap := queue_cap r; queue_closed := queue_closed r; workers_done := x |}.

Definition on_validator {A} : Go C A → Go router A := zoom validator set_validator.
Definition on_workers {A} : Go C A → Go router A := zoom workers set_workers.
Definition on_shutdown_rx {A} : Go C A → Go router A := zoom shutdown_rx set_shutdown_rx.
Definition on_monitor {A} : Go M A → Go router A := zoom monitor set_monitor.

(** [select { case queue <- msg: default: }], whether the message was sent. *)
Definition queue_try_send (msg : Message) : Go router bool := λ r,
  if queue_closed r then (Panic "send on closed channel", r)
  else if decide (length (queue r) < queue_cap r)%nat
  then (Ret true, set_queue (queue r ++ [msg]) r)
  else (Ret false, r).

(** [queue <- msg], which waits when the channel is full. *)
Definition queue_send (msg : Message) : Go router unit :=
  sent ← queue_try_send msg;
  if (sent : bool) then mret tt else go_block.

Definition queue_close : Go router unit := λ r,
  if queue_closed r then (Panic "close of closed channel", r) else (Ret tt, set_closed r).

(** [proto.Marshal] where a failure is only logged: the data is then nil. *)
Definition marshal_or_nil {X} `{Proto X} (m : X) : bytes :=
  match Marshal m with inr data => data | inl _ => "" end.

(** ** Routing *)

Definition denied : TpProcessResponse := {|
  TpProcessResponse_Status := TpProcessResponse_INTERNAL_ERROR;
  TpProcessResponse_Message := "Work queue is full, denying request";
  TpProcessResponse_ExtendedData := "" |}.

(** The body of [receiveValidator], without the deferred recovery. *)
Definition receiveValidator_body : Go router unit :=
  r ← on_validator RecvData;
  match r with
  | inl _ => mret tt
  | inr (_, data) =>
      let '(msg, err) := LoadMsg data in
      match err with
      | Some _ => mret tt
      | None =>
          let t := Message_MessageType msg in
          let corrId := Message_CorrelationId msg in
          if decide (t = Message_TP_PROCESS_REQUEST) then
            sent ← queue_try_send msg;
            if (sent : bool) then mret tt
            else
              _ ← on_validator (SendMsg Message_TP_PROCESS_RESPONSE
                                  (marshal_or_nil denied) corrId);
              mret tt
          else if decide (t = Message_PING_REQUEST) then
            _ ← on_validator (SendMsg Message_PING_RESPONSE
                                (marshal_or_nil Build_PingResponse) corrId);
            mret tt
          else
            r ← go_get;
            match ids r !! corrId with
            | Some workerId =>
                if decide (corrId ≠ "") then
                  err ← on_workers (SendData workerId data);
                  match err with
                  | Some _ => mret tt
                  | None => go_modify (λ r, set_ids (delete corrId (ids r)) r)
                  end
                else mret tt
            | None => mret tt
            end
      end
  end.

Definition receiveValidator : Go router unit :=
  go_recover receiveValidator_body (λ _, mret tt).

(** The "restart" command is sent on the shutdown connection. *)
Definition send_restart : Go router unit :=
  zoom shutdown_tx set_tx (call (_ ← SendData "" "restart"; mret tt)).

Definition receiveMonitor : Go router bool :=
  r ← on_monitor RecvEvent;
  match r with
  | inl _ => mret false
  | inr (event, _) =>
      let restart := bool_decide (event = EVENT_DISCONNECTED) in
      _ ← send_restart;
      mret restart
  end.

Definition receiveWorkers : Go router unit :=
  r ← on_workers RecvData;
  match r with
  | inl _ => mret tt
  | inr (workerId, data) =>
      let '(msg, err) := LoadMsg data in
      match err with
      | Some _ => mret tt
      | None =>
          let t := Message_MessageType msg in
          let corrId := Message_CorrelationId msg in
          _ ← (if decide (t ≠ Message_TP_PROCESS_RESPONSE)
               then go_modify (λ r, set_ids (<[corrId := workerId]> (ids r)) r)
               else mret tt);
          _ ← on_validator (SendData "" data);
          mret tt
      end
  end.

(** ** Shutdown *)

(** [<-workers_done], once per worker. *)
Fixpoint wait_workers (worker_count : nat) : Go router unit :=
  match worker_count with
  | O => mret tt
  | S n =>
      r ← go_get;
      match workers_done r with
      | [] => go_block
      | _ :: rest => _ ← go_put (set_done rest r); wait_workers n
      end
  end.

(** The goroutine that waits for the validator's answer only logs, and nothing is
    sent on [unregistered]: the select ends with the timeout. *)
Definition shutdown (worker_count : nat) (force : bool) : Go router (option error) :=
  _ ← queue_close;
  _ ← on_workers Close;
  _ ← on_monitor MonitorClose;
  _ ← (if negb force then
         _ ← on_validator (SendNewMsg Message_TP_UNREGISTER_REQUEST
                             (marshal_or_nil Build_TpUnregisterRequest));
         mret tt
       else mret tt);
  _ ← on_validator Close;
  _ ← on_shutdown_rx Close;
  _ ← wait_workers worker_count;
  mret None.

Definition receiveShutdown (worker_count : nat) : Go router bool :=
  r ← on_shutdown_rx RecvData;
  let cmd := match r with inr (_, data) => data | inl _ => "" end in
  if decide (cmd ≠ "restart" ∧ cmd ≠ "shutdown") then mret false
  else
    let restart := bool_decide (cmd = "restart") in
    err ← shutdown worker_count restart;
    match err with
    | Some _ => mret false
    | None => mret restart
    end.

(** ** Registration *)

(** One message from the validator while registering.  A nil message reads as the
    zero message. *)
Definition register_receive (corrId : string) : Go router (option error) :=
  '(_, msg, err) ← on_validator RecvMsg;
  match err with
  | Some err => mret (Some err)
  | None =>
      let msg := default inhabitant msg in
      _ ← (if decide (Message_CorrelationId msg ≠ corrId) then queue_send msg
           else mret tt);
      if decide (Message_MessageType msg ≠ Message_TP_REGISTER_RESPONSE) then
        mret (Some (errString ("Received unexpected message type: "
                               +:+ MessageType_String (Message_MessageType msg))))
      else
        let '(regResponse, err) := Unmarshal (Message_Content msg) in
        match err with
        | Some err => mret (Some err)
        | None =>
            if decide (TpRegisterResponse_Status regResponse ≠ TpRegisterResponse_OK)
            then mret (Some (errString ("Got response: "
                   +:+ enum_String TpRegisterResponse_Status_name
                         (TpRegisterResponse_Status regResponse))))
            else mret None
        end
  end.

(** The poll loop: the first socket of the poller that is ready ends it.  The
    turns that are left are handed back. *)
Fixpoint register_loop (corrId : string) (turns : list (Turn C M)) :
    Go router (option error * list (Turn C M)) :=
  match turns with
  | [] => go_block
  | turn :: rest =>
      _ ← go_modify (meanwhile turn);
      match polled turn with
      | inl err => mret (Some (errString ("Polling failed: " +:+ Error err)), rest)
      | inr ready =>
          match filter (λ s, s = ReadyValidator ∨ s = ReadyShutdown) ready with
          | ReadyValidator :: _ =>
              err ← register_receive corrId;
              mret (err, rest)
          | _ :: _ =>
              mret (Some (errString "Received shutdown while registering"), rest)
          | [] => register_loop corrId rest
          end
      end
  end.

Definition register (handler : TransactionHandler C) (version : string) (maxOccupancy : Z)
    (turns : list (Turn C M)) : Go router (option error * list (Turn C M)) :=
  let regRequest := {|
    TpRegisterRequest_Family := FamilyName handler;
    TpRegisterRequest_Version := version;
    TpRegisterRequest_Namespaces := Namespaces handler;
    TpRegisterRequest_MaxOccupancy := maxOccupancy |} in
  match Marshal regRequest with
  | inl err => mret (Some err, turns)
  | inr regRequestData =>
      '(corrId, err) ← on_validator (SendNewMsg Message_TP_REGISTER_REQUEST regRequestData);
      match err with
      | Some err => mret (Some err, turns)
      | None => register_loop corrId turns
      end
  end.

(** The nested loops of [start] over handlers and their versions. *)
Fixpoint register_versions (handler : TransactionHandler C) (versions : list string)
    (maxOccupancy : Z) (turns : list (Turn C M)) :
    Go router (option error * list (Turn C M)) :=
  match versions with
  | [] => mret (None, turns)
  | version :: rest =>
      '(err, turns) ← register handler version maxOccupancy turns;
      match err with
      | Some err =>
          mret (Some (errString ("Error registering handler (" +:+ FamilyName handler +:+ ", "
                 +:+ version +:+ ", " +:+ fmt_strings (Namespaces handler) +:+ "): "
                 +:+ Error err)), turns)
      | None => register_versions handler rest maxOccupancy turns
      end
  end.

Fixpoint register_all (hs : list (TransactionHandler C)) (maxOccupancy : Z)
    (turns : list (Turn C M)) : Go router (option error * list (Turn C M)) :=
  match hs with
  | [] => mret (None, turns)
  | handler :: rest =>
      '(err, turns) ← register_versions handler (FamilyVersions handler) maxOccupancy turns;
      match err with
      | Some err => mret (Some err, turns)
      | None => register_all rest maxOccupancy turns
      end
  end.

(** ** The main loop *)

(** The inner loop over the ready sockets: [inl restart] goes on polling,
    [inr restart] returns. *)
Fixpoint dispatch (worker_count : nat) (ready : list Ready) (restart : bool) :
    Go router (bool + bool) :=
  match ready with
  | [] => mret (inl restart)
  | ReadyValidator :: rest =>
      _ ← receiveValidator; dispatch worker_count rest restart
  | ReadyMonitor :: rest =>
      restart ← receiveMonitor; dispatch worker_count rest restart
  | ReadyWorkers :: rest =>
      _ ← receiveWorkers; dispatch worker_count rest restart
  | ReadyShutdown :: _ =>
      restart ← receiveShutdown worker_count; mret (inr restart)
  end.

Fixpoint poll_loop (worker_count : nat) (turns : list (Turn C M)) (restart : bool) :
    Go router (bool * option error) :=
  match turns with
  | [] => go_block
  | turn :: rest =>
      _ ← go_modify (meanwhile turn);
      match polled turn with
      | inl err => mret (restart, Some (errString ("Polling failed: " +:+ Error err)))
      | inr ready =>
          next ← dispatch worker_count ready restart;
          match next with
          | inr restart => mret (restart, None)
          | inl restart => poll_loop worker_count rest restart
          end
      end
  end.

(** The outcomes of creating the sockets of one run. *)
Record Sockets := {
  new_validator : error + C;
  new_monitor : error + M;
  new_workers : error + C;
  new_shutdown_rx : error + C;
  new_shutdown_tx : error + C }.

(** [start]: the result, and the processor with its [shutdown_tx]. *)
Definition start (self : TransactionProcessor C) (socks : Sockets) (turns : list (Turn C M)) :
    Res (bool * option error) * TransactionProcessor C :=
  match new_validator socks with
  | inl err => (Ret (false, Some (errString ("Could not connect to validator: "
                                             +:+ Error err))), self)
  | inr validator =>
  match new_monitor socks with
  | inl err => (Ret (false, Some (errString ("Could not monitor validator connection: "
                                             +:+ Error err))), self)
  | inr monitor =>
  match new_workers socks with
  | inl err => (Ret (false, Some (errString ("Could not create thread pool router: "
                                             +:+ Error err))), self)
  | inr workers =>
  match new_shutdown_rx socks with
  | inl err => (Ret (false, Some (errString ("Could not create shutdown connection: "
                                             +:+ Error err))), self)
  | inr shutdown_rx =>
      let shutdown_tx := assigned (new_shutdown_tx socks) in
      let self := set_shutdown_tx shutdown_tx self in
      let r := {| ids := ∅; validator := validator; workers := workers;
                  shutdown_rx := shutdown_rx; shutdown_tx := shutdown_tx;
                  monitor := monitor; queue := []; queue_cap := Z.to_nat (maxQueue self);
                  queue_closed := false; workers_done := [] |} in
      let '(res, r') :=
        ('(err, turns) ← register_all (handlers self) (wrap_u32 (maxQueue self)) turns;
         match err with
         | Some err => mret (false, Some err)
         | None => poll_loop (Z.to_nat (nThreads self)) turns false
         end) r in
      (res, set_shutdown_tx (Processor.shutdown_tx r') self)
  end
  end
  end
  end.

(** [Start]: runs until one ends without a restart.  Each run has its own ZMQ
    context, sockets and polls. *)
Fixpoint Start (runs : list (option error * Sockets * list (Turn C M)))
    (self : TransactionProcessor C) : Res (option error) * TransactionProcessor C :=
  match runs with
  | [] => (Blocked, self)
  | (Some err, _, _) :: _ =>
      (Panic ("Failed to create ZMQ context: " +:+ Error err), self)
  | (None, socks, turns) :: rest =>
      match start self socks turns with
      | (Ret (_, Some err), self) => (Ret (Some err), self)
      | (Ret (true, None), self) => Start rest self
      | (Ret (false, None), self) => (Ret None, self)
      | (Panic e, self) => (Panic e, self)
      | (Blocked, self) => (Blocked, self)
      | (OutOfFuel, self) => (OutOfFuel, self)
      end
  end.
End processor.

(** ** The queue *)

Section queue.
Context {C M : Type} `{Connection C, Monitor M, Proto Message}.
Context `{Proto TpProcessResponse, Proto PingResponse, Proto TpUnregisterRequest}.
Context `{Proto TpRegisterRequest, Proto TpRegisterResponse}.
Abbreviation router := (Router C M).
Implicit Types r : router.

(** The channel holds no more than its capacity. *)
Definition bounded r : Prop := (length (queue r) ≤ queue_cap r)%nat.

Lemma bounded_validator {A} (m : Go C A) : preserves bounded (on_validator m).
Proof. by apply preserves_zoom. Qed.
Lemma bounded_workers {A} (m : Go C A) : preserves bounded (on_workers m).
Proof. by apply preserves_zoom. Qed.
Lemma bounded_shutdown_rx {A} (m : Go C A) : preserves bounded (on_shutdown_rx m).
Proof. by apply preserves_zoom. Qed.
Lemma bounded_monitor {A} (m : Go M A) : preserves bounded (on_monitor m).
Proof. by apply preserves_zoom. Qed.
#[local] Hint Resolve bounded_validator bounded_workers bounded_shutdown_rx
  bounded_monitor : sdk.

Lemma bounded_try_send msg : preserves bounded (queue_try_send msg).
Proof.
  intros r Hr. unfold queue_try_send, bounded in *. destruct (queue_closed r); [done|].
  case_decide; [|done]. simpl. rewrite length_app. simpl. lia.
Qed.
#[local] Hint Resolve bounded_try_send : sdk.

Lemma bounded_block {A} : preserves bounded (go_block : Go router A).
Proof. by intros r. Qed.
Lemma bounded_modify_ids f : preserves bounded (go_modify (λ r, set_ids (f r) r)).
Proof. by intros r. Qed.
#[local] Hint Resolve bounded_block bounded_modify_ids : sdk.

Lemma bounded_get {A} (f : router → Go router A) :
  (∀ r, preserves bounded (f r)) → preserves bounded (go_get ≫= f).
Proof. intros Hf r. apply Hf. Qed.

(** [preserves bounded] follows the structure of the code. *)
Ltac bounded_step :=
  lazymatch goal with
  | |- preserves _ (mret _) => apply preserves_ret
  | |- preserves _ go_block => apply bounded_block
  | |- preserves _ (go_get ≫= _) => apply bounded_get; intros ?
  | |- preserves _ (_ ≫= _) => apply preserves_bind; [|intros ?]
  | |- preserves _ (on_validator _) => apply bounded_validator
  | |- preserves _ (on_workers _) => apply bounded_workers
  | |- preserves _ (on_shutdown_rx _) => apply bounded_shutdown_rx
  | |- preserves _ (on_monitor _) => apply bounded_monitor
  | |- preserves _ (queue_try_send _) => apply bounded_try_send
  | |- preserves _ (go_modify (λ r, set_ids _ r)) => apply bounded_modify_ids
  | |- preserves _ (match ?x with _ => _ end) => destruct x
  end.
Ltac solve_bounded := repeat (bounded_step || assumption).

Lemma bounded_receiveValidator : preserves bounded receiveValidator.
Proof.
  assert (Hb : preserves bounded receiveValidator_body)
    by (unfold receiveValidator_body; solve_bounded).
  intros r Hr. unfold receiveValidator, go_recover. specialize (Hb r Hr).
  by destruct (receiveValidator_body r) as [[] r'].
Qed.

Lemma bounded_receiveWorkers : preserves bounded receiveWorkers.
Proof. unfold receiveWorkers. solve_bounded. Qed.

Lemma bounded_send_restart : preserves bounded send_restart.
Proof. by apply preserves_zoom. Qed.

Lemma bounded_receiveMonitor : preserves bounded receiveMonitor.
Proof.
  unfold receiveMonitor. pose proof bounded_send_restart. solve_bounded.
Qed.

Lemma bounded_wait n : preserves bounded (wait_workers n).
Proof.
  induction n as [|n IH]; simpl; [auto with sdk|]. intros r Hr. unfold mbind, Go_bind, go_get.
  destruct (workers_done r); [done|]. by apply IH.
Qed.

Lemma bounded_close : preserves bounded queue_close.
Proof. intros r Hr. unfold queue_close. by destruct (queue_closed r). Qed.

Lemma bounded_receiveShutdown n : preserves bounded (receiveShutdown n).
Proof.
  unfold receiveShutdown, shutdown. pose proof (bounded_wait n). pose proof bounded_close.
  solve_bounded.
Qed.

Lemma bounded_dispatch n ready restart : preserves bounded (dispatch n ready restart).
Proof.
  revert restart. induction ready as [|[] ready IH]; intros restart; simpl; [auto with sdk|..];
    (apply preserves_bind; [|intros ?; apply IH || apply preserves_ret]).
  - apply bounded_receiveValidator.
  - apply bounded_receiveMonitor.
  - apply bounded_receiveWorkers.
  - apply bounded_receiveShutdown.
Qed.

Definition turns_bounded (turns : list (Turn C M)) : Prop :=
  Forall (λ t, ∀ r, bounded r → bounded (meanwhile t r)) turns.

Lemma bounded_poll_loop n turns restart :
  turns_bounded turns → preserves bounded (poll_loop n turns restart).
Proof.
  intros Ht. revert restart. induction Ht as [|t turns Ht _ IH]; intros restart; simpl;
    [auto with sdk|].
  apply preserves_bind; [by apply preserves_modify|intros _].
  destruct (polled t); [auto with sdk|].
  apply preserves_bind; [apply bounded_dispatch|]. intros []; auto with sdk.
Qed.
End queue.

(** ** Routing *)

(** A connection as the router sees it: what was sent over it so far. *)
Class Port (C : Type) `{Connection C, Proto Message} := {
  outbox : C → list (string * bytes);
  RecvData_outbox (c : C) res c' : RecvData c = (res, c') → outbox c' = outbox c;
  SendData_outbox id data (c : C) res c' :
    SendData id data c = (res, c') →
    outbox c' = outbox c ++ match res with Ret None => [(id, data)] | _ => [] end }.
#[global] Hint Mode Port ! - - : typeclass_instances.

Section routing.
Context {C M : Type} `{Connection C, Monitor M, Proto Message, !Port C}.
Context `{Proto TpProcessResponse, Proto PingResponse}.
Abbreviation router := (Router C M).
Implicit Types (r : router) (hist : list (string * Message)) (corr w : string).

(** The message a worker hands to the router, if one is waiting. *)
Definition accepted r : list (string * Message) :=
  match (RecvData (workers r)).1 with
  | Ret (inr (w, data)) =>
      match LoadMsg data with
      | (m, None) => [(w, m)]
      | _ => []
      end
  | _ => []
  end.

Definition is_request (m : Message) : Prop :=
  Message_MessageType m ≠ Message_TP_PROCESS_RESPONSE.

Definition note_worker (table : gmap string string) (wm : string * Message) : gmap string string :=
  if decide (Message_MessageType wm.2 ≠ Message_TP_PROCESS_RESPONSE)
  then <[Message_CorrelationId wm.2 := wm.1]> table else table.

(** Steps of a running processor: the router handles a message of the validator
    or of a worker, or other threads act; they do not touch the table nor what
    was sent to the workers.  The history collects the messages accepted from
    workers. *)
Inductive step : router * list (string * Message) → router * list (string * Message) → Prop :=
| step_validator r hist res r' :
    receiveValidator r = (res, r') → step (r, hist) (r', hist)
| step_workers r hist res r' :
    receiveWorkers r = (res, r') → step (r, hist) (r', hist ++ accepted r)
| step_others r hist r' :
    ids r' = ids r → outbox (workers r') = outbox (workers r) → step (r, hist) (r', hist).

(** Has this worker sent a request with this correlation id? *)
Definition asked hist corr w : Prop :=
  ∃ q, (w, q) ∈ hist ∧ Message_CorrelationId q = corr ∧ is_request q.

(** A message for a worker that carries a correlation id. *)
Definition reply_to corr (data : bytes) : Prop :=
  ∃ m, LoadMsg data = (m, None) ∧ Message_CorrelationId m = corr.

Lemma zoom_workers {A} (m : Go C A) r a r' :
  on_workers m r = (a, r') → m (workers r) = (a, workers r') ∧ ids r' = ids r ∧
    validator r' = validator r.
Proof.
  unfold on_workers, zoom. destruct (m (workers r)) as [res c]. by intros [= <- <-].
Qed.

Lemma zoom_validator {A} (m : Go C A) r a r' :
  on_validator m r = (a, r') → m (validator r) = (a, validator r') ∧ ids r' = ids r ∧
    workers r' = workers r.
Proof.
  unfold on_validator, zoom. destruct (m (validator r)) as [res c]. by intros [= <- <-].
Qed.

(** Handling a worker's message notes the worker and sends nothing to workers. *)
Lemma receiveWorkers_effect r res r' :
  receiveWorkers r = (res, r') →
  outbox (workers r') = outbox (workers r) ∧ ids r' = foldl note_worker (ids r) (accepted r).
Proof.
  unfold receiveWorkers, accepted. intros E. unfold mbind, Go_bind, mret, Go_ret in E.
  destruct (on_workers RecvData r) as [a r1] eqn:Er.
  destruct (zoom_workers _ _ _ _ Er) as (Er' & Hids & _). rewrite Er'. simpl.
  pose proof (RecvData_outbox _ _ _ Er') as Ho.
  destruct a as [[err|[w data]]|e| |]; simplify_eq/=; try (split; done).
  destruct (LoadMsg data) as [m [err|]]; simplify_eq/=; [done|].
  unfold note_worker. simpl. case_decide; simpl in E;
    destruct (on_validator (SendData "" data) _) as [b r2] eqn:Es in E;
    destruct (zoom_validator _ _ _ _ Es) as (_ & Hids2 & Hw2); simpl in Hids2, Hw2;
    destruct b; simplify_eq/=; rewrite Hw2; split; done || congruence.
Qed.

(** Handling a validator's message either leaves the table and the workers alone,
    or passes on the reply to the worker noted for it, which is then removed. *)
Lemma receiveValidator_effect r res r' :
  receiveValidator r = (res, r') →
  (ids r' = ids r ∧ outbox (workers r') = outbox (workers r)) ∨
  (∃ corr w data, ids r !! corr = Some w ∧ reply_to corr data ∧
     ids r' = delete corr (ids r) ∧
     outbox (workers r') = outbox (workers r) ++ [(w, data)]).
Proof.
  unfold receiveValidator, go_recover.
  destruct (receiveValidator_body r) as [b r1] eqn:E. intros Hr.
  assert (r1 = r') as -> by (unfold mret, Go_ret in Hr; destruct b; by simplify_eq/=).
  clear Hr.
  unfold receiveValidator_body, mbind, Go_bind, mret, Go_ret, go_get, go_modify in E.
  destruct (on_validator RecvData r) as [a r1] eqn:Er.
  destruct (zoom_validator _ _ _ _ Er) as (_ & Hids & Hw).
  destruct a as [[err|[id data]]|e| |]; simplify_eq/=; try (left; split; congruence).
  destruct (LoadMsg data) as [m [err|]] eqn:El; simplify_eq/=; [left; split; congruence|].
  destruct (decide (Message_MessageType m = Message_TP_PROCESS_REQUEST)).
  { left. unfold queue_try_send in E. destruct (queue_closed r1); [simplify_eq/=; split; congruence|].
    destruct (decide _); simplify_eq/=; [split; congruence|].
    destruct (on_validator _ r1) as [c r2] eqn:Es in E.
    destruct (zoom_validator _ _ _ _ Es) as (_ & Hids2 & Hw2).
    destruct c; simplify_eq/=; split; congruence. }
  destruct (decide (Message_MessageType m = Message_PING_REQUEST)).
  { left. destruct (on_validator _ r1) as [c r2] eqn:Es in E.
    destruct (zoom_validator _ _ _ _ Es) as (_ & Hids2 & Hw2).
    destruct c; simplify_eq/=; split; congruence. }
  simpl in E. destruct (ids r1 !! Message_CorrelationId m) as [w|] eqn:Ew;
    [|left; simplify_eq/=; split; congruence].
  destruct (decide _); [|left; simplify_eq/=; split; congruence].
  destruct (on_workers (SendData w data) r1) as [c r2] eqn:Es.
  destruct (zoom_workers _ _ _ _ Es) as (Es' & Hids2 & _).
  pose proof (SendData_outbox _ _ _ _ _ Es') as Ho. rewrite Hw in Ho.
  destruct c as [[err|]|e| |]; simplify_eq/=;
    [rewrite app_nil_r in Ho; left; split; congruence| |
     rewrite app_nil_r in Ho; left; split; congruence..].
  right. exists (Message_CorrelationId m), w, data. rewrite <-Hids.
  split; [done|]. split; [by exists m|]. split; [by rewrite Hids2|done].
Qed.
End routing.

(** ** Claims *)

Section claims.
Context {C M : Type} `{Connection C, Monitor M, Proto Message}.
Context `{Proto TpProcessResponse, Proto PingResponse, Proto TpUnregisterRequest}.
Context `{Proto TpRegisterRequest, Proto TpRegisterResponse}.
Abbreviation router := (Router C M).
Implicit Types (r : router) (hist : list (string * Message)) (corr w : string).

(** C16. Replies reach the worker that asked: in every run of the router from an
    empty table, whatever the validator, the workers and the other threads do,
    every message handed to a worker carries the correlation id of a request
    that this same worker sent. *)
Theorem reply_goes_to_asker `{!Port C} r0 r hist :
  ids r0 = ∅ → outbox (workers r0) = [] → rtc step (r0, []) (r, hist) →
  ∀ w data, (w, data) ∈ outbox (workers r) → ∃ corr, reply_to corr data ∧ asked hist corr w.
Proof.
  intros Hids0 Hout0 Hrun.
  set (Inv := λ c : router * list (string * Message),
    (∀ corr w, ids c.1 !! corr = Some w → asked c.2 corr w) ∧
    (∀ w data, (w, data) ∈ outbox (workers c.1) →
       ∃ corr, reply_to corr data ∧ asked c.2 corr w)).
  assert (Hinv : Inv (r, hist)); [|apply Hinv]. refine (rtc_keeps _ Inv _ _ _ Hrun _).
  2: { split; simpl; [intros ? ?; by rewrite Hids0|intros ? ?; rewrite Hout0; set_solver]. }
  intros c1 c2 [I1 I2] Hstep.
  assert (Hmono : ∀ h new corr w, asked h corr w → asked (h ++ new) corr w).
  { intros h new corr w (q & Hq & ?). exists q. set_solver. }
  destruct Hstep as [r1 h res r2 E|r1 h res r2 E|r1 h r2 E1 E2]; simpl in *.
  - destruct (receiveValidator_effect _ _ _ E) as [[Ei Eo]|(corr & w & data & Hw & Hr & Ei & Eo)];
      split; simpl; intros ? ?; rewrite ?Ei, ?Eo; [apply I1|apply I2| |].
    + rewrite lookup_delete_Some. intros [_ ?]. by apply I1.
    + rewrite elem_of_app, list_elem_of_singleton. intros [?|[= -> ->]]; [by apply I2|].
      exists corr. split; [done|by apply I1].
  - destruct (receiveWorkers_effect _ _ _ E) as [Eo Ei]. split; simpl; intros a b.
    + rewrite Ei. unfold accepted. destruct (RecvData (workers r1)).1 as [[|[w d]]| | |] eqn:Er;
        simpl; try (rewrite app_nil_r; apply I1).
      destruct (LoadMsg d) as [m [|]]; simpl; [rewrite app_nil_r; apply I1|].
      unfold note_worker. simpl. case_decide; [|intros ?; by apply Hmono, I1].
      destruct (decide (Message_CorrelationId m = a)) as [<-|Hne].
      * rewrite lookup_insert_eq. intros [= <-]. exists m. set_solver.
      * rewrite lookup_insert_ne by done. intros ?. by apply Hmono, I1.
    + rewrite Eo. intros (corr & ? & ?)%I2. exists corr. auto.
  - split; simpl; intros ? ?; [rewrite E1; apply I1|rewrite E2; apply I2].
Qed.

(** No reply is lost: once a worker's request is noted, it stays noted until
    a message with its correlation id has been handed to that worker, unless a
    worker sends a new request with the same id. *)
Theorem request_stays_until_answered `{!Port C} r hist r' new corr w :
  rtc step (r, hist) (r', hist ++ new) → ids r !! corr = Some w →
  (∀ w' q, (w', q) ∈ new → is_request q → Message_CorrelationId q ≠ corr) →
  ids r' !! corr = Some w ∨
  ∃ data, (w, data) ∈ outbox (workers r') ∧ reply_to corr data.
Proof.
  intros Hrun Hw Hnew.
  set (Inv := λ c : router * list (string * Message), ∃ new, c.2 = hist ++ new ∧
    ((∃ w' q, (w', q) ∈ new ∧ is_request q ∧ Message_CorrelationId q = corr) ∨
     ids c.1 !! corr = Some w ∨
     ∃ data, (w, data) ∈ outbox (workers c.1) ∧ reply_to corr data)).
  assert (Hinv : Inv (r', hist ++ new)).
  2: { destruct Hinv as (new' & ->%app_inv_head & [(w' & q & Hq & Hr & Hc)|?]); [|done].
       by destruct (Hnew w' q Hq Hr). }
  refine (rtc_keeps _ Inv _ _ _ Hrun _).
  2: { exists []. rewrite app_nil_r. auto. }
  intros c1 c2 (n1 & Hn1 & Hcase) Hstep.
  destruct Hstep as [r1 h res r2 E|r1 h res r2 E|r1 h r2 E1 E2]; simpl in *; subst h.
  - exists n1. split; [done|]. destruct Hcase as [?|Hcase]; [by left|]. right. simpl.
    destruct (receiveValidator_effect _ _ _ E) as [[Ei Eo]|(k & w1 & data & Hk & Hr & Ei & Eo)];
      rewrite Ei, Eo; [done|]. destruct Hcase as [Hids|(d & Hd & ?)]; [|right; set_solver].
    destruct (decide (k = corr)) as [->|Hne].
    + right. exists data. split; [|done]. simplify_eq. set_solver.
    + left. by rewrite lookup_delete_ne.
  - destruct (receiveWorkers_effect _ _ _ E) as [Eo Ei]. exists (n1 ++ accepted r1).
    split; [by rewrite app_assoc|]. simpl. rewrite Eo, Ei.
    destruct Hcase as [(w' & q & Hq & ?)|[Hids|Hd]]; [left; exists w', q; set_solver| |auto].
    clear -Hids. unfold accepted. destruct (RecvData (workers r1)).1 as [[|[w1 d]]| | |];
      simpl; auto. destruct (LoadMsg d) as [m [|]]; simpl; auto.
    unfold note_worker. simpl. case_decide; [|auto].
    destruct (decide (Message_CorrelationId m = corr)) as [Hc|Hne].
    + left. exists w1, m. set_solver.
    + right. left. by rewrite lookup_insert_ne.
  - exists n1. split; [done|]. simpl. by rewrite E1, E2.
Qed.

(** A reply that arrives for a noted request is handed to the worker that
    waits for it, unchanged, and the request is then no longer noted. *)
Theorem reply_delivered r id data m corr w v' ws' :
  RecvData (validator r) = (Ret (inr (id, data)), v') → LoadMsg data = (m, None) →
  Message_MessageType m ≠ Message_TP_PROCESS_REQUEST →
  Message_MessageType m ≠ Message_PING_REQUEST →
  Message_CorrelationId m = corr → corr ≠ "" → ids r !! corr = Some w →
  SendData w data (workers r) = (Ret None, ws') →
  receiveValidator r =
    (Ret tt, set_ids (delete corr (ids r)) (set_workers ws' (set_validator v' r))).
Proof.
  intros Hr Hl Ht1 Ht2 Hc Hne Hids Hs.
  assert (Hr' : on_validator RecvData r = (Ret (inr (id, data)), set_validator v' r)).
  { unfold on_validator, zoom. by rewrite Hr. }
  unfold receiveValidator, go_recover, receiveValidator_body.
  rewrite (go_bind_Ret _ _ _ _ _ Hr'), Hl, !decide_False by done.
  unfold mbind, Go_bind, go_get. simpl. rewrite Hc, Hids, decide_True by done.
  unfold on_workers, zoom. simpl. by rewrite Hs.
Qed.

(** C29. A request is never dropped silently: while the processor runs, every
    process request from the validator is put on the work queue, or, when the
    queue is full, answered at once with an internal error under the request's
    correlation id. *)
Theorem request_queued_or_denied r id data m v' :
  RecvData (validator r) = (Ret (inr (id, data)), v') → LoadMsg data = (m, None) →
  Message_MessageType m = Message_TP_PROCESS_REQUEST → queue_closed r = false →
  (∃ r', receiveValidator r = (Ret tt, r') ∧ queue r' = queue r ++ [m] ∧ bounded r') ∨
  ((queue_cap r ≤ length (queue r))%nat ∧
   ∀ d v'', Marshal denied = inr d →
     SendMsg Message_TP_PROCESS_RESPONSE d (Message_CorrelationId m) v' = (Ret None, v'') →
     receiveValidator r = (Ret tt, set_validator v'' r)).
Proof.
  intros Hr Hl Ht Hopen.
  assert (Hr' : on_validator RecvData r = (Ret (inr (id, data)), set_validator v' r)).
  { unfold on_validator, zoom. by rewrite Hr. }
  destruct (decide (length (queue r) < queue_cap r)%nat) as [Hlt|Hge].
  - left. exists (set_queue (queue r ++ [m]) (set_validator v' r)). split; [|split; [done|]].
    + unfold receiveValidator, go_recover, receiveValidator_body.
      rewrite (go_bind_Ret _ _ _ _ _ Hr'), Hl, decide_True by done.
      unfold queue_try_send, mbind, Go_bind. simpl. by rewrite Hopen, decide_True.
    + unfold bounded. simpl. rewrite length_app. simpl. lia.
  - right. split; [lia|]. intros d v'' Hd Hs.
    unfold receiveValidator, go_recover, receiveValidator_body.
    rewrite (go_bind_Ret _ _ _ _ _ Hr'), Hl, decide_True by done.
    unfold queue_try_send, mbind, Go_bind. simpl. rewrite Hopen, decide_False by done.
    unfold marshal_or_nil. rewrite Hd. unfold on_validator, zoom. simpl. by rewrite Hs.
Qed.


(** C32. Registration succeeds only on the validator's word: when [register]
    reports no error, the last thing done with the validator's connection was to
    take a registration response from it that parses and has status OK. *)
Theorem register_needs_ok handler version occ turns r turns' r' :
  register handler version occ turns r = (Ret (None, turns'), r') →
  ∃ r1 id msg v resp, RecvMsg (validator r1) = (Ret (id, msg, None), v) ∧ validator r' = v ∧
    Message_MessageType (default inhabitant msg) = Message_TP_REGISTER_RESPONSE ∧
    Unmarshal (Message_Content (default inhabitant msg)) = (resp, None) ∧
    TpRegisterResponse_Status resp = TpRegisterResponse_OK.
Proof.
  unfold register. destruct (Marshal _) as [err|data]; [by intros [=]|]. intros E.
  apply go_bind_inv in E as ([corrId [err|]] & r1 & _ & E); [by go_eq|].
  revert r1 E. induction turns as [|t turns IH]; intros r1 E; [by go_eq|]. simpl in E.
  apply go_bind_inv in E as (? & r2 & _ & E). destruct (polled t) as [err|ready]; [by go_eq|].
  destruct (filter _ ready) as [|[] ?]; [by eapply IH| |by go_eq..].
  apply go_bind_inv in E as (err & r3 & E & E'). unfold mret, Go_ret in E'. simplify_eq.
  unfold register_receive in E. apply go_bind_inv in E as ([[id msg] err] & r4 & Er & E).
  destruct err as [err|]; [by go_eq|].
  apply go_bind_inv in E as (? & r5 & Eq & E). case_decide as Ht; [by go_eq|].
  destruct (Unmarshal _) as [resp [err|]] eqn:Eu; [by go_eq|].
  case_decide as Hs; [by go_eq|].
  unfold on_validator, zoom in Er. destruct (RecvMsg (validator r2)) as [a v] eqn:Ev.
  simplify_eq. go_eq. exists r2, id, msg, v, resp. split; [done|]. split; [|done].
  case_decide; [|by go_eq]. unfold queue_send, queue_try_send in Eq.
  by repeat (apply go_bind_inv in Eq as (? & ? & ? & Eq) || (case_match; go_eq)).
Qed.

(** An impatient validator breaks registration: a process request that
    arrives before the registration response is put on the work queue, but
    [register] then reports an error for it, so the processor does not start. *)
Theorem impatient_validator_breaks_registration corrId turn rest r id m v' :
  (∀ r, meanwhile turn r = r) → polled turn = inr [ReadyValidator] →
  RecvMsg (validator r) = (Ret (id, Some m, None), v') →
  Message_CorrelationId m ≠ corrId → Message_MessageType m = Message_TP_PROCESS_REQUEST →
  queue_closed r = false → (length (queue r) < queue_cap r)%nat →
  register_loop corrId (turn :: rest) r =
    (Ret (Some (errString "Received unexpected message type: TP_PROCESS_REQUEST"), rest),
     set_queue (queue r ++ [m]) (set_validator v' r)).
Proof.
  intros Hmw Hp Hr Hc Ht Hopen Hroom. cbn [register_loop].
  assert (Er : on_validator RecvMsg r = (Ret (id, Some m, None), set_validator v' r)).
  { unfold on_validator, zoom. by rewrite Hr. }
  unfold go_modify, mbind at 1, Go_bind at 1. rewrite Hmw, Hp. simpl.
  erewrite go_bind_Ret; [done|]. unfold register_receive.
  rewrite (go_bind_Ret _ _ _ _ _ Er). cbv beta iota zeta. cbn [from_option Datatypes.id].
  rewrite (decide_True (P := Message_CorrelationId m ≠ corrId)) by done.
  erewrite go_bind_Ret.
  2: { unfold queue_send, queue_try_send, mbind, Go_bind. simpl.
       by rewrite Hopen, decide_True. }
  simpl. rewrite Ht, decide_True by done. done.
Qed.

(** C33. Shutting down: on the command "shutdown" or "restart" the router closes
    the work queue, keeping what is in it, and then waits until every worker has
    reported; it returns whether to restart.  Any other command is ignored and
    changes nothing but the shutdown connection. *)
Theorem shutdown_waits_for_workers n r id cmd c1 :
  (∀ c : C, ∃ c', Close c = (Ret tt, c')) → (∀ m : M, ∃ m', MonitorClose m = (Ret tt, m')) →
  (∃ x v1, SendNewMsg Message_TP_UNREGISTER_REQUEST
             (marshal_or_nil Build_TpUnregisterRequest) (validator r) = (Ret x, v1)) →
  queue_closed r = false → RecvData (shutdown_rx r) = (Ret (inr (id, cmd)), c1) →
  if decide (cmd = "restart" ∨ cmd = "shutdown") then
    ∃ r', queue_closed r' = true ∧ queue r' = queue r ∧
      receiveShutdown n r = ((if decide (n ≤ length (workers_done r))%nat
                              then Ret (bool_decide (cmd = "restart")) else Blocked), r')
  else receiveShutdown n r = (Ret false, set_shutdown_rx c1 r).
Proof.
  intros Hclose Hmon (x & v1 & Ev) Hopen Hrecv.
  assert (Er : on_shutdown_rx RecvData r = (Ret (inr (id, cmd)), set_shutdown_rx c1 r)).
  { unfold on_shutdown_rx, zoom. by rewrite Hrecv. }
  assert (Hwait : ∀ k (r0 : router), ∃ r', queue_closed r' = queue_closed r0 ∧ queue r' = queue r0 ∧
    wait_workers k r0 = ((if decide (k ≤ length (workers_done r0))%nat then Ret tt else Blocked), r')).
  { induction k as [|k IH]; intros r0; [by exists r0|]. simpl. unfold mbind, Go_bind, go_get.
    destruct (workers_done r0) as [|b rest] eqn:Ed; [by exists r0|]. simpl.
    destruct (IH (set_done rest r0)) as (r' & Hq1 & Hq2 & E). exists r'.
    split; [done|]. split; [done|]. rewrite E. simpl.
    destruct (decide (k ≤ length rest)%nat), (decide (S k ≤ S (length rest))%nat); done || lia. }
  unfold receiveShutdown. rewrite (go_bind_Ret _ _ _ _ _ Er). cbv beta iota zeta.
  case_decide as Hcmd; [rewrite decide_False by tauto|by rewrite decide_True by tauto].
  set (force := bool_decide (cmd = "restart")).
  destruct (Hclose (workers r)) as [w1 Ew], (Hmon (monitor r)) as [m1 Em].
  destruct (Hclose (if force then validator r else v1)) as [v2 Ev2].
  destruct (Hclose c1) as [s1 Es].
  set (r6 := set_shutdown_rx s1 (set_validator v2 (set_validator (if force then validator r else v1)
    (set_monitor m1 (set_workers w1 (set_closed (set_shutdown_rx c1 r))))))).
  destruct (Hwait n r6) as (r' & Hq1 & Hq2 & E). exists r'. split; [done|]. split; [done|].
  assert (Es' : shutdown n force (set_shutdown_rx c1 r) =
    ((if decide (n ≤ length (workers_done r))%nat then Ret None else Blocked), r')).
  { unfold shutdown, queue_close, mbind, Go_bind, on_workers, on_monitor, on_validator,
      on_shutdown_rx, zoom. simpl. rewrite Hopen. simpl. rewrite Ew. simpl. rewrite Em. simpl.
    destruct force; simpl; [|rewrite Ev; simpl]; rewrite Ev2; simpl; rewrite Es; simpl;
      match goal with |- context [wait_workers n ?x] => change x with r6 end;
      rewrite E; simpl; by destruct (decide _). }
  unfold mbind, Go_bind. rewrite Es'. by destruct (decide _).
Qed.
End claims.

(** ** Witnesses *)

Module witness.
#[local] Existing Instance ordered_runtime.
#[local] Instance wmsg : Proto Message := countable_proto Message.
#[local] Instance wresp : Proto TpProcessResponse := countable_proto TpProcessResponse.
#[local] Instance wping : Proto PingResponse := countable_proto PingResponse.
#[local] Instance wunreg : Proto TpUnregisterRequest := countable_proto TpUnregisterRequest.
#[local] Instance wregq : Proto TpRegisterRequest := countable_proto TpRegisterRequest.
#[local] Instance wregr : Proto TpRegisterResponse := countable_proto TpRegisterResponse.
#[local] Instance wconn : Connection (ZmqConnection Script) := zmq_connection 5.
#[local] Instance wmonitor : Monitor unit := {|
  RecvEvent := go_block; MonitorClose := mret tt |}.

Definition script_out (c : ZmqConnection Script) : list (string * bytes) :=
  omap (λ fr, match split_frames fr with inr p => Some p | inl _ => None end)
    (script_outbox (socket c)).

#[local] Instance script_port : Port (ZmqConnection Script).
Proof.
  refine {| outbox := script_out |}.
  - intros c res c'. simpl. unfold zmq_RecvData, mbind, Go_bind, on_socket, zoom. simpl.
    destruct (script_inbox (socket c)) as [|[e|fr] rest]; by intros [= _ <-].
  - intros id data c res c'. simpl. unfold zmq_SendData, on_socket, zoom, script_out.
    case_decide as Hid; intros [= <- <-]; simpl; rewrite omap_app; [done|].
    by subst.
Defined.

Definition script (inbox : list (list string)) : ZmqConnection Script := {|
  identity := "r"; uri := "u"; incoming := ∅;
  socket := {| script_inbox := inr <$> inbox; script_outbox := []; script_ids := ["c"] |} |}.
Definition rt (table : gmap string string) (v w s : list (list string)) (q : list Message) :
    Router (ZmqConnection Script) unit := {|
  ids := table; validator := script v; workers := script w; shutdown_rx := script s;
  shutdown_tx := Ptr (script []); monitor := tt; queue := q; queue_cap := 1;
  queue_closed := false; workers_done := [true; true] |}.
Definition mk (t : Z) (corr content : string) : Message := {|
  Message_MessageType := t; Message_CorrelationId := corr; Message_Content := content |}.
Definition wire (m : Message) : bytes := pos_bits (encode m).
Definition ask : Message := mk Message_TP_STATE_GET_REQUEST "k" "q".
Definition reply : Message := mk Message_TP_STATE_GET_RESPONSE "k" "a".
Definition work : Message := mk Message_TP_PROCESS_REQUEST "p" "job".

Lemma LoadMsg_wire m : LoadMsg (wire m) = (m, None).
Proof. by apply countable_proto_laws. Qed.

Definition r0 := rt ∅ [[wire reply]] [["w1"; wire ask]] [] [].
Definition r1 := (receiveWorkers r0).2.
Definition r2 := (receiveValidator r1).2.

Lemma reply_goes_to_asker_witness :
  (∃ corr, reply_to corr (wire reply) ∧ asked (accepted r0) corr "w1").
Proof.
  apply (reply_goes_to_asker r0 r2 (accepted r0)); [reflexivity|reflexivity| |].
  - eapply rtc_l; [eapply (step_workers r0 [] (receiveWorkers r0).1 r1); apply surjective_pairing|].
    eapply rtc_l; [eapply (step_validator r1 _ (receiveValidator r1).1 r2); apply surjective_pairing|].
    apply rtc_refl.
  - replace (outbox (workers r2)) with [("w1", wire reply)] by (vm_compute; reflexivity).
    apply list_elem_of_singleton. reflexivity.
Defined.

Definition r3 := rt {["k" := "w1"]} [[wire reply]] [] [] [].

Lemma request_stays_until_answered_witness :
  ids (receiveValidator r3).2 !! "k" = Some "w1" ∨
  ∃ data, ("w1", data) ∈ outbox (workers (receiveValidator r3).2) ∧ reply_to "k" data.
Proof.
  apply (request_stays_until_answered r3 [] (receiveValidator r3).2 [] "k" "w1").
  - eapply rtc_once, (step_validator r3 [] (receiveValidator r3).1). apply surjective_pairing.
  - reflexivity.
  - intros w' q Hq. by apply not_elem_of_nil in Hq.
Defined.

Lemma reply_delivered_witness :
  receiveValidator r3 =
    (Ret tt, set_ids (delete "k" (ids r3))
      (set_workers (SendData "w1" (wire reply) (workers r3)).2
        (set_validator (RecvData (validator r3)).2 r3))).
Proof.
  apply (reply_delivered r3 "" (wire reply) reply "k" "w1"
    (RecvData (validator r3)).2 (SendData "w1" (wire reply) (workers r3)).2).
  - reflexivity.
  - apply LoadMsg_wire.
  - discriminate.
  - discriminate.
  - reflexivity.
  - discriminate.
  - reflexivity.
  - reflexivity.
Defined.

Definition r4 := rt ∅ [[wire work]] [] [] [].

Lemma request_queued_or_denied_witness :
  ∃ r', receiveValidator r4 = (Ret tt, r') ∧ queue r' = [work] ∧ bounded r'.
Proof.
  destruct (request_queued_or_denied r4 "" (wire work) work (RecvData (validator r4)).2)
    as [Hq|[Hfull _]].
  - reflexivity.
  - apply LoadMsg_wire.
  - reflexivity.
  - reflexivity.
  - exact Hq.
  - exfalso. vm_compute in Hfull. lia.
Defined.

Definition poll_validator : Turn (ZmqConnection Script) unit :=
  {| meanwhile r := r; polled := inr [ReadyValidator] |}.


Definition h : TransactionHandler (ZmqConnection Script) := {|
  FamilyName := "noop"; FamilyVersions := ["1.0"]; Namespaces := [];
  Apply _ _ := mret None |}.
Definition registered : Message := mk Message_TP_REGISTER_RESPONSE "c"
  (pos_bits (encode (Build_TpRegisterResponse TpRegisterResponse_OK))).
Definition r5 := rt ∅ [[wire registered]] [] [] [].

Lemma register_needs_ok_witness :
  ∃ r1 id msg v resp,
    RecvMsg (validator (r1 : Router (ZmqConnection Script) unit)) = (Ret (id, msg, None), v) ∧
    validator (register h "1.0" 100 [poll_validator] r5).2 = v ∧
    Message_MessageType (default inhabitant msg) = Message_TP_REGISTER_RESPONSE ∧
    Unmarshal (Message_Content (default inhabitant msg)) = (resp, None) ∧
    TpRegisterResponse_Status resp = TpRegisterResponse_OK.
Proof.
  apply (register_needs_ok h "1.0" 100 [poll_validator] r5 []
    (register h "1.0" 100 [poll_validator] r5).2).
  vm_compute. reflexivity.
Defined.

Lemma impatient_validator_breaks_registration_witness :
  register_loop "c" [poll_validator] r4 =
    (Ret (Some (errString "Received unexpected message type: TP_PROCESS_REQUEST"), []),
     set_queue [work] (set_validator (RecvMsg (validator r4)).2 r4)).
Proof.
  apply (impatient_validator_breaks_registration "c" poll_validator [] r4 "" work
    (RecvMsg (validator r4)).2).
  - reflexivity.
  - reflexivity.
  - vm_compute. reflexivity.
  - discriminate.
  - reflexivity.
  - reflexivity.
  - vm_compute. lia.
Defined.

Definition r6 := rt ∅ [] [] [["restart"]] [work].

Lemma shutdown_waits_for_workers_witness :
  ∃ r', queue_closed r' = true ∧ queue r' = [work] ∧ receiveShutdown 2 r6 = (Ret true, r').
Proof.
  apply (shutdown_waits_for_workers 2 r6 "" "restart" (RecvData (shutdown_rx r6)).2).
  - intros c. by eexists.
  - intros m. by eexists.
  - eexists _, _. reflexivity.
  - reflexivity.
  - reflexivity.
Defined.
End witness.
