(* ===== verification/Links.v ===== *)
(** * Sockets and the messages on them

    The sockets of the composed systems ([System], [ConsensusSystem]): FIFO queues of
    multipart frames, under the connections of [messaging/connection.go] as
    [Messaging] models them.  The lemmas say what sending and receiving does to the
    two queues and to the messages a connection has filed. *)

From S2P Require Import Prelude GoLib Errors Protobuf Messaging.

Module links.
Local Open Scope Z_scope.

(** ** Sockets *)

(** Frames that arrived, frames that were sent, and the next identifier. *)
Record Link := {
  arrived : list (list string);
  departed : list (list string);
  next_id : string }.

#[export] Instance link_socket : ZmqSocket Link := {|
  SendMessage fr := λ l, (Ret None, {| arrived := arrived l; departed := departed l ++ [fr];
                                       next_id := next_id l |});
  RecvMessage := λ l, match arrived l with
                      | [] => (Blocked, l)
                      | fr :: rest => (Ret (inr fr), {| arrived := rest; departed := departed l;
                                                        next_id := next_id l |})
                      end;
  NewV4 := λ l, (Ret (next_id l), l);
  SocketClose := mret tt |}.

Abbreviation conn := (ZmqConnection Link).

Definition set_link (f : Link → Link) (c : conn) : conn := set_socket (f (socket c)) c.
Definition arrive (fr : list string) (c : conn) : conn :=
  set_link (λ l, {| arrived := arrived l ++ [fr]; departed := departed l; next_id := next_id l |}) c.
Definition flush (c : conn) : conn :=
  set_link (λ l, {| arrived := arrived l; departed := []; next_id := next_id l |}) c.
Definition with_id (id : string) (c : conn) : conn :=
  set_link (λ l, {| arrived := arrived l; departed := departed l; next_id := id |}) c.
Definition inbox (c : conn) : list (list string) := arrived (socket c).
Definition outbox (c : conn) : list (list string) := departed (socket c).

(** Nothing on a connection, and one with nothing on it. *)
Definition idle (c : conn) : Prop := inbox c = [] ∧ outbox c = [] ∧ incoming c = ∅.
Definition quiet_conn (id : string) : conn := {|
  identity := id; uri := "u"; incoming := ∅;
  socket := {| arrived := []; departed := []; next_id := "" |} |}.

Section links.
Context `{Proto Message, GoRuntime}.
Implicit Types c : conn.

(** ** What the code does on these sockets *)

(** A frame that carries a message. *)
Definition carries (fr : list string) (m : Message) : Prop :=
  ∃ d, fr = [d] ∧ LoadMsg d = (m, None).

Lemma set_link_id (c : conn) : set_link (λ l, l) c = c.
Proof. by destruct c. Qed.

(** A connection after its first frame was taken, and after a message was filed. *)
Definition taken (rest : list (list string)) (c : conn) : conn :=
  set_link (λ l, {| arrived := rest; departed := departed l; next_id := next_id l |}) c.
Definition filed (m : Message) (c : conn) : conn :=
  set_incoming (<[Message_CorrelationId m := {| storedMsg_Id := ""; storedMsg_Msg := m |}]>
    (incoming c)) c.

Lemma RecvData_link c fr rest :
  inbox c = fr :: rest → zmq_RecvData c = (Ret (split_frames fr), taken rest c).
Proof.
  intros E. apply (RecvData_frames c fr). unfold inbox in E. simpl. by rewrite E.
Qed.

Definition depart (fr : list string) (c : conn) : conn :=
  set_link (λ l, {| arrived := arrived l; departed := departed l ++ [fr]; next_id := next_id l |}) c.

Lemma SendData_link id d c :
  zmq_SendData id d c = (Ret None, depart (if decide (id ≠ "") then [id; d] else [d]) c).
Proof. unfold zmq_SendData. by case_decide. Qed.

Lemma carries_fun fr m m' : carries fr m → carries fr m' → m = m'.
Proof. intros (d & -> & Hd) (d' & [= <-] & Hd'). rewrite Hd in Hd'. by injection Hd'. Qed.

Lemma carries_frame fr m : carries fr m → frame_msg fr = Some ("", m, None).
Proof. intros (d & -> & Hd). unfold frame_msg. simpl. by rewrite Hd. Qed.

(** ** Receiving *)

(** The messages a connection holds: those that arrived and those filed. *)
Definition holds c (m : Message) : Prop :=
  (∃ fr, fr ∈ inbox c ∧ carries fr m) ∨
  (∃ k st, incoming c !! k = Some st ∧ storedMsg_Msg st = m).
Definition clean c : Prop := Forall (λ fr, ∃ m, carries fr m) (inbox c).

Lemma recv_loop_cons fuel id c fr rest m :
  inbox c = fr :: rest → carries fr m →
  recv_loop (Datatypes.S fuel) id c =
    if decide (Message_CorrelationId m = id) then (Ret ("", Some m, None), taken rest c)
    else recv_loop fuel id (filed m (taken rest c)).
Proof.
  intros E (d & -> & Hm). cbn [recv_loop].
  rewrite (go_bind_Ret _ _ _ _ _ (RecvData_link _ _ _ E)). cbn [split_frames]. rewrite Hm.
  by case_decide.
Qed.

Lemma clean_cons c fr rest :
  inbox c = fr :: rest → clean c → ∃ m, carries fr m ∧ clean (filed m (taken rest c)).
Proof.
  unfold clean. intros ->. intros [[m Hm] Hrest]%Forall_cons_1. by exists m.
Qed.

Lemma holds_filed c fr rest m m' :
  inbox c = fr :: rest → carries fr m → holds (filed m (taken rest c)) m' → holds c m'.
Proof.
  intros E Hm [(fr' & Hfr & ?)|(k & st & Hk & <-)].
  - left. exists fr'. rewrite E. by split; [right|].
  - unfold filed in Hk. cbn [incoming set_incoming] in Hk.
    apply lookup_insert_Some in Hk as [[_ <-]|[_ Hk]]; [|right; eauto].
    left. exists fr. rewrite E. by split; [left|].
Qed.

Lemma recv_loop_link fuel id c i m err c' :
  clean c → recv_loop fuel id c = (Ret (i, Some m, err), c') →
  holds c m ∧ (∀ m', holds c' m' → holds c m') ∧ clean c' ∧ outbox c' = outbox c.
Proof.
  revert c. induction fuel as [|fuel IH]; intros c Hc; [done|].
  destruct (inbox c) as [|fr rest] eqn:E.
  { cbn [recv_loop]. unfold zmq_RecvData, mbind, Go_bind, on_socket, zoom. simpl.
    unfold inbox in E. by rewrite E. }
  destruct (clean_cons c fr rest E Hc) as (m0 & Hm0 & Hc').
  rewrite (recv_loop_cons _ _ _ _ _ _ E Hm0). case_decide.
  - intros [= <- <- <- <-]. split; [left; exists fr; rewrite E; by split; [left|]|].
    split; [|by split]. intros m' [(fr' & Hfr & ?)|?]; [|by right].
    left. exists fr'. rewrite E. by split; [right|].
  - intros Hr. destruct (IH _ Hc' Hr) as (Hm & Hsub & Hcl & Ho).
    split; [by eapply holds_filed|]. split; [|by split].
    intros m' ?. eapply holds_filed; eauto.
Qed.

Lemma RecvMsgWithId_link fuel id c i m err c' :
  clean c → zmq_RecvMsgWithId fuel id c = (Ret (i, Some m, err), c') →
  holds c m ∧ (∀ m', holds c' m' → holds c m') ∧ clean c' ∧ outbox c' = outbox c.
Proof.
  intros Hc. unfold zmq_RecvMsgWithId. rewrite (go_bind_Ret go_get _ _ _ _ eq_refl).
  destruct (incoming c !! id) as [st|] eqn:Ei; [|by apply recv_loop_link].
  intros [= <- <- <- <-]. split; [right; eauto|]. by split.
Qed.

Lemma recv_loop_progress id l c m :
  inbox c = l → clean c → (∃ fr, fr ∈ l ∧ carries fr m) → Message_CorrelationId m = id →
  ∃ i m' err c', recv_loop (Datatypes.S (length l)) id c = (Ret (i, Some m', err), c').
Proof.
  revert c. induction l as [|fr l IH]; intros c E Hc (fr' & Hfr & Hm) Hid; [set_solver|].
  destruct (clean_cons c fr l E Hc) as (m0 & Hm0 & Hc').
  destruct (decide (Message_CorrelationId m0 = id)) as [Hid0|Hne].
  - rewrite (recv_loop_cons _ _ _ _ _ _ E Hm0), decide_True by done. eauto 10.
  - assert (Hfr' : fr' ∈ l).
    { apply elem_of_cons in Hfr as [->|?]; [|done]. exfalso.
      destruct Hm as (d & -> & Hd), Hm0 as (d0 & [= <-] & Hd0). congruence. }
    destruct (IH (filed m0 (taken l c)) eq_refl Hc') as (i & m' & err & c' & Er); [eauto..|].
    exists i, m', err, c'. by rewrite (recv_loop_cons _ _ _ _ _ _ E Hm0), decide_False by done.
Qed.

(** A thread that waits for a message its connection holds gets it. *)
Lemma RecvMsgWithId_progress id c m :
  clean c → conn_wf c → holds c m → Message_CorrelationId m = id →
  ∃ i m' err c',
    zmq_RecvMsgWithId (Datatypes.S (length (inbox c))) id c = (Ret (i, Some m', err), c').
Proof.
  intros Hc Hwf Hm Hid. unfold zmq_RecvMsgWithId.
  destruct (incoming c !! id) as [st|] eqn:Ei.
  - rewrite (go_bind_Ret go_get _ _ _ _ eq_refl), Ei. eauto.
  - destruct Hm as [Hm|(k & st & Hk & <-)].
    + destruct (recv_loop_progress id _ c m eq_refl Hc Hm Hid) as (i & m' & err & c' & Er).
      rewrite (go_bind_Ret go_get _ _ _ _ eq_refl), Ei. eauto.
    + pose proof (Hwf _ _ Hk) as Hk'. simpl in Hk'. congruence.
Qed.

(** ** Sending *)
Lemma SendNewMsg_link t b id c c' i :
  zmq_SendNewMsg t b (with_id id c) = (Ret (i, None), c') →
  ∃ d, DumpMsg t b id = inr d ∧ c' = depart [d] (with_id id c).
Proof.
  unfold zmq_SendNewMsg, zmq_SendNewMsgTo, zmq_SendMsgTo, mbind, Go_bind, on_socket, zoom, GenerateId.
  simpl. destruct (DumpMsg t b id) as [e|d]; [done|]. rewrite SendData_link.
  intros [= _ <-]. by exists d.
Qed.
Lemma SendMsg_sent t b corr c c' :
  zmq_SendMsg t b corr c = (Ret None, c') →
  ∃ d, DumpMsg t b corr = inr d ∧ c' = depart [d] c.
Proof.
  unfold zmq_SendMsg, zmq_SendMsgTo. destruct (DumpMsg t b corr) as [e|d]; [done|].
  rewrite SendData_link. intros [= <-]. by exists d.
Qed.

Lemma holds_arrive d m c m' :
  LoadMsg d = (m, None) → holds (arrive [d] c) m' ↔ holds c m' ∨ m' = m.
Proof.
  intros Hd. unfold holds. change (inbox (arrive [d] c)) with (inbox c ++ [[d]]). split.
  - intros [(fr & Hfr & Hc)|?]; [|by left; right].
    apply elem_of_app in Hfr as [Hfr|Hfr]; [left; left; eauto|].
    apply list_elem_of_singleton in Hfr as ->. right.
    apply (carries_fun [d]); [done|by exists d].
  - intros [[(fr & Hfr & Hc)|?]| ->]; [left; exists fr; set_solver|by right|].
    left. exists [d]. split; [set_solver|by exists d].
Qed.

Lemma recv_corr fuel id (c : conn) i m err c' :
  conn_wf c → zmq_RecvMsgWithId fuel id c = (Ret (i, Some m, err), c') →
  Message_CorrelationId m = id.
Proof.
  intros Hwf. unfold zmq_RecvMsgWithId. rewrite (go_bind_Ret go_get _ _ _ _ eq_refl).
  destruct (incoming c !! id) as [st|] eqn:Ei; [|apply recv_loop_id].
  intros [= <- <- <- <-]. exact (Hwf _ _ Ei).
Qed.

(** Frames that arrive under a sender's identity. *)
Lemma inbox_arrivals w frs c :
  inbox (foldl (λ c fr, arrive (w :: fr) c) c frs) = inbox c ++ ((λ fr, w :: fr) <$> frs) ∧
  outbox (foldl (λ c fr, arrive (w :: fr) c) c frs) = outbox c.
Proof.
  revert c. induction frs as [|fr frs IH]; intros c; simpl; [by rewrite app_nil_r|].
  destruct (IH (arrive (w :: fr) c)) as [-> ->]. split; [|done].
  change (inbox (arrive (w :: fr) c)) with (inbox c ++ [w :: fr]). by rewrite <-app_assoc.
Qed.

End links.
End links.
