(* ===== verification/History.v ===== *)
(** * Histories of calls

    What the composed systems record of the requests their threads send to the
    validator: the calls, the executions and the returns, in the order in which they
    happened.  A history in which the executions are serial and every event is
    justified by those before it is linearizable: each request takes effect once,
    between its call and its return. *)

From S2P Require Import Prelude GoLib Errors Protobuf.

Module history.
Local Open Scope Z_scope.

(** ** Events *)

(** A thread sent a request, the validator executed it with a reply, the thread got
    a reply. *)
Inductive event :=
| Called (w : string) (q : Message)
| Executed (q r : Message)
| Returned (w : string) (r : Message).

Definition calls (tr : list event) : list (string * Message) :=
  omap (λ e, match e with Called w q => Some (w, q) | _ => None end) tr.
Definition execs (tr : list event) : list (Message * Message) :=
  omap (λ e, match e with Executed q r => Some (q, r) | _ => None end) tr.

Definition returns (tr : list event) : list Message :=
  omap (λ e, match e with Returned _ r => Some r | _ => None end) tr.

(** The identifiers of the calls, and of those executed. *)
Definition call_ids (tr : list event) : list string :=
  (λ p, Message_CorrelationId p.2) <$> calls tr.
Definition exec_ids (tr : list event) : list string :=
  (λ p, Message_CorrelationId p.1) <$> execs tr.

(** The reply to a message carries its identifier. *)
Definition answer_to (t : Z) (b : bytes) (m : Message) : Message :=
  {| Message_MessageType := t; Message_CorrelationId := Message_CorrelationId m;
     Message_Content := b |}.

(** ** Serial execution *)

Section serial.
Context {V : Type} (serve : V → Message → option (Z * bytes * V)).

(** The validator executes requests one after the other. *)
Inductive serial : V → list (Message * Message) → V → Prop :=
| serial_nil v : serial v [] v
| serial_snoc v l v1 q t b v2 :
    serial v l v1 → serve v1 q = Some (t, b, v2) →
    serial v (l ++ [(q, answer_to t b q)]) v2.
End serial.

(** The last request of a thread. *)
Definition last_call (tr : list event) (w : string) : option Message :=
  last (filter (λ p, p.1 = w) (calls tr)).*2.

(** What has to come before an event: a call has a new identifier; a request is
    executed after it was called, and only once; a thread returns with the reply
    that its last request was executed with. *)
Definition justified (tr : list event) (e : event) : Prop :=
  match e with
  | Called w q => Message_CorrelationId q ∉ call_ids tr
  | Executed q r => (∃ w, (w, q) ∈ calls tr) ∧ ∀ a, (q, a) ∉ execs tr
  | Returned w r => ∃ q, last_call tr w = Some q ∧ (q, r) ∈ execs tr
  end.
Definition ordered (tr : list event) : Prop :=
  ∀ tr1 e tr2, tr = tr1 ++ e :: tr2 → justified tr1 e.

Lemma ordered_snoc tr e : ordered tr → justified tr e → ordered (tr ++ [e]).
Proof.
  intros Ho Hj tr1 e' tr2 E. destruct tr2 as [|x tr2 _] using rev_ind.
  - apply app_inj_tail in E as [-> ->]. done.
  - rewrite app_comm_cons, app_assoc in E. apply app_inj_tail in E as [-> _]. by eapply Ho.
Qed.

Lemma calls_app tr1 tr2 : calls (tr1 ++ tr2) = calls tr1 ++ calls tr2.
Proof. apply omap_app. Qed.
Lemma execs_app tr1 tr2 : execs (tr1 ++ tr2) = execs tr1 ++ execs tr2.
Proof. apply omap_app. Qed.

Lemma returns_app tr1 tr2 : returns (tr1 ++ tr2) = returns tr1 ++ returns tr2.
Proof. apply omap_app. Qed.
Lemma call_ids_app tr1 tr2 : call_ids (tr1 ++ tr2) = call_ids tr1 ++ call_ids tr2.
Proof. unfold call_ids. by rewrite calls_app, fmap_app. Qed.
Lemma exec_ids_app tr1 tr2 : exec_ids (tr1 ++ tr2) = exec_ids tr1 ++ exec_ids tr2.
Proof. unfold exec_ids. by rewrite execs_app, fmap_app. Qed.

Lemma last_call_in tr w q : last_call tr w = Some q → (w, q) ∈ calls tr.
Proof.
  unfold last_call. intros Hl. apply last_Some_elem_of in Hl.
  apply list_elem_of_fmap in Hl as ([w' q'] & -> & Hin).
  apply list_elem_of_filter in Hin as [<- Hin]. done.
Qed.

Lemma last_call_other tr w q w0 : w0 ≠ w → last_call (tr ++ [Called w q]) w0 = last_call tr w0.
Proof.
  intros Hne. unfold last_call. rewrite calls_app, filter_app. simpl.
  rewrite filter_cons_False by (simpl; congruence). by rewrite app_nil_r.
Qed.
Lemma last_call_snoc tr w q : last_call (tr ++ [Called w q]) w = Some q.
Proof.
  unfold last_call. rewrite calls_app, filter_app. simpl.
  rewrite filter_cons_True, filter_nil, fmap_app by done. apply last_snoc.
Qed.

(** ** The state one caller sees *)

(** A caller owns a part of the validator's state, which only the requests called
    [mine] change, as [reply] says.  All of these are executed, except perhaps [p];
    the part is [st], or what [p] makes of it. *)
Section settled.
Context {V : Type} (mine : Message → Prop) (reply : V → Message → option (Z * bytes * V)).
Context `{∀ q, Decision (mine q)}.
Implicit Types (st now : V) (p : option Message) (h : list event) (q : Message).

Definition settled st p h now : Prop :=
  (∀ w q, (w, q) ∈ calls h → mine q → p = Some q ∨ ∃ a, (q, a) ∈ execs h) ∧
  match p with
  | None => now = st
  | Some q => mine q ∧ (∃ w, (w, q) ∈ calls h) ∧
      ((now = st ∧ ∀ a, (q, a) ∉ execs h) ∨
       ∃ t b, reply st q = Some (t, b, now) ∧ (q, answer_to t b q) ∈ execs h)
  end.

(** Nothing was executed, and what was called belongs to others. *)
Lemma settled_calls st p h h' now l :
  calls h' = calls h ++ l → execs h' = execs h →
  (∀ w q, (w, q) ∈ calls h' → (w, q) ∈ calls h ∨ ¬ mine q) →
  settled st p h now → settled st p h' now.
Proof.
  intros Hc He Hnew [Hall Hp]. unfold settled. rewrite He. split.
  - intros w q [Hin|Hne]%Hnew Hk; [|done]. by apply (Hall w).
  - destruct p as [q|]; [|done]. destruct Hp as (? & [w ?] & ?). split; [done|]. split; [|done].
    exists w. rewrite Hc. set_solver.
Qed.

(** A request was executed. *)
Lemma settled_exec st p h h' now now' l w q t b :
  calls h' = calls h ++ l → execs h' = execs h ++ [(q, answer_to t b q)] →
  (∀ w q, (w, q) ∈ calls h' → (w, q) ∈ calls h ∨ ¬ mine q) →
  (w, q) ∈ calls h → (∀ a, (q, a) ∉ execs h) →
  (mine q → reply now q = Some (t, b, now')) → (¬ mine q → now' = now) →
  settled st p h now → settled st p h' now'.
Proof.
  intros Hc He Hnew Hcall Hnot Hown Hother [Hall Hp]. split.
  { intros w1 q0 [Hin|Hne]%Hnew Hk; [|done]. rewrite He.
    destruct (Hall _ _ Hin Hk) as [?|[a ?]]; [by left|right; exists a; set_solver]. }
  destruct (decide (mine q)) as [Hk|Hk].
  - destruct (Hall _ _ Hcall Hk) as [->|[a Ha]]; [|by destruct (Hnot a)].
    split; [done|]. split; [exists w; rewrite Hc; set_solver|]. right.
    destruct Hp as (_ & _ & [[<- _]|(t' & b' & _ & Hex)]); [|by destruct (Hnot _ Hex)].
    exists t, b. split; [by apply Hown|]. rewrite He. set_solver.
  - rewrite (Hother Hk), He. destruct p as [q0|]; [|done]. destruct Hp as (Hk0 & [w1 Hw1] & Hp).
    split; [done|]. split; [exists w1; rewrite Hc; set_solver|].
    destruct Hp as [[? Hno]|(t' & b' & ? & ?)]; [left|right; exists t', b'; set_solver].
    split; [done|]. intros a. rewrite elem_of_app, list_elem_of_singleton.
    intros [?|[= -> _]]; [by destruct (Hno a)|done].
Qed.

(** The caller sends a new request. *)
Lemma settled_called st h now w q :
  mine q → (∀ a, (q, a) ∉ execs h) → settled st None h now →
  settled st (Some q) (h ++ [Called w q]) now.
Proof.
  intros Hk Hnot [Hall Hst]. unfold settled.
  rewrite calls_app, execs_app. simpl. rewrite app_nil_r. split.
  - intros w0 q0. rewrite elem_of_app, list_elem_of_singleton. intros [Hin|[= -> ->]] Hk0; [|by left].
    right. destruct (Hall _ _ Hin Hk0) as [|?]; done.
  - split; [done|]. split; [exists w; set_solver|]. by left.
Qed.

(** Once its answer is there, it is the one that belongs to the state. *)
Lemma settled_answered st h h' now q a :
  settled st (Some q) h now → (q, a) ∈ execs h →
  (∀ a', (q, a') ∈ execs h → a = a') → calls h' = calls h → execs h' = execs h →
  ∃ t b, reply st q = Some (t, b, now) ∧ a = answer_to t b q ∧ settled now None h' now.
Proof.
  intros [Hall (Hk & _ & Hp)] Ha Honce Hc He.
  destruct Hp as [[_ Hno]|(t & b & Hr & Hex)]; [by destruct (Hno a)|].
  exists t, b. split; [done|]. split; [by apply Honce|].
  split; [|done]. rewrite Hc, He. intros w0 q0 Hin Hk0.
  destruct (Hall _ _ Hin Hk0) as [[= <-]|?]; eauto.
Qed.
End settled.
End history.
