(* ===== verification/ConsensusProto.v ===== *)
(** * Protocol Buffers messages of the consensus protocol

    The message structs of [protobuf/consensus_pb2] with their enums, in the same
    rendering as [Protobuf], and the getters on pointers that may be nil. *)

From S2P Require Import Prelude GoLib Errors Protobuf.

Local Open Scope Z_scope.

Definition ConsensusRegisterResponse_STATUS_UNSET : Z := 0.
Definition ConsensusRegisterResponse_OK : Z := 1.
Definition ConsensusRegisterResponse_BAD_REQUEST : Z := 2.
Definition ConsensusRegisterResponse_SERVICE_ERROR : Z := 3.
Definition ConsensusRegisterResponse_NOT_READY : Z := 4.
Definition ConsensusRegisterResponse_Status_name : list (Z * string) :=
  [(0, "STATUS_UNSET");
   (1, "OK");
   (2, "BAD_REQUEST");
   (3, "SERVICE_ERROR");
   (4, "NOT_READY")].

Definition ConsensusSendToResponse_STATUS_UNSET : Z := 0.
Definition ConsensusSendToResponse_OK : Z := 1.
Definition ConsensusSendToResponse_BAD_REQUEST : Z := 2.
Definition ConsensusSendToResponse_SERVICE_ERROR : Z := 3.
Definition ConsensusSendToResponse_NOT_READY : Z := 4.
Definition ConsensusSendToResponse_UNKNOWN_PEER : Z := 5.
Definition ConsensusSendToResponse_NOT_ACTIVE_ENGINE : Z := 6.
Definition ConsensusSendToResponse_Status_name : list (Z * string) :=
  [(0, "STATUS_UNSET");
   (1, "OK");
   (2, "BAD_REQUEST");
   (3, "SERVICE_ERROR");
   (4, "NOT_READY");
   (5, "UNKNOWN_PEER");
   (6, "NOT_ACTIVE_ENGINE")].

Definition ConsensusBroadcastResponse_STATUS_UNSET : Z := 0.
Definition ConsensusBroadcastResponse_OK : Z := 1.
Definition ConsensusBroadcastResponse_BAD_REQUEST : Z := 2.
Definition ConsensusBroadcastResponse_SERVICE_ERROR : Z := 3.
Definition ConsensusBroadcastResponse_NOT_READY : Z := 4.
Definition ConsensusBroadcastResponse_NOT_ACTIVE_ENGINE : Z := 5.
Definition ConsensusBroadcastResponse_Status_name : list (Z * string) :=
  [(0, "STATUS_UNSET");
   (1, "OK");
   (2, "BAD_REQUEST");
   (3, "SERVICE_ERROR");
   (4, "NOT_READY");
   (5, "NOT_ACTIVE_ENGINE")].

Definition ConsensusInitializeBlockResponse_STATUS_UNSET : Z := 0.
Definition ConsensusInitializeBlockResponse_OK : Z := 1.
Definition ConsensusInitializeBlockResponse_BAD_REQUEST : Z := 2.
Definition ConsensusInitializeBlockResponse_SERVICE_ERROR : Z := 3.
Definition ConsensusInitializeBlockResponse_NOT_READY : Z := 4.
Definition ConsensusInitializeBlockResponse_INVALID_STATE : Z := 5.
Definition ConsensusInitializeBlockResponse_UNKNOWN_BLOCK : Z := 6.
Definition ConsensusInitializeBlockResponse_NOT_ACTIVE_ENGINE : Z := 7.
Definition ConsensusInitializeBlockResponse_Status_name : list (Z * string) :=
  [(0, "STATUS_UNSET");
   (1, "OK");
   (2, "BAD_REQUEST");
   (3, "SERVICE_ERROR");
   (4, "NOT_READY");
   (5, "INVALID_STATE");
   (6, "UNKNOWN_BLOCK");
   (7, "NOT_ACTIVE_ENGINE")].

Definition ConsensusSummarizeBlockResponse_STATUS_UNSET : Z := 0.
Definition ConsensusSummarizeBlockResponse_OK : Z := 1.
Definition ConsensusSummarizeBlockResponse_BAD_REQUEST : Z := 2.
Definition ConsensusSummarizeBlockResponse_SERVICE_ERROR : Z := 3.
Definition ConsensusSummarizeBlockResponse_NOT_READY : Z := 4.
Definition ConsensusSummarizeBlockResponse_INVALID_STATE : Z := 5.
Definition ConsensusSummarizeBlockResponse_BLOCK_NOT_READY : Z := 6.
Definition ConsensusSummarizeBlockResponse_NOT_ACTIVE_ENGINE : Z := 7.
Definition ConsensusSummarizeBlockResponse_Status_name : list (Z * string) :=
  [(0, "STATUS_UNSET");
   (1, "OK");
   (2, "BAD_REQUEST");
   (3, "SERVICE_ERROR");
   (4, "NOT_READY");
   (5, "INVALID_STATE");
   (6, "BLOCK_NOT_READY");
   (7, "NOT_ACTIVE_ENGINE")].

Definition ConsensusFinalizeBlockResponse_STATUS_UNSET : Z := 0.
Definition ConsensusFinalizeBlockResponse_OK : Z := 1.
Definition ConsensusFinalizeBlockResponse_BAD_REQUEST : Z := 2.
Definition ConsensusFinalizeBlockResponse_SERVICE_ERROR : Z := 3.
Definition ConsensusFinalizeBlockResponse_NOT_READY : Z := 4.
Definition ConsensusFinalizeBlockResponse_INVALID_STATE : Z := 5.
Definition ConsensusFinalizeBlockResponse_BLOCK_NOT_READY : Z := 6.
Definition ConsensusFinalizeBlockResponse_NOT_ACTIVE_ENGINE : Z := 7.
Definition ConsensusFinalizeBlockResponse_Status_name : list (Z * string) :=
  [(0, "STATUS_UNSET");
   (1, "OK");
   (2, "BAD_REQUEST");
   (3, "SERVICE_ERROR");
   (4, "NOT_READY");
   (5, "INVALID_STATE");
   (6, "BLOCK_NOT_READY");
   (7, "NOT_ACTIVE_ENGINE")].

Definition ConsensusCancelBlockResponse_STATUS_UNSET : Z := 0.
Definition ConsensusCancelBlockResponse_OK : Z := 1.
Definition ConsensusCancelBlockResponse_BAD_REQUEST : Z := 2.
Definition ConsensusCancelBlockResponse_SERVICE_ERROR : Z := 3.
Definition ConsensusCancelBlockResponse_NOT_READY : Z := 4.
Definition ConsensusCancelBlockResponse_INVALID_STATE : Z := 5.
Definition ConsensusCancelBlockResponse_NOT_ACTIVE_ENGINE : Z := 6.
Definition ConsensusCancelBlockResponse_Status_name : list (Z * string) :=
  [(0, "STATUS_UNSET");
   (1, "OK");
   (2, "BAD_REQUEST");
   (3, "SERVICE_ERROR");
   (4, "NOT_READY");
   (5, "INVALID_STATE");
   (6, "NOT_ACTIVE_ENGINE")].

Definition ConsensusCheckBlocksResponse_STATUS_UNSET : Z := 0.
Definition ConsensusCheckBlocksResponse_OK : Z := 1.
Definition ConsensusCheckBlocksResponse_BAD_REQUEST : Z := 2.
Definition ConsensusCheckBlocksResponse_SERVICE_ERROR : Z := 3.
Definition ConsensusCheckBlocksResponse_NOT_READY : Z := 4.
Definition ConsensusCheckBlocksResponse_UNKNOWN_BLOCK : Z := 5.
Definition ConsensusCheckBlocksResponse_NOT_ACTIVE_ENGINE : Z := 6.
Definition ConsensusCheckBlocksResponse_Status_name : list (Z * string) :=
  [(0, "STATUS_UNSET");
   (1, "OK");
   (2, "BAD_REQUEST");
   (3, "SERVICE_ERROR");
   (4, "NOT_READY");
   (5, "UNKNOWN_BLOCK");
   (6, "NOT_ACTIVE_ENGINE")].

Definition ConsensusCommitBlockResponse_STATUS_UNSET : Z := 0.
Definition ConsensusCommitBlockResponse_OK : Z := 1.
Definition ConsensusCommitBlockResponse_BAD_REQUEST : Z := 2.
Definition ConsensusCommitBlockResponse_SERVICE_ERROR : Z := 3.
Definition ConsensusCommitBlockResponse_NOT_READY : Z := 4.
Definition ConsensusCommitBlockResponse_UNKNOWN_BLOCK : Z := 5.
Definition ConsensusCommitBlockResponse_NOT_ACTIVE_ENGINE : Z := 6.
Definition ConsensusCommitBlockResponse_Status_name : list (Z * string) :=
  [(0, "STATUS_UNSET");
   (1, "OK");
   (2, "BAD_REQUEST");
   (3, "SERVICE_ERROR");
   (4, "NOT_READY");
   (5, "UNKNOWN_BLOCK");
   (6, "NOT_ACTIVE_ENGINE")].

Definition ConsensusIgnoreBlockResponse_STATUS_UNSET : Z := 0.
Definition ConsensusIgnoreBlockResponse_OK : Z := 1.
Definition ConsensusIgnoreBlockResponse_BAD_REQUEST : Z := 2.
Definition ConsensusIgnoreBlockResponse_SERVICE_ERROR : Z := 3.
Definition ConsensusIgnoreBlockResponse_NOT_READY : Z := 4.
Definition ConsensusIgnoreBlockResponse_UNKNOWN_BLOCK : Z := 5.
Definition ConsensusIgnoreBlockResponse_NOT_ACTIVE_ENGINE : Z := 6.
Definition ConsensusIgnoreBlockResponse_Status_name : list (Z * string) :=
  [(0, "STATUS_UNSET");
   (1, "OK");
   (2, "BAD_REQUEST");
   (3, "SERVICE_ERROR");
   (4, "NOT_READY");
   (5, "UNKNOWN_BLOCK");
   (6, "NOT_ACTIVE_ENGINE")].

Definition ConsensusFailBlockResponse_STATUS_UNSET : Z := 0.
Definition ConsensusFailBlockResponse_OK : Z := 1.
Definition ConsensusFailBlockResponse_BAD_REQUEST : Z := 2.
Definition ConsensusFailBlockResponse_SERVICE_ERROR : Z := 3.
Definition ConsensusFailBlockResponse_NOT_READY : Z := 4.
Definition ConsensusFailBlockResponse_UNKNOWN_BLOCK : Z := 5.
Definition ConsensusFailBlockResponse_NOT_ACTIVE_ENGINE : Z := 6.
Definition ConsensusFailBlockResponse_Status_name : list (Z * string) :=
  [(0, "STATUS_UNSET");
   (1, "OK");
   (2, "BAD_REQUEST");
   (3, "SERVICE_ERROR");
   (4, "NOT_READY");
   (5, "UNKNOWN_BLOCK");
   (6, "NOT_ACTIVE_ENGINE")].

Definition ConsensusBlocksGetResponse_STATUS_UNSET : Z := 0.
Definition ConsensusBlocksGetResponse_OK : Z := 1.
Definition ConsensusBlocksGetResponse_BAD_REQUEST : Z := 2.
Definition ConsensusBlocksGetResponse_SERVICE_ERROR : Z := 3.
Definition ConsensusBlocksGetResponse_NOT_READY : Z := 4.
Definition ConsensusBlocksGetResponse_UNKNOWN_BLOCK : Z := 5.
Definition ConsensusBlocksGetResponse_NOT_ACTIVE_ENGINE : Z := 6.
Definition ConsensusBlocksGetResponse_Status_name : list (Z * string) :=
  [(0, "STATUS_UNSET");
   (1, "OK");
   (2, "BAD_REQUEST");
   (3, "SERVICE_ERROR");
   (4, "NOT_READY");
   (5, "UNKNOWN_BLOCK");
   (6, "NOT_ACTIVE_ENGINE")].

Definition ConsensusChainHeadGetResponse_STATUS_UNSET : Z := 0.
Definition ConsensusChainHeadGetResponse_OK : Z := 1.
Definition ConsensusChainHeadGetResponse_BAD_REQUEST : Z := 2.
Definition ConsensusChainHeadGetResponse_SERVICE_ERROR : Z := 3.
Definition ConsensusChainHeadGetResponse_NOT_READY : Z := 4.
Definition ConsensusChainHeadGetResponse_NO_CHAIN_HEAD : Z := 5.
Definition ConsensusChainHeadGetResponse_NOT_ACTIVE_ENGINE : Z := 6.
Definition ConsensusChainHeadGetResponse_Status_name : list (Z * string) :=
  [(0, "STATUS_UNSET");
   (1, "OK");
   (2, "BAD_REQUEST");
   (3, "SERVICE_ERROR");
   (4, "NOT_READY");
   (5, "NO_CHAIN_HEAD");
   (6, "NOT_ACTIVE_ENGINE")].

Definition ConsensusSettingsGetResponse_STATUS_UNSET : Z := 0.
Definition ConsensusSettingsGetResponse_OK : Z := 1.
Definition ConsensusSettingsGetResponse_BAD_REQUEST : Z := 2.
Definition ConsensusSettingsGetResponse_SERVICE_ERROR : Z := 3.
Definition ConsensusSettingsGetResponse_NOT_READY : Z := 4.
Definition ConsensusSettingsGetResponse_UNKNOWN_BLOCK : Z := 5.
Definition ConsensusSettingsGetResponse_NOT_ACTIVE_ENGINE : Z := 6.
Definition ConsensusSettingsGetResponse_Status_name : list (Z * string) :=
  [(0, "STATUS_UNSET");
   (1, "OK");
   (2, "BAD_REQUEST");
   (3, "SERVICE_ERROR");
   (4, "NOT_READY");
   (5, "UNKNOWN_BLOCK");
   (6, "NOT_ACTIVE_ENGINE")].

Definition ConsensusStateGetResponse_STATUS_UNSET : Z := 0.
Definition ConsensusStateGetResponse_OK : Z := 1.
Definition ConsensusStateGetResponse_BAD_REQUEST : Z := 2.
Definition ConsensusStateGetResponse_SERVICE_ERROR : Z := 3.
Definition ConsensusStateGetResponse_NOT_READY : Z := 4.
Definition ConsensusStateGetResponse_UNKNOWN_BLOCK : Z := 5.
Definition ConsensusStateGetResponse_NOT_ACTIVE_ENGINE : Z := 6.
Definition ConsensusStateGetResponse_Status_name : list (Z * string) :=
  [(0, "STATUS_UNSET");
   (1, "OK");
   (2, "BAD_REQUEST");
   (3, "SERVICE_ERROR");
   (4, "NOT_READY");
   (5, "UNKNOWN_BLOCK");
   (6, "NOT_ACTIVE_ENGINE")].

Record ConsensusRegisterRequest_Protocol := {
  ConsensusRegisterRequest_Protocol_Name : string;
  ConsensusRegisterRequest_Protocol_Version : string }.
#[export] Instance ConsensusRegisterRequest_Protocol_zero : Inhabited ConsensusRegisterRequest_Protocol := populate {|
  ConsensusRegisterRequest_Protocol_Name := "";
  ConsensusRegisterRequest_Protocol_Version := "" |}.
#[export] Instance ConsensusRegisterRequest_Protocol_eq_dec : EqDecision ConsensusRegisterRequest_Protocol.
Proof. solve_decision. Defined.
#[export] Instance ConsensusRegisterRequest_Protocol_countable : Countable ConsensusRegisterRequest_Protocol.
Proof.
  refine (inj_countable' (λ m, (ConsensusRegisterRequest_Protocol_Name m, ConsensusRegisterRequest_Protocol_Version m))
    (λ '(x0, x1), Build_ConsensusRegisterRequest_Protocol x0 x1) _). by intros [].
Defined.

Record ConsensusPeerMessageHeader := {
  ConsensusPeerMessageHeader_SignerId : bytes;
  ConsensusPeerMessageHeader_ContentSha512 : bytes;
  ConsensusPeerMessageHeader_MessageType : string;
  ConsensusPeerMessageHeader_Name : string;
  ConsensusPeerMessageHeader_Version : string }.
#[export] Instance ConsensusPeerMessageHeader_zero : Inhabited ConsensusPeerMessageHeader := populate {|
  ConsensusPeerMessageHeader_SignerId := "";
  ConsensusPeerMessageHeader_ContentSha512 := "";
  ConsensusPeerMessageHeader_MessageType := "";
  ConsensusPeerMessageHeader_Name := "";
  ConsensusPeerMessageHeader_Version := "" |}.
#[export] Instance ConsensusPeerMessageHeader_eq_dec : EqDecision ConsensusPeerMessageHeader.
Proof. solve_decision. Defined.
#[export] Instance ConsensusPeerMessageHeader_countable : Countable ConsensusPeerMessageHeader.
Proof.
  refine (inj_countable' (λ m, (ConsensusPeerMessageHeader_SignerId m, ConsensusPeerMessageHeader_ContentSha512 m, ConsensusPeerMessageHeader_MessageType m, ConsensusPeerMessageHeader_Name m, ConsensusPeerMessageHeader_Version m))
    (λ '(x0, x1, x2, x3, x4), Build_ConsensusPeerMessageHeader x0 x1 x2 x3 x4) _). by intros [].
Defined.

Record ConsensusPeerMessage := {
  ConsensusPeerMessage_Header : bytes;
  ConsensusPeerMessage_HeaderSignature : bytes;
  ConsensusPeerMessage_Content : bytes }.
#[export] Instance ConsensusPeerMessage_zero : Inhabited ConsensusPeerMessage := populate {|
  ConsensusPeerMessage_Header := "";
  ConsensusPeerMessage_HeaderSignature := "";
  ConsensusPeerMessage_Content := "" |}.
#[export] Instance ConsensusPeerMessage_eq_dec : EqDecision ConsensusPeerMessage.
Proof. solve_decision. Defined.
#[export] Instance ConsensusPeerMessage_countable : Countable ConsensusPeerMessage.
Proof.
  refine (inj_countable' (λ m, (ConsensusPeerMessage_Header m, ConsensusPeerMessage_HeaderSignature m, ConsensusPeerMessage_Content m))
    (λ '(x0, x1, x2), Build_ConsensusPeerMessage x0 x1 x2) _). by intros [].
Defined.

Record ConsensusBlock := {
  ConsensusBlock_BlockId : bytes;
  ConsensusBlock_PreviousId : bytes;
  ConsensusBlock_SignerId : bytes;
  ConsensusBlock_BlockNum : Z;
  ConsensusBlock_Payload : bytes;
  ConsensusBlock_Summary : bytes }.
#[export] Instance ConsensusBlock_zero : Inhabited ConsensusBlock := populate {|
  ConsensusBlock_BlockId := "";
  ConsensusBlock_PreviousId := "";
  ConsensusBlock_SignerId := "";
  ConsensusBlock_BlockNum := 0;
  ConsensusBlock_Payload := "";
  ConsensusBlock_Summary := "" |}.
#[export] Instance ConsensusBlock_eq_dec : EqDecision ConsensusBlock.
Proof. solve_decision. Defined.
#[export] Instance ConsensusBlock_countable : Countable ConsensusBlock.
Proof.
  refine (inj_countable' (λ m, (ConsensusBlock_BlockId m, ConsensusBlock_PreviousId m, ConsensusBlock_SignerId m, ConsensusBlock_BlockNum m, ConsensusBlock_Payload m, ConsensusBlock_Summary m))
    (λ '(x0, x1, x2, x3, x4, x5), Build_ConsensusBlock x0 x1 x2 x3 x4 x5) _). by intros [].
Defined.

Record ConsensusPeerInfo := {
  ConsensusPeerInfo_PeerId : bytes }.
#[export] Instance ConsensusPeerInfo_zero : Inhabited ConsensusPeerInfo := populate {|
  ConsensusPeerInfo_PeerId := "" |}.
#[export] Instance ConsensusPeerInfo_eq_dec : EqDecision ConsensusPeerInfo.
Proof. solve_decision. Defined.
#[export] Instance ConsensusPeerInfo_countable : Countable ConsensusPeerInfo.
Proof.
  refine (inj_countable' (λ m, (ConsensusPeerInfo_PeerId m))
    (λ x0, Build_ConsensusPeerInfo x0) _). by intros [].
Defined.

Record ConsensusSettingsEntry := {
  ConsensusSettingsEntry_Key : string;
  ConsensusSettingsEntry_Value : string }.
#[export] Instance ConsensusSettingsEntry_zero : Inhabited ConsensusSettingsEntry := populate {|
  ConsensusSettingsEntry_Key := "";
  ConsensusSettingsEntry_Value := "" |}.
#[export] Instance ConsensusSettingsEntry_eq_dec : EqDecision ConsensusSettingsEntry.
Proof. solve_decision. Defined.
#[export] Instance ConsensusSettingsEntry_countable : Countable ConsensusSettingsEntry.
Proof.
  refine (inj_countable' (λ m, (ConsensusSettingsEntry_Key m, ConsensusSettingsEntry_Value m))
    (λ '(x0, x1), Build_ConsensusSettingsEntry x0 x1) _). by intros [].
Defined.

Record ConsensusStateEntry := {
  ConsensusStateEntry_Address : string;
  ConsensusStateEntry_Data : bytes }.
#[export] Instance ConsensusStateEntry_zero : Inhabited ConsensusStateEntry := populate {|
  ConsensusStateEntry_Address := "";
  ConsensusStateEntry_Data := "" |}.
#[export] Instance ConsensusStateEntry_eq_dec : EqDecision ConsensusStateEntry.
Proof. solve_decision. Defined.
#[export] Instance ConsensusStateEntry_countable : Countable ConsensusStateEntry.
Proof.
  refine (inj_countable' (λ m, (ConsensusStateEntry_Address m, ConsensusStateEntry_Data m))
    (λ '(x0, x1), Build_ConsensusStateEntry x0 x1) _). by intros [].
Defined.

Record ConsensusRegisterRequest := {
  ConsensusRegisterRequest_Name : string;
  ConsensusRegisterRequest_Version : string;
  ConsensusRegisterRequest_AdditionalProtocols : list ConsensusRegisterRequest_Protocol }.
#[export] Instance ConsensusRegisterRequest_zero : Inhabited ConsensusRegisterRequest := populate {|
  ConsensusRegisterRequest_Name := "";
  ConsensusRegisterRequest_Version := "";
  ConsensusRegisterRequest_AdditionalProtocols := [] |}.
#[export] Instance ConsensusRegisterRequest_eq_dec : EqDecision ConsensusRegisterRequest.
Proof. solve_decision. Defined.
#[export] Instance ConsensusRegisterRequest_countable : Countable ConsensusRegisterRequest.
Proof.
  refine (inj_countable' (λ m, (ConsensusRegisterRequest_Name m, ConsensusRegisterRequest_Version m, ConsensusRegisterRequest_AdditionalProtocols m))
    (λ '(x0, x1, x2), Build_ConsensusRegisterRequest x0 x1 x2) _). by intros [].
Defined.

Record ConsensusRegisterResponse := {
  ConsensusRegisterResponse_Status : Z;
  ConsensusRegisterResponse_ChainHead : option ConsensusBlock;
  ConsensusRegisterResponse_Peers : list ConsensusPeerInfo;
  ConsensusRegisterResponse_LocalPeerInfo : option ConsensusPeerInfo }.
#[export] Instance ConsensusRegisterResponse_zero : Inhabited ConsensusRegisterResponse := populate {|
  ConsensusRegisterResponse_Status := 0;
  ConsensusRegisterResponse_ChainHead := None;
  ConsensusRegisterResponse_Peers := [];
  ConsensusRegisterResponse_LocalPeerInfo := None |}.
#[export] Instance ConsensusRegisterResponse_eq_dec : EqDecision ConsensusRegisterResponse.
Proof. solve_decision. Defined.
#[export] Instance ConsensusRegisterResponse_countable : Countable ConsensusRegisterResponse.
Proof.
  refine (inj_countable' (λ m, (ConsensusRegisterResponse_Status m, ConsensusRegisterResponse_ChainHead m, ConsensusRegisterResponse_Peers m, ConsensusRegisterResponse_LocalPeerInfo m))
    (λ '(x0, x1, x2, x3), Build_ConsensusRegisterResponse x0 x1 x2 x3) _). by intros [].
Defined.

Record ConsensusNotifyPeerConnected := {
  ConsensusNotifyPeerConnected_PeerInfo : option ConsensusPeerInfo }.
#[export] Instance ConsensusNotifyPeerConnected_zero : Inhabited ConsensusNotifyPeerConnected := populate {|
  ConsensusNotifyPeerConnected_PeerInfo := None |}.
#[export] Instance ConsensusNotifyPeerConnected_eq_dec : EqDecision ConsensusNotifyPeerConnected.
Proof. solve_decision. Defined.
#[export] Instance ConsensusNotifyPeerConnected_countable : Countable ConsensusNotifyPeerConnected.
Proof.
  refine (inj_countable' (λ m, (ConsensusNotifyPeerConnected_PeerInfo m))
    (λ x0, Build_ConsensusNotifyPeerConnected x0) _). by intros [].
Defined.

Record ConsensusNotifyPeerDisconnected := {
  ConsensusNotifyPeerDisconnected_PeerId : bytes }.
#[export] Instance ConsensusNotifyPeerDisconnected_zero : Inhabited ConsensusNotifyPeerDisconnected := populate {|
  ConsensusNotifyPeerDisconnected_PeerId := "" |}.
#[export] Instance ConsensusNotifyPeerDisconnected_eq_dec : EqDecision ConsensusNotifyPeerDisconnected.
Proof. solve_decision. Defined.
#[export] Instance ConsensusNotifyPeerDisconnected_countable : Countable ConsensusNotifyPeerDisconnected.
Proof.
  refine (inj_countable' (λ m, (ConsensusNotifyPeerDisconnected_PeerId m))
    (λ x0, Build_ConsensusNotifyPeerDisconnected x0) _). by intros [].
Defined.

Record ConsensusNotifyPeerMessage := {
  ConsensusNotifyPeerMessage_Message : option ConsensusPeerMessage;
  ConsensusNotifyPeerMessage_SenderId : bytes }.
#[export] Instance ConsensusNotifyPeerMessage_zero : Inhabited ConsensusNotifyPeerMessage := populate {|
  ConsensusNotifyPeerMessage_Message := None;
  ConsensusNotifyPeerMessage_SenderId := "" |}.
#[export] Instance ConsensusNotifyPeerMessage_eq_dec : EqDecision ConsensusNotifyPeerMessage.
Proof. solve_decision. Defined.
#[export] Instance ConsensusNotifyPeerMessage_countable : Countable ConsensusNotifyPeerMessage.
Proof.
  refine (inj_countable' (λ m, (ConsensusNotifyPeerMessage_Message m, ConsensusNotifyPeerMessage_SenderId m))
    (λ '(x0, x1), Build_ConsensusNotifyPeerMessage x0 x1) _). by intros [].
Defined.

Record ConsensusNotifyBlockNew := {
  ConsensusNotifyBlockNew_Block : option ConsensusBlock }.
#[export] Instance ConsensusNotifyBlockNew_zero : Inhabited ConsensusNotifyBlockNew := populate {|
  ConsensusNotifyBlockNew_Block := None |}.
#[export] Instance ConsensusNotifyBlockNew_eq_dec : EqDecision ConsensusNotifyBlockNew.
Proof. solve_decision. Defined.
#[export] Instance ConsensusNotifyBlockNew_countable : Countable ConsensusNotifyBlockNew.
Proof.
  refine (inj_countable' (λ m, (ConsensusNotifyBlockNew_Block m))
    (λ x0, Build_ConsensusNotifyBlockNew x0) _). by intros [].
Defined.

Record ConsensusNotifyBlockValid := {
  ConsensusNotifyBlockValid_BlockId : bytes }.
#[export] Instance ConsensusNotifyBlockValid_zero : Inhabited ConsensusNotifyBlockValid := populate {|
  ConsensusNotifyBlockValid_BlockId := "" |}.
#[export] Instance ConsensusNotifyBlockValid_eq_dec : EqDecision ConsensusNotifyBlockValid.
Proof. solve_decision. Defined.
#[export] Instance ConsensusNotifyBlockValid_countable : Countable ConsensusNotifyBlockValid.
Proof.
  refine (inj_countable' (λ m, (ConsensusNotifyBlockValid_BlockId m))
    (λ x0, Build_ConsensusNotifyBlockValid x0) _). by intros [].
Defined.

Record ConsensusNotifyBlockInvalid := {
  ConsensusNotifyBlockInvalid_BlockId : bytes }.
#[export] Instance ConsensusNotifyBlockInvalid_zero : Inhabited ConsensusNotifyBlockInvalid := populate {|
  ConsensusNotifyBlockInvalid_BlockId := "" |}.
#[export] Instance ConsensusNotifyBlockInvalid_eq_dec : EqDecision ConsensusNotifyBlockInvalid.
Proof. solve_decision. Defined.
#[export] Instance ConsensusNotifyBlockInvalid_countable : Countable ConsensusNotifyBlockInvalid.
Proof.
  refine (inj_countable' (λ m, (ConsensusNotifyBlockInvalid_BlockId m))
    (λ x0, Build_ConsensusNotifyBlockInvalid x0) _). by intros [].
Defined.

Record ConsensusNotifyBlockCommit := {
  ConsensusNotifyBlockCommit_BlockId : bytes }.
#[export] Instance ConsensusNotifyBlockCommit_zero : Inhabited ConsensusNotifyBlockCommit := populate {|
  ConsensusNotifyBlockCommit_BlockId := "" |}.
#[export] Instance ConsensusNotifyBlockCommit_eq_dec : EqDecision ConsensusNotifyBlockCommit.
Proof. solve_decision. Defined.
#[export] Instance ConsensusNotifyBlockCommit_countable : Countable ConsensusNotifyBlockCommit.
Proof.
  refine (inj_countable' (λ m, (ConsensusNotifyBlockCommit_BlockId m))
    (λ x0, Build_ConsensusNotifyBlockCommit x0) _). by intros [].
Defined.

Record ConsensusNotifyEngineActivated := {
  ConsensusNotifyEngineActivated_ChainHead : option ConsensusBlock;
  ConsensusNotifyEngineActivated_Peers : list ConsensusPeerInfo;
  ConsensusNotifyEngineActivated_LocalPeerInfo : option ConsensusPeerInfo }.
#[export] Instance ConsensusNotifyEngineActivated_zero : Inhabited ConsensusNotifyEngineActivated := populate {|
  ConsensusNotifyEngineActivated_ChainHead := None;
  ConsensusNotifyEngineActivated_Peers := [];
  ConsensusNotifyEngineActivated_LocalPeerInfo := None |}.
#[export] Instance ConsensusNotifyEngineActivated_eq_dec : EqDecision ConsensusNotifyEngineActivated.
Proof. solve_decision. Defined.
#[export] Instance ConsensusNotifyEngineActivated_countable : Countable ConsensusNotifyEngineActivated.
Proof.
  refine (inj_countable' (λ m, (ConsensusNotifyEngineActivated_ChainHead m, ConsensusNotifyEngineActivated_Peers m, ConsensusNotifyEngineActivated_LocalPeerInfo m))
    (λ '(x0, x1, x2), Build_ConsensusNotifyEngineActivated x0 x1 x2) _). by intros [].
Defined.

Record ConsensusNotifyEngineDeactivated := Build_ConsensusNotifyEngineDeactivated { }.
#[export] Instance ConsensusNotifyEngineDeactivated_zero : Inhabited ConsensusNotifyEngineDeactivated := populate (Build_ConsensusNotifyEngineDeactivated).
#[export] Instance ConsensusNotifyEngineDeactivated_eq_dec : EqDecision ConsensusNotifyEngineDeactivated.
Proof. solve_decision. Defined.
#[export] Instance ConsensusNotifyEngineDeactivated_countable : Countable ConsensusNotifyEngineDeactivated.
Proof. refine (inj_countable' (λ _, tt) (λ _, Build_ConsensusNotifyEngineDeactivated) _). by intros []. Defined.

Record ConsensusNotifyAck := Build_ConsensusNotifyAck { }.
#[export] Instance ConsensusNotifyAck_zero : Inhabited ConsensusNotifyAck := populate (Build_ConsensusNotifyAck).
#[export] Instance ConsensusNotifyAck_eq_dec : EqDecision ConsensusNotifyAck.
Proof. solve_decision. Defined.
#[export] Instance ConsensusNotifyAck_countable : Countable ConsensusNotifyAck.
Proof. refine (inj_countable' (λ _, tt) (λ _, Build_ConsensusNotifyAck) _). by intros []. Defined.

Record ConsensusSendToRequest := {
  ConsensusSendToRequest_Content : bytes;
  ConsensusSendToRequest_MessageType : string;
  ConsensusSendToRequest_ReceiverId : bytes }.
#[export] Instance ConsensusSendToRequest_zero : Inhabited ConsensusSendToRequest := populate {|
  ConsensusSendToRequest_Content := "";
  ConsensusSendToRequest_MessageType := "";
  ConsensusSendToRequest_ReceiverId := "" |}.
#[export] Instance ConsensusSendToRequest_eq_dec : EqDecision ConsensusSendToRequest.
Proof. solve_decision. Defined.
#[export] Instance ConsensusSendToRequest_countable : Countable ConsensusSendToRequest.
Proof.
  refine (inj_countable' (λ m, (ConsensusSendToRequest_Content m, ConsensusSendToRequest_MessageType m, ConsensusSendToRequest_ReceiverId m))
    (λ '(x0, x1, x2), Build_ConsensusSendToRequest x0 x1 x2) _). by intros [].
Defined.

Record ConsensusSendToResponse := {
  ConsensusSendToResponse_Status : Z }.
#[export] Instance ConsensusSendToResponse_zero : Inhabited ConsensusSendToResponse := populate {|
  ConsensusSendToResponse_Status := 0 |}.
#[export] Instance ConsensusSendToResponse_eq_dec : EqDecision ConsensusSendToResponse.
Proof. solve_decision. Defined.
#[export] Instance ConsensusSendToResponse_countable : Countable ConsensusSendToResponse.
Proof.
  refine (inj_countable' (λ m, (ConsensusSendToResponse_Status m))
    (λ x0, Build_ConsensusSendToResponse x0) _). by intros [].
Defined.

Record ConsensusBroadcastRequest := {
  ConsensusBroadcastRequest_Content : bytes;
  ConsensusBroadcastRequest_MessageType : string }.
#[export] Instance ConsensusBroadcastRequest_zero : Inhabited ConsensusBroadcastRequest := populate {|
  ConsensusBroadcastRequest_Content := "";
  ConsensusBroadcastRequest_MessageType := "" |}.
#[export] Instance ConsensusBroadcastRequest_eq_dec : EqDecision ConsensusBroadcastRequest.
Proof. solve_decision. Defined.
#[export] Instance ConsensusBroadcastRequest_countable : Countable ConsensusBroadcastRequest.
Proof.
  refine (inj_countable' (λ m, (ConsensusBroadcastRequest_Content m, ConsensusBroadcastRequest_MessageType m))
    (λ '(x0, x1), Build_ConsensusBroadcastRequest x0 x1) _). by intros [].
Defined.

Record ConsensusBroadcastResponse := {
  ConsensusBroadcastResponse_Status : Z }.
#[export] Instance ConsensusBroadcastResponse_zero : Inhabited ConsensusBroadcastResponse := populate {|
  ConsensusBroadcastResponse_Status := 0 |}.
#[export] Instance ConsensusBroadcastResponse_eq_dec : EqDecision ConsensusBroadcastResponse.
Proof. solve_decision. Defined.
#[export] Instance ConsensusBroadcastResponse_countable : Countable ConsensusBroadcastResponse.
Proof.
  refine (inj_countable' (λ m, (ConsensusBroadcastResponse_Status m))
    (λ x0, Build_ConsensusBroadcastResponse x0) _). by intros [].
Defined.

Record ConsensusInitializeBlockRequest := {
  ConsensusInitializeBlockRequest_PreviousId : bytes }.
#[export] Instance ConsensusInitializeBlockRequest_zero : Inhabited ConsensusInitializeBlockRequest := populate {|
  ConsensusInitializeBlockRequest_PreviousId := "" |}.
#[export] Instance ConsensusInitializeBlockRequest_eq_dec : EqDecision ConsensusInitializeBlockRequest.
Proof. solve_decision. Defined.
#[export] Instance ConsensusInitializeBlockRequest_countable : Countable ConsensusInitializeBlockRequest.
Proof.
  refine (inj_countable' (λ m, (ConsensusInitializeBlockRequest_PreviousId m))
    (λ x0, Build_ConsensusInitializeBlockRequest x0) _). by intros [].
Defined.

Record ConsensusInitializeBlockResponse := {
  ConsensusInitializeBlockResponse_Status : Z }.
#[export] Instance ConsensusInitializeBlockResponse_zero : Inhabited ConsensusInitializeBlockResponse := populate {|
  ConsensusInitializeBlockResponse_Status := 0 |}.
#[export] Instance ConsensusInitializeBlockResponse_eq_dec : EqDecision ConsensusInitializeBlockResponse.
Proof. solve_decision. Defined.
#[export] Instance ConsensusInitializeBlockResponse_countable : Countable ConsensusInitializeBlockResponse.
Proof.
  refine (inj_countable' (λ m, (ConsensusInitializeBlockResponse_Status m))
    (λ x0, Build_ConsensusInitializeBlockResponse x0) _). by intros [].
Defined.

Record ConsensusSummarizeBlockRequest := Build_ConsensusSummarizeBlockRequest { }.
#[export] Instance ConsensusSummarizeBlockRequest_zero : Inhabited ConsensusSummarizeBlockRequest := populate (Build_ConsensusSummarizeBlockRequest).
#[export] Instance ConsensusSummarizeBlockRequest_eq_dec : EqDecision ConsensusSummarizeBlockRequest.
Proof. solve_decision. Defined.
#[export] Instance ConsensusSummarizeBlockRequest_countable : Countable ConsensusSummarizeBlockRequest.
Proof. refine (inj_countable' (λ _, tt) (λ _, Build_ConsensusSummarizeBlockRequest) _). by intros []. Defined.

Record ConsensusSummarizeBlockResponse := {
  ConsensusSummarizeBlockResponse_Status : Z;
  ConsensusSummarizeBlockResponse_Summary : bytes }.
#[export] Instance ConsensusSummarizeBlockResponse_zero : Inhabited ConsensusSummarizeBlockResponse := populate {|
  ConsensusSummarizeBlockResponse_Status := 0;
  ConsensusSummarizeBlockResponse_Summary := "" |}.
#[export] Instance ConsensusSummarizeBlockResponse_eq_dec : EqDecision ConsensusSummarizeBlockResponse.
Proof. solve_decision. Defined.
#[export] Instance ConsensusSummarizeBlockResponse_countable : Countable ConsensusSummarizeBlockResponse.
Proof.
  refine (inj_countable' (λ m, (ConsensusSummarizeBlockResponse_Status m, ConsensusSummarizeBlockResponse_Summary m))
    (λ '(x0, x1), Build_ConsensusSummarizeBlockResponse x0 x1) _). by intros [].
Defined.

Record ConsensusFinalizeBlockRequest := {
  ConsensusFinalizeBlockRequest_Data : bytes }.
#[export] Instance ConsensusFinalizeBlockRequest_zero : Inhabited ConsensusFinalizeBlockRequest := populate {|
  ConsensusFinalizeBlockRequest_Data := "" |}.
#[export] Instance ConsensusFinalizeBlockRequest_eq_dec : EqDecision ConsensusFinalizeBlockRequest.
Proof. solve_decision. Defined.
#[export] Instance ConsensusFinalizeBlockRequest_countable : Countable ConsensusFinalizeBlockRequest.
Proof.
  refine (inj_countable' (λ m, (ConsensusFinalizeBlockRequest_Data m))
    (λ x0, Build_ConsensusFinalizeBlockRequest x0) _). by intros [].
Defined.

Record ConsensusFinalizeBlockResponse := {
  ConsensusFinalizeBlockResponse_Status : Z;
  ConsensusFinalizeBlockResponse_BlockId : bytes }.
#[export] Instance ConsensusFinalizeBlockResponse_zero : Inhabited ConsensusFinalizeBlockResponse := populate {|
  ConsensusFinalizeBlockResponse_Status := 0;
  ConsensusFinalizeBlockResponse_BlockId := "" |}.
#[export] Instance ConsensusFinalizeBlockResponse_eq_dec : EqDecision ConsensusFinalizeBlockResponse.
Proof. solve_decision. Defined.
#[export] Instance ConsensusFinalizeBlockResponse_countable : Countable ConsensusFinalizeBlockResponse.
Proof.
  refine (inj_countable' (λ m, (ConsensusFinalizeBlockResponse_Status m, ConsensusFinalizeBlockResponse_BlockId m))
    (λ '(x0, x1), Build_ConsensusFinalizeBlockResponse x0 x1) _). by intros [].
Defined.

Record ConsensusCancelBlockRequest := Build_ConsensusCancelBlockRequest { }.
#[export] Instance ConsensusCancelBlockRequest_zero : Inhabited ConsensusCancelBlockRequest := populate (Build_ConsensusCancelBlockRequest).
#[export] Instance ConsensusCancelBlockRequest_eq_dec : EqDecision ConsensusCancelBlockRequest.
Proof. solve_decision. Defined.
#[export] Instance ConsensusCancelBlockRequest_countable : Countable ConsensusCancelBlockRequest.
Proof. refine (inj_countable' (λ _, tt) (λ _, Build_ConsensusCancelBlockRequest) _). by intros []. Defined.

Record ConsensusCancelBlockResponse := {
  ConsensusCancelBlockResponse_Status : Z }.
#[export] Instance ConsensusCancelBlockResponse_zero : Inhabited ConsensusCancelBlockResponse := populate {|
  ConsensusCancelBlockResponse_Status := 0 |}.
#[export] Instance ConsensusCancelBlockResponse_eq_dec : EqDecision ConsensusCancelBlockResponse.
Proof. solve_decision. Defined.
#[export] Instance ConsensusCancelBlockResponse_countable : Countable ConsensusCancelBlockResponse.
Proof.
  refine (inj_countable' (λ m, (ConsensusCancelBlockResponse_Status m))
    (λ x0, Build_ConsensusCancelBlockResponse x0) _). by intros [].
Defined.

Record ConsensusCheckBlocksRequest := {
  ConsensusCheckBlocksRequest_BlockIds : list bytes }.
#[export] Instance ConsensusCheckBlocksRequest_zero : Inhabited ConsensusCheckBlocksRequest := populate {|
  ConsensusCheckBlocksRequest_BlockIds := [] |}.
#[export] Instance ConsensusCheckBlocksRequest_eq_dec : EqDecision ConsensusCheckBlocksRequest.
Proof. solve_decision. Defined.
#[export] Instance ConsensusCheckBlocksRequest_countable : Countable ConsensusCheckBlocksRequest.
Proof.
  refine (inj_countable' (λ m, (ConsensusCheckBlocksRequest_BlockIds m))
    (λ x0, Build_ConsensusCheckBlocksRequest x0) _). by intros [].
Defined.

Record ConsensusCheckBlocksResponse := {
  ConsensusCheckBlocksResponse_Status : Z }.
#[export] Instance ConsensusCheckBlocksResponse_zero : Inhabited ConsensusCheckBlocksResponse := populate {|
  ConsensusCheckBlocksResponse_Status := 0 |}.
#[export] Instance ConsensusCheckBlocksResponse_eq_dec : EqDecision ConsensusCheckBlocksResponse.
Proof. solve_decision. Defined.
#[export] Instance ConsensusCheckBlocksResponse_countable : Countable ConsensusCheckBlocksResponse.
Proof.
  refine (inj_countable' (λ m, (ConsensusCheckBlocksResponse_Status m))
    (λ x0, Build_ConsensusCheckBlocksResponse x0) _). by intros [].
Defined.

Record ConsensusCommitBlockRequest := {
  ConsensusCommitBlockRequest_BlockId : bytes }.
#[export] Instance ConsensusCommitBlockRequest_zero : Inhabited ConsensusCommitBlockRequest := populate {|
  ConsensusCommitBlockRequest_BlockId := "" |}.
#[export] Instance ConsensusCommitBlockRequest_eq_dec : EqDecision ConsensusCommitBlockRequest.
Proof. solve_decision. Defined.
#[export] Instance ConsensusCommitBlockRequest_countable : Countable ConsensusCommitBlockRequest.
Proof.
  refine (inj_countable' (λ m, (ConsensusCommitBlockRequest_BlockId m))
    (λ x0, Build_ConsensusCommitBlockRequest x0) _). by intros [].
Defined.

Record ConsensusCommitBlockResponse := {
  ConsensusCommitBlockResponse_Status : Z }.
#[export] Instance ConsensusCommitBlockResponse_zero : Inhabited ConsensusCommitBlockResponse := populate {|
  ConsensusCommitBlockResponse_Status := 0 |}.
#[export] Instance ConsensusCommitBlockResponse_eq_dec : EqDecision ConsensusCommitBlockResponse.
Proof. solve_decision. Defined.
#[export] Instance ConsensusCommitBlockResponse_countable : Countable ConsensusCommitBlockResponse.
Proof.
  refine (inj_countable' (λ m, (ConsensusCommitBlockResponse_Status m))
    (λ x0, Build_ConsensusCommitBlockResponse x0) _). by intros [].
Defined.

Record ConsensusIgnoreBlockRequest := {
  ConsensusIgnoreBlockRequest_BlockId : bytes }.
#[export] Instance ConsensusIgnoreBlockRequest_zero : Inhabited ConsensusIgnoreBlockRequest := populate {|
  ConsensusIgnoreBlockRequest_BlockId := "" |}.
#[export] Instance ConsensusIgnoreBlockRequest_eq_dec : EqDecision ConsensusIgnoreBlockRequest.
Proof. solve_decision. Defined.
#[export] Instance ConsensusIgnoreBlockRequest_countable : Countable ConsensusIgnoreBlockRequest.
Proof.
  refine (inj_countable' (λ m, (ConsensusIgnoreBlockRequest_BlockId m))
    (λ x0, Build_ConsensusIgnoreBlockRequest x0) _). by intros [].
Defined.

Record ConsensusIgnoreBlockResponse := {
  ConsensusIgnoreBlockResponse_Status : Z }.
#[export] Instance ConsensusIgnoreBlockResponse_zero : Inhabited ConsensusIgnoreBlockResponse := populate {|
  ConsensusIgnoreBlockResponse_Status := 0 |}.
#[export] Instance ConsensusIgnoreBlockResponse_eq_dec : EqDecision ConsensusIgnoreBlockResponse.
Proof. solve_decision. Defined.
#[export] Instance ConsensusIgnoreBlockResponse_countable : Countable ConsensusIgnoreBlockResponse.
Proof.
  refine (inj_countable' (λ m, (ConsensusIgnoreBlockResponse_Status m))
    (λ x0, Build_ConsensusIgnoreBlockResponse x0) _). by intros [].
Defined.

Record ConsensusFailBlockRequest := {
  ConsensusFailBlockRequest_BlockId : bytes }.
#[export] Instance ConsensusFailBlockRequest_zero : Inhabited ConsensusFailBlockRequest := populate {|
  ConsensusFailBlockRequest_BlockId := "" |}.
#[export] Instance ConsensusFailBlockRequest_eq_dec : EqDecision ConsensusFailBlockRequest.
Proof. solve_decision. Defined.
#[export] Instance ConsensusFailBlockRequest_countable : Countable ConsensusFailBlockRequest.
Proof.
  refine (inj_countable' (λ m, (ConsensusFailBlockRequest_BlockId m))
    (λ x0, Build_ConsensusFailBlockRequest x0) _). by intros [].
Defined.

Record ConsensusFailBlockResponse := {
  ConsensusFailBlockResponse_Status : Z }.
#[export] Instance ConsensusFailBlockResponse_zero : Inhabited ConsensusFailBlockResponse := populate {|
  ConsensusFailBlockResponse_Status := 0 |}.
#[export] Instance ConsensusFailBlockResponse_eq_dec : EqDecision ConsensusFailBlockResponse.
Proof. solve_decision. Defined.
#[export] Instance ConsensusFailBlockResponse_countable : Countable ConsensusFailBlockResponse.
Proof.
  refine (inj_countable' (λ m, (ConsensusFailBlockResponse_Status m))
    (λ x0, Build_ConsensusFailBlockResponse x0) _). by intros [].
Defined.

Record ConsensusBlocksGetRequest := {
  ConsensusBlocksGetRequest_BlockIds : list bytes }.
#[export] Instance ConsensusBlocksGetRequest_zero : Inhabited ConsensusBlocksGetRequest := populate {|
  ConsensusBlocksGetRequest_BlockIds := [] |}.
#[export] Instance ConsensusBlocksGetRequest_eq_dec : EqDecision ConsensusBlocksGetRequest.
Proof. solve_decision. Defined.
#[export] Instance ConsensusBlocksGetRequest_countable : Countable ConsensusBlocksGetRequest.
Proof.
  refine (inj_countable' (λ m, (ConsensusBlocksGetRequest_BlockIds m))
    (λ x0, Build_ConsensusBlocksGetRequest x0) _). by intros [].
Defined.

Record ConsensusBlocksGetResponse := {
  ConsensusBlocksGetResponse_Status : Z;
  ConsensusBlocksGetResponse_Blocks : list ConsensusBlock }.
#[export] Instance ConsensusBlocksGetResponse_zero : Inhabited ConsensusBlocksGetResponse := populate {|
  ConsensusBlocksGetResponse_Status := 0;
  ConsensusBlocksGetResponse_Blocks := [] |}.
#[export] Instance ConsensusBlocksGetResponse_eq_dec : EqDecision ConsensusBlocksGetResponse.
Proof. solve_decision. Defined.
#[export] Instance ConsensusBlocksGetResponse_countable : Countable ConsensusBlocksGetResponse.
Proof.
  refine (inj_countable' (λ m, (ConsensusBlocksGetResponse_Status m, ConsensusBlocksGetResponse_Blocks m))
    (λ '(x0, x1), Build_ConsensusBlocksGetResponse x0 x1) _). by intros [].
Defined.

Record ConsensusChainHeadGetRequest := Build_ConsensusChainHeadGetRequest { }.
#[export] Instance ConsensusChainHeadGetRequest_zero : Inhabited ConsensusChainHeadGetRequest := populate (Build_ConsensusChainHeadGetRequest).
#[export] Instance ConsensusChainHeadGetRequest_eq_dec : EqDecision ConsensusChainHeadGetRequest.
Proof. solve_decision. Defined.
#[export] Instance ConsensusChainHeadGetRequest_countable : Countable ConsensusChainHeadGetRequest.
Proof. refine (inj_countable' (λ _, tt) (λ _, Build_ConsensusChainHeadGetRequest) _). by intros []. Defined.

Record ConsensusChainHeadGetResponse := {
  ConsensusChainHeadGetResponse_Status : Z;
  ConsensusChainHeadGetResponse_Block : option ConsensusBlock }.
#[export] Instance ConsensusChainHeadGetResponse_zero : Inhabited ConsensusChainHeadGetResponse := populate {|
  ConsensusChainHeadGetResponse_Status := 0;
  ConsensusChainHeadGetResponse_Block := None |}.
#[export] Instance ConsensusChainHeadGetResponse_eq_dec : EqDecision ConsensusChainHeadGetResponse.
Proof. solve_decision. Defined.
#[export] Instance ConsensusChainHeadGetResponse_countable : Countable ConsensusChainHeadGetResponse.
Proof.
  refine (inj_countable' (λ m, (ConsensusChainHeadGetResponse_Status m, ConsensusChainHeadGetResponse_Block m))
    (λ '(x0, x1), Build_ConsensusChainHeadGetResponse x0 x1) _). by intros [].
Defined.

Record ConsensusSettingsGetRequest := {
  ConsensusSettingsGetRequest_BlockId : bytes;
  ConsensusSettingsGetRequest_Keys : list string }.
#[export] Instance ConsensusSettingsGetRequest_zero : Inhabited ConsensusSettingsGetRequest := populate {|
  ConsensusSettingsGetRequest_BlockId := "";
  ConsensusSettingsGetRequest_Keys := [] |}.
#[export] Instance ConsensusSettingsGetRequest_eq_dec : EqDecision ConsensusSettingsGetRequest.
Proof. solve_decision. Defined.
#[export] Instance ConsensusSettingsGetRequest_countable : Countable ConsensusSettingsGetRequest.
Proof.
  refine (inj_countable' (λ m, (ConsensusSettingsGetRequest_BlockId m, ConsensusSettingsGetRequest_Keys m))
    (λ '(x0, x1), Build_ConsensusSettingsGetRequest x0 x1) _). by intros [].
Defined.

Record ConsensusSettingsGetResponse := {
  ConsensusSettingsGetResponse_Status : Z;
  ConsensusSettingsGetResponse_Entries : list ConsensusSettingsEntry }.
#[export] Instance ConsensusSettingsGetResponse_zero : Inhabited ConsensusSettingsGetResponse := populate {|
  ConsensusSettingsGetResponse_Status := 0;
  ConsensusSettingsGetResponse_Entries := [] |}.
#[export] Instance ConsensusSettingsGetResponse_eq_dec : EqDecision ConsensusSettingsGetResponse.
Proof. solve_decision. Defined.
#[export] Instance ConsensusSettingsGetResponse_countable : Countable ConsensusSettingsGetResponse.
Proof.
  refine (inj_countable' (λ m, (ConsensusSettingsGetResponse_Status m, ConsensusSettingsGetResponse_Entries m))
    (λ '(x0, x1), Build_ConsensusSettingsGetResponse x0 x1) _). by intros [].
Defined.

Record ConsensusStateGetRequest := {
  ConsensusStateGetRequest_BlockId : bytes;
  ConsensusStateGetRequest_Addresses : list string }.
#[export] Instance ConsensusStateGetRequest_zero : Inhabited ConsensusStateGetRequest := populate {|
  ConsensusStateGetRequest_BlockId := "";
  ConsensusStateGetRequest_Addresses := [] |}.
#[export] Instance ConsensusStateGetRequest_eq_dec : EqDecision ConsensusStateGetRequest.
Proof. solve_decision. Defined.
#[export] Instance ConsensusStateGetRequest_countable : Countable ConsensusStateGetRequest.
Proof.
  refine (inj_countable' (λ m, (ConsensusStateGetRequest_BlockId m, ConsensusStateGetRequest_Addresses m))
    (λ '(x0, x1), Build_ConsensusStateGetRequest x0 x1) _). by intros [].
Defined.

Record ConsensusStateGetResponse := {
  ConsensusStateGetResponse_Status : Z;
  ConsensusStateGetResponse_Entries : list ConsensusStateEntry }.
#[export] Instance ConsensusStateGetResponse_zero : Inhabited ConsensusStateGetResponse := populate {|
  ConsensusStateGetResponse_Status := 0;
  ConsensusStateGetResponse_Entries := [] |}.
#[export] Instance ConsensusStateGetResponse_eq_dec : EqDecision ConsensusStateGetResponse.
Proof. solve_decision. Defined.
#[export] Instance ConsensusStateGetResponse_countable : Countable ConsensusStateGetResponse.
Proof.
  refine (inj_countable' (λ m, (ConsensusStateGetResponse_Status m, ConsensusStateGetResponse_Entries m))
    (λ '(x0, x1), Build_ConsensusStateGetResponse x0 x1) _). by intros [].
Defined.


(** ** Getters on pointers that may be nil *)

Definition ConsensusBlock_GetBlockId (x : option ConsensusBlock) : bytes :=
  from_option ConsensusBlock_BlockId "" x.
Definition ConsensusBlock_GetPreviousId (x : option ConsensusBlock) : bytes :=
  from_option ConsensusBlock_PreviousId "" x.
Definition ConsensusBlock_GetSignerId (x : option ConsensusBlock) : bytes :=
  from_option ConsensusBlock_SignerId "" x.
Definition ConsensusBlock_GetBlockNum (x : option ConsensusBlock) : Z :=
  from_option ConsensusBlock_BlockNum 0 x.
Definition ConsensusBlock_GetPayload (x : option ConsensusBlock) : bytes :=
  from_option ConsensusBlock_Payload "" x.
Definition ConsensusBlock_GetSummary (x : option ConsensusBlock) : bytes :=
  from_option ConsensusBlock_Summary "" x.
Definition ConsensusPeerInfo_GetPeerId (x : option ConsensusPeerInfo) : bytes :=
  from_option ConsensusPeerInfo_PeerId "" x.
Definition ConsensusPeerMessage_GetHeader (x : option ConsensusPeerMessage) : bytes :=
  from_option ConsensusPeerMessage_Header "" x.
Definition ConsensusPeerMessage_GetHeaderSignature (x : option ConsensusPeerMessage) : bytes :=
  from_option ConsensusPeerMessage_HeaderSignature "" x.
Definition ConsensusPeerMessage_GetContent (x : option ConsensusPeerMessage) : bytes :=
  from_option ConsensusPeerMessage_Content "" x.
