(* ===== verification/ConsensusTypes.v ===== *)
(** * Types of the consensus SDK

    Models [consensus/types.go]: block and peer identifiers, blocks, peer
    messages, the startup state and the updates a consensus engine receives.  The
    read-only interfaces of the source are the records behind them.  Go strings
    and byte slices are both [bytes]; a nil slice and an empty one are the same to
    the code here, so [AsBytes] of the null identifier is the empty string. *)

From S2P Require Import Prelude GoLib Errors Protobuf ConsensusProto.

Local Open Scope Z_scope.

(** ** Identifiers *)

Fixpoint isSliceOfZeroes (slice : bytes) : bool :=
  match slice with
  | EmptyString => true
  | String b rest => if decide (b ≠ zero) then false else isSliceOfZeroes rest
  end.

Definition BlockId : Type := string.
#[export] Instance BlockId_eq_dec : EqDecision BlockId := _ : EqDecision string.
#[export] Instance BlockId_countable : Countable BlockId := _ : Countable string.
Definition BLOCK_ID_NULL : BlockId := "".
Definition BlockId_String (self : BlockId) : string := hex_EncodeToString self.
Definition BlockId_AsBytes (self : BlockId) : bytes :=
  if decide (self = BLOCK_ID_NULL) then "" else self.
Definition NewBlockIdFromBytes (blockIdBytes : bytes) : BlockId :=
  if isSliceOfZeroes blockIdBytes then BLOCK_ID_NULL else blockIdBytes.
Definition NewBlockIdFromString (blockIdString : string) : BlockId :=
  let '(blockIdBytes, _) := hex_DecodeString blockIdString in
  NewBlockIdFromBytes blockIdBytes.

Definition PeerId : Type := string.
#[export] Instance PeerId_eq_dec : EqDecision PeerId := _ : EqDecision string.
Definition PEER_ID_NULL : PeerId := "".
Definition PeerId_String (self : PeerId) : string := hex_EncodeToString self.
Definition PeerId_AsBytes (self : PeerId) : bytes :=
  if decide (self = PEER_ID_NULL) then "" else self.
Definition NewPeerIdFromSlice (peerIdBytes : bytes) : PeerId :=
  if isSliceOfZeroes peerIdBytes then PEER_ID_NULL else peerIdBytes.

(** ** Blocks *)

Record block := {
  blockId : BlockId; previousId : BlockId; signerId : PeerId;
  blockNum : Z; payload : bytes; summary : bytes }.

Definition newBlockFromProto (blockProto : option ConsensusBlock) : block := {|
  blockId := NewBlockIdFromBytes (ConsensusBlock_GetBlockId blockProto);
  previousId := NewBlockIdFromBytes (ConsensusBlock_GetPreviousId blockProto);
  signerId := NewPeerIdFromSlice (ConsensusBlock_GetSignerId blockProto);
  blockNum := ConsensusBlock_GetBlockNum blockProto;
  payload := ConsensusBlock_GetPayload blockProto;
  summary := ConsensusBlock_GetSummary blockProto |}.

Definition block_String (self : block) : string :=
  "Block(BlockNum: " +:+ Itoa (blockNum self) +:+ ", BlockId: " +:+ BlockId_String (blockId self)
  +:+ ", PreviousId: " +:+ BlockId_String (previousId self) +:+ ", SignerId: "
  +:+ PeerId_String (signerId self) +:+ ", Payload: " +:+ hex_EncodeToString (payload self)
  +:+ ", Summary: " +:+ hex_EncodeToString (summary self) +:+ ")".

(** ** Peers *)

Record peerInfo := { peerId : PeerId }.

Record peerMessageHeader := {
  header_signerId : bytes; contentSha512 : bytes; messageType : string;
  header_name : string; header_version : string }.

Record peerMessage := {
  header : peerMessageHeader; headerSignature : bytes; content : bytes }.

(** A header that does not parse makes the function panic. *)
Definition newPeerMessageFromProto {S} `{Proto ConsensusPeerMessageHeader}
    (peerMessageProto : option ConsensusPeerMessage) : Go S peerMessage :=
  let '(headerProto, err) := Unmarshal (ConsensusPeerMessage_GetHeader peerMessageProto) in
  match err with
  | Some err => go_panic ("Error unmarshaling peer message: " +:+ Error err)
  | None =>
      mret {| header := {|
                header_signerId := ConsensusPeerMessageHeader_SignerId headerProto;
                contentSha512 := ConsensusPeerMessageHeader_ContentSha512 headerProto;
                messageType := ConsensusPeerMessageHeader_MessageType headerProto;
                header_name := ConsensusPeerMessageHeader_Name headerProto;
                header_version := ConsensusPeerMessageHeader_Version headerProto |};
              headerSignature := ConsensusPeerMessage_GetHeaderSignature peerMessageProto;
              content := ConsensusPeerMessage_GetContent peerMessageProto |}
  end.

(** ** Startup state and updates *)

Record startupState := {
  chainHead : block; peers : list peerInfo; localPeerInfo : peerInfo }.

Definition newStartupStateFromProtos (chainHeadProto : option ConsensusBlock)
    (peersProto : list ConsensusPeerInfo) (localPeerInfoProto : option ConsensusPeerInfo) :
    startupState := {|
  chainHead := newBlockFromProto chainHeadProto;
  peers := (λ regPeer, {| peerId := NewPeerIdFromSlice (ConsensusPeerInfo_PeerId regPeer) |})
             <$> peersProto;
  localPeerInfo := {| peerId :=
    NewPeerIdFromSlice (ConsensusPeerInfo_GetPeerId localPeerInfoProto) |} |}.

(** The dynamic values sent on the update channel.  [UpdateShutdown] and the
    pointer [&UpdateShutdown{}] have different dynamic types. *)
Inductive ConsensusUpdate :=
| UpdatePeerConnected (PeerInfo : peerInfo)
| UpdatePeerDisconnected (PeerInfo : peerInfo)
| UpdatePeerMessage (PeerMessage : peerMessage) (SenderId : PeerId)
| UpdateBlockNew (Block : block)
| UpdateBlockValid (BlockId : BlockId)
| UpdateBlockInvalid (BlockId : BlockId)
| UpdateBlockCommit (BlockId : BlockId)
| UpdateShutdown
| UpdateShutdown_ptr.

Definition GetType (u : ConsensusUpdate) : string :=
  match u with
  | UpdatePeerConnected _ => "UpdatePeerConnected"
  | UpdatePeerDisconnected _ => "UpdatePeerDisconnected"
  | UpdatePeerMessage _ _ => "UpdatePeerMessage"
  | UpdateBlockNew _ => "UpdateBlockNew"
  | UpdateBlockValid _ => "UpdateBlockValid"
  | UpdateBlockInvalid _ => "UpdateBlockInvalid"
  | UpdateBlockCommit _ => "UpdateBlockCommit"
  | UpdateShutdown | UpdateShutdown_ptr => "UpdateShutdown"
  end.

(** ** Claims *)


Module witness.
End witness.
