(* ===== verification/ConsensusService.v ===== *)
(** * The consensus service

    Models [consensus/service.go]: the [ZmqService] through which a consensus
    engine sends commands and queries to the validator, against the interface
    [ConsensusService] of [consensus/iface.go].  The state of a service is its
    connection (absent when [Start] failed to connect; using it then panics) and
    the set [corrIds] of the correlation ids that wait for a response. *)

From S2P Require Import Prelude GoLib Errors Protobuf Messaging ConsensusProto ConsensusTypes.

Local Open Scope Z_scope.

(** ** The interface *)

(** Results that callers use together with the error are pairs. *)
Class ConsensusService (S : Type) := {
  SendTo : PeerId → string → bytes → Go S (option error);
  Broadcast : string → bytes → Go S (option error);
  InitializeBlock : BlockId → Go S (option error);
  SummarizeBlock : Go S (bytes * option error);
  FinalizeBlock : bytes → Go S (BlockId * option error);
  CancelBlock : Go S (option error);
  CheckBlocks : list BlockId → Go S (option error);
  CommitBlock : BlockId → Go S (option error);
  IgnoreBlock : BlockId → Go S (option error);
  FailBlock : BlockId → Go S (option error);
  GetBlocks : list BlockId → Go S (error + gmap BlockId block);
  GetChainHead : Go S (error + block);
  GetSettings : BlockId → list string → Go S (gmap string string * option error);
  Service_GetState : BlockId → list string → Go S (error + gmap string bytes) }.
#[global] Hint Mode ConsensusService ! : typeclass_instances.

(** The protobuf runtime for the messages of the service. *)
Class ServiceProtos := {
  sp_SendTo_request :: Proto ConsensusSendToRequest;
  sp_SendTo_response :: Proto ConsensusSendToResponse;
  sp_Broadcast_request :: Proto ConsensusBroadcastRequest;
  sp_Broadcast_response :: Proto ConsensusBroadcastResponse;
  sp_InitializeBlock_request :: Proto ConsensusInitializeBlockRequest;
  sp_InitializeBlock_response :: Proto ConsensusInitializeBlockResponse;
  sp_SummarizeBlock_request :: Proto ConsensusSummarizeBlockRequest;
  sp_SummarizeBlock_response :: Proto ConsensusSummarizeBlockResponse;
  sp_FinalizeBlock_request :: Proto ConsensusFinalizeBlockRequest;
  sp_FinalizeBlock_response :: Proto ConsensusFinalizeBlockResponse;
  sp_CancelBlock_request :: Proto ConsensusCancelBlockRequest;
  sp_CancelBlock_response :: Proto ConsensusCancelBlockResponse;
  sp_CheckBlocks_request :: Proto ConsensusCheckBlocksRequest;
  sp_CheckBlocks_response :: Proto ConsensusCheckBlocksResponse;
  sp_CommitBlock_request :: Proto ConsensusCommitBlockRequest;
  sp_CommitBlock_response :: Proto ConsensusCommitBlockResponse;
  sp_IgnoreBlock_request :: Proto ConsensusIgnoreBlockRequest;
  sp_IgnoreBlock_response :: Proto ConsensusIgnoreBlockResponse;
  sp_FailBlock_request :: Proto ConsensusFailBlockRequest;
  sp_FailBlock_response :: Proto ConsensusFailBlockResponse;
  sp_BlocksGet_request :: Proto ConsensusBlocksGetRequest;
  sp_BlocksGet_response :: Proto ConsensusBlocksGetResponse;
  sp_ChainHeadGet_request :: Proto ConsensusChainHeadGetRequest;
  sp_ChainHeadGet_response :: Proto ConsensusChainHeadGetResponse;
  sp_SettingsGet_request :: Proto ConsensusSettingsGetRequest;
  sp_SettingsGet_response :: Proto ConsensusSettingsGetResponse;
  sp_StateGet_request :: Proto ConsensusStateGetRequest;
  sp_StateGet_response :: Proto ConsensusStateGetResponse }.

(** ** ZmqService *)

Record ZmqService (C : Type) := {
  service_uri : string;
  connection : option C;
  corrIds : gset string }.
Arguments service_uri {C} _.
Arguments connection {C} _.
Arguments corrIds {C} _.

Section service.
Context {C : Type} `{Connection C}.
Abbreviation svc := (ZmqService C).

Definition NewZmqService (uri : string) : svc :=
  {| service_uri := uri; connection := None; corrIds := ∅ |}.

Definition set_connection (c : option C) (self : svc) : svc :=
  {| service_uri := service_uri self; connection := c; corrIds := corrIds self |}.
Definition set_corrIds (ids : gset string) (self : svc) : svc :=
  {| service_uri := service_uri self; connection := connection self; corrIds := ids |}.

(** [Start]; [newConnection] is the outcome of connecting to the engine. *)
Definition service_Start (newConnection : error + C) (self : svc) : svc :=
  match newConnection with
  | inl _ => self
  | inr c => set_connection (Some c) self
  end.

(** A call on the connection, which panics when there is none. *)
Definition on_connection {A} (m : Go C A) : Go svc A := λ self,
  match connection self with
  | None => (Panic "invalid memory address or nil pointer dereference", self)
  | Some c => let '(r, c') := m c in (r, set_connection (Some c') self)
  end.

Definition service_Shutdown : Go svc unit := on_connection Close.

Definition hasCorrelationId (self : svc) (corrId : string) : bool :=
  bool_decide (corrId ∈ corrIds self).

(** Between its sending and its receiving part, [serviceRpc] notes the id it waits
    for: the driver looks at the table from its own goroutine. *)
Definition rpc_send (requestType : Z) (bytes : bytes) : Go svc (string * option error) :=
  on_connection (SendNewMsg requestType bytes).

Definition rpc_note (corrId : string) : Go svc unit :=
  go_modify (λ self, set_corrIds ({[corrId]} ∪ corrIds self) self).

(** The error of the receive is not looked at; a nil message shows as a wrong
    correlation id. *)
Definition rpc_await (corrId : string) : Go svc (error + option Message) :=
  '(_, msg, _) ← on_connection (RecvMsgWithId corrId);
  if decide (Message_GetCorrelationId msg ≠ corrId) then
    mret (errorf ("Expected message with correlation id " +:+ corrId
                  +:+ " but received " +:+ Message_GetCorrelationId msg))
  else
    _ ← go_modify (λ self, set_corrIds (corrIds self ∖ {[corrId]}) self);
    mret (inr msg).

End service.

(** The methods of the service meet other goroutines in these three accesses only, and
    are written over them.  Between two accesses anything can happen to what is
    shared; the instance for [ZmqService] is the service with nobody else around. *)
Class RpcSteps (S : Type) := {
  Rpc_send : Z → bytes → Go S (string * option error);
  Rpc_note : string → Go S unit;
  Rpc_await : string → Go S (error + option Message) }.
#[global] Hint Mode RpcSteps ! : typeclass_instances.

#[export] Instance zmq_steps {C} `{Connection C} : RpcSteps (ZmqService C) :=
  {| Rpc_send := rpc_send; Rpc_note := rpc_note; Rpc_await := rpc_await |}.

Section methods.
Context {S : Type} `{RpcSteps S, ServiceProtos}.

Definition serviceRpc {Q R} `{Proto Q, Proto R} (request : Q) (requestType responseType : Z) :
    Go S (error + R) :=
  match Marshal request with
  | inl err => mret (errorf ("Failed to marshal " +:+ MessageType_String requestType
                             +:+ " message: " +:+ Error err))
  | inr bytes =>
      '(corrId, err) ← Rpc_send requestType bytes;
      match err with
      | Some err => mret (errorf ("Failed to send " +:+ MessageType_String requestType
                                  +:+ " message: " +:+ Error err))
      | None =>
          _ ← Rpc_note corrId;
          answer ← Rpc_await corrId;
          match answer with
          | inl err => mret (inl err)
          | inr msg =>
            if decide (Message_GetMessageType msg ≠ responseType) then
              mret (errorf ("Expected message with type " +:+ MessageType_String responseType
                            +:+ " but received "
                            +:+ MessageType_String (Message_GetMessageType msg)))
            else
              let '(response, err) := Unmarshal (Message_GetContent msg) in
              match err with
              | Some err => mret (errorf ("Failed to unmarshal "
                                    +:+ MessageType_String responseType +:+ " message: "
                                    +:+ Error err))
              | None => mret (inr response)
              end
          end
      end
  end.

(** [&ReceiveError{Msg: fmt.Sprintf("Failed with status: %v", status)}] *)
Definition failed_with (names : list (Z * string)) (status : Z) : error :=
  errReceive {| ReceiveError_Msg := "Failed with status: " +:+ enum_String names status |}.
Definition unknown_block : error :=
  errUnknownBlock {| UnknownBlockError_Msg := "Block not found" |}.
Definition invalid_state (msg : string) : error :=
  errInvalidState {| InvalidStateError_Msg := msg |}.

(** The maps built from the entries of a response; later entries replace earlier
    ones. *)
Definition blocks_map (blocks : list ConsensusBlock) : gmap BlockId block :=
  foldl (λ results blockProto,
    <[NewBlockIdFromBytes (ConsensusBlock_BlockId blockProto) :=
        newBlockFromProto (Some blockProto)]> results) ∅ blocks.
Definition settings_map (entries : list ConsensusSettingsEntry) : gmap string string :=
  foldl (λ result entry,
    <[ConsensusSettingsEntry_Key entry := ConsensusSettingsEntry_Value entry]> result) ∅ entries.
Definition state_map (entries : list ConsensusStateEntry) : gmap string bytes :=
  foldl (λ result entry,
    <[ConsensusStateEntry_Address entry := ConsensusStateEntry_Data entry]> result) ∅ entries.

(** *** Commands and queries *)

Definition zmqs_SendTo (peer : PeerId) (messageType : string) (payload : bytes) : Go S (option error) :=
  r ← serviceRpc (R := ConsensusSendToResponse) {|
          ConsensusSendToRequest_Content := payload;
          ConsensusSendToRequest_MessageType := messageType;
          ConsensusSendToRequest_ReceiverId := PeerId_AsBytes peer |}
        Message_CONSENSUS_SEND_TO_REQUEST Message_CONSENSUS_SEND_TO_RESPONSE;
  match r with
  | inl err => mret (Some err)
  | inr response =>
      let status := ConsensusSendToResponse_Status response in
      if decide (status ≠ ConsensusSendToResponse_OK) then
        mret (Some (failed_with ConsensusSendToResponse_Status_name status))
      else mret None
  end.

Definition zmqs_Broadcast (messageType : string) (payload : bytes) : Go S (option error) :=
  r ← serviceRpc (R := ConsensusBroadcastResponse) {|
          ConsensusBroadcastRequest_Content := payload;
          ConsensusBroadcastRequest_MessageType := messageType |}
        Message_CONSENSUS_BROADCAST_REQUEST Message_CONSENSUS_BROADCAST_RESPONSE;
  match r with
  | inl err => mret (Some err)
  | inr response =>
      let status := ConsensusBroadcastResponse_Status response in
      if decide (status ≠ ConsensusBroadcastResponse_OK) then
        mret (Some (failed_with ConsensusBroadcastResponse_Status_name status))
      else mret None
  end.

Definition zmqs_InitializeBlock (previousId : BlockId) : Go S (option error) :=
  r ← serviceRpc (R := ConsensusInitializeBlockResponse) {|
          ConsensusInitializeBlockRequest_PreviousId := BlockId_AsBytes previousId |}
        Message_CONSENSUS_INITIALIZE_BLOCK_REQUEST Message_CONSENSUS_INITIALIZE_BLOCK_RESPONSE;
  match r with
  | inl err => mret (Some err)
  | inr response =>
      let status := ConsensusInitializeBlockResponse_Status response in
      if decide (status = ConsensusInitializeBlockResponse_INVALID_STATE) then
        mret (Some (invalid_state "Cannot initialize block in current state"))
      else if decide (status = ConsensusInitializeBlockResponse_UNKNOWN_BLOCK) then
        mret (Some unknown_block)
      else if decide (status ≠ ConsensusInitializeBlockResponse_OK) then
        mret (Some (failed_with ConsensusInitializeBlockResponse_Status_name status))
      else mret None
  end.

Definition zmqs_SummarizeBlock : Go S (bytes * option error) :=
  r ← serviceRpc (R := ConsensusSummarizeBlockResponse) Build_ConsensusSummarizeBlockRequest
        Message_CONSENSUS_SUMMARIZE_BLOCK_REQUEST Message_CONSENSUS_SUMMARIZE_BLOCK_RESPONSE;
  match r with
  | inl err => mret ("", Some err)
  | inr response =>
      let status := ConsensusSummarizeBlockResponse_Status response in
      if decide (status = ConsensusSummarizeBlockResponse_INVALID_STATE) then
        mret ("", Some (invalid_state "Cannot summarize block in current state"))
      else if decide (status = ConsensusSummarizeBlockResponse_BLOCK_NOT_READY) then
        mret ("", Some (errBlockNotReady Build_BlockNotReadyError))
      else if decide (status ≠ ConsensusSummarizeBlockResponse_OK) then
        mret ("", Some (failed_with ConsensusSummarizeBlockResponse_Status_name status))
      else mret (ConsensusSummarizeBlockResponse_Summary response, None)
  end.

Definition zmqs_FinalizeBlock (data : bytes) : Go S (BlockId * option error) :=
  r ← serviceRpc (R := ConsensusFinalizeBlockResponse) {| ConsensusFinalizeBlockRequest_Data := data |}
        Message_CONSENSUS_FINALIZE_BLOCK_REQUEST Message_CONSENSUS_FINALIZE_BLOCK_RESPONSE;
  match r with
  | inl err => mret (BLOCK_ID_NULL, Some err)
  | inr response =>
      let status := ConsensusFinalizeBlockResponse_Status response in
      if decide (status = ConsensusFinalizeBlockResponse_INVALID_STATE) then
        mret (BLOCK_ID_NULL, Some (invalid_state "Cannot finalize block in current state"))
      else if decide (status = ConsensusFinalizeBlockResponse_BLOCK_NOT_READY) then
        mret (BLOCK_ID_NULL, Some (errBlockNotReady Build_BlockNotReadyError))
      else if decide (status ≠ ConsensusFinalizeBlockResponse_OK) then
        mret (BLOCK_ID_NULL, Some (failed_with ConsensusFinalizeBlockResponse_Status_name status))
      else mret (NewBlockIdFromBytes (ConsensusFinalizeBlockResponse_BlockId response), None)
  end.

Definition zmqs_CancelBlock : Go S (option error) :=
  r ← serviceRpc (R := ConsensusCancelBlockResponse) Build_ConsensusCancelBlockRequest
        Message_CONSENSUS_CANCEL_BLOCK_REQUEST Message_CONSENSUS_CANCEL_BLOCK_RESPONSE;
  match r with
  | inl err => mret (Some err)
  | inr response =>
      let status := ConsensusCancelBlockResponse_Status response in
      if decide (status = ConsensusCancelBlockResponse_INVALID_STATE) then
        mret (Some (invalid_state "Cannot cancel block in current state"))
      else if decide (status ≠ ConsensusCancelBlockResponse_OK) then
        mret (Some (failed_with ConsensusCancelBlockResponse_Status_name status))
      else mret None
  end.

Definition zmqs_CheckBlocks (blockIds : list BlockId) : Go S (option error) :=
  r ← serviceRpc (R := ConsensusCheckBlocksResponse) {|
          ConsensusCheckBlocksRequest_BlockIds := BlockId_AsBytes <$> blockIds |}
        Message_CONSENSUS_CHECK_BLOCKS_REQUEST Message_CONSENSUS_CHECK_BLOCKS_RESPONSE;
  match r with
  | inl err => mret (Some err)
  | inr response =>
      let status := ConsensusCheckBlocksResponse_Status response in
      if decide (status = ConsensusCheckBlocksResponse_UNKNOWN_BLOCK) then
        mret (Some unknown_block)
      else if decide (status ≠ ConsensusCheckBlocksResponse_OK) then
        mret (Some (failed_with ConsensusCheckBlocksResponse_Status_name status))
      else mret None
  end.

Definition zmqs_CommitBlock (blockId : BlockId) : Go S (option error) :=
  r ← serviceRpc (R := ConsensusCommitBlockResponse) {|
          ConsensusCommitBlockRequest_BlockId := BlockId_AsBytes blockId |}
        Message_CONSENSUS_COMMIT_BLOCK_REQUEST Message_CONSENSUS_COMMIT_BLOCK_RESPONSE;
  match r with
  | inl err => mret (Some err)
  | inr response =>
      let status := ConsensusCommitBlockResponse_Status response in
      if decide (status = ConsensusCommitBlockResponse_UNKNOWN_BLOCK) then
        mret (Some unknown_block)
      else if decide (status ≠ ConsensusCommitBlockResponse_OK) then
        mret (Some (failed_with ConsensusCommitBlockResponse_Status_name status))
      else mret None
  end.

Definition zmqs_IgnoreBlock (blockId : BlockId) : Go S (option error) :=
  r ← serviceRpc (R := ConsensusIgnoreBlockResponse) {|
          ConsensusIgnoreBlockRequest_BlockId := BlockId_AsBytes blockId |}
        Message_CONSENSUS_IGNORE_BLOCK_REQUEST Message_CONSENSUS_IGNORE_BLOCK_RESPONSE;
  match r with
  | inl err => mret (Some err)
  | inr response =>
      let status := ConsensusIgnoreBlockResponse_Status response in
      if decide (status = ConsensusIgnoreBlockResponse_UNKNOWN_BLOCK) then
        mret (Some unknown_block)
      else if decide (status ≠ ConsensusIgnoreBlockResponse_OK) then
        mret (Some (failed_with ConsensusIgnoreBlockResponse_Status_name status))
      else mret None
  end.

Definition zmqs_FailBlock (blockId : BlockId) : Go S (option error) :=
  r ← serviceRpc (R := ConsensusFailBlockResponse) {|
          ConsensusFailBlockRequest_BlockId := BlockId_AsBytes blockId |}
        Message_CONSENSUS_FAIL_BLOCK_REQUEST Message_CONSENSUS_FAIL_BLOCK_RESPONSE;
  match r with
  | inl err => mret (Some err)
  | inr response =>
      let status := ConsensusFailBlockResponse_Status response in
      if decide (status = ConsensusFailBlockResponse_UNKNOWN_BLOCK) then
        mret (Some unknown_block)
      else if decide (status ≠ ConsensusFailBlockResponse_OK) then
        mret (Some (failed_with ConsensusFailBlockResponse_Status_name status))
      else mret None
  end.

Definition zmqs_GetBlocks (blockIds : list BlockId) : Go S (error + gmap BlockId block) :=
  r ← serviceRpc (R := ConsensusBlocksGetResponse) {|
          ConsensusBlocksGetRequest_BlockIds := BlockId_AsBytes <$> blockIds |}
        Message_CONSENSUS_BLOCKS_GET_REQUEST Message_CONSENSUS_BLOCKS_GET_RESPONSE;
  match r with
  | inl err => mret (inl err)
  | inr response =>
      let status := ConsensusBlocksGetResponse_Status response in
      if decide (status = ConsensusBlocksGetResponse_UNKNOWN_BLOCK) then
        mret (inl unknown_block)
      else if decide (status ≠ ConsensusBlocksGetResponse_OK) then
        mret (inl (failed_with ConsensusBlocksGetResponse_Status_name status))
      else mret (inr (blocks_map (ConsensusBlocksGetResponse_Blocks response)))
  end.

Definition zmqs_GetChainHead : Go S (error + block) :=
  r ← serviceRpc (R := ConsensusChainHeadGetResponse) Build_ConsensusChainHeadGetRequest
        Message_CONSENSUS_CHAIN_HEAD_GET_REQUEST Message_CONSENSUS_CHAIN_HEAD_GET_RESPONSE;
  match r with
  | inl err => mret (inl err)
  | inr response =>
      let status := ConsensusChainHeadGetResponse_Status response in
      if decide (status = ConsensusChainHeadGetResponse_NO_CHAIN_HEAD) then
        mret (inl (errNoChainHead Build_NoChainHeadError))
      else if decide (status ≠ ConsensusChainHeadGetResponse_OK) then
        mret (inl (failed_with ConsensusChainHeadGetResponse_Status_name status))
      else mret (inr (newBlockFromProto (ConsensusChainHeadGetResponse_Block response)))
  end.

Definition zmqs_GetSettings (blockId : BlockId) (keys : list string) : Go S (gmap string string * option error) :=
  r ← serviceRpc (R := ConsensusSettingsGetResponse) {|
          ConsensusSettingsGetRequest_BlockId := BlockId_AsBytes blockId;
          ConsensusSettingsGetRequest_Keys := keys |}
        Message_CONSENSUS_SETTINGS_GET_REQUEST Message_CONSENSUS_SETTINGS_GET_RESPONSE;
  match r with
  | inl err => mret (∅, Some err)
  | inr response =>
      let status := ConsensusSettingsGetResponse_Status response in
      if decide (status = ConsensusSettingsGetResponse_UNKNOWN_BLOCK) then
        mret (∅, Some unknown_block)
      else if decide (status ≠ ConsensusSettingsGetResponse_OK) then
        mret (∅, Some (failed_with ConsensusSettingsGetResponse_Status_name status))
      else mret (settings_map (ConsensusSettingsGetResponse_Entries response), None)
  end.

Definition zmqs_GetState (blockId : BlockId) (addresses : list string) : Go S (error + gmap string bytes) :=
  r ← serviceRpc (R := ConsensusStateGetResponse) {|
          ConsensusStateGetRequest_BlockId := BlockId_AsBytes blockId;
          ConsensusStateGetRequest_Addresses := addresses |}
        Message_CONSENSUS_STATE_GET_REQUEST Message_CONSENSUS_STATE_GET_RESPONSE;
  match r with
  | inl err => mret (inl err)
  | inr response =>
      let status := ConsensusStateGetResponse_Status response in
      if decide (status = ConsensusStateGetResponse_UNKNOWN_BLOCK) then
        mret (inl unknown_block)
      else if decide (status ≠ ConsensusStateGetResponse_OK) then
        mret (inl (failed_with ConsensusStateGetResponse_Status_name status))
      else mret (inr (state_map (ConsensusStateGetResponse_Entries response)))
  end.

(** [*ZmqService] implements [ConsensusService]. *)
#[export] Instance zmq_service : ConsensusService S := {|
  SendTo := zmqs_SendTo; Broadcast := zmqs_Broadcast;
  InitializeBlock := zmqs_InitializeBlock; SummarizeBlock := zmqs_SummarizeBlock;
  FinalizeBlock := zmqs_FinalizeBlock; CancelBlock := zmqs_CancelBlock;
  CheckBlocks := zmqs_CheckBlocks; CommitBlock := zmqs_CommitBlock;
  IgnoreBlock := zmqs_IgnoreBlock; FailBlock := zmqs_FailBlock;
  GetBlocks := zmqs_GetBlocks; GetChainHead := zmqs_GetChainHead;
  GetSettings := zmqs_GetSettings; Service_GetState := zmqs_GetState |}.
End methods.

(** ** Claims *)

Section claims.
Context {C : Type} `{Connection C}.
Context {Q R : Type} `{Proto Q, Proto R}.
Implicit Types (s : ZmqService C) (c : C).

Lemma on_connection_inv {A} (m : Go C A) s a s' :
  on_connection m s = (Ret a, s') →
  ∃ c c', connection s = Some c ∧ m c = (Ret a, c') ∧ s' = set_connection (Some c') s.
Proof.
  unfold on_connection. destruct (connection s) as [c|] eqn:Ec; [|done].
  destruct (m c) as [r c'] eqn:Em. intros [= -> <-]. eauto.
Qed.

Lemma on_connection_Ret {A} (m : Go C A) s c a c' :
  connection s = Some c → m c = (Ret a, c') →
  on_connection m s = (Ret a, set_connection (Some c') s).
Proof. unfold on_connection. by intros -> ->. Qed.

(** Waiting for an answer ends with the message received under the id, which then no
    longer counts as waiting. *)
Lemma rpc_await_inv corrId s msg s' :
  rpc_await corrId s = (Ret (inr msg), s') →
  ∃ c c' id err, connection s = Some c ∧ RecvMsgWithId corrId c = (Ret (id, msg, err), c') ∧
    Message_GetCorrelationId msg = corrId ∧
    s' = set_corrIds (corrIds s ∖ {[corrId]}) (set_connection (Some c') s).
Proof.
  unfold rpc_await. intros E. apply go_bind_inv in E as ([[id msg'] err] & s1 & Er & E).
  apply on_connection_inv in Er as (c & c' & Hc & Er & ->).
  case_decide as Hcorr; [by go_eq|].
  apply go_bind_inv in E as (? & s2 & E2 & E). unfold go_modify in E2. simplify_eq. go_eq.
  eauto 10.
Qed.

Lemma rpc_await_Ret corrId s c id msg err c' :
  connection s = Some c → RecvMsgWithId corrId c = (Ret (id, msg, err), c') →
  Message_GetCorrelationId msg = corrId →
  rpc_await corrId s
    = (Ret (inr msg), set_corrIds (corrIds s ∖ {[corrId]}) (set_connection (Some c') s)).
Proof.
  intros Hc Hr Hcorr. unfold rpc_await.
  rewrite (go_bind_Ret _ _ _ _ _ (on_connection_Ret _ _ _ _ _ Hc Hr)). cbv beta iota.
  by rewrite decide_False by (intros Hn; by apply Hn).
Qed.

(** Every answer the service hands on is the answer to its own request: it
    was received under the fresh correlation id the request was sent with, has
    the response type of the call, parses to the value returned, and the
    correlation id no longer counts as waiting. *)
Theorem rpc_answer_matches (request : Q) requestType responseType s (resp : R) s' :
  serviceRpc request requestType responseType s = (Ret (inr resp), s') →
  ∃ data corrId c c1 c2 id msg err,
    Marshal request = inr data ∧ connection s = Some c ∧
    SendNewMsg requestType data c = (Ret (corrId, None), c1) ∧
    RecvMsgWithId corrId c1 = (Ret (id, msg, err), c2) ∧
    Message_GetCorrelationId msg = corrId ∧ Message_GetMessageType msg = responseType ∧
    Unmarshal (Message_GetContent msg) = (resp, None) ∧
    connection s' = Some c2 ∧ (corrId ∉ corrIds s') ∧ (corrIds s' ⊆ corrIds s).
Proof.
  unfold serviceRpc. cbn [Rpc_send Rpc_note Rpc_await zmq_steps].
  destruct (Marshal request) as [|data]; [by intros [=]|]. intros E.
  apply go_bind_inv in E as ([corrId [e|]] & s1 & Es & E); [by go_eq|].
  apply on_connection_inv in Es as (c & c1 & Hc & Es & ->).
  apply go_bind_inv in E as (? & s2 & E2 & E). unfold rpc_note, go_modify in E2. simplify_eq.
  apply go_bind_inv in E as ([e|msg] & s3 & Ea & E); [by go_eq|].
  apply rpc_await_inv in Ea as (c1' & c2 & id & err & Hc1 & Er & Hcorr & ->).
  simpl in Hc1. simplify_eq.
  case_decide as Htype; [by go_eq|]. destruct (Unmarshal _) as [r [e|]] eqn:Eu; go_eq.
  eexists data, _, c, _, _, id, msg, err.
  repeat (split; [done|]). simpl. set_solver.
Qed.

Lemma rpc_done (request : Q) requestType responseType s data corrId c c1 c2 id msg err
    (resp : R) :
  Marshal request = inr data → connection s = Some c →
  SendNewMsg requestType data c = (Ret (corrId, None), c1) →
  RecvMsgWithId corrId c1 = (Ret (id, Some msg, err), c2) →
  Message_CorrelationId msg = corrId → Message_MessageType msg = responseType →
  Unmarshal (Message_Content msg) = (resp, None) → corrId ∉ corrIds s →
  serviceRpc request requestType responseType s
    = (Ret (inr resp), set_connection (Some c2) s).
Proof.
  intros Hm Hc Hs Hr Hcorr Htype Hu Hfresh. unfold serviceRpc. rewrite Hm.
  cbn [Rpc_send Rpc_note Rpc_await zmq_steps]. unfold rpc_send.
  rewrite (go_bind_Ret _ _ _ _ _ (on_connection_Ret _ _ _ _ _ Hc Hs)). cbv iota beta.
  rewrite (go_bind_Ret (rpc_note corrId) _ _ _ _ eq_refl).
  erewrite go_bind_Ret; [|by eapply rpc_await_Ret]. cbv beta iota. simpl.
  rewrite decide_False by (intros Hn; by apply Hn). rewrite Hu.
  unfold mret, Go_ret. f_equal. destruct s as [u cn ids]. unfold set_connection, set_corrIds.
  simpl in *. f_equal. set_solver.
Qed.

(** The service completes: whenever the request can be serialized and sent
    and the validator's answer under its correlation id has the response type
    and parses, the call returns that answer, and the set of waiting ids is as
    before. *)
Theorem rpc_completes (request : Q) requestType responseType s data corrId c c1 c2 id msg err
    (resp : R) :
  Marshal request = inr data → connection s = Some c →
  SendNewMsg requestType data c = (Ret (corrId, None), c1) →
  RecvMsgWithId corrId c1 = (Ret (id, Some msg, err), c2) →
  Message_CorrelationId msg = corrId → Message_MessageType msg = responseType →
  Unmarshal (Message_Content msg) = (resp, None) → corrId ∉ corrIds s →
  serviceRpc request requestType responseType s
    = (Ret (inr resp), set_connection (Some c2) s).
Proof. apply rpc_done. Qed.
End claims.

(** ** Witnesses *)

Module witness.
#[local] Existing Instance ordered_runtime.
#[local] Instance wmsg : Proto Message := countable_proto Message.
#[local] Instance wconn : Connection (ZmqConnection Script) := zmq_connection 5.
#[local] Instance wq : Proto ConsensusCommitBlockRequest := countable_proto _.
#[local] Instance wr : Proto ConsensusCommitBlockResponse := countable_proto _.

Definition ok : ConsensusCommitBlockResponse :=
  {| ConsensusCommitBlockResponse_Status := ConsensusCommitBlockResponse_OK |}.
Definition answer : Message := {|
  Message_MessageType := Message_CONSENSUS_COMMIT_BLOCK_RESPONSE;
  Message_CorrelationId := "k"; Message_Content := pos_bits (encode ok) |}.
Definition conn0 : ZmqConnection Script := {|
  identity := "s"; uri := "u"; incoming := ∅;
  socket := {| script_inbox := [inr [pos_bits (encode answer)]]; script_outbox := [];
               script_ids := ["k"] |} |}.
Definition s0 : ZmqService (ZmqConnection Script) :=
  {| service_uri := "u"; connection := Some conn0; corrIds := ∅ |}.
Definition req : ConsensusCommitBlockRequest :=
  {| ConsensusCommitBlockRequest_BlockId := "b" |}.
Definition conn1 := (SendNewMsg Message_CONSENSUS_COMMIT_BLOCK_REQUEST
                       (pos_bits (encode req)) conn0).2.
Definition conn2 := (RecvMsgWithId "k" conn1).2.

Lemma rpc_completes_witness :
  serviceRpc req Message_CONSENSUS_COMMIT_BLOCK_REQUEST Message_CONSENSUS_COMMIT_BLOCK_RESPONSE
    s0 = (Ret (inr ok), set_connection (Some conn2) s0).
Proof.
  apply (rpc_completes req _ _ s0 (pos_bits (encode req)) "k" conn0 conn1 conn2 "" answer None ok).
  - reflexivity.
  - reflexivity.
  - vm_compute. reflexivity.
  - vm_compute. reflexivity.
  - reflexivity.
  - reflexivity.
  - vm_compute. reflexivity.
  - simpl. set_solver.
Defined.

Lemma rpc_answer_matches_witness :
  ∃ data corrId c c1 c2 id msg err,
    Marshal req = inr data ∧ connection s0 = Some c ∧
    SendNewMsg Message_CONSENSUS_COMMIT_BLOCK_REQUEST data c = (Ret (corrId, None), c1) ∧
    RecvMsgWithId corrId c1 = (Ret (id, msg, err), c2) ∧
    Message_GetCorrelationId msg = corrId ∧
    Message_GetMessageType msg = Message_CONSENSUS_COMMIT_BLOCK_RESPONSE ∧
    Unmarshal (Message_GetContent msg) = (ok, None) ∧
    connection (set_connection (Some conn2) s0) = Some c2 ∧
    (corrId ∉ corrIds (set_connection (Some conn2) s0)) ∧
    (corrIds (set_connection (Some conn2) s0) ⊆ corrIds s0).
Proof.
  apply (rpc_answer_matches req Message_CONSENSUS_COMMIT_BLOCK_REQUEST
    Message_CONSENSUS_COMMIT_BLOCK_RESPONSE s0 ok (set_connection (Some conn2) s0)).
  vm_compute. reflexivity.
Defined.
End witness.
