(* ===== verification/ConsensusChain.v ===== *)
(** * The consensus service over a validator

    What a consensus engine relies on: the validator keeps a set of blocks, a chain
    head and the block it builds, and the calls of [consensus/iface.go] are
    operations on them.  [Chain] is that state and the [spec_*] functions are the
    operations, errors included, in the terms of the interface; [ServiceBacked] is the
    interface clients are verified against.  [chain_backed] discharges it for the
    service of [consensus/service.go] over a [ZmqConnection] and a validator that
    follows the messages of [consensus.proto] as that file documents them. *)

From S2P Require Import Prelude GoLib Errors Protobuf Messaging Answering ConsensusProto ConsensusTypes ConsensusService.

Module consensus_chain.
Local Open Scope Z_scope.

(** ** The validator's state *)

(** What the engine tells the validator to do with blocks. *)
Inductive directive :=
| ToCheck (ids : list BlockId)
| ToCommit (id : BlockId)
| ToIgnore (id : BlockId)
| ToFail (id : BlockId).

(** The known blocks, the chain head, the connected peers, the settings and the state
    as of a block; the block under construction, by the one it is built on, and how
    many more times the validator will say that it is not ready; how often it says so
    of a new block, and the summary of its contents; the blocks finalized, the
    messages sent (to a peer, or to all) and the directives received. *)
Record Chain := {
  c_blocks : gmap BlockId block;
  c_head : option block;
  c_peers : list PeerId;
  c_settings : BlockId → gmap string string;
  c_state : BlockId → gmap string bytes;
  c_building : option (BlockId * nat);
  c_delay : nat;
  c_summary : bytes;
  c_finalized : list (BlockId * bytes);
  c_sent : list (option PeerId * string * bytes);
  c_told : list directive }.

Definition with_building (x : option (BlockId * nat)) (c : Chain) : Chain := {|
  c_blocks := c_blocks c; c_head := c_head c; c_peers := c_peers c;
  c_settings := c_settings c; c_state := c_state c; c_building := x; c_delay := c_delay c;
  c_summary := c_summary c; c_finalized := c_finalized c; c_sent := c_sent c;
  c_told := c_told c |}.
Definition add_finalized (x : BlockId * bytes) (c : Chain) : Chain := {|
  c_blocks := c_blocks c; c_head := c_head c; c_peers := c_peers c;
  c_settings := c_settings c; c_state := c_state c; c_building := None; c_delay := c_delay c;
  c_summary := c_summary c; c_finalized := c_finalized c ++ [x]; c_sent := c_sent c;
  c_told := c_told c |}.
Definition add_sent (x : option PeerId * string * bytes) (c : Chain) : Chain := {|
  c_blocks := c_blocks c; c_head := c_head c; c_peers := c_peers c;
  c_settings := c_settings c; c_state := c_state c; c_building := c_building c;
  c_delay := c_delay c; c_summary := c_summary c; c_finalized := c_finalized c;
  c_sent := c_sent c ++ [x]; c_told := c_told c |}.
Definition add_told (x : directive) (c : Chain) : Chain := {|
  c_blocks := c_blocks c; c_head := c_head c; c_peers := c_peers c;
  c_settings := c_settings c; c_state := c_state c; c_building := c_building c;
  c_delay := c_delay c; c_summary := c_summary c; c_finalized := c_finalized c;
  c_sent := c_sent c; c_told := c_told c ++ [x] |}.

Definition known (c : Chain) (id : BlockId) : Prop := is_Some (c_blocks c !! id).
#[export] Instance known_dec c id : Decision (known c id).
Proof. unfold known. apply _. Defined.

(** The part of the state no call changes. *)
Definition same_chain (c c' : Chain) : Prop :=
  c_blocks c' = c_blocks c ∧ c_head c' = c_head c ∧ c_peers c' = c_peers c ∧
  c_delay c' = c_delay c.

(** ** The calls *)

Section spec.
(** The id of the block that is built on another with the given consensus data. *)
Context (sign : BlockId → bytes → BlockId).

Definition spec_SendTo (p : PeerId) (t : string) (d : bytes) (c : Chain) : option error * Chain :=
  if decide (p ∈ c_peers c) then (None, add_sent (Some p, t, d) c)
  else (Some (failed_with ConsensusSendToResponse_Status_name ConsensusSendToResponse_UNKNOWN_PEER), c).

Definition spec_Broadcast (t : string) (d : bytes) (c : Chain) : option error * Chain :=
  (None, add_sent (None, t, d) c).

(** Without a previous id the new block is built on the chain head. *)
Definition spec_InitializeBlock (prev : BlockId) (c : Chain) : option error * Chain :=
  match c_building c with
  | Some _ => (Some (invalid_state "Cannot initialize block in current state"), c)
  | None =>
      if decide (prev = BLOCK_ID_NULL) then
        match c_head c with
        | Some h => (None, with_building (Some (blockId h, c_delay c)) c)
        | None => (Some (invalid_state "Cannot initialize block in current state"), c)
        end
      else if decide (known c prev) then (None, with_building (Some (prev, c_delay c)) c)
      else (Some unknown_block, c)
  end.

Definition spec_SummarizeBlock (c : Chain) : (bytes * option error) * Chain :=
  match c_building c with
  | None => (("", Some (invalid_state "Cannot summarize block in current state")), c)
  | Some (prev, S k) =>
      (("", Some (errBlockNotReady Build_BlockNotReadyError)), with_building (Some (prev, k)) c)
  | Some (prev, O) => ((c_summary c, None), c)
  end.

Definition spec_FinalizeBlock (data : bytes) (c : Chain) : (BlockId * option error) * Chain :=
  match c_building c with
  | None => ((BLOCK_ID_NULL, Some (invalid_state "Cannot finalize block in current state")), c)
  | Some (prev, S k) =>
      ((BLOCK_ID_NULL, Some (errBlockNotReady Build_BlockNotReadyError)),
       with_building (Some (prev, k)) c)
  | Some (prev, O) => ((sign prev data, None), add_finalized (sign prev data, data) c)
  end.

Definition spec_CancelBlock (c : Chain) : option error * Chain :=
  match c_building c with
  | None => (Some (invalid_state "Cannot cancel block in current state"), c)
  | Some _ => (None, with_building None c)
  end.

Definition spec_CheckBlocks (ids : list BlockId) (c : Chain) : option error * Chain :=
  if decide (Forall (known c) ids) then (None, add_told (ToCheck ids) c) else (Some unknown_block, c).

(** The directives about one block. *)
Definition spec_direct (f : BlockId → directive) (id : BlockId) (c : Chain) : option error * Chain :=
  if decide (known c id) then (None, add_told (f id) c) else (Some unknown_block, c).

(** Blocks that are not known are left out. *)
Definition spec_GetBlocks (ids : list BlockId) (c : Chain) : (error + gmap BlockId block) * Chain :=
  (inr (filter (λ p, p.1 ∈ ids) (c_blocks c)), c).

Definition spec_GetChainHead (c : Chain) : (error + block) * Chain :=
  (match c_head c with
   | Some h => inr h
   | None => inl (errNoChainHead Build_NoChainHeadError)
   end, c).

Definition spec_GetSettings (id : BlockId) (keys : list string) (c : Chain) :
    (gmap string string * option error) * Chain :=
  (if decide (known c id) then (filter (λ p, p.1 ∈ keys) (c_settings c id), None)
   else (∅, Some unknown_block), c).

Definition spec_GetState (id : BlockId) (addrs : list string) (c : Chain) :
    (error + gmap string bytes) * Chain :=
  (if decide (known c id) then inr (filter (λ p, p.1 ∈ addrs) (c_state c id))
   else inl unknown_block, c).
End spec.

(** ** The interface engines are verified against *)

Section implements.
Context {S A : Type} (sok : S → Prop) (chain : S → Chain).
(** A call returns what its specification says, and does to the chain what it says. *)
Definition implements (m : Go S A) (spec : Chain → A * Chain) : Prop :=
  ∀ s, sok s → ∃ s', m s = (Ret (spec (chain s)).1, s') ∧ sok s' ∧ chain s' = (spec (chain s)).2.
End implements.

Class ServiceBacked (S : Type) `{ConsensusService S} := {
  sok : S → Prop;
  chain : S → Chain;
  sign : BlockId → bytes → BlockId;
  SendTo_backed p t d : implements sok chain (SendTo p t d) (spec_SendTo p t d);
  Broadcast_backed t d : implements sok chain (Broadcast t d) (spec_Broadcast t d);
  InitializeBlock_backed id : implements sok chain (InitializeBlock id) (spec_InitializeBlock id);
  SummarizeBlock_backed : implements sok chain SummarizeBlock spec_SummarizeBlock;
  FinalizeBlock_backed d : implements sok chain (FinalizeBlock d) (spec_FinalizeBlock sign d);
  CancelBlock_backed : implements sok chain CancelBlock spec_CancelBlock;
  CheckBlocks_backed ids : implements sok chain (CheckBlocks ids) (spec_CheckBlocks ids);
  CommitBlock_backed id : implements sok chain (CommitBlock id) (spec_direct ToCommit id);
  IgnoreBlock_backed id : implements sok chain (IgnoreBlock id) (spec_direct ToIgnore id);
  FailBlock_backed id : implements sok chain (FailBlock id) (spec_direct ToFail id);
  GetBlocks_backed ids : implements sok chain (GetBlocks ids) (spec_GetBlocks ids);
  GetChainHead_backed : implements sok chain GetChainHead spec_GetChainHead;
  GetSettings_backed id keys : implements sok chain (GetSettings id keys) (spec_GetSettings id keys);
  GetState_backed id addrs :
    implements sok chain (Service_GetState id addrs) (spec_GetState id addrs) }.
#[global] Hint Mode ServiceBacked ! - : typeclass_instances.

(** ** A reference validator *)

(** The runtime parses what it serialized and serializes every message. *)
Class ProtoOk (A : Type) `{Proto A} : Prop := {
  proto_laws :: ProtoLaws A;
  proto_total :: ProtoTotal A }.

Class ServiceProtosOk `{Proto Message, ServiceProtos} : Prop := {
  spo_message :: ProtoOk Message;
  spo_SendTo_request :: ProtoOk ConsensusSendToRequest;
  spo_SendTo_response :: ProtoOk ConsensusSendToResponse;
  spo_Broadcast_request :: ProtoOk ConsensusBroadcastRequest;
  spo_Broadcast_response :: ProtoOk ConsensusBroadcastResponse;
  spo_InitializeBlock_request :: ProtoOk ConsensusInitializeBlockRequest;
  spo_InitializeBlock_response :: ProtoOk ConsensusInitializeBlockResponse;
  spo_SummarizeBlock_request :: ProtoOk ConsensusSummarizeBlockRequest;
  spo_SummarizeBlock_response :: ProtoOk ConsensusSummarizeBlockResponse;
  spo_FinalizeBlock_request :: ProtoOk ConsensusFinalizeBlockRequest;
  spo_FinalizeBlock_response :: ProtoOk ConsensusFinalizeBlockResponse;
  spo_CancelBlock_request :: ProtoOk ConsensusCancelBlockRequest;
  spo_CancelBlock_response :: ProtoOk ConsensusCancelBlockResponse;
  spo_CheckBlocks_request :: ProtoOk ConsensusCheckBlocksRequest;
  spo_CheckBlocks_response :: ProtoOk ConsensusCheckBlocksResponse;
  spo_CommitBlock_request :: ProtoOk ConsensusCommitBlockRequest;
  spo_CommitBlock_response :: ProtoOk ConsensusCommitBlockResponse;
  spo_IgnoreBlock_request :: ProtoOk ConsensusIgnoreBlockRequest;
  spo_IgnoreBlock_response :: ProtoOk ConsensusIgnoreBlockResponse;
  spo_FailBlock_request :: ProtoOk ConsensusFailBlockRequest;
  spo_FailBlock_response :: ProtoOk ConsensusFailBlockResponse;
  spo_BlocksGet_request :: ProtoOk ConsensusBlocksGetRequest;
  spo_BlocksGet_response :: ProtoOk ConsensusBlocksGetResponse;
  spo_ChainHeadGet_request :: ProtoOk ConsensusChainHeadGetRequest;
  spo_ChainHeadGet_response :: ProtoOk ConsensusChainHeadGetResponse;
  spo_SettingsGet_request :: ProtoOk ConsensusSettingsGetRequest;
  spo_SettingsGet_response :: ProtoOk ConsensusSettingsGetResponse;
  spo_StateGet_request :: ProtoOk ConsensusStateGetRequest;
  spo_StateGet_response :: ProtoOk ConsensusStateGetResponse }.

Definition block_to_proto (b : block) : ConsensusBlock := {|
  ConsensusBlock_BlockId := blockId b; ConsensusBlock_PreviousId := previousId b;
  ConsensusBlock_SignerId := signerId b; ConsensusBlock_BlockNum := blockNum b;
  ConsensusBlock_Payload := payload b; ConsensusBlock_Summary := summary b |}.

(** The entries of a map at some keys. *)
Definition entries_at {A B} (f : string → B → A) (m : gmap string B) (keys : list string) : list A :=
  omap (λ k, f k <$> m !! k) keys.

Section validator.
Context `{Proto Message, ServiceProtos} (sign : BlockId → bytes → BlockId).

Definition val_SendTo (c : Chain) (q : ConsensusSendToRequest) : ConsensusSendToResponse * Chain :=
  let p : PeerId := ConsensusSendToRequest_ReceiverId q in
  if decide (p ∈ c_peers c) then
    (Build_ConsensusSendToResponse ConsensusSendToResponse_OK,
     add_sent (Some p, ConsensusSendToRequest_MessageType q, ConsensusSendToRequest_Content q) c)
  else (Build_ConsensusSendToResponse ConsensusSendToResponse_UNKNOWN_PEER, c).

Definition val_Broadcast (c : Chain) (q : ConsensusBroadcastRequest) :
    ConsensusBroadcastResponse * Chain :=
  (Build_ConsensusBroadcastResponse ConsensusBroadcastResponse_OK,
   add_sent (None, ConsensusBroadcastRequest_MessageType q, ConsensusBroadcastRequest_Content q) c).

Definition val_InitializeBlock (c : Chain) (q : ConsensusInitializeBlockRequest) :
    ConsensusInitializeBlockResponse * Chain :=
  let prev : BlockId := ConsensusInitializeBlockRequest_PreviousId q in
  let invalid := Build_ConsensusInitializeBlockResponse ConsensusInitializeBlockResponse_INVALID_STATE in
  let ok := Build_ConsensusInitializeBlockResponse ConsensusInitializeBlockResponse_OK in
  match c_building c with
  | Some _ => (invalid, c)
  | None =>
      if decide (prev = BLOCK_ID_NULL) then
        match c_head c with
        | Some h => (ok, with_building (Some (blockId h, c_delay c)) c)
        | None => (invalid, c)
        end
      else if decide (known c prev) then (ok, with_building (Some (prev, c_delay c)) c)
      else (Build_ConsensusInitializeBlockResponse ConsensusInitializeBlockResponse_UNKNOWN_BLOCK, c)
  end.

Definition val_SummarizeBlock (c : Chain) (_ : ConsensusSummarizeBlockRequest) :
    ConsensusSummarizeBlockResponse * Chain :=
  match c_building c with
  | None => (Build_ConsensusSummarizeBlockResponse ConsensusSummarizeBlockResponse_INVALID_STATE "", c)
  | Some (prev, S k) =>
      (Build_ConsensusSummarizeBlockResponse ConsensusSummarizeBlockResponse_BLOCK_NOT_READY "",
       with_building (Some (prev, k)) c)
  | Some (prev, O) =>
      (Build_ConsensusSummarizeBlockResponse ConsensusSummarizeBlockResponse_OK (c_summary c), c)
  end.

Definition val_FinalizeBlock (c : Chain) (q : ConsensusFinalizeBlockRequest) :
    ConsensusFinalizeBlockResponse * Chain :=
  let data := ConsensusFinalizeBlockRequest_Data q in
  match c_building c with
  | None => (Build_ConsensusFinalizeBlockResponse ConsensusFinalizeBlockResponse_INVALID_STATE "", c)
  | Some (prev, S k) =>
      (Build_ConsensusFinalizeBlockResponse ConsensusFinalizeBlockResponse_BLOCK_NOT_READY "",
       with_building (Some (prev, k)) c)
  | Some (prev, O) =>
      (Build_ConsensusFinalizeBlockResponse ConsensusFinalizeBlockResponse_OK (sign prev data),
       add_finalized (sign prev data, data) c)
  end.

Definition val_CancelBlock (c : Chain) (_ : ConsensusCancelBlockRequest) :
    ConsensusCancelBlockResponse * Chain :=
  match c_building c with
  | None => (Build_ConsensusCancelBlockResponse ConsensusCancelBlockResponse_INVALID_STATE, c)
  | Some _ => (Build_ConsensusCancelBlockResponse ConsensusCancelBlockResponse_OK, with_building None c)
  end.

Definition val_CheckBlocks (c : Chain) (q : ConsensusCheckBlocksRequest) :
    ConsensusCheckBlocksResponse * Chain :=
  let ids := ConsensusCheckBlocksRequest_BlockIds q in
  if decide (Forall (known c) ids) then
    (Build_ConsensusCheckBlocksResponse ConsensusCheckBlocksResponse_OK, add_told (ToCheck ids) c)
  else (Build_ConsensusCheckBlocksResponse ConsensusCheckBlocksResponse_UNKNOWN_BLOCK, c).

Definition val_CommitBlock (c : Chain) (q : ConsensusCommitBlockRequest) :
    ConsensusCommitBlockResponse * Chain :=
  let id := ConsensusCommitBlockRequest_BlockId q in
  if decide (known c id) then
    (Build_ConsensusCommitBlockResponse ConsensusCommitBlockResponse_OK, add_told (ToCommit id) c)
  else (Build_ConsensusCommitBlockResponse ConsensusCommitBlockResponse_UNKNOWN_BLOCK, c).

Definition val_IgnoreBlock (c : Chain) (q : ConsensusIgnoreBlockRequest) :
    ConsensusIgnoreBlockResponse * Chain :=
  let id := ConsensusIgnoreBlockRequest_BlockId q in
  if decide (known c id) then
    (Build_ConsensusIgnoreBlockResponse ConsensusIgnoreBlockResponse_OK, add_told (ToIgnore id) c)
  else (Build_ConsensusIgnoreBlockResponse ConsensusIgnoreBlockResponse_UNKNOWN_BLOCK, c).

Definition val_FailBlock (c : Chain) (q : ConsensusFailBlockRequest) :
    ConsensusFailBlockResponse * Chain :=
  let id := ConsensusFailBlockRequest_BlockId q in
  if decide (known c id) then
    (Build_ConsensusFailBlockResponse ConsensusFailBlockResponse_OK, add_told (ToFail id) c)
  else (Build_ConsensusFailBlockResponse ConsensusFailBlockResponse_UNKNOWN_BLOCK, c).

Definition val_BlocksGet (c : Chain) (q : ConsensusBlocksGetRequest) :
    ConsensusBlocksGetResponse * Chain :=
  (Build_ConsensusBlocksGetResponse ConsensusBlocksGetResponse_OK
     (entries_at (λ _, block_to_proto) (c_blocks c) (ConsensusBlocksGetRequest_BlockIds q)), c).

Definition val_ChainHeadGet (c : Chain) (_ : ConsensusChainHeadGetRequest) :
    ConsensusChainHeadGetResponse * Chain :=
  (match c_head c with
   | Some h => Build_ConsensusChainHeadGetResponse ConsensusChainHeadGetResponse_OK
                 (Some (block_to_proto h))
   | None => Build_ConsensusChainHeadGetResponse ConsensusChainHeadGetResponse_NO_CHAIN_HEAD None
   end, c).

Definition val_SettingsGet (c : Chain) (q : ConsensusSettingsGetRequest) :
    ConsensusSettingsGetResponse * Chain :=
  let id := ConsensusSettingsGetRequest_BlockId q in
  (if decide (known c id) then
     Build_ConsensusSettingsGetResponse ConsensusSettingsGetResponse_OK
       (entries_at Build_ConsensusSettingsEntry (c_settings c id) (ConsensusSettingsGetRequest_Keys q))
   else Build_ConsensusSettingsGetResponse ConsensusSettingsGetResponse_UNKNOWN_BLOCK [], c).

Definition val_StateGet (c : Chain) (q : ConsensusStateGetRequest) :
    ConsensusStateGetResponse * Chain :=
  let id := ConsensusStateGetRequest_BlockId q in
  (if decide (known c id) then
     Build_ConsensusStateGetResponse ConsensusStateGetResponse_OK
       (entries_at Build_ConsensusStateEntry (c_state c id) (ConsensusStateGetRequest_Addresses q))
   else Build_ConsensusStateGetResponse ConsensusStateGetResponse_UNKNOWN_BLOCK [], c).

(** The reply to a request, by the function for its type. *)
Definition reply_with {Q R} `{Proto Q, Proto R} (f : Chain → Q → R * Chain) (t : Z) (c : Chain)
    (m : Message) : option (Z * bytes * Chain) :=
  let '(r, c') := f c (Unmarshal (Message_Content m)).1 in
  match Marshal r with
  | inr b => Some (t, b, c')
  | inl _ => None
  end.

Definition val_reply (c : Chain) (m : Message) : option (Z * bytes * Chain) :=
  if decide (Message_MessageType m = Message_CONSENSUS_SEND_TO_REQUEST) then
    reply_with val_SendTo Message_CONSENSUS_SEND_TO_RESPONSE c m
  else if decide (Message_MessageType m = Message_CONSENSUS_BROADCAST_REQUEST) then
    reply_with val_Broadcast Message_CONSENSUS_BROADCAST_RESPONSE c m
  else if decide (Message_MessageType m = Message_CONSENSUS_INITIALIZE_BLOCK_REQUEST) then
    reply_with val_InitializeBlock Message_CONSENSUS_INITIALIZE_BLOCK_RESPONSE c m
  else if decide (Message_MessageType m = Message_CONSENSUS_SUMMARIZE_BLOCK_REQUEST) then
    reply_with val_SummarizeBlock Message_CONSENSUS_SUMMARIZE_BLOCK_RESPONSE c m
  else if decide (Message_MessageType m = Message_CONSENSUS_FINALIZE_BLOCK_REQUEST) then
    reply_with val_FinalizeBlock Message_CONSENSUS_FINALIZE_BLOCK_RESPONSE c m
  else if decide (Message_MessageType m = Message_CONSENSUS_CANCEL_BLOCK_REQUEST) then
    reply_with val_CancelBlock Message_CONSENSUS_CANCEL_BLOCK_RESPONSE c m
  else if decide (Message_MessageType m = Message_CONSENSUS_CHECK_BLOCKS_REQUEST) then
    reply_with val_CheckBlocks Message_CONSENSUS_CHECK_BLOCKS_RESPONSE c m
  else if decide (Message_MessageType m = Message_CONSENSUS_COMMIT_BLOCK_REQUEST) then
    reply_with val_CommitBlock Message_CONSENSUS_COMMIT_BLOCK_RESPONSE c m
  else if decide (Message_MessageType m = Message_CONSENSUS_IGNORE_BLOCK_REQUEST) then
    reply_with val_IgnoreBlock Message_CONSENSUS_IGNORE_BLOCK_RESPONSE c m
  else if decide (Message_MessageType m = Message_CONSENSUS_FAIL_BLOCK_REQUEST) then
    reply_with val_FailBlock Message_CONSENSUS_FAIL_BLOCK_RESPONSE c m
  else if decide (Message_MessageType m = Message_CONSENSUS_BLOCKS_GET_REQUEST) then
    reply_with val_BlocksGet Message_CONSENSUS_BLOCKS_GET_RESPONSE c m
  else if decide (Message_MessageType m = Message_CONSENSUS_CHAIN_HEAD_GET_REQUEST) then
    reply_with val_ChainHeadGet Message_CONSENSUS_CHAIN_HEAD_GET_RESPONSE c m
  else if decide (Message_MessageType m = Message_CONSENSUS_SETTINGS_GET_REQUEST) then
    reply_with val_SettingsGet Message_CONSENSUS_SETTINGS_GET_RESPONSE c m
  else if decide (Message_MessageType m = Message_CONSENSUS_STATE_GET_REQUEST) then
    reply_with val_StateGet Message_CONSENSUS_STATE_GET_RESPONSE c m
  else None.
End validator.

(** ** The service over the reference validator *)

(** Identifiers as the SDK hands them on: it takes one of zero bytes for none. *)
Definition normal (b : block) : Prop :=
  NewBlockIdFromBytes (blockId b) = blockId b ∧
  NewBlockIdFromBytes (previousId b) = previousId b ∧
  NewPeerIdFromSlice (signerId b) = signerId b.
Definition chain_ok (c : Chain) : Prop :=
  map_Forall (λ id b, blockId b = id ∧ normal b) (c_blocks c) ∧ from_option normal True (c_head c).

Lemma block_roundtrip b : normal b → newBlockFromProto (Some (block_to_proto b)) = b.
Proof. intros (E1 & E2 & E3). destruct b. unfold newBlockFromProto. simpl in *. by rewrite E1, E2, E3. Qed.

Lemma AsBytes_same id : BlockId_AsBytes id = id.
Proof. unfold BlockId_AsBytes. by case_decide. Qed.
Lemma AsBytes_map (ids : list BlockId) : BlockId_AsBytes <$> ids = ids.
Proof. rewrite <-(list_fmap_id ids) at 2. apply list_fmap_ext. intros i id _. apply AsBytes_same. Qed.
Lemma PeerBytes_same p : PeerId_AsBytes p = p.
Proof. unfold PeerId_AsBytes. by case_decide. Qed.

(** The map built from the entries of a map at some keys is the map at these keys. *)
Lemma lookup_at {B} (m : gmap string B) (keys : list string) i :
  filter (λ p, p.1 ∈ keys) m !! i = if decide (i ∈ keys) then m !! i else None.
Proof.
  apply option_eq. intros x. rewrite map_lookup_filter_Some. simpl. case_decide; naive_solver.
Qed.

Lemma entries_foldl {A B} (key : A → string) (val : A → B) (f : string → B → A) m (keys : list string) acc :
  (∀ k x, m !! k = Some x → key (f k x) = k ∧ val (f k x) = x) →
  foldl (λ (r : gmap string B) e, <[key e := val e]> r) acc (entries_at f m keys)
    = filter (λ p, p.1 ∈ keys) m ∪ acc.
Proof.
  intros Hf. revert acc. unfold entries_at. induction keys as [|k keys IH]; intros acc.
  - simpl. apply map_eq. intros i. by rewrite lookup_union, lookup_at, (left_id_L None _).
  - simpl. apply map_eq. intros i.
    destruct (m !! k) as [x|] eqn:Ek; simpl; rewrite IH, !lookup_union, !lookup_at.
    + destruct (Hf k x Ek) as [-> ->]. destruct (decide (i = k)) as [->|Hne].
      * rewrite lookup_insert_eq, Ek, (decide_True (P := k ∈ k :: keys)) by (by left).
        case_decide; by destruct (acc !! k).
      * rewrite lookup_insert_ne by done. repeat case_decide; set_solver.
    + destruct (decide (i = k)) as [->|Hne].
      * rewrite Ek. by repeat case_decide.
      * repeat case_decide; set_solver.
Qed.

Lemma settings_at m keys :
  settings_map (entries_at Build_ConsensusSettingsEntry m keys) = filter (λ p, p.1 ∈ keys) m.
Proof.
  unfold settings_map. rewrite (entries_foldl ConsensusSettingsEntry_Key ConsensusSettingsEntry_Value);
    [|done]. apply (right_id_L ∅ (∪)).
Qed.
Lemma state_at m keys :
  state_map (entries_at Build_ConsensusStateEntry m keys) = filter (λ p, p.1 ∈ keys) m.
Proof.
  unfold state_map. rewrite (entries_foldl ConsensusStateEntry_Address ConsensusStateEntry_Data);
    [|done]. apply (right_id_L ∅ (∪)).
Qed.

Lemma blocks_at c ids :
  chain_ok c →
  blocks_map (entries_at (λ _, block_to_proto) (c_blocks c) ids)
    = filter (λ p, p.1 ∈ ids) (c_blocks c).
Proof.
  intros [Hok _]. unfold blocks_map.
  rewrite (entries_foldl (λ e, NewBlockIdFromBytes (ConsensusBlock_BlockId e))
    (λ e, newBlockFromProto (Some e)) (λ _, block_to_proto)); [apply (right_id_L ∅ (∪))|].
  intros k b Hb. destruct (Hok _ _ Hb) as [<- Hn]. split; [apply Hn|by apply block_roundtrip].
Qed.

(** What the methods of the service need of the three accesses they are made of: a
    request that the validator answers is answered, and the validator's chain changes
    as the validator says. *)
Class ChainRpc (S : Type) `{RpcSteps S, Proto Message, ServiceProtos}
    (sign : BlockId → bytes → BlockId) := {
  rok : S → Prop;
  rchain : S → Chain;
  rok_chain s : rok s → chain_ok (rchain s);
  rpc_exchange t b rt rb c' s :
    rok s → chain_ok c' →
    (∀ corr, val_reply sign (rchain s) {| Message_MessageType := t;
       Message_CorrelationId := corr; Message_Content := b |} = Some (rt, rb, c')) →
    ∃ corr s1 s2 s3, Rpc_send t b s = (Ret (corr, None), s1) ∧ Rpc_note corr s1 = (Ret tt, s2) ∧
      Rpc_await corr s2 = (Ret (inr (Some {| Message_MessageType := rt;
        Message_CorrelationId := corr; Message_Content := rb |})), s3) ∧
      rok s3 ∧ rchain s3 = c' }.

Section refinement.
Context {S : Type} `{RpcSteps S, Proto Message, ServiceProtos, !ServiceProtosOk}.
Context (sign : BlockId → bytes → BlockId) `{!ChainRpc S sign}.
(** Block ids are not made of zero bytes. *)
Context (sign_normal : ∀ prev data, NewBlockIdFromBytes (sign prev data) = sign prev data).
Implicit Types s : S.

(** A call is one application of the validator's function for it. *)
Lemma rpc_chain {Q R} `{Proto Q, Proto R, !ProtoOk Q, !ProtoOk R} (f : Chain → Q → R * Chain)
    reqType respType (q : Q) s :
  (∀ c m, Message_MessageType m = reqType → val_reply sign c m = reply_with f respType c m) →
  (∀ c q, chain_ok c → chain_ok (f c q).2) → rok s →
  ∃ s', serviceRpc q reqType respType s = (Ret (inr (f (rchain s) q).1), s') ∧ rok s' ∧
    rchain s' = (f (rchain s) q).2.
Proof.
  intros Hval Hkeep Hok. destruct (Marshal_total q) as [b Hb].
  destruct (Marshal_total (f (rchain s) q).1) as [r Hr].
  destruct (rpc_exchange reqType b respType r (f (rchain s) q).2 s Hok)
    as (corr & s1 & s2 & s3 & E1 & E2 & E3 & Hok3 & Hc); [by apply Hkeep, rok_chain| |].
  { intros corr. rewrite Hval by done. unfold reply_with. simpl. rewrite (Unmarshal_Marshal _ _ Hb). simpl.
    destruct (f (rchain s) q) as [resp c']. simpl in *. by rewrite Hr. }
  exists s3. split; [|done]. unfold serviceRpc. rewrite Hb.
  rewrite (go_bind_Ret _ _ _ _ _ E1). cbv beta iota. rewrite (go_bind_Ret _ _ _ _ _ E2).
  rewrite (go_bind_Ret _ _ _ _ _ E3). cbv beta iota. simpl.
  rewrite decide_False by (intros Hn; by apply Hn). by rewrite (Unmarshal_Marshal _ _ Hr).
Qed.

(** Runs a call against the validator's function [f] for it. *)
Ltac by_rpc f := intros s Hs;
  match goal with |- context [serviceRpc ?q ?a ?b] =>
    destruct (rpc_chain f a b q s) as (s' & E & Hs' & Hc);
      [by intros ? ? Ht; unfold val_reply; rewrite Ht
      |by intros ? ? ?; unfold val_FinalizeBlock; try unfold f; repeat case_match; repeat case_decide
      |done|];
    exists s'; rewrite (go_bind_Ret _ _ _ _ _ E), Hc; clear E Hc
  end.

Lemma zmqs_SendTo_refines p t d : implements rok rchain (zmqs_SendTo p t d) (spec_SendTo p t d).
Proof.
  unfold zmqs_SendTo. by_rpc val_SendTo. unfold val_SendTo, spec_SendTo. simpl.
  rewrite PeerBytes_same. by destruct (decide (p ∈ _)).
Qed.
Lemma zmqs_Broadcast_refines t d : implements rok rchain (zmqs_Broadcast t d) (spec_Broadcast t d).
Proof. unfold zmqs_Broadcast. by by_rpc val_Broadcast. Qed.
Lemma zmqs_InitializeBlock_refines id :
  implements rok rchain (zmqs_InitializeBlock id) (spec_InitializeBlock id).
Proof.
  unfold zmqs_InitializeBlock. by_rpc val_InitializeBlock.
  unfold val_InitializeBlock, spec_InitializeBlock. simpl. rewrite AsBytes_same.
  destruct (c_building (rchain s)); [done|].
  destruct (decide (id = BLOCK_ID_NULL)); [by destruct (c_head (rchain s))|].
  by destruct (decide (known _ _)).
Qed.
Lemma zmqs_SummarizeBlock_refines : implements rok rchain zmqs_SummarizeBlock spec_SummarizeBlock.
Proof.
  unfold zmqs_SummarizeBlock. by_rpc val_SummarizeBlock.
  unfold val_SummarizeBlock, spec_SummarizeBlock. by destruct (c_building (rchain s)) as [[prev []]|].
Qed.
Lemma zmqs_FinalizeBlock_refines d :
  implements rok rchain (zmqs_FinalizeBlock d) (spec_FinalizeBlock sign d).
Proof.
  unfold zmqs_FinalizeBlock. by_rpc (val_FinalizeBlock sign).
  unfold val_FinalizeBlock, spec_FinalizeBlock. destruct (c_building (rchain s)) as [[prev []]|]; try done.
  simpl. by rewrite sign_normal.
Qed.
Lemma zmqs_CancelBlock_refines : implements rok rchain zmqs_CancelBlock spec_CancelBlock.
Proof.
  unfold zmqs_CancelBlock. by_rpc val_CancelBlock.
  unfold val_CancelBlock, spec_CancelBlock. by destruct (c_building (rchain s)).
Qed.
Lemma zmqs_CheckBlocks_refines ids : implements rok rchain (zmqs_CheckBlocks ids) (spec_CheckBlocks ids).
Proof.
  unfold zmqs_CheckBlocks. by_rpc val_CheckBlocks. unfold val_CheckBlocks, spec_CheckBlocks.
  cbn [ConsensusCheckBlocksRequest_BlockIds]. rewrite AsBytes_map.
  by destruct (decide (Forall _ _)).
Qed.
Lemma zmqs_CommitBlock_refines id : implements rok rchain (zmqs_CommitBlock id) (spec_direct ToCommit id).
Proof.
  unfold zmqs_CommitBlock. by_rpc val_CommitBlock. unfold val_CommitBlock, spec_direct. simpl.
  rewrite AsBytes_same. by destruct (decide (known _ _)).
Qed.
Lemma zmqs_IgnoreBlock_refines id : implements rok rchain (zmqs_IgnoreBlock id) (spec_direct ToIgnore id).
Proof.
  unfold zmqs_IgnoreBlock. by_rpc val_IgnoreBlock. unfold val_IgnoreBlock, spec_direct. simpl.
  rewrite AsBytes_same. by destruct (decide (known _ _)).
Qed.
Lemma zmqs_FailBlock_refines id : implements rok rchain (zmqs_FailBlock id) (spec_direct ToFail id).
Proof.
  unfold zmqs_FailBlock. by_rpc val_FailBlock. unfold val_FailBlock, spec_direct. simpl.
  rewrite AsBytes_same. by destruct (decide (known _ _)).
Qed.
Lemma zmqs_GetBlocks_refines ids : implements rok rchain (zmqs_GetBlocks ids) (spec_GetBlocks ids).
Proof.
  unfold zmqs_GetBlocks. by_rpc val_BlocksGet. split; [|done].
  cbn -[blocks_map entries_at]. by rewrite AsBytes_map, blocks_at by by apply rok_chain.
Qed.
Lemma zmqs_GetChainHead_refines : implements rok rchain zmqs_GetChainHead spec_GetChainHead.
Proof.
  unfold zmqs_GetChainHead. by_rpc val_ChainHeadGet. split; [|done].
  destruct (rok_chain s Hs) as [_ Hh]. unfold val_ChainHeadGet, spec_GetChainHead.
  destruct (c_head (rchain s)) as [h|]; [|done]. simpl in *. by rewrite block_roundtrip.
Qed.
Lemma zmqs_GetSettings_refines id keys :
  implements rok rchain (zmqs_GetSettings id keys) (spec_GetSettings id keys).
Proof.
  unfold zmqs_GetSettings. by_rpc val_SettingsGet. split; [|done].
  unfold val_SettingsGet, spec_GetSettings. cbn -[settings_map entries_at]. rewrite AsBytes_same.
  destruct (decide (known _ _)); [|done]. cbn -[settings_map entries_at]. by rewrite settings_at.
Qed.
Lemma zmqs_GetState_refines id addrs :
  implements rok rchain (zmqs_GetState id addrs) (spec_GetState id addrs).
Proof.
  unfold zmqs_GetState. by_rpc val_StateGet. split; [|done].
  unfold val_StateGet, spec_GetState. cbn -[state_map entries_at]. rewrite AsBytes_same.
  destruct (decide (known _ _)); [|done]. cbn -[state_map entries_at]. by rewrite state_at.
Qed.

(** The service discharges the interface. *)
Definition rpc_backed : ServiceBacked S := {|
  sok := rok; chain := rchain; consensus_chain.sign := sign;
  SendTo_backed := zmqs_SendTo_refines; Broadcast_backed := zmqs_Broadcast_refines;
  InitializeBlock_backed := zmqs_InitializeBlock_refines; SummarizeBlock_backed := zmqs_SummarizeBlock_refines;
  FinalizeBlock_backed := zmqs_FinalizeBlock_refines; CancelBlock_backed := zmqs_CancelBlock_refines;
  CheckBlocks_backed := zmqs_CheckBlocks_refines; CommitBlock_backed := zmqs_CommitBlock_refines;
  IgnoreBlock_backed := zmqs_IgnoreBlock_refines; FailBlock_backed := zmqs_FailBlock_refines;
  GetBlocks_backed := zmqs_GetBlocks_refines; GetChainHead_backed := zmqs_GetChainHead_refines;
  GetSettings_backed := zmqs_GetSettings_refines; GetState_backed := zmqs_GetState_refines |}.
End refinement.

(** *** A service that is alone with the validator *)

Section alone.
Context `{Proto Message, ServiceProtos, GoRuntime, !ServiceProtosOk}.
Context (sign : BlockId → bytes → BlockId) (fuel : nat).

#[local] Instance chain_sock : ZmqSocket (Peer Chain) := peer_socket (val_reply sign).
#[local] Instance chain_conn : Connection (ZmqConnection (Peer Chain)) := zmq_connection (S fuel).
Abbreviation svc := (ZmqService (ZmqConnection (Peer Chain))).
Implicit Types s : svc.

Definition no_chain : Chain := {|
  c_blocks := ∅; c_head := None; c_peers := []; c_settings _ := ∅; c_state _ := ∅;
  c_building := None; c_delay := 0; c_summary := ""; c_finalized := []; c_sent := [];
  c_told := [] |}.
(** The service is connected and waits for nothing. *)
Definition zok s : Prop :=
  ∃ c, connection s = Some c ∧ peer_ok c ∧ corrIds s = ∅ ∧ chain_ok (peer_val c).
Definition zchain s : Chain := from_option peer_val no_chain (connection s).

Lemma zok_chain s : zok s → chain_ok (zchain s).
Proof. intros (c & Hc & _ & _ & Hok). unfold zchain. by rewrite Hc. Qed.

Lemma alone_exchange t b rt rb c' s :
  zok s → chain_ok c' →
  (∀ corr, val_reply sign (zchain s) {| Message_MessageType := t;
     Message_CorrelationId := corr; Message_Content := b |} = Some (rt, rb, c')) →
  ∃ corr s1 s2 s3, Rpc_send t b s = (Ret (corr, None), s1) ∧ Rpc_note corr s1 = (Ret tt, s2) ∧
    Rpc_await corr s2 = (Ret (inr (Some {| Message_MessageType := rt;
      Message_CorrelationId := corr; Message_Content := rb |})), s3) ∧ zok s3 ∧ zchain s3 = c'.
Proof.
  intros (c & Hc & Hok & Hids & _) Hc' Hval.
  assert (Ez : zchain s = peer_val c) by (unfold zchain; by rewrite Hc). rewrite Ez in Hval.
  destruct (peer_exchange (val_reply sign) fuel t b rt rb c' c Hok Hval)
    as (corr & c1 & c2 & Es & Er & Hok2 & Hv).
  eexists corr, _, _, _. split; [by apply (on_connection_Ret _ _ _ _ _ Hc Es)|].
  split; [reflexivity|]. split; [by eapply rpc_await_Ret|]. split.
  - exists c2. simpl. rewrite Hids, Hv. split_and!; try done. set_solver.
  - unfold zchain. simpl. done.
Qed.

#[export] Instance chain_rpc : ChainRpc svc sign := {|
  rok := zok; rchain := zchain; rok_chain := zok_chain; rpc_exchange := alone_exchange |}.
Definition chain_backed (sign_normal : ∀ prev data, NewBlockIdFromBytes (sign prev data) = sign prev data) :
    ServiceBacked svc := rpc_backed sign sign_normal.
End alone.

(** ** Sequences of calls *)

Inductive call :=
| CallSendTo (p : PeerId) (t : string) (d : bytes)
| CallBroadcast (t : string) (d : bytes)
| CallInitializeBlock (id : BlockId)
| CallSummarizeBlock
| CallFinalizeBlock (d : bytes)
| CallCancelBlock
| CallCheckBlocks (ids : list BlockId)
| CallCommitBlock (id : BlockId)
| CallIgnoreBlock (id : BlockId)
| CallFailBlock (id : BlockId)
| CallGetBlocks (ids : list BlockId)
| CallGetChainHead
| CallGetSettings (id : BlockId) (keys : list string)
| CallGetState (id : BlockId) (addrs : list string).

(** What the caller sees. *)
Inductive result :=
| RDone (r : option error)
| RSummary (r : bytes * option error)
| RBlockId (r : BlockId * option error)
| RBlocks (r : error + gmap BlockId block)
| RHead (r : error + block)
| RSettings (r : gmap string string * option error)
| RState (r : error + gmap string bytes).

Definition then_ {S A} (f : A → result) (m : Go S A) : Go S result := r ← m; mret (f r).
Definition spec_then {A} (f : A → result) (spec : Chain → A * Chain) (c : Chain) : result * Chain :=
  (f (spec c).1, (spec c).2).

Definition run_call {S} `{ConsensusService S} (x : call) : Go S result :=
  match x with
  | CallSendTo p t d => then_ RDone (SendTo p t d)
  | CallBroadcast t d => then_ RDone (Broadcast t d)
  | CallInitializeBlock id => then_ RDone (InitializeBlock id)
  | CallSummarizeBlock => then_ RSummary SummarizeBlock
  | CallFinalizeBlock d => then_ RBlockId (FinalizeBlock d)
  | CallCancelBlock => then_ RDone CancelBlock
  | CallCheckBlocks ids => then_ RDone (CheckBlocks ids)
  | CallCommitBlock id => then_ RDone (CommitBlock id)
  | CallIgnoreBlock id => then_ RDone (IgnoreBlock id)
  | CallFailBlock id => then_ RDone (FailBlock id)
  | CallGetBlocks ids => then_ RBlocks (GetBlocks ids)
  | CallGetChainHead => then_ RHead GetChainHead
  | CallGetSettings id keys => then_ RSettings (GetSettings id keys)
  | CallGetState id addrs => then_ RState (Service_GetState id addrs)
  end.
Definition spec_call (sign : BlockId → bytes → BlockId) (x : call) : Chain → result * Chain :=
  match x with
  | CallSendTo p t d => spec_then RDone (spec_SendTo p t d)
  | CallBroadcast t d => spec_then RDone (spec_Broadcast t d)
  | CallInitializeBlock id => spec_then RDone (spec_InitializeBlock id)
  | CallSummarizeBlock => spec_then RSummary spec_SummarizeBlock
  | CallFinalizeBlock d => spec_then RBlockId (spec_FinalizeBlock sign d)
  | CallCancelBlock => spec_then RDone spec_CancelBlock
  | CallCheckBlocks ids => spec_then RDone (spec_CheckBlocks ids)
  | CallCommitBlock id => spec_then RDone (spec_direct ToCommit id)
  | CallIgnoreBlock id => spec_then RDone (spec_direct ToIgnore id)
  | CallFailBlock id => spec_then RDone (spec_direct ToFail id)
  | CallGetBlocks ids => spec_then RBlocks (spec_GetBlocks ids)
  | CallGetChainHead => spec_then RHead spec_GetChainHead
  | CallGetSettings id keys => spec_then RSettings (spec_GetSettings id keys)
  | CallGetState id addrs => spec_then RState (spec_GetState id addrs)
  end.

Fixpoint run_calls {S} `{ConsensusService S} (xs : list call) : Go S (list result) :=
  match xs with
  | [] => mret []
  | x :: xs => r ← run_call x; rs ← run_calls xs; mret (r :: rs)
  end.
Fixpoint spec_calls (sign : BlockId → bytes → BlockId) (xs : list call) (c : Chain) :
    list result * Chain :=
  match xs with
  | [] => ([], c)
  | x :: xs =>
      let '(r, c) := spec_call sign x c in
      let '(rs, c) := spec_calls sign xs c in (r :: rs, c)
  end.

Section calls.
Context {S : Type} `{ConsensusService S, !ServiceBacked S}.

Lemma implements_then {A} (f : A → result) (m : Go S A) spec :
  implements sok chain m spec → implements sok chain (then_ f m) (spec_then f spec).
Proof.
  intros Hm s Hs. destruct (Hm s Hs) as (s' & E & ?). exists s'. unfold then_.
  by rewrite (go_bind_Ret _ _ _ _ _ E).
Qed.

Lemma run_call_refines x : implements (S:=S) sok chain (run_call x) (spec_call (sign (S:=S)) x).
Proof.
  destruct x; apply implements_then; auto using SendTo_backed, Broadcast_backed,
    InitializeBlock_backed, SummarizeBlock_backed, FinalizeBlock_backed, CancelBlock_backed,
    CheckBlocks_backed, CommitBlock_backed, IgnoreBlock_backed, FailBlock_backed, GetBlocks_backed,
    GetChainHead_backed, GetSettings_backed, GetState_backed.
Qed.

Lemma run_calls_refine xs : implements (S:=S) sok chain (run_calls xs) (spec_calls (sign (S:=S)) xs).
Proof.
  induction xs as [|x xs IH]; intros s Hs; simpl; [by exists s|].
  destruct (run_call_refines x s Hs) as (s1 & E1 & Hs1 & Hc1).
  destruct (spec_call _ x (chain s)) as [r c1]. simpl in *.
  destruct (IH s1 Hs1) as (s2 & E2 & Hs2 & Hc2). rewrite Hc1 in *.
  destruct (spec_calls _ xs c1) as [rs c2]. simpl in *.
  exists s2. rewrite (go_bind_Ret _ _ _ _ _ E1). by rewrite (go_bind_Ret _ _ _ _ _ E2).
Qed.
End calls.

(** ** Claims *)

Section claims.
Context `{Proto Message, ServiceProtos, GoRuntime, !ServiceProtosOk}.

End claims.

(** ** A concrete stack *)

Module demo.
#[export] Existing Instance ordered_runtime.
#[export] Instance message_proto : Proto Message := countable_proto Message.
#[export] Instance service_protos : ServiceProtos := ltac:(split; exact (countable_proto _)).
#[export] Instance protos_ok : ServiceProtosOk.
Proof. split; split; apply countable_proto_laws || apply countable_proto_total. Qed.

Definition blk (id prev : BlockId) (n : Z) : block := {|
  blockId := id; previousId := prev; signerId := "s"; blockNum := n; payload := ""; summary := "" |}.
(** Block [b] on block [a] on the genesis block, and a rival of [a]. *)
Definition chain0 : Chain := {|
  c_blocks := {["g" := blk "g" BLOCK_ID_NULL 0; "a" := blk "a" "g" 1; "b" := blk "b" "a" 2;
                "r" := blk "r" "g" 1]};
  c_head := Some (blk "b" "a" 2); c_peers := ["s"]; c_settings _ := ∅; c_state _ := ∅;
  c_building := None; c_delay := 1; c_summary := "sum"; c_finalized := []; c_sent := [];
  c_told := [] |}.
Definition sign0 (prev : BlockId) (data : bytes) : BlockId := "n" +:+ prev.
Lemma sign0_normal prev data : NewBlockIdFromBytes (sign0 prev data) = sign0 prev data.
Proof. reflexivity. Qed.
Definition service0 (c : Chain) : ZmqService (ZmqConnection (Peer Chain)) := {|
  service_uri := "u"; corrIds := ∅;
  connection := Some {| identity := "e"; uri := "u"; incoming := ∅;
    socket := {| peer_state := c; peer_inbox := []; peer_ids := 0 |} |} |}.
Lemma chain0_ok : chain_ok chain0.
Proof.
  split; [|by repeat split]. unfold chain0. simpl.
  repeat apply map_Forall_insert_2; try apply map_Forall_singleton; by repeat split.
Qed.
Lemma service0_ok c : chain_ok c → zok (service0 c).
Proof. intros Hc. by eexists. Qed.
End demo.

Module witness.
Import demo.
Definition calls : list call :=
  [CallCancelBlock; CallInitializeBlock BLOCK_ID_NULL; CallSummarizeBlock; CallSummarizeBlock;
   CallFinalizeBlock "x"; CallCommitBlock "r"; CallCommitBlock "q"].
Definition results : list result :=
  [RDone (Some (invalid_state "Cannot cancel block in current state")); RDone None;
   RSummary ("", Some (errBlockNotReady Build_BlockNotReadyError)); RSummary ("sum", None);
   RBlockId ("nb", None); RDone None; RDone (Some unknown_block)].

End witness.
End consensus_chain.
