(* ===== verification/ConsensusEngine.v ===== *)
(** * The consensus engine driver

    Models [consensus/engine.go]: the loop that connects a consensus engine to the
    validator, turns notifications into updates for the engine, passes requests
    and responses between the service and the validator, registers and shuts down.
    The state is the record [Engine]; the update channel has capacity 2 and a send
    on a full channel waits ([Blocked]).  As in [Processor], [poller.Poll] is an
    input: a run is given its results, each with what the other goroutines did
    before.  [time.Sleep] is recorded in [slept].  Log output is left out. *)

From S2P Require Import Prelude GoLib Errors Protobuf Messaging ConsensusProto ConsensusTypes ConsensusService.

Local Open Scope Z_scope.

(** Durations are in nanoseconds. *)
Definition INITIAL_RETRY_DELAY : Z := 1000000 * 100.
Definition MAX_RETRY_DELAY : Z := 1000000000 * 3.
(** [make(chan ConsensusUpdate, 2)] *)
Definition updateChan_cap : nat := 2.

Record Engine (C M : Type) := {
  impl_Name : string;
  impl_Version : string;
  validator : C;
  service_sock : C;
  monitor : M;
  shutdownRx : C;
  shutdownTx : Iface C;
  updateChan : list ConsensusUpdate;
  updateChan_closed : bool;
  service : ZmqService C;
  slept : list Z }.
Arguments impl_Name {C M} _.
Arguments impl_Version {C M} _.
Arguments validator {C M} _.
Arguments service_sock {C M} _.
Arguments monitor {C M} _.
Arguments shutdownRx {C M} _.
Arguments shutdownTx {C M} _.
Arguments updateChan {C M} _.
Arguments updateChan_closed {C M} _.
Arguments service {C M} _.
Arguments slept {C M} _.

Inductive Ready := ReadyValidator | ReadyMonitor | ReadyService | ReadyShutdown.
#[export] Instance Ready_eq_dec : EqDecision Ready.
Proof. solve_decision. Defined.

Record Turn (C M : Type) := {
  meanwhile : Engine C M → Engine C M;
  polled : error + list Ready }.
Arguments meanwhile {C M} _.
Arguments polled {C M} _.

(** The protobuf runtime for the notifications. *)
Class EngineProtos := {
  ep_peer_connected :: Proto ConsensusNotifyPeerConnected;
  ep_peer_disconnected :: Proto ConsensusNotifyPeerDisconnected;
  ep_peer_message :: Proto ConsensusNotifyPeerMessage;
  ep_peer_message_header :: Proto ConsensusPeerMessageHeader;
  ep_block_new :: Proto ConsensusNotifyBlockNew;
  ep_block_valid :: Proto ConsensusNotifyBlockValid;
  ep_block_invalid :: Proto ConsensusNotifyBlockInvalid;
  ep_block_commit :: Proto ConsensusNotifyBlockCommit;
  ep_activated :: Proto ConsensusNotifyEngineActivated;
  ep_ack :: Proto ConsensusNotifyAck;
  ep_register_request :: Proto ConsensusRegisterRequest;
  ep_register_response :: Proto ConsensusRegisterResponse }.

Section engine.
Context {C M : Type} `{Connection C, Monitor M, Proto Message}.
Context `{EngineProtos, Proto PingResponse}.
Abbreviation engine := (Engine C M).

Definition set_validator (x : C) (e : engine) : engine := {|
  impl_Name := impl_Name e; impl_Version := impl_Version e; validator := x;
  service_sock := service_sock e; monitor := monitor e; shutdownRx := shutdownRx e;
  shutdownTx := shutdownTx e; updateChan := updateChan e;
  updateChan_closed := updateChan_closed e; service := service e; slept := slept e |}.
Definition set_service_sock (x : C) (e : engine) : engine := {|
  impl_Name := impl_Name e; impl_Version := impl_Version e; validator := validator e;
  service_sock := x; monitor := monitor e; shutdownRx := shutdownRx e;
  shutdownTx := shutdownTx e; updateChan := updateChan e;
  updateChan_closed := updateChan_closed e; service := service e; slept := slept e |}.
Definition set_monitor (x : M) (e : engine) : engine := {|
  impl_Name := impl_Name e; impl_Version := impl_Version e; validator := validator e;
  service_sock := service_sock e; monitor := x; shutdownRx := shutdownRx e;
  shutdownTx := shutdownTx e; updateChan := updateChan e;
  updateChan_closed := updateChan_closed e; service := service e; slept := slept e |}.
Definition set_shutdownRx (x : C) (e : engine) : engine := {|
  impl_Name := impl_Name e; impl_Version := impl_Version e; validator := validator e;
  service_sock := service_sock e; monitor := monitor e; shutdownRx := x;
  shutdownTx := shutdownTx e; updateChan := updateChan e;
  updateChan_closed := updateChan_closed e; service := service e; slept := slept e |}.
Definition set_shutdownTx (x : Iface C) (e : engine) : engine := {|
  impl_Name := impl_Name e; impl_Version := impl_Version e; validator := validator e;
  service_sock := service_sock e; monitor := monitor e; shutdownRx := shutdownRx e;
  shutdownTx := x; updateChan := updateChan e;
  updateChan_closed := updateChan_closed e; service := service e; slept := slept e |}.
Definition set_updateChan (x : list ConsensusUpdate) (e : engine) : engine := {|
  impl_Name := impl_Name e; impl_Version := impl_Version e; validator := validator e;
  service_sock := service_sock e; monitor := monitor e; shutdownRx := shutdownRx e;
  shutdownTx := shutdownTx e; updateChan := x;
  updateChan_closed := updateChan_closed e; service := service e; slept := slept e |}.
Definition set_chan_closed (e : engine) : engine := {|
  impl_Name := impl_Name e; impl_Version := impl_Version e; validator := validator e;
  service_sock := service_sock e; monitor := monitor e; shutdownRx := shutdownRx e;
  shutdownTx := shutdownTx e; updateChan := updateChan e;
  updateChan_closed := true; service := service e; slept := slept e |}.
Definition set_service (x : ZmqService C) (e : engine) : engine := {|
  impl_Name := impl_Name e; impl_Version := impl_Version e; validator := validator e;
  service_sock := service_sock e; monitor := monitor e; shutdownRx := shutdownRx e;
  shutdownTx := shutdownTx e; updateChan := updateChan e;
  updateChan_closed := updateChan_closed e; service := x; slept := slept e |}.
Definition set_slept (x : list Z) (e : engine) : engine := {|
  impl_Name := impl_Name e; impl_Version := impl_Version e; validator := validator e;
  service_sock := service_sock e; monitor := monitor e; shutdownRx := shutdownRx e;
  shutdownTx := shutdownTx e; updateChan := updateChan e;
  updateChan_closed := updateChan_closed e; service := service e; slept := x |}.

Definition on_validator {A} : Go C A → Go engine A := zoom validator set_validator.
Definition on_service_sock {A} : Go C A → Go engine A := zoom service_sock set_service_sock.
Definition on_monitor {A} : Go M A → Go engine A := zoom monitor set_monitor.
Definition on_shutdownRx {A} : Go C A → Go engine A := zoom shutdownRx set_shutdownRx.
Definition on_service {A} : Go (ZmqService C) A → Go engine A := zoom service set_service.

(** [self.updateChan <- update] *)
Definition chan_send (update : ConsensusUpdate) : Go engine unit := λ e,
  if updateChan_closed e then (Panic "send on closed channel", e)
  else if decide (length (updateChan e) < updateChan_cap)%nat
  then (Ret tt, set_updateChan (updateChan e ++ [update]) e)
  else (Blocked, e).

Definition chan_close : Go engine unit := λ e,
  if updateChan_closed e then (Panic "close of closed channel", e)
  else (Ret tt, set_chan_closed e).

(** [self.updateChan = make(chan ConsensusUpdate, 2)] *)
Definition make_chan (e : engine) : engine := {|
  impl_Name := impl_Name e; impl_Version := impl_Version e; validator := validator e;
  service_sock := service_sock e; monitor := monitor e; shutdownRx := shutdownRx e;
  shutdownTx := shutdownTx e; updateChan := [];
  updateChan_closed := false; service := service e; slept := slept e |}.

Definition Sleep (d : Z) : Go engine unit := go_modify (λ e, set_slept (slept e ++ [d]) e).

(** ** Updates *)

(** The update of a notification; [None] for a message that does not parse (an
    error that is only logged) or of another type. *)
Definition decode_update {S} (msg : Message) : Go S (option ConsensusUpdate) :=
  let t := Message_MessageType msg in
  let data := Message_Content msg in
  if decide (t = Message_CONSENSUS_NOTIFY_PEER_CONNECTED) then
    match Unmarshal (M := ConsensusNotifyPeerConnected) data with
    | (_, Some _) => mret None
    | (p, None) =>
        match ConsensusNotifyPeerConnected_PeerInfo p with
        | None => go_panic "invalid memory address or nil pointer dereference"
        | Some info => mret (Some (UpdatePeerConnected
            {| peerId := NewPeerIdFromSlice (ConsensusPeerInfo_PeerId info) |}))
        end
    end
  else if decide (t = Message_CONSENSUS_NOTIFY_PEER_DISCONNECTED) then
    match Unmarshal (M := ConsensusNotifyPeerDisconnected) data with
    | (_, Some _) => mret None
    | (p, None) => mret (Some (UpdatePeerDisconnected
        {| peerId := NewPeerIdFromSlice (ConsensusNotifyPeerDisconnected_PeerId p) |}))
    end
  else if decide (t = Message_CONSENSUS_NOTIFY_PEER_MESSAGE) then
    match Unmarshal (M := ConsensusNotifyPeerMessage) data with
    | (_, Some _) => mret None
    | (p, None) =>
        m ← newPeerMessageFromProto (ConsensusNotifyPeerMessage_Message p);
        mret (Some (UpdatePeerMessage m
          (NewPeerIdFromSlice (ConsensusNotifyPeerMessage_SenderId p))))
    end
  else if decide (t = Message_CONSENSUS_NOTIFY_BLOCK_NEW) then
    match Unmarshal (M := ConsensusNotifyBlockNew) data with
    | (_, Some _) => mret None
    | (p, None) => mret (Some (UpdateBlockNew
        (newBlockFromProto (ConsensusNotifyBlockNew_Block p))))
    end
  else if decide (t = Message_CONSENSUS_NOTIFY_BLOCK_VALID) then
    match Unmarshal (M := ConsensusNotifyBlockValid) data with
    | (_, Some _) => mret None
    | (p, None) => mret (Some (UpdateBlockValid
        (NewBlockIdFromBytes (ConsensusNotifyBlockValid_BlockId p))))
    end
  else if decide (t = Message_CONSENSUS_NOTIFY_BLOCK_INVALID) then
    match Unmarshal (M := ConsensusNotifyBlockInvalid) data with
    | (_, Some _) => mret None
    | (p, None) => mret (Some (UpdateBlockInvalid
        (NewBlockIdFromBytes (ConsensusNotifyBlockInvalid_BlockId p))))
    end
  else if decide (t = Message_CONSENSUS_NOTIFY_BLOCK_COMMIT) then
    match Unmarshal (M := ConsensusNotifyBlockCommit) data with
    | (_, Some _) => mret None
    | (p, None) => mret (Some (UpdateBlockCommit
        (NewBlockIdFromBytes (ConsensusNotifyBlockCommit_BlockId p))))
    end
  else mret None.

Definition handleUpdate (msg : Message) : Go engine unit :=
  update ← decode_update msg;
  match update with
  | None => mret tt
  | Some update => chan_send update
  end.

(** The message types that are notifications. *)
Definition is_notification (t : Z) : bool :=
  bool_decide (t ∈ [Message_CONSENSUS_NOTIFY_PEER_CONNECTED;
                    Message_CONSENSUS_NOTIFY_PEER_DISCONNECTED;
                    Message_CONSENSUS_NOTIFY_PEER_MESSAGE;
                    Message_CONSENSUS_NOTIFY_BLOCK_NEW;
                    Message_CONSENSUS_NOTIFY_BLOCK_VALID;
                    Message_CONSENSUS_NOTIFY_BLOCK_INVALID;
                    Message_CONSENSUS_NOTIFY_BLOCK_COMMIT]).

(** A notification is acknowledged when the engine has got the update. *)
Definition answer_notification (msg : Message) : Go engine unit :=
  _ ← handleUpdate msg;
  match Marshal Build_ConsensusNotifyAck with
  | inl _ => mret tt
  | inr data =>
      _ ← on_validator (SendMsg Message_CONSENSUS_NOTIFY_ACK data (Message_CorrelationId msg));
      mret tt
  end.

Definition receiveValidator : Go engine unit :=
  r ← on_validator RecvData;
  match r with
  | inl _ => mret tt
  | inr (_, data) =>
      let '(msg, err) := LoadMsg data in
      match err with
      | Some _ => mret tt
      | None =>
          let t := Message_MessageType msg in
          let corrId := Message_CorrelationId msg in
          if is_notification t then
            answer_notification msg
          else if decide (t = Message_PING_REQUEST) then
            match Marshal Build_PingResponse with
            | inl _ => mret tt
            | inr data =>
                _ ← on_validator (SendMsg Message_PING_RESPONSE data corrId);
                mret tt
            end
          else
            e ← go_get;
            if decide (corrId ≠ "" ∧ hasCorrelationId (service e) corrId = true) then
              _ ← on_service_sock (SendData "" data);
              mret tt
            else mret tt
      end
  end.

Definition receiveService : Go engine unit :=
  r ← on_service_sock RecvData;
  match r with
  | inl _ => mret tt
  | inr (_, data) =>
      let '(msg, err) := LoadMsg data in
      match err with
      | Some _ => mret tt
      | None =>
          _ ← on_validator (SendData "" data);
          mret tt
      end
  end.

(** ** Shutdown *)

Definition send_restart : Go engine unit :=
  zoom shutdownTx set_shutdownTx (call (_ ← SendData "" "restart"; mret tt)).

Definition receiveMonitor : Go engine bool :=
  r ← on_monitor RecvEvent;
  match r with
  | inl _ => mret false
  | inr (event, _) =>
      let restart := bool_decide (event = EVENT_DISCONNECTED) in
      _ ← send_restart;
      mret restart
  end.

Definition performShutdown : Go engine (option error) :=
  _ ← chan_send UpdateShutdown_ptr;
  _ ← chan_close;
  _ ← on_service service_Shutdown;
  _ ← on_monitor MonitorClose;
  _ ← on_validator Close;
  _ ← on_service_sock Close;
  _ ← on_shutdownRx Close;
  mret None.

Definition receiveShutdown : Go engine bool :=
  r ← on_shutdownRx RecvData;
  let cmd := match r with inr (_, data) => data | inl _ => "" end in
  if decide (cmd ≠ "restart" ∧ cmd ≠ "shutdown") then mret false
  else
    let restart := bool_decide (cmd = "restart") in
    err ← performShutdown;
    match err with
    | Some _ => mret false
    | None => mret restart
    end.

(** ** Registration *)

(** What the handling of a ready socket tells a poll loop: return, or go on
    (with a new retry delay). *)
Definition unexpected (t : Z) : error :=
  errReceive {| ReceiveError_Msg := "Received unexpected message type: "
                                    +:+ MessageType_String t |}.

Definition register_receive (regRequestData : bytes) (retry_delay : Z) :
    Go engine ((error + option startupState) + Z) :=
  '(_, msg, err) ← on_validator RecvMsg;
  match err with
  | Some err => mret (inl (inl err))
  | None =>
      let msg := default inhabitant msg in
      if decide (Message_MessageType msg ≠ Message_CONSENSUS_REGISTER_RESPONSE) then
        mret (inl (inl (unexpected (Message_MessageType msg))))
      else
        let '(regResponse, err) := Unmarshal (Message_Content msg) in
        match err with
        | Some err => mret (inl (inl err))
        | None =>
            let status := ConsensusRegisterResponse_Status regResponse in
            if decide (status = ConsensusRegisterResponse_OK) then
              match ConsensusRegisterResponse_ChainHead regResponse,
                    ConsensusRegisterResponse_LocalPeerInfo regResponse with
              | Some head, Some local =>
                  mret (inl (inr (Some (newStartupStateFromProtos (Some head)
                          (ConsensusRegisterResponse_Peers regResponse) (Some local)))))
              | _, _ => mret (inl (inr None))
              end
            else if decide (status = ConsensusRegisterResponse_NOT_READY) then
              _ ← Sleep retry_delay;
              let retry_delay :=
                if retry_delay <? MAX_RETRY_DELAY then Z.min (retry_delay * 2) MAX_RETRY_DELAY
                else retry_delay in
              _ ← on_validator (SendNewMsg Message_CONSENSUS_REGISTER_REQUEST regRequestData);
              mret (inr retry_delay)
            else
              mret (inl (inl (errReceive {| ReceiveError_Msg :=
                "Registration failed with status: "
                +:+ enum_String ConsensusRegisterResponse_Status_name status |})))
        end
  end.

Fixpoint register_ready (regRequestData : bytes) (ready : list Ready) (retry_delay : Z) :
    Go engine (option (error + option startupState)) :=
  match ready with
  | [] => mret None
  | ReadyValidator :: rest =>
      r ← register_receive regRequestData retry_delay;
      match r with
      | inl result => mret (Some result)
      | inr retry_delay => register_ready regRequestData rest retry_delay
      end
  | ReadyShutdown :: _ =>
      mret (Some (errorf "Received shutdown while registering"))
  | _ :: rest => register_ready regRequestData rest retry_delay
  end.

(** Each poll starts again with the initial delay. *)
Fixpoint register_loop (regRequestData : bytes) (turns : list (Turn C M)) :
    Go engine ((error + option startupState) * list (Turn C M)) :=
  match turns with
  | [] => go_block
  | turn :: rest =>
      _ ← go_modify (meanwhile turn);
      match polled turn with
      | inl err => mret (errorf ("Polling failed: " +:+ Error err), rest)
      | inr ready =>
          r ← register_ready regRequestData ready INITIAL_RETRY_DELAY;
          match r with
          | Some result => mret (result, rest)
          | None => register_loop regRequestData rest
          end
      end
  end.

Definition register (turns : list (Turn C M)) :
    Go engine ((error + option startupState) * list (Turn C M)) :=
  self ← go_get;
  let regRequest := {|
    ConsensusRegisterRequest_Name := impl_Name self;
    ConsensusRegisterRequest_Version := impl_Version self;
    ConsensusRegisterRequest_AdditionalProtocols := [] |} in
  match Marshal regRequest with
  | inl err => mret (inl err, turns)
  | inr regRequestData =>
      '(_, err) ← on_validator (SendNewMsg Message_CONSENSUS_REGISTER_REQUEST regRequestData);
      match err with
      | Some err => mret (inl err, turns)
      | None => register_loop regRequestData turns
      end
  end.

Definition activation_receive : Go engine (error + startupState) :=
  '(_, msg, err) ← on_validator RecvMsg;
  match err with
  | Some err => mret (inl err)
  | None =>
      let msg := default inhabitant msg in
      if decide (Message_MessageType msg ≠ Message_CONSENSUS_NOTIFY_ENGINE_ACTIVATED) then
        mret (inl (unexpected (Message_MessageType msg)))
      else
        let '(activationResponse, err) := Unmarshal (Message_Content msg) in
        match err with
        | Some err => mret (inl err)
        | None =>
            match Marshal Build_ConsensusNotifyAck with
            | inl err => mret (inl err)
            | inr regAckBytes =>
                err ← on_validator (SendMsg Message_CONSENSUS_NOTIFY_ACK regAckBytes
                                      (Message_CorrelationId msg));
                match err with
                | Some err => mret (inl err)
                | None => mret (inr (newStartupStateFromProtos
                    (ConsensusNotifyEngineActivated_ChainHead activationResponse)
                    (ConsensusNotifyEngineActivated_Peers activationResponse)
                    (ConsensusNotifyEngineActivated_LocalPeerInfo activationResponse)))
                end
            end
        end
  end.

(** The first ready socket of the poller ends [waitUntilActive]. *)
Fixpoint waitUntilActive (turns : list (Turn C M)) :
    Go engine ((error + startupState) * list (Turn C M)) :=
  match turns with
  | [] => go_block
  | turn :: rest =>
      _ ← go_modify (meanwhile turn);
      match polled turn with
      | inl err => mret (errorf ("Polling failed: " +:+ Error err), rest)
      | inr ready =>
          match filter (λ s, s = ReadyValidator ∨ s = ReadyShutdown) ready with
          | ReadyValidator :: _ =>
              r ← activation_receive;
              mret (r, rest)
          | _ :: _ =>
              mret (errorf "Received shutdown while waiting for activation", rest)
          | [] => waitUntilActive rest
          end
      end
  end.

(** ** The main loop *)

Fixpoint dispatch (ready : list Ready) (restart : bool) : Go engine (bool + bool) :=
  match ready with
  | [] => mret (inl restart)
  | ReadyValidator :: rest => _ ← receiveValidator; dispatch rest restart
  | ReadyService :: rest => _ ← receiveService; dispatch rest restart
  | ReadyMonitor :: rest => restart ← receiveMonitor; dispatch rest restart
  | ReadyShutdown :: _ => restart ← receiveShutdown; mret (inr restart)
  end.

Fixpoint poll_loop (turns : list (Turn C M)) (restart : bool) :
    Go engine (bool * option error) :=
  match turns with
  | [] => go_block
  | turn :: rest =>
      _ ← go_modify (meanwhile turn);
      match polled turn with
      | inl err => mret (restart, Some (errString ("Polling failed: " +:+ Error err)))
      | inr ready =>
          next ← dispatch ready restart;
          match next with
          | inr restart => mret (restart, None)
          | inl restart => poll_loop rest restart
          end
      end
  end.

(** [start] from the point where the sockets exist: register, wait for the
    activation when the registration did not bring the startup state, create
    the update channel and the service ([service_conn] is the outcome of
    connecting it) and poll.  The engine implementation runs in its own
    goroutine, started with the startup state that is returned with the
    result. *)
Definition start_connected (service_conn : error + C) (turns : list (Turn C M)) :
    Go engine ((bool * option error) * option startupState) :=
  self ← go_get;
  let who := "(" +:+ impl_Name self +:+ ", " +:+ impl_Version self +:+ "): " in
  '(r, turns) ← register turns;
  match r with
  | inl err => mret (false, Some (errString ("Error registering engine " +:+ who
                                             +:+ Error err)), None)
  | inr startup =>
      '(r, turns) ← (match startup with
                     | Some st => mret (inr st, turns)
                     | None => waitUntilActive turns
                     end);
      match r with
      | inl err => mret (false, Some (errString ("Error waiting for engine activation "
                                                 +:+ who +:+ Error err)), None)
      | inr st =>
          _ ← go_modify make_chan;
          _ ← go_modify (set_service (service_Start service_conn
                                        (NewZmqService "inproc://service")));
          r ← poll_loop turns false;
          mret (r, Some st)
      end
  end.

(** The outcomes of creating the sockets of one run, and of connecting the
    service to the engine. *)
Record Sockets := {
  new_validator : error + C;
  new_monitor : error + M;
  new_service : error + C;
  new_shutdownRx : error + C;
  new_shutdownTx : error + C;
  new_service_conn : error + C }.

(** One run of [start], for an engine implementation with a name and a
    version. *)
Definition start (name version : string) (socks : Sockets) (turns : list (Turn C M)) :
    Res (bool * option error) :=
  match new_validator socks with
  | inl err => Ret (false, Some (errString ("Could not connect to validator: " +:+ Error err)))
  | inr v =>
  match new_monitor socks with
  | inl err => Ret (false, Some (errString ("Could not monitor validator connection: "
                                            +:+ Error err)))
  | inr mo =>
  match new_service socks with
  | inl err => Ret (false, Some (errString ("Could not create service router: "
                                            +:+ Error err)))
  | inr sv =>
  match new_shutdownRx socks with
  | inl err => Ret (false, Some (errString ("Could not create shutdown connection: "
                                            +:+ Error err)))
  | inr rx =>
      let e := {| impl_Name := name; impl_Version := version; validator := v;
                  service_sock := sv; monitor := mo; shutdownRx := rx;
                  shutdownTx := assigned (new_shutdownTx socks);
                  updateChan := []; updateChan_closed := false;
                  service := NewZmqService ""; slept := [] |} in
      match (start_connected (new_service_conn socks) turns e).1 with
      | Ret (r, _) => Ret r
      | Panic reason => Panic reason
      | Blocked => Blocked
      | OutOfFuel => OutOfFuel
      end
  end
  end
  end
  end.

(** [Start]: runs until one ends without a restart. *)
Fixpoint Start (name version : string) (runs : list (option error * Sockets * list (Turn C M))) :
    Res (option error) :=
  match runs with
  | [] => Blocked
  | (Some err, _, _) :: _ => Panic ("Failed to create ZMQ context: " +:+ Error err)
  | (None, socks, turns) :: rest =>
      match start name version socks turns with
      | Ret (_, Some err) => Ret (Some err)
      | Ret (true, None) => Start name version rest
      | Ret (false, None) => Ret None
      | Panic reason => Panic reason
      | Blocked => Blocked
      | OutOfFuel => OutOfFuel
      end
  end.

(** [Shutdown]: the command is sent on the transmitting end, once there is one. *)
Definition Shutdown : Go engine unit := λ e,
  match shutdownTx e with
  | NilIface => (Ret tt, e)
  | tx =>
      let '(r, tx') := call (_ ← SendData "" "shutdown"; mret tt) tx in
      (r, set_shutdownTx tx' e)
  end.
End engine.

(** ** Claims *)

Section claims.
Context {C M : Type} `{Connection C, Monitor M, Proto Message}.
Context `{EngineProtos, Proto PingResponse}.
Abbreviation engine := (Engine C M).
Implicit Types e : engine.

(** Taking a message from the validator. *)
Lemma receive_data e r v' :
  RecvData (validator e) = (Ret r, v') →
  on_validator RecvData e = (Ret r, set_validator v' e).
Proof. intros E. unfold on_validator, zoom. by rewrite E. Qed.

(** Decoding touches nothing. *)
Lemma stateless_decode msg : stateless (λ S, decode_update (S:=S) msg).
Proof.
  unfold decode_update.
  repeat lazymatch goal with
  | |- stateless (λ S, if decide ?P then _ else _) => destruct (decide P)
  end; try apply stateless_ret;
  match goal with |- context [Unmarshal ?d] => destruct (Unmarshal d) as [p [err|]] end;
  try apply stateless_ret.
  - destruct (ConsensusNotifyPeerConnected_PeerInfo p);
      [apply stateless_ret|apply stateless_panic].
  - apply stateless_bind; [|intros ?; apply stateless_ret]. unfold newPeerMessageFromProto.
    destruct (Unmarshal _) as [q [err|]]; [apply stateless_panic|apply stateless_ret].
Qed.

(** Notifications: a notification from the validator that decodes to an
    update is put at the end of the update channel, if there is room, and then
    acknowledged under its own correlation id; one that does not parse is
    acknowledged as well, but the engine never hears of it; and when the channel
    is full the driver waits: nothing is acknowledged, and nothing else (no
    response for the service either) is handled until the engine takes an
    update. *)
Theorem notification_outcome e id data m v' ack v'' u :
  RecvData (validator e) = (Ret (inr (id, data)), v') → LoadMsg data = (m, None) →
  is_notification (Message_MessageType m) = true →
  (decode_update (S:=unit) m tt).1 = Ret u → updateChan_closed e = false →
  Marshal Build_ConsensusNotifyAck = inr ack →
  SendMsg Message_CONSENSUS_NOTIFY_ACK ack (Message_CorrelationId m) v' = (Ret None, v'') →
  receiveValidator e =
    match u with
    | None => (Ret tt, set_validator v'' e)
    | Some update =>
        if decide (length (updateChan e) < updateChan_cap)%nat
        then (Ret tt, set_validator v'' (set_updateChan (updateChan e ++ [update]) e))
        else (Blocked, set_validator v' e)
    end.
Proof.
  intros Hr Hl Hn Hd Hopen Hack Hs. unfold receiveValidator.
  rewrite (go_bind_Ret _ _ _ _ _ (receive_data _ _ _ Hr)), Hl, Hn.
  assert (Hd' : decode_update m (set_validator v' e) = (Ret u, set_validator v' e)).
  { by rewrite (stateless_decode m), Hd. }
  unfold answer_notification, handleUpdate.
  rewrite go_bind_assoc, (go_bind_Ret _ _ _ _ _ Hd').
  unfold mbind, Go_bind, chan_send, on_validator, zoom.
  destruct u as [update|]; simpl; [|by rewrite Hack; simpl; rewrite Hs].
  rewrite Hopen. destruct (decide _); simpl; [by rewrite Hack; simpl; rewrite Hs|done].
Qed.

(** Responses: any other message from the validator is passed to the service
    unchanged when the service waits for its correlation id, and is dropped
    otherwise.  The service notes a correlation id only after it has sent the
    request: an answer handled before that is lost. *)
Theorem response_outcome e id data m v' x s' :
  RecvData (validator e) = (Ret (inr (id, data)), v') → LoadMsg data = (m, None) →
  is_notification (Message_MessageType m) = false →
  Message_MessageType m ≠ Message_PING_REQUEST → Message_CorrelationId m ≠ "" →
  SendData "" data (service_sock e) = (Ret x, s') →
  receiveValidator e =
    (Ret tt, if decide (Message_CorrelationId m ∈ corrIds (service e))
             then set_service_sock s' (set_validator v' e) else set_validator v' e).
Proof.
  intros Hr Hl Hn Hp Hc Hs. unfold receiveValidator.
  rewrite (go_bind_Ret _ _ _ _ _ (receive_data _ _ _ Hr)), Hl, Hn, decide_False by done.
  unfold mbind, Go_bind, go_get, hasCorrelationId, on_service_sock, zoom. simpl.
  destruct (decide (Message_CorrelationId m ∈ corrIds (service e))) as [Hin|Hin].
  - rewrite bool_decide_eq_true_2, decide_True by done. simpl. by rewrite Hs.
  - rewrite bool_decide_eq_false_2 by done. by rewrite decide_False by naive_solver.
Qed.

(** All sleeps so far were of the initial delay. *)
Definition initial_sleeps e : Prop := Forall (λ d, d = INITIAL_RETRY_DELAY) (slept e).

(** A poll reports each socket at most once. *)
Definition turn_ok (t : Turn C M) : Prop :=
  (∀ e, initial_sleeps e → initial_sleeps (meanwhile t e)) ∧
  match polled t with inr ready => NoDup ready | inl _ => True end.

Lemma sleeps_validator {A} (m : Go C A) : preserves initial_sleeps (on_validator m).
Proof. by apply preserves_zoom. Qed.

Lemma sleeps_receive data : preserves initial_sleeps (register_receive data INITIAL_RETRY_DELAY).
Proof.
  unfold register_receive. apply preserves_bind; [apply sleeps_validator|].
  intros [[id msg] [err|]]; [apply preserves_ret|]. cbv zeta.
  destruct (decide _); [apply preserves_ret|].
  destruct (Unmarshal _) as [r [err|]]; [apply preserves_ret|].
  destruct (decide _).
  { destruct (ConsensusRegisterResponse_ChainHead r), (ConsensusRegisterResponse_LocalPeerInfo r);
      apply preserves_ret. }
  destruct (decide _); [|apply preserves_ret].
  apply preserves_bind; [|intros _; apply preserves_bind;
    [apply sleeps_validator|intros ?; apply preserves_ret]].
  intros e' He. unfold Sleep, go_modify, initial_sleeps in *. simpl. apply Forall_app.
  split; [done|]. by constructor.
Qed.

Lemma sleeps_ready_none data ready d :
  ReadyValidator ∉ ready → preserves initial_sleeps (register_ready data ready d).
Proof.
  revert d. induction ready as [|[] ready IH]; intros d Hin; simpl;
    [apply preserves_ret|set_solver|apply IH; set_solver|apply IH; set_solver|apply preserves_ret].
Qed.

Lemma sleeps_ready data ready :
  NoDup ready → preserves initial_sleeps (register_ready data ready INITIAL_RETRY_DELAY).
Proof.
  induction 1 as [|s ready Hs Hnd IH]; [apply preserves_ret|].
  destruct s; simpl; [|done|done|apply preserves_ret].
  apply preserves_bind; [apply sleeps_receive|]. intros [result|d]; [apply preserves_ret|].
  by apply sleeps_ready_none.
Qed.

(** The retry delay never grows: however often the validator answers that it
    is not ready, every sleep of the registration is of the initial delay, since
    each poll starts again from it. *)
Theorem retry_delay_never_grows data turns e :
  Forall turn_ok turns → initial_sleeps e →
  initial_sleeps (register_loop data turns e).2.
Proof.
  intros Ht. revert e. induction Ht as [|t turns [Hm Hp] _ IH]; intros e He; [done|].
  cbn [register_loop]. revert e He. apply preserves_bind; [by apply preserves_modify|]. intros _.
  destruct (polled t) as [err|ready]; [apply preserves_ret|].
  apply preserves_bind; [by apply sleeps_ready|]. intros [result|]; [apply preserves_ret|].
  intros e He. by apply IH.
Qed.
End claims.

(** ** Witnesses *)

Module witness.
#[local] Existing Instance ordered_runtime.
#[local] Instance wmsg : Proto Message := countable_proto Message.
#[local] Instance wping : Proto PingResponse := countable_proto PingResponse.
#[local] Instance wconn : Connection (ZmqConnection Script) := zmq_connection 5.
#[local] Instance wmonitor : Monitor unit := {|
  RecvEvent := go_block; MonitorClose := mret tt |}.
#[local] Instance wprotos : EngineProtos := {|
  ep_peer_connected := countable_proto _; ep_peer_disconnected := countable_proto _;
  ep_peer_message := countable_proto _; ep_peer_message_header := countable_proto _;
  ep_block_new := countable_proto _; ep_block_valid := countable_proto _;
  ep_block_invalid := countable_proto _; ep_block_commit := countable_proto _;
  ep_activated := countable_proto _; ep_ack := countable_proto _;
  ep_register_request := countable_proto _; ep_register_response := countable_proto _ |}.

Definition script (inbox : list Message) : ZmqConnection Script := {|
  identity := "e"; uri := "u"; incoming := ∅;
  socket := {| script_inbox := (λ m, inr [pos_bits (encode m)]) <$> inbox;
               script_outbox := []; script_ids := ["r1"; "r2"] |} |}.
Definition eng (inbox : list Message) (waiting : gset string) (ch : list ConsensusUpdate) :
    Engine (ZmqConnection Script) unit := {|
  impl_Name := "Devmode"; impl_Version := "0.1"; validator := script inbox;
  service_sock := script []; monitor := tt; shutdownRx := script [];
  shutdownTx := NilIface; updateChan := ch; updateChan_closed := false;
  service := {| service_uri := "u"; connection := None; corrIds := waiting |}; slept := [] |}.

Definition valid : Message := {|
  Message_MessageType := Message_CONSENSUS_NOTIFY_BLOCK_VALID; Message_CorrelationId := "n";
  Message_Content := pos_bits (encode (Build_ConsensusNotifyBlockValid "b")) |}.
Definition full : list ConsensusUpdate := [UpdateBlockValid "x"; UpdateBlockValid "y"].
Definition e0 := eng [valid] ∅ full.
Definition v1 := (RecvData (validator e0)).2.
Definition ack : bytes := pos_bits (encode Build_ConsensusNotifyAck).

(** A full channel: the driver waits. *)
Lemma notification_outcome_witness : receiveValidator e0 = (Blocked, set_validator v1 e0).
Proof.
  apply (notification_outcome e0 "" (pos_bits (encode valid)) valid v1 ack
    (SendMsg Message_CONSENSUS_NOTIFY_ACK ack "n" v1).2 (Some (UpdateBlockValid "b"))).
  - vm_compute. reflexivity.
  - vm_compute. reflexivity.
  - reflexivity.
  - vm_compute. reflexivity.
  - reflexivity.
  - reflexivity.
  - vm_compute. reflexivity.
Defined.

Definition answer : Message := {|
  Message_MessageType := Message_CONSENSUS_COMMIT_BLOCK_RESPONSE;
  Message_CorrelationId := "k"; Message_Content := "" |}.
Definition e1 := eng [answer] ∅ [].

(** An answer the service does not wait for yet. *)
Lemma response_outcome_witness :
  receiveValidator e1 = (Ret tt, set_validator (RecvData (validator e1)).2 e1).
Proof.
  apply (response_outcome e1 "" (pos_bits (encode answer)) answer (RecvData (validator e1)).2
    None (SendData "" (pos_bits (encode answer)) (service_sock e1)).2).
  - vm_compute. reflexivity.
  - vm_compute. reflexivity.
  - reflexivity.
  - discriminate.
  - discriminate.
  - vm_compute. reflexivity.
Defined.

Definition not_ready : Message := {|
  Message_MessageType := Message_CONSENSUS_REGISTER_RESPONSE; Message_CorrelationId := "r";
  Message_Content := pos_bits (encode
    (Build_ConsensusRegisterResponse ConsensusRegisterResponse_NOT_READY None [] None)) |}.
Definition turn : Turn (ZmqConnection Script) unit :=
  {| meanwhile e := e; polled := inr [ReadyValidator] |}.
Definition e2 := eng [not_ready; not_ready] ∅ [].

Lemma retry_delay_never_grows_witness :
  initial_sleeps (register_loop "reg" [turn; turn] e2).2 ∧
  slept (register_loop "reg" [turn; turn] e2).2 = [INITIAL_RETRY_DELAY; INITIAL_RETRY_DELAY].
Proof.
  split; [|vm_compute; reflexivity].
  apply (retry_delay_never_grows "reg" [turn; turn] e2); [|constructor].
  repeat constructor; auto; simpl; set_solver.
Defined.
End witness.
