(* ===== verification/ConsensusProtocol.v ===== *)
(** * The consensus driver as a protocol

    An abstract machine for what goes on between a consensus engine, its service, the
    driver of [consensus/engine.go] and the validator, in terms of messages: queues of
    messages in place of sockets and frames, and one rule for each thing a party can
    do.  [ConsensusSystem] shows that the code implements the machine; here its
    properties are proved.

    The engine calls the service one request at a time; a call is sent, then noted by
    the service, then waited for.  The driver passes requests to the validator, and
    from the validator it passes replies to noted calls to the service and updates to
    the update channel, one message after the other: with a full channel it does
    nothing else. *)

From S2P Require Import Prelude GoLib Errors Protobuf Messaging ConsensusProto ConsensusTypes ConsensusEngine History.

Module consensus_protocol.
Export history.
Local Open Scope Z_scope.

(** ** Messages *)

(** The requests of the service; what else the driver sends to the validator are
    acknowledgements and answers to pings. *)
Definition is_request (m : Message) : Prop :=
  Message_MessageType m ≠ Message_CONSENSUS_NOTIFY_ACK ∧ Message_MessageType m ≠ Message_PING_RESPONSE.
#[export] Instance is_request_dec m : Decision (is_request m).
Proof. unfold is_request. apply _. Defined.
Definition is_ack (m : Message) : Prop := Message_MessageType m = Message_CONSENSUS_NOTIFY_ACK.
#[export] Instance is_ack_dec m : Decision (is_ack m).
Proof. unfold is_ack. apply _. Defined.

(** What the validator sends: notifications, pings and replies. *)
Definition is_notice (m : Message) : Prop := is_notification (Message_MessageType m) = true.
#[export] Instance is_notice_dec m : Decision (is_notice m).
Proof. unfold is_notice. apply _. Defined.
Definition is_reply (m : Message) : Prop :=
  ¬ is_notice m ∧ Message_MessageType m ≠ Message_PING_REQUEST.
#[export] Instance is_reply_dec m : Decision (is_reply m).
Proof. unfold is_reply. apply _. Defined.

Abbreviation corr := Message_CorrelationId.

(** The thread of the engine, in histories. *)
Definition engine_thread : string := "engine".

(** What is recorded beside the history of calls: notifications sent, handled by the
    driver, the updates the engine took, the acknowledgements the validator got, and
    the replies the driver dropped. *)
Inductive note :=
| Notified (m : Message)
| Handled (m : Message)
| Took (u : ConsensusUpdate)
| Acked (k : string)
| Dropped (m : Message).

Definition notified : list note → list Message :=
  omap (λ x, match x with Notified m => Some m | _ => None end).
Definition handled : list note → list Message :=
  omap (λ x, match x with Handled m => Some m | _ => None end).
Definition took : list note → list ConsensusUpdate :=
  omap (λ x, match x with Took u => Some u | _ => None end).
Definition acked : list note → list string :=
  omap (λ x, match x with Acked k => Some k | _ => None end).
Definition dropped : list note → list Message :=
  omap (λ x, match x with Dropped m => Some m | _ => None end).

Lemma notified_app l1 l2 : notified (l1 ++ l2) = notified l1 ++ notified l2.
Proof. apply omap_app. Qed.
Lemma handled_app l1 l2 : handled (l1 ++ l2) = handled l1 ++ handled l2.
Proof. apply omap_app. Qed.
Lemma took_app l1 l2 : took (l1 ++ l2) = took l1 ++ took l2.
Proof. apply omap_app. Qed.
Lemma acked_app l1 l2 : acked (l1 ++ l2) = acked l1 ++ acked l2.
Proof. apply omap_app. Qed.
Lemma dropped_app l1 l2 : dropped (l1 ++ l2) = dropped l1 ++ dropped l2.
Proof. apply omap_app. Qed.

Create Rewrite HintDb logs.
#[export] Hint Rewrite notified_app handled_app took_app acked_app dropped_app
  calls_app execs_app returns_app call_ids_app exec_ids_app app_nil_r : logs.

(** The engine runs its own code, has sent a request, or waits for its reply. *)
Inductive Rpc :=
| Running
| Sent (q : Message)
| Waiting (q : Message).

(** The request of the call in progress. *)
Definition current (cl : Rpc) : option Message :=
  match cl with Running => None | Sent q | Waiting q => Some q end.

Section protocol.
Context `{Proto Message, EngineProtos, Proto PingResponse}.
Context {V : Type} (serve : V → Message → option (Z * bytes * V)).

(** The update of a notification; [None] when the driver panics on it. *)
Definition decoded (m : Message) : option (option ConsensusUpdate) :=
  match (decode_update (S:=unit) m tt).1 with Ret u => Some u | _ => None end.
Definition update_of (m : Message) : option ConsensusUpdate := mjoin (decoded m).

Definition marshalled {A} `{Proto A} (a : A) : bytes :=
  match Marshal a with inr d => d | inl _ => "" end.
Definition ack : Message → Message :=
  answer_to Message_CONSENSUS_NOTIFY_ACK (marshalled Build_ConsensusNotifyAck).
Definition pong : Message → Message :=
  answer_to Message_PING_RESPONSE (marshalled Build_PingResponse).

(** ** The machine *)

(** Requests on their way to the driver ([up]), what the driver sent to the validator
    ([av]) and the validator to it ([dn]), replies on their way to the service ([bk]);
    the update channel ([ch]), the noted ids ([no]), the notification the driver waits
    to put on the channel ([bz]); the engine ([cl]), the validator ([v]); the history of
    calls ([h]) and the notes ([n]). *)
Record Protocol := St {
  p_up : list Message;
  p_av : list Message;
  p_dn : list Message;
  p_bk : list Message;
  p_ch : list ConsensusUpdate;
  p_no : gset string;
  p_bz : option Message;
  p_cl : Rpc;
  p_v : V;
  p_h : list event;
  p_n : list note }.

Definition room (u : option ConsensusUpdate) (ch : list ConsensusUpdate) : Prop :=
  match u with Some _ => (length ch < updateChan_cap)%nat | None => True end.

#[export] Instance room_dec u c : Decision (room u c).
Proof. destruct u; simpl; apply _. Defined.

Inductive move : Protocol → Protocol → Prop :=
(** The driver: a notification goes to the channel and is acknowledged, or the driver
    waits for room in the channel; a ping is answered; a reply is passed on or
    dropped; a request of the service is passed on. *)
| m_handle up av m dn bk ch no cl v h n u :
    is_notice m → decoded m = Some u → room u ch →
    move (St up av (m :: dn) bk ch no None cl v h n)
         (St up (av ++ [ack m]) dn bk (ch ++ option_list u) no None cl v h (n ++ [Handled m]))
| m_block up av m dn bk ch no cl v h n u :
    is_notice m → decoded m = Some u → ¬ room u ch →
    move (St up av (m :: dn) bk ch no None cl v h n) (St up av dn bk ch no (Some m) cl v h n)
| m_resume up av m dn bk ch no cl v h n u :
    decoded m = Some u → room u ch →
    move (St up av dn bk ch no (Some m) cl v h n)
         (St up (av ++ [ack m]) dn bk (ch ++ option_list u) no None cl v h (n ++ [Handled m]))
| m_ping up av m dn bk ch no cl v h n :
    Message_MessageType m = Message_PING_REQUEST →
    move (St up av (m :: dn) bk ch no None cl v h n)
         (St up (av ++ [pong m]) dn bk ch no None cl v h n)
| m_pass up av m dn bk ch no cl v h n :
    is_reply m → corr m ≠ "" ∧ corr m ∈ no →
    move (St up av (m :: dn) bk ch no None cl v h n) (St up av dn (bk ++ [m]) ch no None cl v h n)
| m_drop up av m dn bk ch no cl v h n :
    is_reply m → ¬ (corr m ≠ "" ∧ corr m ∈ no) →
    move (St up av (m :: dn) bk ch no None cl v h n)
         (St up av dn bk ch no None cl v h (n ++ [Dropped m]))
| m_forward up av m dn bk ch no cl v h n :
    move (St (m :: up) av dn bk ch no None cl v h n) (St up (av ++ [m]) dn bk ch no None cl v h n)
(** The engine: it calls with a new id, notes the id, returns with a reply, and takes
    updates when it is not in a call. *)
| m_call up av dn bk ch no bz v h n q :
    is_request q → corr q ≠ "" → corr q ∉ call_ids h →
    move (St up av dn bk ch no bz Running v h n)
         (St (up ++ [q]) av dn bk ch no bz (Sent q) v (h ++ [Called engine_thread q]) n)
| m_note up av dn bk ch no bz q v h n :
    move (St up av dn bk ch no bz (Sent q) v h n)
         (St up av dn bk ch ({[corr q]} ∪ no) bz (Waiting q) v h n)
| m_return up av dn m ch no bz q v h n :
    corr m = corr q →
    move (St up av dn [m] ch no bz (Waiting q) v h n)
         (St up av dn [] ch (no ∖ {[corr q]}) bz Running v (h ++ [Returned engine_thread m]) n)
| m_take up av dn bk u ch no bz v h n :
    move (St up av dn bk (u :: ch) no bz Running v h n)
         (St up av dn bk ch no bz Running v h (n ++ [Took u]))
(** The validator: it executes a request, gets an acknowledgement or an answer to a
    ping, sends a notification or a ping. *)
| m_serve up q av dn bk ch no bz cl v h n t b v' :
    is_request q → serve v q = Some (t, b, v') →
    move (St up (q :: av) dn bk ch no bz cl v h n)
         (St up av (dn ++ [answer_to t b q]) bk ch no bz cl v' (h ++ [Executed q (answer_to t b q)]) n)
| m_acked up m av dn bk ch no bz cl v h n :
    is_ack m →
    move (St up (m :: av) dn bk ch no bz cl v h n)
         (St up av dn bk ch no bz cl v h (n ++ [Acked (corr m)]))
| m_ignore up m av dn bk ch no bz cl v h n :
    ¬ is_request m → ¬ is_ack m →
    move (St up (m :: av) dn bk ch no bz cl v h n) (St up av dn bk ch no bz cl v h n)
| m_notify up av dn bk ch no bz cl v h n m :
    is_notice m →
    move (St up av dn bk ch no bz cl v h n)
         (St up av (dn ++ [m]) bk ch no bz cl v h (n ++ [Notified m]))
| m_alive up av dn bk ch no bz cl v h n m :
    Message_MessageType m = Message_PING_REQUEST →
    move (St up av dn bk ch no bz cl v h n) (St up av (dn ++ [m]) bk ch no bz cl v h n).

(** Everything at rest. *)
Definition at_rest (v : V) : Protocol := St [] [] [] [] [] ∅ None Running v [] [].

(** ** Where a call can be *)

(** The state of the engine's call: what is noted, and what waits for the engine. *)
Definition call_ok (p : Protocol) : Prop :=
  match p_cl p with
  | Running => p_no p = ∅ ∧ p_bk p = []
  | Sent q => p_no p = ∅ ∧ p_bk p = []
  | Waiting q => p_no p = {[corr q]} ∧ Forall (λ m, corr m = corr q) (p_bk p)
  end ∧
  ∀ q, current (p_cl p) = Some q →
    last_call (p_h p) engine_thread = Some q ∧ corr q ∉ corr <$> returns (p_h p).

(** Every call is in exactly one place: on its way to the driver or to the validator,
    or executed; and then its reply is on its way to the driver or to the service,
    was dropped, or was returned. *)
Definition placed (p : Protocol) : Prop :=
  call_ids (p_h p) ≡ₚ
    (corr <$> p_up p) ++ (corr <$> filter is_request (p_av p)) ++ exec_ids (p_h p).
Definition answered (p : Protocol) : Prop :=
  exec_ids (p_h p) ≡ₚ
    (corr <$> filter is_reply (p_dn p)) ++ (corr <$> p_bk p) ++
    (corr <$> dropped (p_n p)) ++ (corr <$> returns (p_h p)).

Record Inv (v0 : V) (p : Protocol) : Prop := {
  i_serial : serial serve v0 (execs (p_h p)) (p_v p);
  i_ordered : ordered (p_h p);
  i_unique : NoDup (call_ids (p_h p));
  i_calls w q : (w, q) ∈ calls (p_h p) → is_request q ∧ corr q ≠ "";
  i_execs q a : (q, a) ∈ execs (p_h p) →
    corr a = corr q ∧ is_reply a ∧ ∃ w, (w, q) ∈ calls (p_h p);
  i_sent q : q ∈ p_up p ++ filter is_request (p_av p) → ∃ w, (w, q) ∈ calls (p_h p);
  i_replies m : m ∈ filter is_reply (p_dn p) ++ p_bk p → ∃ q, (q, m) ∈ execs (p_h p);
  i_placed : placed p;
  i_answered : answered p;
  i_call : call_ok p }.

Lemma inv_at_rest v : Inv v (at_rest v).
Proof.
  split; try done; try (by intros; exfalso; set_solver).
  - constructor.
  - intros [] ? ? ?; discriminate.
  - constructor.
  - constructor.
  - constructor.
Qed.

(** An id that is nowhere was never called. *)
Lemma executed_called p v0 k : Inv v0 p → k ∈ exec_ids (p_h p) → k ∈ call_ids (p_h p).
Proof. intros HI Hk. eapply elem_of_Permutation_proper; [exact (i_placed _ _ HI)|]. set_solver. Qed.
Lemma returned_executed p v0 k :
  Inv v0 p → k ∈ corr <$> returns (p_h p) → k ∈ exec_ids (p_h p).
Proof. intros HI Hk. eapply elem_of_Permutation_proper; [exact (i_answered _ _ HI)|]. set_solver. Qed.

Lemma request_unique p v0 w q w' q' :
  Inv v0 p → (w, q) ∈ calls (p_h p) → (w', q') ∈ calls (p_h p) → corr q = corr q' → q = q'.
Proof.
  intros HI Hq Hq' E. pose proof (NoDup_fmap_eq _ _ _ _ (i_unique _ _ HI) Hq Hq' E). by simplify_eq.
Qed.

Lemma not_request_ack m : ¬ is_request (ack m).
Proof. intros [Hn _]. done. Qed.
Lemma not_request_pong m : ¬ is_request (pong m).
Proof. intros [_ Hn]. done. Qed.
Lemma notice_not_reply m : is_notice m → ¬ is_reply m.
Proof. intros Hm [Hn _]. done. Qed.
Lemma ping_not_reply m : Message_MessageType m = Message_PING_REQUEST → ¬ is_reply m.
Proof. intros Hm [_ Hn]. done. Qed.
Lemma ping_not_notice m : Message_MessageType m = Message_PING_REQUEST → ¬ is_notice m.
Proof. unfold is_notice. intros ->. vm_compute. done. Qed.

Lemma ack_not_request m : is_ack m → ¬ is_request m.
Proof. by intros ? []. Qed.

(** The validator does not answer with a notification or a ping. *)
Definition replies : Prop := ∀ v q t b v', serve v q = Some (t, b, v') →
  is_notification t = false ∧ t ≠ Message_PING_REQUEST.
Context (serve_replies : replies).

Lemma served_reply v q t b v' : serve v q = Some (t, b, v') → is_reply (answer_to t b q).
Proof.
  intros Hs. destruct (serve_replies _ _ _ _ _ Hs) as [Hn Hp]. split; [|done].
  unfold is_notice. simpl. by rewrite Hn.
Qed.

#[local] Hint Resolve not_request_ack not_request_pong notice_not_reply ping_not_reply
  served_reply ping_not_notice ack_not_request : core.

(** Evaluates the filters and the logs of a move. *)
Ltac sieve := cbn [p_up p_av p_dn p_bk p_ch p_no p_bz p_cl p_v p_h p_n] in *;
  repeat first
    [ rewrite filter_snoc_True by eauto | rewrite filter_snoc_False by eauto
    | rewrite filter_cons_True by eauto | rewrite filter_cons_False by eauto ];
  autorewrite with logs in *; rewrite ?fmap_app, ?fmap_cons, ?fmap_nil; simpl.

Lemma placed_kept v0 p p' : move p p' → Inv v0 p → placed p'.
Proof.
  intros Hm HI. pose proof (i_placed _ _ HI) as Hp. pose proof (i_sent _ _ HI) as Hs.
  pose proof (i_calls _ _ HI) as Hc.
  revert Hp Hs Hc. unfold placed. destruct Hm; sieve; intros Hp Hs Hc; try done.
  - destruct (Hs m) as [w Hw]; [set_solver|]. destruct (Hc _ _ Hw) as [Hr _].
    sieve. rewrite Hp. solve_Permutation.
  - change (call_ids [Called engine_thread q]) with [corr q]. rewrite Hp. solve_Permutation.
  - change (exec_ids [Executed q (answer_to t b q)]) with [corr q]. rewrite Hp. solve_Permutation.
Qed.

Lemma answered_kept v0 p p' : move p p' → Inv v0 p → answered p'.
Proof.
  intros Hm HI. pose proof (i_answered _ _ HI) as Hp.
  revert Hp. unfold answered. destruct Hm; sieve; intros Hp; try done.
  - rewrite Hp. solve_Permutation.
  - rewrite Hp. solve_Permutation.
  - rewrite Hp. solve_Permutation.
  - change (exec_ids [Executed q (answer_to t b q)]) with [corr q]. rewrite Hp. solve_Permutation.
Qed.

(** A request that has not reached the validator was not executed. *)
Lemma request_not_executed v0 p q a :
  Inv v0 p → q ∈ filter is_request (p_av p) → (q, a) ∉ execs (p_h p).
Proof.
  intros HI Hq Ha. pose proof (i_placed _ _ HI) as Hp. pose proof (i_unique _ _ HI) as Hn.
  unfold placed in Hp. rewrite Hp in Hn. apply NoDup_app in Hn as (_ & _ & Hn).
  apply NoDup_app in Hn as (_ & Hn & _). apply (Hn (corr q)).
  - apply list_elem_of_fmap. eauto.
  - apply list_elem_of_fmap. by exists (q, a).
Qed.

(** A request is executed with one reply only. *)
Lemma executed_once v0 p q a a' :
  Inv v0 p → (q, a) ∈ execs (p_h p) → (q, a') ∈ execs (p_h p) → a = a'.
Proof.
  intros HI Ha Ha'. pose proof (i_placed _ _ HI) as Hp. pose proof (i_unique _ _ HI) as Hn.
  unfold placed in Hp. rewrite Hp in Hn. do 2 apply NoDup_app in Hn as (_ & _ & Hn).
  by pose proof (NoDup_fmap_eq _ _ _ _ Hn Ha Ha' eq_refl) as [= ->].
Qed.

(** The reply the engine gets is that of its own call. *)
Lemma reply_of_call v0 p q m :
  Inv v0 p → current (p_cl p) = Some q → m ∈ p_bk p → corr m = corr q →
  last_call (p_h p) engine_thread = Some q ∧ (q, m) ∈ execs (p_h p).
Proof.
  intros HI Hcl Hm E. destruct (i_call _ _ HI) as [_ Hlast].
  destruct (Hlast q Hcl) as [Hq _]. split; [done|].
  destruct (i_replies _ _ HI m) as [q' Hex]; [set_solver|].
  destruct (i_execs _ _ HI _ _ Hex) as (E' & _ & w & Hw).
  by rewrite (request_unique _ _ _ _ _ _ HI (last_call_in _ _ _ Hq) Hw) by congruence.
Qed.

Lemma ordered_kept v0 p p' : move p p' → Inv v0 p → ordered (p_h p').
Proof.
  intros Hm HI. pose proof (i_ordered _ _ HI) as Ho.
  destruct Hm; try exact Ho; (apply ordered_snoc; [exact Ho|]).
  - done.
  - exists q. by apply (reply_of_call v0 _ q m HI eq_refl); [left|].
  - assert (Hin : q ∈ filter is_request (q :: av)) by (apply list_elem_of_filter; set_solver).
    split; [|intros a; by apply (request_not_executed v0 _ _ _ HI)].
    apply (i_sent _ _ HI). simpl. set_solver.
Qed.

Lemma serial_kept v0 p p' : move p p' → Inv v0 p → serial serve v0 (execs (p_h p')) (p_v p').
Proof.
  intros Hm HI. pose proof (i_serial _ _ HI) as Hs. destruct Hm; sieve; try exact Hs.
  by eapply serial_snoc.
Qed.

Lemma last_call_events tr e : calls e = [] → last_call (tr ++ e) engine_thread = last_call tr engine_thread.
Proof. intros E. unfold last_call. by rewrite calls_app, E, app_nil_r. Qed.

Lemma call_ok_kept v0 p p' : move p p' → Inv v0 p → call_ok p'.
Proof.
  intros Hm HI. pose proof (i_call _ _ HI) as Hc. destruct Hm; try exact Hc.
  - destruct Hc as [Hs Hc]. split; [|exact Hc]. destruct cl as [|q|q]; simpl in *; [set_solver..|].
    destruct Hs as [Hno Hbk]. split; [done|]. apply Forall_app. split; [done|]. repeat constructor.
    set_solver.
  - split; [apply Hc|]. simpl. intros q' [= <-]. sieve. split; [apply last_call_snoc|].
    intros Hk. match goal with Hn : _ ∉ call_ids h |- _ => apply Hn end.
    by apply (executed_called _ _ _ HI), (returned_executed _ _ _ HI).
  - destruct Hc as [[Hno Hbk] Hc]. split; [|exact Hc]. simpl in *. subst. split; [set_solver|constructor].
  - destruct Hc as [[Hno _] _]. split; [|done]. simpl in *. subst. split; [set_solver|done].
  - destruct Hc as [Hs Hc]. split; [exact Hs|]. simpl. intros q' Hq'.
    rewrite last_call_events by done. sieve. by apply Hc.
Qed.

(** The facts about single messages. *)
Lemma calls_kept v0 p p' w q :
  move p p' → Inv v0 p → (w, q) ∈ calls (p_h p') → is_request q ∧ corr q ≠ "".
Proof.
  intros Hm HI. pose proof (i_calls _ _ HI w q) as Hc. destruct Hm; sieve; try exact Hc.
  rewrite elem_of_app, list_elem_of_singleton. intros [?|[= -> ->]]; [by apply Hc|done].
Qed.

Lemma calls_grow p p' x : move p p' → x ∈ calls (p_h p) → x ∈ calls (p_h p').
Proof. intros Hm Hx. destruct Hm; sieve; try exact Hx. set_solver. Qed.
Lemma execs_grow p p' x : move p p' → x ∈ execs (p_h p) → x ∈ execs (p_h p').
Proof. intros Hm Hx. destruct Hm; sieve; try exact Hx. set_solver. Qed.

Lemma execs_kept v0 p p' q a :
  move p p' → Inv v0 p → (q, a) ∈ execs (p_h p') →
  corr a = corr q ∧ is_reply a ∧ ∃ w, (w, q) ∈ calls (p_h p').
Proof.
  intros Hm HI Hx. assert (Hold : (q, a) ∈ execs (p_h p) → corr a = corr q ∧ is_reply a ∧
    ∃ w, (w, q) ∈ calls (p_h p')).
  { intros (? & ? & w & Hw)%(i_execs _ _ HI). eauto using calls_grow. }
  revert Hx Hold. destruct Hm; sieve; intros Hx Hold; try (by apply Hold).
  apply elem_of_app in Hx as [Hx|Hx]; [by apply Hold|].
  apply list_elem_of_singleton in Hx as [= -> ->]. split; [done|]. split; [eauto|].
  apply (i_sent _ _ HI). simpl. rewrite filter_cons_True by done. set_solver.
Qed.

Lemma sent_kept v0 p p' q :
  move p p' → Inv v0 p → q ∈ p_up p' ++ filter is_request (p_av p') →
  ∃ w, (w, q) ∈ calls (p_h p').
Proof.
  intros Hm HI Hx. assert (Hold : q ∈ p_up p ++ filter is_request (p_av p) →
    ∃ w, (w, q) ∈ calls (p_h p')).
  { intros [w Hw]%(i_sent _ _ HI). eauto using calls_grow. }
  revert Hx Hold. destruct Hm; sieve; intros Hx Hold; try (by apply Hold).
  - apply Hold. revert Hx. rewrite filter_app, filter_cons, filter_nil. case_decide; set_solver.
  - apply elem_of_app in Hx as [Hx|Hx]; [|apply Hold; set_solver].
    apply elem_of_app in Hx as [Hx|Hx]; [apply Hold; set_solver|].
    apply list_elem_of_singleton in Hx as ->. exists engine_thread. set_solver.
  - apply Hold. set_solver.
Qed.

Lemma replies_kept v0 p p' m :
  move p p' → Inv v0 p → m ∈ filter is_reply (p_dn p') ++ p_bk p' →
  ∃ q, (q, m) ∈ execs (p_h p').
Proof.
  intros Hm HI Hx. assert (Hold : m ∈ filter is_reply (p_dn p) ++ p_bk p →
    ∃ q, (q, m) ∈ execs (p_h p')).
  { intros [q Hq]%(i_replies _ _ HI). eauto using execs_grow. }
  revert Hx Hold. destruct Hm; sieve; intros Hx Hold; try (by apply Hold).
  - apply Hold. set_solver.
  - apply Hold. set_solver.
  - apply Hold. set_solver.
  - apply elem_of_app in Hx as [Hx|Hx]; [|apply Hold; set_solver].
    apply elem_of_app in Hx as [Hx|Hx]; [apply Hold; set_solver|].
    apply list_elem_of_singleton in Hx as ->. exists q. set_solver.
Qed.

Lemma unique_kept v0 p p' : move p p' → Inv v0 p → NoDup (call_ids (p_h p')).
Proof.
  intros Hm HI. pose proof (i_unique _ _ HI) as Hn. destruct Hm; sieve; try exact Hn.
  apply NoDup_app. split; [done|]. split; [|apply NoDup_singleton]. by intros k Hk ->%list_elem_of_singleton.
Qed.

Lemma inv_move v0 p p' : move p p' → Inv v0 p → Inv v0 p'.
Proof.
  intros Hm HI. split; eauto using serial_kept, ordered_kept, unique_kept, calls_kept, execs_kept,
    sent_kept, replies_kept, placed_kept, answered_kept, call_ok_kept.
Qed.

Lemma inv_moves v0 p p' : rtc move p p' → Inv v0 p → Inv v0 p'.
Proof. induction 1 as [|p p1 p' Hm _ IH]; [done|]. intros HI. apply IH. by eapply inv_move. Qed.

(** At most one reply waits for the engine, and only while it waits. *)
Lemma one_reply v0 p :
  Inv v0 p →
  p_bk p = [] ∨ ∃ m q, p_bk p = [m] ∧ p_cl p = Waiting q ∧ corr m = corr q.
Proof.
  intros HI. pose proof (i_answered _ _ HI) as Ha. pose proof (i_placed _ _ HI) as Hp.
  pose proof (i_unique _ _ HI) as Hn. unfold placed in Hp. unfold answered in Ha.
  rewrite Hp, Ha in Hn. do 3 apply NoDup_app in Hn as (_ & _ & Hn). apply NoDup_app in Hn as (Hn & _).
  destruct (i_call _ _ HI) as [Hs _]. destruct (p_cl p) as [|q|q]; [left; apply Hs..|].
  destruct Hs as [_ Hs]. destruct (p_bk p) as [|m1 [|m2 l]]; [by left|right|exfalso].
  - apply Forall_cons_1 in Hs as [Hs _]. eauto.
  - apply Forall_cons_1 in Hs as [E1 [E2 _]%Forall_cons_1]. simpl in Hn.
    apply NoDup_cons in Hn as [Hn _]. apply Hn. rewrite E1, E2. by left.
Qed.

(** ** Notifications *)

(** Notifications are handled in the order in which they were sent, each once; those
    not handled yet are the one that waits for room and those on the socket.  The
    updates of the handled ones were taken, in this order, or are in the channel,
    which holds at most two; and each is acknowledged, in this order. *)
Record Delivery (p : Protocol) : Prop := {
  d_handled : notified (p_n p) =
    handled (p_n p) ++ option_list (p_bz p) ++ filter is_notice (p_dn p);
  d_taken : omap update_of (handled (p_n p)) = took (p_n p) ++ p_ch p;
  d_acked : corr <$> handled (p_n p) = acked (p_n p) ++ (corr <$> filter is_ack (p_av p));
  d_room : (length (p_ch p) ≤ updateChan_cap)%nat }.

Lemma delivery_at_rest v : Delivery (at_rest v).
Proof. split; try done. simpl. lia. Qed.

Lemma room_kept u c : room u c → (length c ≤ updateChan_cap)%nat →
  (length (c ++ option_list u) ≤ updateChan_cap)%nat.
Proof. destruct u; simpl; rewrite length_app; simpl; lia. Qed.

Lemma update_decoded m u : decoded m = Some u → update_of m = u.
Proof. unfold update_of. by intros ->. Qed.
Lemma omap_update m u : decoded m = Some u → omap update_of [m] = option_list u.
Proof. intros E. simpl. rewrite (update_decoded _ _ E). by destruct u. Qed.

Lemma ack_is_ack m : is_ack (ack m).
Proof. done. Qed.
Lemma pong_not_ack m : ¬ is_ack (pong m).
Proof. done. Qed.
Lemma request_not_ack m : is_request m → ¬ is_ack m.
Proof. by intros []. Qed.
Lemma reply_not_notice m : is_reply m → ¬ is_notice m.
Proof. by intros []. Qed.
#[local] Hint Resolve ack_is_ack pong_not_ack request_not_ack reply_not_notice : core.

Lemma delivery_handle p p' m u :
  Delivery p → p_n p' = p_n p ++ [Handled m] → p_ch p' = p_ch p ++ option_list u → p_av p' = p_av p ++ [ack m] →
  decoded m = Some u → room u (p_ch p) →
  option_list (p_bz p) ++ filter is_notice (p_dn p) =
    m :: option_list (p_bz p') ++ filter is_notice (p_dn p') →
  Delivery p'.
Proof.
  intros [Hh Ht Hk Hl] En Ec Ea Hu Hr Ef. split; rewrite ?En, ?Ec, ?Ea; sieve.
  - rewrite Hh, Ef, <-app_assoc. done.
  - rewrite omap_app, Ht, (omap_update _ _ Hu), app_assoc. done.
  - by rewrite Hk, <-app_assoc.
  - by apply room_kept.
Qed.

Lemma delivery_move v0 p p' : move p p' → Inv v0 p → Delivery p → Delivery p'.
Proof.
  intros Hm HI HD. pose proof (i_sent _ _ HI) as Hs. pose proof (i_calls _ _ HI) as Hc.
  destruct Hm.
  1: apply (delivery_handle _ _ m u HD); try done; simpl; by rewrite filter_cons_True.
  2: by apply (delivery_handle _ _ m u HD).
  all: destruct HD as [Hh Ht Hk Hl]; revert Hh Ht Hk Hl; sieve; intros Hh Ht Hk Hl;
    split; sieve; try done.
  - destruct (Hs m) as [w Hw]; [set_solver|]. destruct (Hc _ _ Hw) as [Hr _]. by sieve.
  - by rewrite <-app_assoc.
  - simpl in Hl. lia.
  - by rewrite Hk, <-app_assoc.
  - by rewrite Hh, <-!app_assoc.
Qed.

Lemma delivery_moves v0 p p' : rtc move p p' → Inv v0 p → Delivery p → Delivery p'.
Proof.
  induction 1 as [|p p1 p' Hm _ IH]; [done|]. intros HI HD.
  apply IH; [by eapply inv_move|by eapply delivery_move].
Qed.

(** ** Calls that do not end *)

(** The reply to the call in progress was dropped. *)
Definition lost (q : Message) (p : Protocol) : Prop :=
  current (p_cl p) = Some q ∧ corr q ∈ corr <$> dropped (p_n p).
(** The driver waits for room in the channel, the engine for a reply that has not
    reached the service. *)
Definition deadlocked (q m : Message) (p : Protocol) : Prop :=
  p_bz p = Some m ∧ ¬ room (update_of m) (p_ch p) ∧ current (p_cl p) = Some q ∧ p_bk p = [].

Lemma dropped_not_held v0 p k :
  Inv v0 p → k ∈ corr <$> dropped (p_n p) → k ∉ corr <$> p_bk p.
Proof.
  intros HI Hk Hk'. pose proof (i_unique _ _ HI) as Hn. pose proof (i_placed _ _ HI) as Hp.
  pose proof (i_answered _ _ HI) as Ha. unfold placed in Hp. unfold answered in Ha.
  rewrite Hp, Ha in Hn. do 3 apply NoDup_app in Hn as (_ & _ & Hn).
  apply NoDup_app in Hn as (_ & Hn & _). apply (Hn k Hk'). set_solver.
Qed.

Lemma lost_move v0 p p' q : move p p' → Inv v0 p → lost q p → lost q p'.
Proof.
  intros Hm HI [Hcl Hd]. pose proof (dropped_not_held _ _ _ HI Hd) as Hno.
  destruct Hm; simpl in Hcl, Hd, Hno; unfold lost; sieve; try (split; [done|]; set_solver).
  injection Hcl as <-. exfalso. apply Hno. simpl. set_solver.
Qed.

Lemma deadlocked_move p p' q m : move p p' → deadlocked q m p → deadlocked q m p'.
Proof.
  intros Hm (Hb & Hr & Hcl & Hbk). destruct Hm; simpl in *; unfold deadlocked; simpl; simplify_eq; try done.
  exfalso. apply Hr. by erewrite update_decoded.
Qed.

(** ** Calls that can end *)

(** It answers every request. *)
Definition answers_all : Prop := ∀ v q, is_request q → ∃ t b v', serve v q = Some (t, b, v').
Context (serve_total : answers_all).

(** The driver can handle all notifications that were sent without waiting. *)
Definition unhandled (p : Protocol) : list Message :=
  option_list (p_bz p) ++ filter is_notice (p_dn p).
Definition ready (p : Protocol) : Prop :=
  Forall (λ m, is_Some (decoded m)) (unhandled p) ∧
  (length (p_ch p) + length (unhandled p) ≤ updateChan_cap)%nat.

Definition weight (m : Message) : nat := if decide (is_request m) then 3 else 1.
Definition work (p : Protocol) : nat :=
  4 * length (p_up p) + sum_list_with weight (p_av p) +
  2 * (length (p_dn p) + length (option_list (p_bz p))).

(** What the driver and the validator do next when they work off what is under way: the
    driver first, messages of the validator before requests of the service. *)
Definition next (p : Protocol) : option Protocol :=
  let '(St up av dn bk ch no bz cl v h n) := p in
  match bz, dn, up, av with
  | Some m, _, _, _ =>
      u ← decoded m;
      if decide (room u ch) then
        Some (St up (av ++ [ack m]) dn bk (ch ++ option_list u) no None cl v h (n ++ [Handled m]))
      else None
  | None, m :: dn, _, _ =>
      if decide (is_notice m) then
        u ← decoded m;
        if decide (room u ch) then
          Some (St up (av ++ [ack m]) dn bk (ch ++ option_list u) no None cl v h (n ++ [Handled m]))
        else Some (St up av dn bk ch no (Some m) cl v h n)
      else if decide (Message_MessageType m = Message_PING_REQUEST) then
        Some (St up (av ++ [pong m]) dn bk ch no None cl v h n)
      else if decide (corr m ≠ "" ∧ corr m ∈ no) then Some (St up av dn (bk ++ [m]) ch no None cl v h n)
      else Some (St up av dn bk ch no None cl v h (n ++ [Dropped m]))
  | None, [], m :: up, _ => Some (St up (av ++ [m]) [] bk ch no None cl v h n)
  | None, [], [], m :: av =>
      if decide (is_request m) then
        '(t, b, v') ← serve v m;
        Some (St [] av [answer_to t b m] bk ch no None cl v' (h ++ [Executed m (answer_to t b m)]) n)
      else if decide (is_ack m) then Some (St [] av [] bk ch no None cl v h (n ++ [Acked (corr m)]))
      else Some (St [] av [] bk ch no None cl v h n)
  | None, [], [], [] => None
  end.

Lemma next_move p p' : next p = Some p' → move p p'.
Proof.
  destruct p as [up av dn bk ch no bz cl v h n]. simpl. destruct bz as [m|].
  { destruct (decoded m) as [u|] eqn:Hu; simpl; [|done]. case_decide; [|done].
    intros [= <-]. by apply m_resume. }
  destruct dn as [|m dn].
  - destruct up as [|m up]; [|intros [= <-]; apply m_forward].
    destruct av as [|m av]; [done|]. case_decide.
    + destruct (serve v m) as [[[t b] v']|] eqn:Hs; simpl; [|done]. intros [= <-].
      by apply (m_serve [] m av []).
    + case_decide; intros [= <-]; by constructor.
  - case_decide as Hn; [|case_decide as Hp; [|case_decide]].
    + destruct (decoded m) as [u|] eqn:Hu; simpl; [|done]. case_decide; intros [= <-];
        [by apply m_handle|by eapply m_block].
    + intros [= <-]. by apply m_ping.
    + intros [= <-]. by apply m_pass.
    + intros [= <-]. by apply m_drop.
Qed.

(** A move that works something off. *)
Record progress (q : Message) (p p' : Protocol) : Prop := {
  g_next : next p = Some p';
  g_work : (work p' < work p)%nat;
  g_ready : ready p';
  g_call : p_cl p' = p_cl p;
  g_kept : corr q ∉ corr <$> dropped (p_n p) → corr q ∉ corr <$> dropped (p_n p') }.

Lemma work_av_snoc up l m dn bk ch no bz cl v h n :
  work (St up (l ++ [m]) dn bk ch no bz cl v h n)
  = (work (St up l dn bk ch no bz cl v h n) + weight m)%nat.
Proof. unfold work. simpl. rewrite sum_list_with_app. simpl. lia. Qed.

Lemma weight_no m : ¬ is_request m → weight m = 1%nat.
Proof. intros ?. unfold weight. by rewrite decide_False. Qed.
Lemma weight_max m : (weight m ≤ 3)%nat.
Proof. unfold weight. case_decide; lia. Qed.

Lemma handle_room u (c : list ConsensusUpdate) k :
  (length c + S k ≤ updateChan_cap)%nat →
  room u c ∧ (length (c ++ option_list u) + k ≤ updateChan_cap)%nat.
Proof. intros Hl. rewrite length_app. destruct u; simpl in *; lia. Qed.

Lemma kept_same q n : corr q ∉ corr <$> dropped n → ∀ n', dropped n' = [] →
  corr q ∉ corr <$> dropped (n ++ n').
Proof. intros Hq n' E. by rewrite dropped_app, E, app_nil_r. Qed.

Lemma notice_progress up av m dn bk ch no cl v h n q :
  ready (St up av dn bk ch no (Some m) cl v h n) →
  (∃ p', progress q (St up av dn bk ch no (Some m) cl v h n) p') ∧
  (is_notice m → ∃ p', progress q (St up av (m :: dn) bk ch no None cl v h n) p').
Proof.
  intros [[[u Hu] Hdec]%Forall_cons_1 Hroom]. simpl in Hroom.
  destruct (handle_room u ch _ Hroom) as [Hr Hl].
  split; intros; eexists;
    (split; [cbn [next]; rewrite ?(decide_True (P := is_notice m)) by done; rewrite Hu; simpl;
             by rewrite decide_True|..]); try done.
  2, 4: intros ?; by apply kept_same.
  all: rewrite work_av_snoc, (weight_no (ack m)) by done; unfold work; simpl; lia.
Qed.

Lemma reply_progress v0 up av m dn bk ch no q v h n :
  Inv v0 (St up av (m :: dn) bk ch no None (Waiting q) v h n) →
  ready (St up av dn bk ch no None (Waiting q) v h n) → is_reply m →
  ∃ p', progress q (St up av (m :: dn) bk ch no None (Waiting q) v h n) p'.
Proof.
  intros HI Hready [Hm1 Hm2]. pose proof (i_call _ _ HI) as [[Hno _] Hlast]. simpl in Hno.
  destruct (decide (corr m ≠ "" ∧ corr m ∈ no)) as [Hk|Hk].
  { eexists. split; [cbn [next]; rewrite !decide_False by done; by rewrite decide_True|..]; try done.
    unfold work. simpl. lia. }
  eexists. split; [cbn [next]; by rewrite !decide_False by done|..]; try done; [unfold work; simpl; lia|].
  simpl. rewrite dropped_app, fmap_app. intros Hq. apply not_elem_of_app. split; [done|].
  intros E%list_elem_of_singleton. apply Hk. rewrite <-E, Hno. split; [|set_solver].
  destruct (Hlast q eq_refl) as [Hc%last_call_in _]. by apply (i_calls _ _ HI _ _ Hc).
Qed.

Lemma driver_progress v0 p q :
  Inv v0 p → p_cl p = Waiting q → ready p → (p_bz p ≠ None ∨ p_dn p ≠ []) →
  ∃ p', progress q p p'.
Proof.
  intros HI Hcl Hready Hne. destruct p as [up av dn bk ch no bz cl v h n]. simpl in *. subst cl.
  destruct bz as [m|]; [by apply notice_progress|].
  destruct Hne as [?|Hne]; [done|]. destruct dn as [|m dn]; [done|].
  destruct (decide (is_notice m)) as [Hn|Hn].
  { apply notice_progress; [|done].
    revert Hready. unfold ready, unhandled. simpl. by rewrite filter_cons_True. }
  assert (Hready' : ready (St up av dn bk ch no None (Waiting q) v h n)).
  { revert Hready. unfold ready, unhandled. simpl. by rewrite filter_cons_False. }
  destruct (decide (Message_MessageType m = Message_PING_REQUEST)) as [Hp|Hp];
    [|by eapply reply_progress].
  eexists. split; [cbn [next]; rewrite decide_False by done; by rewrite decide_True|..]; try done.
  rewrite work_av_snoc, (weight_no (pong m)) by done. unfold work. simpl. lia.
Qed.

Lemma validator_progress m av bk ch no cl v h n q :
  ready (St [] (m :: av) [] bk ch no None cl v h n) →
  ∃ p', progress q (St [] (m :: av) [] bk ch no None cl v h n) p'.
Proof.
  intros Hready. destruct (decide (is_request m)) as [Hm|Hm].
  - destruct (serve_total v m Hm) as (t & b & v' & Hs).
    eexists. split; [cbn [next]; rewrite decide_True by done; by rewrite Hs|..]; try done.
    + unfold work, weight. simpl. rewrite decide_True by done. lia.
    + revert Hready. unfold ready, unhandled. simpl. rewrite (filter_cons_False _ _ []); [done|].
      apply reply_not_notice. eauto.
  - destruct (decide (is_ack m)) as [Ha|Ha].
    + eexists. split; [cbn [next]; rewrite decide_False by done; by rewrite decide_True|..]; try done;
        [|intros ?; by apply kept_same].
      unfold work. simpl. rewrite (weight_no m) by done. lia.
    + eexists. split; [cbn [next]; by rewrite !decide_False by done|..]; try done.
      unfold work. simpl. rewrite (weight_no m) by done. lia.
Qed.

Lemma work_progress v0 p q :
  Inv v0 p → p_cl p = Waiting q → ready p → work p ≠ 0%nat → ∃ p', progress q p p'.
Proof.
  intros HI Hcl Hready Hw. destruct (decide (p_bz p ≠ None ∨ p_dn p ≠ [])) as [Hd|Hd];
    [by eapply driver_progress|].
  destruct p as [up av dn bk ch no bz cl v h n]. simpl in *. subst cl.
  assert (bz = None) as -> by (destruct bz; naive_solver).
  assert (dn = []) as -> by (destruct dn; naive_solver). clear Hd.
  destruct up as [|m up].
  2: { eexists. split; [done|..]; try done. rewrite work_av_snoc. unfold work. simpl.
       pose proof (weight_max m). lia. }
  destruct av as [|m av]; [done|]. by apply validator_progress.
Qed.

(** Everything under way can be worked off. *)
Lemma work_drains v0 p q :
  Inv v0 p → p_cl p = Waiting q → ready p → corr q ∉ corr <$> dropped (p_n p) →
  ∃ p', rtc move p p' ∧ Inv v0 p' ∧ p_cl p' = Waiting q ∧ (corr q ∉ corr <$> dropped (p_n p')) ∧
    work p' = 0%nat.
Proof.
  remember (work p) as k eqn:Ek. revert p Ek. induction (lt_wf k) as [k _ IH]. intros p -> HI Hcl Hr Hd.
  destruct (decide (work p = 0%nat)) as [Hz|Hz]; [by exists p|].
  destruct (work_progress v0 p q HI Hcl Hr Hz) as (p1 & [Hm%next_move Hw Hr1 Hc1 Hk1]).
  destruct (IH _ Hw p1 eq_refl) as (p' & ? & ?); [by eapply inv_move|congruence|done|by apply Hk1|].
  exists p'. split; [by eapply rtc_l|done].
Qed.

(** With nothing under way, the reply has reached the service. *)
Lemma idle_held v0 p q :
  Inv v0 p → p_cl p = Waiting q → corr q ∉ corr <$> dropped (p_n p) → work p = 0%nat →
  ∃ m, p_bk p = [m] ∧ corr m = corr q.
Proof.
  intros HI Hcl Hd Hz. destruct (i_call _ _ HI) as [_ Hlast]. destruct (Hlast q) as [Hq Hret];
    [by rewrite Hcl|].
  destruct (one_reply _ _ HI) as [Hbk|(m & q' & ? & ? & ?)]; [|exists m; split; congruence].
  exfalso. assert (Hin : corr q ∈ call_ids (p_h p)).
  { apply list_elem_of_fmap. exists (engine_thread, q). split; [done|]. by apply last_call_in. }
  eapply elem_of_Permutation_proper in Hin; [|symmetry; exact (i_placed _ _ HI)].
  assert (p_up p = [] ∧ p_av p = [] ∧ p_dn p = []) as (Eu & Ea & Ed).
  { unfold work in Hz. split_and!; [apply nil_length_inv; lia| |apply nil_length_inv; lia].
    destruct (p_av p) as [|x l]; [done|]. simpl in Hz. unfold weight in Hz. case_decide; lia. }
  rewrite Eu, Ea in Hin. simpl in Hin.
  eapply elem_of_Permutation_proper in Hin; [|symmetry; exact (i_answered _ _ HI)].
  rewrite Ed, Hbk in Hin. set_solver.
Qed.

(** A call whose reply was not dropped can return, when the driver does not have to
    wait for room in the channel. *)
Lemma call_can_return v0 p q :
  Inv v0 p → current (p_cl p) = Some q → ready p → corr q ∉ corr <$> dropped (p_n p) →
  ∃ p' m, rtc move p p' ∧ last (p_h p') = Some (Returned engine_thread m) ∧ corr m = corr q.
Proof.
  intros HI Hcl Hr Hd.
  assert (∃ p1, rtc move p p1 ∧ Inv v0 p1 ∧ p_cl p1 = Waiting q ∧ ready p1 ∧
    corr q ∉ corr <$> dropped (p_n p1)) as (p1 & Hrun1 & HI1 & Hcl1 & Hr1 & Hd1).
  { destruct p as [up av dn bk ch no bz [|q'|q'] v h n]; simpl in Hcl; simplify_eq; [|by eexists].
    eexists. split; [apply rtc_once, m_note|]. split; [eapply inv_move; [apply m_note|done]|done]. }
  destruct (work_drains v0 p1 q HI1 Hcl1 Hr1 Hd1) as (p2 & Hrun2 & HI2 & Hcl2 & Hd2 & Hz).
  destruct (idle_held v0 p2 q HI2 Hcl2 Hd2 Hz) as (m & Hbk & E).
  destruct p2 as [up av dn bk ch no bz cl v h n]. simpl in *. subst.
  eexists _, m. split; [etrans; [exact Hrun1|]; eapply rtc_r; [exact Hrun2|by apply m_return]|].
  simpl. by rewrite last_snoc.
Qed.
End protocol.
End consensus_protocol.
