(* ===== verification/ConsensusSystem.v ===== *)
(** * The consensus engine as a system

    The driver of [ConsensusEngine], the service of [ConsensusService] and an engine
    that uses it, composed with a validator into one transition system: driver, engine
    and validator move at any time, and each step of the driver or of the service runs
    the code of its component on sockets that are FIFO queues.  The service's table of
    noted ids is shared between the two goroutines, and the update channel is the
    driver's; a driver that waits for room in the channel does nothing else.  Shutdown
    and restarts are not part of the system.

    What is proved: the system implements the machine of [ConsensusProtocol], in both
    directions (a bisimulation), so that its theorems hold of the code. *)

From S2P Require Import Prelude GoLib Errors Protobuf Messaging Links History ConsensusProto ConsensusTypes ConsensusService ConsensusEngine ConsensusProtocol.

Module consensus_system.
Export links consensus_protocol.
Local Open Scope Z_scope.

Section system.
Context {M V : Type} `{Proto Message, GoRuntime, EngineProtos, Proto PingResponse}.
Context (serve : V → Message → option (Z * bytes * V)).

#[local] Instance link_connection : Connection conn := zmq_connection 0.
Abbreviation engine := (Engine conn M).

(** ** The system *)

(** The driver with its sockets, the update channel and the service; the notification
    it is about to put on a full channel; the engine; the validator; and what happened
    so far. *)
Record System := {
  drv : engine;
  stuck : option Message;
  rpc : Rpc;
  val_inbox : list (list string);
  val_state : V;
  trace : list event;
  notes : list note }.
Implicit Types (s : System) (e : engine).

Definition arrivals (frs : list (list string)) (c : conn) : conn :=
  foldl (λ c fr, arrive fr c) c frs.

(** What the driver and the service sent to each other arrives. *)
Definition wire e : engine :=
  let sock := service_sock e in
  let e := set_validator (flush (validator e)) e in
  match connection (service e) with
  | None => set_service_sock (flush sock) e
  | Some c =>
      set_service (set_connection (Some (arrivals (outbox sock) (flush c))) (service e))
        (set_service_sock (arrivals (outbox c) (flush sock)) e)
  end.

Definition after s e (b : option Message) (c : Rpc) (tr : list event) (ns : list note) : System := {|
  drv := wire e; stuck := b; rpc := c; val_inbox := val_inbox s ++ outbox (validator e);
  val_state := val_state s; trace := trace s ++ tr; notes := notes s ++ ns |}.

(** The first message from the validator, and what the driver does with it. *)
Definition head_msg e : option Message :=
  match inbox (validator e) with
  | fr :: _ => match frame_msg fr with Some (_, m, None) => Some m | _ => None end
  | [] => None
  end.
Definition observed e : list note :=
  match head_msg e with
  | Some m =>
      if decide (is_notice m) then [Handled m]
      else if decide (Message_MessageType m = Message_PING_REQUEST) then []
      else if decide (corr m ≠ "" ∧ hasCorrelationId (service e) (corr m) = true) then []
      else [Dropped m]
  | None => []
  end.

Definition from_validator s (d : bytes) : engine :=
  set_validator (arrive [d] (validator (drv s))) (drv s).
Definition with_next (id : string) (x : ZmqService conn) : ZmqService conn :=
  set_connection (with_id id <$> connection x) x.

Inductive step : System → System → Prop :=
(** The driver finds the validator's socket ready; it handles the message, or waits for
    room in the channel and goes on when there is some; or it finds the service's
    socket ready. *)
| step_validator s e :
    stuck s = None → inbox (validator (drv s)) ≠ [] →
    receiveValidator (drv s) = (Ret tt, e) →
    step s (after s e None (rpc s) [] (observed (drv s)))
| step_block s e m :
    stuck s = None → head_msg (drv s) = Some m → receiveValidator (drv s) = (Blocked, e) →
    step s (after s e (Some m) (rpc s) [] [])
| step_resume s m e :
    stuck s = Some m → answer_notification m (drv s) = (Ret tt, e) →
    step s (after s e None (rpc s) [] [Handled m])
| step_service s e :
    stuck s = None → inbox (service_sock (drv s)) ≠ [] → receiveService (drv s) = (Ret tt, e) →
    step s (after s e None (rpc s) [] [])
(** The engine: [serviceRpc] in its three parts, and taking an update. *)
| step_call s t b id x :
    rpc s = Running → id ≠ "" → id ∉ call_ids (trace s) →
    let q := {| Message_MessageType := t; Message_CorrelationId := id; Message_Content := b |} in
    is_request q → rpc_send t b (with_next id (service (drv s))) = (Ret (id, None), x) →
    step s (after s (set_service x (drv s)) (stuck s) (Sent q) [Called engine_thread q] [])
| step_note s q x :
    rpc s = Sent q → rpc_note (corr q) (service (drv s)) = (Ret tt, x) →
    step s (after s (set_service x (drv s)) (stuck s) (Waiting q) [] [])
| step_return s q fuel r x :
    rpc s = Waiting q →
    rpc_await (H:=zmq_connection fuel) (corr q) (service (drv s)) = (Ret r, x) →
    step s (after s (set_service x (drv s)) (stuck s) Running
      (match r with inr (Some m) => [Returned engine_thread m] | _ => [] end) [])
| step_take s u rest :
    rpc s = Running → updateChan (drv s) = u :: rest →
    step s (after s (set_updateChan rest (drv s)) (stuck s) Running [] [Took u])
(** The validator. *)
| step_serve s fr rest i q t b v d :
    val_inbox s = fr :: rest → frame_msg fr = Some (i, q, None) → is_request q →
    serve (val_state s) q = Some (t, b, v) → DumpMsg t b (corr q) = inr d →
    step s {| drv := from_validator s d; stuck := stuck s; rpc := rpc s; val_inbox := rest;
              val_state := v; trace := trace s ++ [Executed q (answer_to t b q)]; notes := notes s |}
| step_ignore s fr rest i m :
    val_inbox s = fr :: rest → frame_msg fr = Some (i, m, None) → ¬ is_request m →
    step s {| drv := drv s; stuck := stuck s; rpc := rpc s; val_inbox := rest;
              val_state := val_state s; trace := trace s;
              notes := notes s ++ if decide (is_ack m) then [Acked (corr m)] else [] |}
| step_notify s m d :
    is_notice m → Marshal m = inr d →
    step s {| drv := from_validator s d; stuck := stuck s; rpc := rpc s; val_inbox := val_inbox s;
              val_state := val_state s; trace := trace s; notes := notes s ++ [Notified m] |}
| step_ping s m d :
    Message_MessageType m = Message_PING_REQUEST → Marshal m = inr d →
    step s {| drv := from_validator s d; stuck := stuck s; rpc := rpc s; val_inbox := val_inbox s;
              val_state := val_state s; trace := trace s; notes := notes s |}.

(** The driver polls, the service is connected, nothing is under way. *)
Record initial (v : V) s : Prop := {
  init_validator : idle (validator (drv s));
  init_sock : idle (service_sock (drv s));
  init_service : ∃ c, connection (service (drv s)) = Some c ∧ idle c;
  init_ids : corrIds (service (drv s)) = ∅;
  init_chan : updateChan (drv s) = [] ∧ updateChan_closed (drv s) = false;
  init_rest : stuck s = None ∧ rpc s = Running ∧ val_inbox s = [] ∧ val_state s = v ∧
    trace s = [] ∧ notes s = [] }.

(** ** What the code does to the messages *)

Abbreviation carry := (Forall2 carries).

(** The messages on the sockets of the driver and the service: those that arrived and
    those they sent. *)
Record shows e (up dn bk : list Message) (ch : list ConsensusUpdate) (no : gset string)
    (ou ov ob : list Message) : Prop := {
  s_up : carry (inbox (service_sock e)) up;
  s_ob : carry (outbox (service_sock e)) ob;
  s_dn : carry (inbox (validator e)) dn;
  s_ov : carry (outbox (validator e)) ov;
  s_bk : ∃ c, connection (service e) = Some c ∧ carry (inbox c) bk ∧ carry (outbox c) ou ∧
    incoming c = ∅;
  s_ch : updateChan e = ch ∧ updateChan_closed e = false;
  s_no : corrIds (service e) = no }.

Record views s (p : Protocol (V:=V)) : Prop := {
  v_drv : shows (drv s) (p_up p) (p_dn p) (p_bk p) (p_ch p) (p_no p) [] [] [];
  v_av : carry (val_inbox s) (p_av p);
  v_rest : stuck s = p_bz p ∧ rpc s = p_cl p ∧ val_state s = p_v p ∧ trace s = p_h p ∧
    notes s = p_n p }.

Lemma views_initial v s : initial v s → views s (at_rest v).
Proof.
  intros [(Hvi & Hvo & _) (Hsi & Hso & _) (c & Hc & Hci & Hco & Hinc) Hids Hch (? & ? & Hv & ? & ? & ?)].
  split; [|rewrite Hv; constructor|done].
  split; rewrite ?Hvi, ?Hvo, ?Hsi, ?Hso; try apply Forall2_nil; try done.
  exists c. rewrite Hci, Hco. by repeat split.
Qed.

Lemma arrivals_queues frs (c : conn) :
  inbox (arrivals frs c) = inbox c ++ frs ∧ outbox (arrivals frs c) = outbox c ∧
  incoming (arrivals frs c) = incoming c.
Proof.
  unfold arrivals. revert c. induction frs as [|fr frs IH]; intros c; simpl; [by rewrite app_nil_r|].
  destruct (IH (arrive fr c)) as (-> & -> & ->). split; [|done].
  change (inbox (arrive fr c)) with (inbox c ++ [fr]). by rewrite <-app_assoc.
Qed.

Lemma wire_shows e up dn bk ch no ou ov ob :
  shows e up dn bk ch no ou ov ob → shows (wire e) (up ++ ou) dn (bk ++ ob) ch no [] [] [].
Proof.
  intros [Hu Hob Hd Hov (c & Hc & Hbk & Hou & Hinc) Hch Hno]. unfold wire. cbn [service set_validator].
  rewrite Hc. destruct (arrivals_queues (outbox c) (flush (service_sock e))) as (Ei & Eo & _).
  destruct (arrivals_queues (outbox (service_sock e)) (flush c)) as (Ei' & Eo' & Einc).
  split; [| | |by apply Forall2_nil_2| |done|done];
    cbn [service_sock set_service set_service_sock]; rewrite ?Ei, ?Eo.
  - by apply Forall2_app.
  - by apply Forall2_nil_2.
  - done.
  - eexists. split; [done|]. rewrite Ei', Eo', Einc. split; [by apply Forall2_app|].
    split; [constructor|done].
Qed.

Lemma after_views s e up dn bk ch no ou ov ob av b c tr ns :
  shows e up dn bk ch no ou ov ob → carry (val_inbox s) av →
  views (after s e b c tr ns)
    (St (up ++ ou) (av ++ ov) dn (bk ++ ob) ch no b c (val_state s) (trace s ++ tr) (notes s ++ ns)).
Proof.
  intros Hs Hav. split; [by eapply wire_shows| |done]. simpl. apply Forall2_app; [done|]. apply Hs.
Qed.

Lemma carry_cons frs m ms :
  carry frs (m :: ms) → ∃ d rest, frs = [d] :: rest ∧ LoadMsg d = (m, None) ∧ carry rest ms.
Proof.
  intros (fr & rest & (d & -> & Hd) & Hr & ->)%Forall2_cons_inv_r. eauto.
Qed.

Lemma carry_snoc frs ms d m :
  carry frs ms → LoadMsg d = (m, None) → carry (frs ++ [[d]]) (ms ++ [m]).
Proof. intros Hl Hd. apply Forall2_app; [done|]. repeat constructor. by exists d. Qed.

(** *** The driver *)

Definition took_one e (rest : list (list string)) : engine :=
  set_validator (taken rest (validator e)) e.

(** Taking a message from the validator, up to the switch on its type. *)
Lemma receive_first e up m dn bk ch no ou ov ob :
  shows e up (m :: dn) bk ch no ou ov ob →
  ∃ d rest, inbox (validator e) = [d] :: rest ∧ LoadMsg d = (m, None) ∧
    on_validator RecvData e = (Ret (inr ("", d)), took_one e rest) ∧
    shows (took_one e rest) up dn bk ch no ou ov ob.
Proof.
  intros [Hu Hob Hd Hov Hbk Hch Hno]. destruct (carry_cons _ _ _ Hd) as (d & rest & E & Hm & Hrest).
  exists d, rest. split; [done|]. split; [done|]. split; [|done].
  unfold on_validator, zoom. simpl. by rewrite (RecvData_link _ _ _ E).
Qed.

Lemma head_first e up m dn bk ch no ou ov ob :
  shows e up (m :: dn) bk ch no ou ov ob → head_msg e = Some m.
Proof.
  intros (d & rest & E & Hm & _)%receive_first. unfold head_msg, frame_msg. rewrite E. simpl.
  by rewrite Hm.
Qed.

Context `{!ProtoLaws Message, !ProtoTotal Message}.
Context `{!ProtoTotal ConsensusNotifyAck, !ProtoTotal PingResponse}.

Lemma DumpMsg_total t b k : ∃ d, DumpMsg t b k = inr d.
Proof. unfold DumpMsg. apply Marshal_total. Qed.

(** Answering the validator. *)
Lemma send_answer e up dn bk ch no ou ov ob t b m :
  shows e up dn bk ch no ou ov ob →
  ∃ e', (_ ← on_validator (SendMsg t b (corr m)); mret tt) e = (Ret tt, e') ∧
    shows e' up dn bk ch no ou (ov ++ [answer_to t b m]) ob.
Proof.
  intros [Hu Hob Hd Hov Hbk Hch Hno]. destruct (DumpMsg_total t b (corr m)) as [d Ed].
  exists (set_validator (depart [d] (validator e)) e). split.
  - erewrite go_bind_Ret; [done|]. unfold on_validator, zoom. simpl.
    unfold zmq_SendMsg, zmq_SendMsgTo. rewrite Ed. by rewrite SendData_link.
  - split; try done. cbn [validator set_validator].
    change (outbox (depart [d] (validator e))) with (outbox (validator e) ++ [[d]]).
    apply carry_snoc; [done|]. apply (LoadMsg_DumpMsg _ _ _ _ Ed).
Qed.

(** Decoding an update either succeeds or panics. *)
Lemma decode_outcome {S} m (s : S) :
  match decoded m with
  | Some u => decode_update m s = (Ret u, s)
  | None => ∃ x, decode_update m s = (Panic x, s)
  end.
Proof.
  rewrite (stateless_decode m). unfold decoded.
  assert (Hd : match (decode_update m tt).1 with Ret _ | Panic _ => True | _ => False end).
  { unfold decode_update. repeat case_decide; repeat case_match; try done.
    all: unfold newPeerMessageFromProto, mbind, Go_bind in *; repeat case_match; simplify_eq/=; done. }
  destruct (decode_update m tt) as [[u|x| |] []]; simpl in *; eauto; done.
Qed.

Lemma chan_send_outcome e up dn bk ch no ou ov ob u :
  shows e up dn bk ch no ou ov ob →
  if decide (length ch < updateChan_cap)%nat
  then chan_send u e = (Ret tt, set_updateChan (ch ++ [u]) e) ∧
       shows (set_updateChan (ch ++ [u]) e) up dn bk (ch ++ [u]) no ou ov ob
  else chan_send u e = (Blocked, e).
Proof.
  intros [Hu Hob Hd Hov Hbk [Hch Hcl] Hno]. unfold chan_send. rewrite Hcl, Hch.
  case_decide; [|done]. split; [done|]. by split.
Qed.

Lemma handleUpdate_outcome e up dn bk ch no ou ov ob m :
  shows e up dn bk ch no ou ov ob →
  match decoded m with
  | None => ∃ x, handleUpdate m e = (Panic x, e)
  | Some u =>
      (room u ch → ∃ e', handleUpdate m e = (Ret tt, e') ∧
         shows e' up dn bk (ch ++ option_list u) no ou ov ob) ∧
      (¬ room u ch → handleUpdate m e = (Blocked, e))
  end.
Proof.
  intros Hs. pose proof (decode_outcome m e) as Hd. unfold handleUpdate.
  destruct (decoded m) as [u|].
  - rewrite (go_bind_Ret _ _ _ _ _ Hd). destruct u as [u|]; simpl.
    + pose proof (chan_send_outcome e _ _ _ _ _ _ _ _ u Hs) as Hsend. case_decide.
      * destruct Hsend. split; [eauto|done].
      * by split.
    + rewrite app_nil_r. split; [eauto|]. by intros [].
  - destruct Hd as [x Hd]. exists x. by apply go_bind_Panic.
Qed.

Lemma answer_outcome e up dn bk ch no ou ov ob m :
  shows e up dn bk ch no ou ov ob →
  match decoded m with
  | None => ∃ x, answer_notification m e = (Panic x, e)
  | Some u =>
      (room u ch → ∃ e', answer_notification m e = (Ret tt, e') ∧
         shows e' up dn bk (ch ++ option_list u) no ou (ov ++ [ack m]) ob) ∧
      (¬ room u ch → answer_notification m e = (Blocked, e))
  end.
Proof.
  intros Hs. pose proof (handleUpdate_outcome e _ _ _ _ _ _ _ _ m Hs) as Hd.
  unfold answer_notification. destruct (decoded m) as [u|].
  - destruct Hd as [Hroom Hfull]. split.
    + intros (e1 & E1 & Hs1)%Hroom. rewrite (go_bind_Ret _ _ _ _ _ E1).
      unfold ack, marshalled. destruct (Marshal_total Build_ConsensusNotifyAck) as [d ->].
      by apply send_answer.
    + intros E%Hfull. unfold mbind, Go_bind. by rewrite E.
  - destruct Hd as [x Hd]. exists x. by apply go_bind_Panic.
Qed.

Lemma answer_returned e up dn bk ch no ou ov ob m e' :
  shows e up dn bk ch no ou ov ob → answer_notification m e = (Ret tt, e') →
  ∃ u, decoded m = Some u ∧ room u ch ∧
    shows e' up dn bk (ch ++ option_list u) no ou (ov ++ [ack m]) ob.
Proof.
  intros Hs E. pose proof (answer_outcome e _ _ _ _ _ _ _ _ m Hs) as Ha.
  destruct (decoded m) as [u|]; [|destruct Ha; congruence]. destruct Ha as [Ha Hb]. exists u.
  destruct (decide (room u ch)) as [Hr|Hr]; [|rewrite Hb in E; done].
  destruct (Ha Hr) as (e1 & E1 & Hs1). rewrite E in E1. by injection E1 as <-.
Qed.
Lemma answer_blocked e up dn bk ch no ou ov ob m e' :
  shows e up dn bk ch no ou ov ob → answer_notification m e = (Blocked, e') →
  ∃ u, decoded m = Some u ∧ ¬ room u ch ∧ e' = e.
Proof.
  intros Hs E. pose proof (answer_outcome e _ _ _ _ _ _ _ _ m Hs) as Ha.
  destruct (decoded m) as [u|]; [|destruct Ha; congruence]. destruct Ha as [Ha Hb]. exists u.
  destruct (decide (room u ch)) as [Hr|Hr]; [destruct (Ha Hr) as (? & ? & _); congruence|].
  rewrite Hb in E by done. by injection E.
Qed.

Lemma receive_notice e up m dn bk ch no ou ov ob :
  shows e up (m :: dn) bk ch no ou ov ob → is_notice m →
  ∃ e', receiveValidator e = answer_notification m e' ∧ shows e' up dn bk ch no ou ov ob.
Proof.
  intros (d & rest & _ & Hm & Er & Hs)%receive_first Hn. exists (took_one e rest).
  split; [|done]. unfold receiveValidator. rewrite (go_bind_Ret _ _ _ _ _ Er), Hm.
  unfold is_notice in Hn. by rewrite Hn.
Qed.

Lemma receive_ping e up m dn bk ch no ou ov ob :
  shows e up (m :: dn) bk ch no ou ov ob → Message_MessageType m = Message_PING_REQUEST →
  ∃ e', receiveValidator e = (Ret tt, e') ∧ shows e' up dn bk ch no ou (ov ++ [pong m]) ob.
Proof.
  intros (d & rest & _ & Hm & Er & Hs)%receive_first Hp.
  unfold receiveValidator. rewrite (go_bind_Ret _ _ _ _ _ Er), Hm.
  pose proof (ping_not_notice m Hp) as Hn%not_true_is_false.
  rewrite Hn, decide_True by done. unfold pong, marshalled.
  destruct (Marshal_total Build_PingResponse) as [x ->]. by apply send_answer.
Qed.

Lemma receive_reply e up m dn bk ch no ou ov ob :
  shows e up (m :: dn) bk ch no ou ov ob → is_reply m →
  ∃ e', receiveValidator e = (Ret tt, e') ∧
    if decide (corr m ≠ "" ∧ corr m ∈ no) then shows e' up dn bk ch no ou ov (ob ++ [m])
    else shows e' up dn bk ch no ou ov ob.
Proof.
  intros (d & rest & _ & Hm & Er & Hs)%receive_first [Hn%not_true_is_false Hp].
  unfold receiveValidator. rewrite (go_bind_Ret _ _ _ _ _ Er), Hm. cbv zeta.
  rewrite Hn, decide_False by done. rewrite (go_bind_Ret go_get _ _ _ _ eq_refl).
  assert (Hhas : hasCorrelationId (service (took_one e rest)) (corr m) = true ↔ corr m ∈ no).
  { unfold hasCorrelationId. rewrite bool_decide_eq_true, (s_no _ _ _ _ _ _ _ _ _ Hs). done. }
  destruct (decide (corr m ≠ "" ∧ corr m ∈ no)) as [Hk|Hk].
  - rewrite decide_True by tauto.
    exists (set_service_sock (depart [d] (service_sock (took_one e rest))) (took_one e rest)).
    split; [done|]. destruct Hs as [Hu Hob Hd Hov Hbk Hch Hno]. split; try done.
    change (carry (outbox (service_sock (took_one e rest)) ++ [[d]]) (ob ++ [m])).
    by apply carry_snoc.
  - rewrite decide_False by tauto. eauto.
Qed.

(** A request of the service reaches the validator's socket. *)
Lemma receiveService_outcome e m up dn bk ch no ou ov ob :
  shows e (m :: up) dn bk ch no ou ov ob →
  ∃ e', receiveService e = (Ret tt, e') ∧ shows e' up dn bk ch no ou (ov ++ [m]) ob.
Proof.
  intros [Hu Hob Hd Hov Hbk Hch Hno]. destruct (carry_cons _ _ _ Hu) as (d & rest & E & Hm & Hrest).
  unfold receiveService. erewrite go_bind_Ret.
  2: unfold on_service_sock, zoom; simpl; by rewrite (RecvData_link _ _ _ E).
  simpl. rewrite Hm. eexists. split; [reflexivity|]. split; try done.
  - change (carry (outbox (validator e) ++ [[d]]) (ov ++ [m])).
    by apply carry_snoc.
Qed.

(** *** The service *)

Lemma rpc_send_outcome e up dn bk ch no t b id :
  shows e up dn bk ch no [] [] [] →
  ∃ x, rpc_send t b (with_next id (service e)) = (Ret (id, None), x) ∧
    shows (set_service x e) up dn bk ch no
      [{| Message_MessageType := t; Message_CorrelationId := id; Message_Content := b |}] [] [].
Proof.
  intros [Hu Hob Hd Hov (c & Hc & Hbk & Hou & Hinc) Hch Hno].
  destruct (DumpMsg_total t b id) as [d Ed].
  exists (set_connection (Some (depart [d] (with_id id c))) (with_next id (service e))). split.
  - unfold rpc_send. apply (on_connection_Ret _ _ (with_id id c)); [simpl; by rewrite Hc|].
    simpl. unfold zmq_SendNewMsg, zmq_SendNewMsgTo, zmq_SendMsgTo, mbind, Go_bind, on_socket, zoom,
      GenerateId. simpl. rewrite Ed. by rewrite SendData_link.
  - split; try done. eexists. split; [done|].
    change (outbox (depart [d] (with_id id c))) with (outbox c ++ [[d]]).
    split; [done|]. split; [|done]. apply (carry_snoc _ []); [done|].
    apply (LoadMsg_DumpMsg _ _ _ _ Ed).
Qed.

Lemma rpc_note_outcome e up dn bk ch no k :
  shows e up dn bk ch no [] [] [] →
  ∃ x, rpc_note k (service e) = (Ret tt, x) ∧ shows (set_service x e) up dn bk ch ({[k]} ∪ no) [] [] [].
Proof.
  intros [Hu Hob Hd Hov Hbk Hch Hno]. eexists. split; [reflexivity|]. split; try done.
  simpl. by rewrite Hno.
Qed.

Lemma rpc_await_empty fuel e up dn ch no k r x :
  shows e up dn [] ch no [] [] [] → rpc_await (H:=zmq_connection fuel) k (service e) ≠ (Ret r, x).
Proof.
  intros [_ _ _ _ (c & Hc & Hbk & _ & Hinc) _ _]. unfold rpc_await.
  intros (a & s' & Ea & _)%go_bind_inv.
  apply on_connection_inv in Ea as (c' & c'' & Hc' & Ea & _). rewrite Hc in Hc'. injection Hc' as <-.
  apply Forall2_nil_inv_r in Hbk. simpl in Ea. unfold zmq_RecvMsgWithId in Ea.
  rewrite (go_bind_Ret go_get _ _ _ _ eq_refl), Hinc, lookup_empty in Ea.
  destruct fuel as [|fuel]; [done|]. cbn [recv_loop] in Ea.
  unfold zmq_RecvData, mbind, Go_bind, on_socket, zoom in Ea. simpl in Ea.
  unfold inbox in Hbk. by rewrite Hbk in Ea.
Qed.

Lemma rpc_await_one fuel e up dn m ch no k :
  shows e up dn [m] ch no [] [] [] → corr m = k →
  (∃ x, rpc_await (H:=zmq_connection (Datatypes.S fuel)) k (service e) = (Ret (inr (Some m)), x) ∧
    shows (set_service x e) up dn [] ch (no ∖ {[k]}) [] [] []) ∧
  ∀ r x, rpc_await (H:=zmq_connection 0) k (service e) ≠ (Ret r, x).
Proof.
  intros [Hu Hob Hd Hov (c & Hc & Hbk & Hou & Hinc) Hch Hno] Hk.
  destruct (carry_cons _ _ _ Hbk) as (d & rest & E & Hm & ->%Forall2_nil_inv_r).
  assert (Hrecv : ∀ n, zmq_RecvMsgWithId n k c = recv_loop n k c).
  { intros n. unfold zmq_RecvMsgWithId.
    by rewrite (go_bind_Ret go_get _ _ _ _ eq_refl), Hinc, lookup_empty. }
  split.
  - eexists. split.
    + eapply (rpc_await_Ret (H:=zmq_connection _)); [done| |exact Hk]. simpl. rewrite Hrecv.
      rewrite (recv_loop_cons _ _ _ [d] [] m); [by rewrite decide_True|done|by exists d].
    + split; try done; [|simpl; by rewrite Hno]. eexists. split; [done|].
      split; [constructor|]. split; [exact Hou|done].
  - intros r x. unfold rpc_await. intros (a & s' & Ea & _)%go_bind_inv.
    apply on_connection_inv in Ea as (c' & c'' & Hc' & Ea & _). rewrite Hc in Hc'.
    injection Hc' as <-. simpl in Ea. by rewrite Hrecv in Ea.
Qed.

(** ** The system implements the protocol *)

Lemma after_sees s e up dn bk ch no ou ov ob av b c tr ns p :
  shows e up dn bk ch no ou ov ob → carry (val_inbox s) av →
  p = St (up ++ ou) (av ++ ov) dn (bk ++ ob) ch no b c (val_state s) (trace s ++ tr) (notes s ++ ns) →
  views (after s e b c tr ns) p.
Proof. intros Hs Hav ->. by apply after_views. Qed.

(** Concludes that a step's result shows the state after a move. *)
Ltac seen := eapply after_sees; [eassumption|eassumption|by rewrite ?app_nil_r].

Lemma observed_first e up m dn bk ch no ou ov ob :
  shows e up (m :: dn) bk ch no ou ov ob →
  observed e = if decide (is_notice m) then [Handled m]
    else if decide (Message_MessageType m = Message_PING_REQUEST) then []
    else if decide (corr m ≠ "" ∧ corr m ∈ no) then [] else [Dropped m].
Proof.
  intros Hs. unfold observed. rewrite (head_first _ _ _ _ _ _ _ _ _ _ Hs).
  repeat (case_decide; [done|]).
  assert (Hhas : hasCorrelationId (service e) (corr m) = true ↔ corr m ∈ no).
  { unfold hasCorrelationId. rewrite bool_decide_eq_true, (s_no _ _ _ _ _ _ _ _ _ Hs). done. }
  repeat case_decide; tauto || done.
Qed.

Lemma inbox_first e up dn bk ch no ou ov ob :
  shows e up dn bk ch no ou ov ob → inbox (validator e) ≠ [] ↔ dn ≠ [].
Proof.
  intros [_ _ Hd _ _ _ _]. destruct Hd; [done|]. by split.
Qed.

Abbreviation mv := (move serve).

Lemma sim_validator s e up av dn bk ch no :
  shows (drv s) up dn bk ch no [] [] [] → carry (val_inbox s) av →
  inbox (validator (drv s)) ≠ [] → receiveValidator (drv s) = (Ret tt, e) →
  ∃ p', mv (St up av dn bk ch no None (rpc s) (val_state s) (trace s) (notes s)) p' ∧
    views (after s e None (rpc s) [] (observed (drv s))) p'.
Proof.
  intros Hs Hav Hne Hr. apply (inbox_first _ _ _ _ _ _ _ _ _ Hs) in Hne.
  destruct dn as [|m dn]; [done|]. rewrite (observed_first _ _ _ _ _ _ _ _ _ _ Hs).
  destruct (decide (is_notice m)) as [Hn|Hn].
  { destruct (receive_notice _ _ _ _ _ _ _ _ _ _ Hs Hn) as (e1 & Er & Hs1). rewrite Hr in Er.
    destruct (answer_returned _ _ _ _ _ _ _ _ _ _ _ Hs1 (eq_sym Er)) as (u & Hu & Hroom & Hs').
    eexists. split; [by eapply m_handle|]. seen. }
  destruct (decide (Message_MessageType m = Message_PING_REQUEST)) as [Hp|Hp].
  { destruct (receive_ping _ _ _ _ _ _ _ _ _ _ Hs Hp) as (e' & Er & Hs'). rewrite Hr in Er.
    injection Er as <-. eexists. split; [by eapply m_ping|]. seen. }
  destruct (receive_reply _ _ _ _ _ _ _ _ _ _ Hs (conj Hn Hp)) as (e' & Er & Hs').
  rewrite Hr in Er. injection Er as <-.
  case_decide; (eexists; split; [by (eapply m_pass + eapply m_drop)|seen]).
Qed.

Lemma sim_block s e m up av dn bk ch no :
  shows (drv s) up dn bk ch no [] [] [] → carry (val_inbox s) av →
  head_msg (drv s) = Some m → receiveValidator (drv s) = (Blocked, e) →
  ∃ p', mv (St up av dn bk ch no None (rpc s) (val_state s) (trace s) (notes s)) p' ∧
    views (after s e (Some m) (rpc s) [] []) p'.
Proof.
  intros Hs Hav Hm Hr.
  assert (∃ dn', dn = m :: dn') as [dn' ->].
  { destruct dn as [|m' dn'].
    - unfold head_msg in Hm. by rewrite (Forall2_nil_inv_r _ _ (s_dn _ _ _ _ _ _ _ _ _ Hs)) in Hm.
    - rewrite (head_first _ _ _ _ _ _ _ _ _ _ Hs) in Hm. injection Hm as ->. eauto. }
  destruct (decide (is_notice m)) as [Hn|Hn].
  { destruct (receive_notice _ _ _ _ _ _ _ _ _ _ Hs Hn) as (e1 & Er & Hs1). rewrite Hr in Er.
    destruct (answer_blocked _ _ _ _ _ _ _ _ _ _ _ Hs1 (eq_sym Er)) as (u & Hu & Hroom & ->).
    eexists. split; [by eapply m_block|]. seen. }
  destruct (decide (Message_MessageType m = Message_PING_REQUEST)) as [Hp|Hp].
  - destruct (receive_ping _ _ _ _ _ _ _ _ _ _ Hs Hp) as (e' & Er & _). congruence.
  - destruct (receive_reply _ _ _ _ _ _ _ _ _ _ Hs (conj Hn Hp)) as (e' & Er & _). congruence.
Qed.

Lemma sim_return v0 s q fuel r x up av dn bk ch no :
  let p := St up av dn bk ch no (stuck s) (rpc s) (val_state s) (trace s) (notes s) in
  Inv serve v0 p → shows (drv s) up dn bk ch no [] [] [] → carry (val_inbox s) av →
  rpc s = Waiting q → rpc_await (H:=zmq_connection fuel) (corr q) (service (drv s)) = (Ret r, x) →
  ∃ p', mv p p' ∧
    views (after s (set_service x (drv s)) (stuck s) Running
      (match r with inr (Some m) => [Returned engine_thread m] | _ => [] end) []) p'.
Proof.
  intros p HI Hs Hav Hq Hr.
  destruct (one_reply _ _ _ HI) as [Hbk|(m & q' & Hbk & Hcl & Hk)]; simpl in *; subst bk.
  { by destruct (rpc_await_empty fuel _ _ _ _ _ _ _ _ Hs Hr). }
  assert (q' = q) as -> by congruence.
  destruct fuel as [|fuel].
  { destruct (rpc_await_one 0 _ _ _ _ _ _ _ Hs Hk) as [_ Hno]. by destruct (Hno _ _ Hr). }
  destruct (rpc_await_one fuel _ _ _ _ _ _ _ Hs Hk) as [(x' & Er & Hs') _].
  rewrite Hr in Er. injection Er as -> <-. subst p. rewrite Hq.
  eexists. split; [by apply m_return|]. seen.
Qed.

Lemma arrive_shows s up dn bk ch no ou ov ob d m :
  shows (drv s) up dn bk ch no ou ov ob → LoadMsg d = (m, None) →
  shows (from_validator s d) up (dn ++ [m]) bk ch no ou ov ob.
Proof.
  intros [Hu Hob Hd Hov Hbk Hch Hno] Hm. split; try done.
  change (carry (inbox (validator (drv s)) ++ [[d]]) (dn ++ [m])). by apply carry_snoc.
Qed.

Lemma carry_first fr rest l i m :
  carry (fr :: rest) l → frame_msg fr = Some (i, m, None) → ∃ l', l = m :: l' ∧ carry rest l'.
Proof.
  intros (m' & l' & Hm & Hl & ->)%Forall2_cons_inv_l Hf. rewrite (carries_frame _ _ Hm) in Hf.
  injection Hf as _ ->. eauto.
Qed.

(** Every step of the code is a move of the protocol. *)
Lemma sim_step v0 s s' p :
  step s s' → views s p → Inv serve v0 p → ∃ p', mv p p' ∧ views s' p'.
Proof.
  intros Hstep [Hs Hav (Eb & Ec & Ev & Et & En)] HI. destruct p as [up av dn bk ch no bz cl v h n].
  simpl in *. subst bz cl v h n.
  destruct Hstep as [s e Hb Hne Hr|s e m Hb Hm Hr|s m e Hb Hr|s e Hb Hne Hr|s t b id x Hc Hid Hnew q Hq Hr
    |s q x Hc Hr|s q fuel r x Hc Hr|s u rest Hc Hch|s fr rest i q t b v d Hfr Hm Hq Hsv Hd
    |s fr rest i m Hfr Hm Hn|s m d Hm Hd|s m d Hm Hd].
  - rewrite Hb. by apply sim_validator.
  - rewrite Hb. by apply sim_block.
  - rewrite Hb. destruct (answer_returned _ _ _ _ _ _ _ _ _ _ _ Hs Hr) as (u & Hu & Hroom & Hs').
    eexists. split; [by eapply m_resume|]. seen.
  - rewrite Hb. destruct up as [|m up].
    { destruct Hne. apply (Forall2_nil_inv_r _ _ (s_up _ _ _ _ _ _ _ _ _ Hs)). }
    destruct (receiveService_outcome _ _ _ _ _ _ _ _ _ _ Hs) as (e' & Er & Hs').
    rewrite Hr in Er. injection Er as <-. eexists. split; [apply m_forward|]. seen.
  - destruct (rpc_send_outcome _ _ _ _ _ _ t b id Hs) as (x' & Er & Hs'). rewrite Hr in Er.
    injection Er as <-. rewrite Hc. eexists. split; [by apply (m_call _ _ _ _ _ _ _ _ _ _ _ q)|]. seen.
  - destruct (rpc_note_outcome _ _ _ _ _ _ (corr q) Hs) as (x' & Er & Hs'). rewrite Hr in Er.
    injection Er as <-. rewrite Hc. eexists. split; [apply m_note|]. seen.
  - by eapply sim_return.
  - assert (ch = u :: rest) as -> by (rewrite <-Hch; symmetry; apply Hs). rewrite Hc.
    assert (Hs' : shows (set_updateChan rest (drv s)) up dn bk rest no [] [] []).
    { destruct Hs as [? ? ? ? ? [_ ?] ?]. by split. }
    eexists. split; [apply m_take|]. seen.
  - rewrite Hfr in Hav. destruct (carry_first _ _ _ _ _ Hav Hm) as (av' & -> & Hav').
    eexists. split; [by eapply m_serve|]. split; [|done|done].
    apply arrive_shows; [done|]. by apply (LoadMsg_DumpMsg _ _ _ _ Hd).
  - rewrite Hfr in Hav. destruct (carry_first _ _ _ _ _ Hav Hm) as (av' & -> & Hav').
    destruct (decide (is_ack m)) as [Ha|Ha].
    + eexists. split; [by apply m_acked|]. by split.
    + eexists. split; [by apply m_ignore|]. rewrite app_nil_r. by split.
  - pose proof (Unmarshal_Marshal _ _ Hd) as Hl. eexists. split; [by apply m_notify|].
    split; [by apply arrive_shows|done|done].
  - pose proof (Unmarshal_Marshal _ _ Hd) as Hl. eexists. split; [by apply (m_alive _ _ _ _ _ _ _ _ _ _ _ _ m)|].
    split; [by apply arrive_shows|done|done].
Qed.

(** *** Working off what is under way *)

(** The driver and the validator, in the order of [next]. *)
Definition advance_driver s : option System :=
  match receiveValidator (drv s), head_msg (drv s) with
  | (Ret tt, e), _ => Some (after s e None (rpc s) [] (observed (drv s)))
  | (Blocked, e), Some m => Some (after s e (Some m) (rpc s) [] [])
  | _, _ => None
  end.
Definition advance_validator s (fr : list string) (rest : list (list string)) : option System :=
  match frame_msg fr with
  | Some (_, m, None) =>
      if decide (is_request m) then
        '(t, b, v) ← serve (val_state s) m;
        match DumpMsg t b (corr m) with
        | inr d => Some {| drv := from_validator s d; stuck := stuck s; rpc := rpc s; val_inbox := rest;
                           val_state := v; trace := trace s ++ [Executed m (answer_to t b m)];
                           notes := notes s |}
        | inl _ => None
        end
      else Some {| drv := drv s; stuck := stuck s; rpc := rpc s; val_inbox := rest;
                   val_state := val_state s; trace := trace s;
                   notes := notes s ++ if decide (is_ack m) then [Acked (corr m)] else [] |}
  | _ => None
  end.
Definition advance s : option System :=
  match stuck s, inbox (validator (drv s)), inbox (service_sock (drv s)), val_inbox s with
  | Some m, _, _, _ =>
      match answer_notification m (drv s) with
      | (Ret tt, e) => Some (after s e None (rpc s) [] [Handled m])
      | _ => None
      end
  | None, _ :: _, _, _ => advance_driver s
  | None, [], _ :: _, _ =>
      match receiveService (drv s) with
      | (Ret tt, e) => Some (after s e None (rpc s) [] [])
      | _ => None
      end
  | None, [], [], fr :: rest => advance_validator s fr rest
  | None, [], [], [] => None
  end.

(** A step in which the engine does not move. *)
Definition others s s' : Prop :=
  step s s' ∧ rpc s' = rpc s ∧ took (notes s') = took (notes s).

Lemma advance_quiet s s' : advance s = Some s' → others s s' ∧ notified (notes s') = notified (notes s).
Proof.
  assert (Hafter : ∀ e b ns, took ns = [] ∧ notified ns = [] → step s (after s e b (rpc s) [] ns) →
    let s' := after s e b (rpc s) [] ns in others s s' ∧ notified (notes s') = notified (notes s)).
  { intros e b ns [Ht Hn] Hs. unfold others. simpl. by rewrite took_app, notified_app, Ht, Hn, !app_nil_r. }
  unfold advance. destruct (stuck s) as [m|] eqn:Eb.
  { destruct (answer_notification m (drv s)) as [[[]|?| |] e] eqn:E; try done. intros [= <-].
    by apply Hafter, step_resume. }
  destruct (inbox (validator (drv s))) as [|fr l] eqn:Ev.
  2: { unfold advance_driver. destruct (receiveValidator (drv s)) as [[[]|?| |] e] eqn:E; try done.
       - intros [= <-]. apply Hafter; [|apply step_validator; [done|by rewrite Ev|done]].
         unfold observed. by repeat (case_match || case_decide).
       - destruct (head_msg (drv s)) eqn:Eh; [|done]. intros [= <-]. by apply Hafter, step_block. }
  destruct (inbox (service_sock (drv s))) as [|fr l] eqn:Es.
  2: { destruct (receiveService (drv s)) as [[[]|?| |] e] eqn:E; try done. intros [= <-].
       apply Hafter, step_service; [done|done|by rewrite Es|done]. }
  destruct (val_inbox s) as [|fr rest] eqn:Ei; [done|]. unfold advance_validator.
  destruct (frame_msg fr) as [[[i m] [err|]]|] eqn:Ef; try done. case_decide.
  - destruct (serve (val_state s) m) as [[[t b] v]|] eqn:Eserve; simpl; [|done].
    destruct (DumpMsg t b (corr m)) as [err|d] eqn:Ed; [done|]. intros [= <-].
    split; [|done]. split; [by eapply step_serve|done].
  - intros [= <-]. unfold others. simpl. rewrite took_app, notified_app.
    split; [split; [by eapply step_ignore|split; [done|]]|]; case_decide; apply app_nil_r.
Qed.
Lemma advance_others s s' : advance s = Some s' → others s s'.
Proof. apply advance_quiet. Qed.
Lemma advance_notified s s' : advance s = Some s' → notified (notes s') = notified (notes s).
Proof. apply advance_quiet. Qed.

(** The driver handles the first message of the validator as the protocol does. *)
Lemma advance_driver_next s up av m dn bk ch no p' :
  shows (drv s) up (m :: dn) bk ch no [] [] [] → carry (val_inbox s) av →
  next serve (St up av (m :: dn) bk ch no None (rpc s) (val_state s) (trace s) (notes s)) = Some p' →
  ∃ s', advance_driver s = Some s' ∧ views s' p'.
Proof.
  intros Hs Hav. unfold advance_driver. rewrite (head_first _ _ _ _ _ _ _ _ _ _ Hs).
  pose proof (observed_first _ _ _ _ _ _ _ _ _ _ Hs) as Hobs. cbn [next].
  destruct (decide (is_notice m)) as [Hn|Hn].
  - destruct (receive_notice _ _ _ _ _ _ _ _ _ _ Hs Hn) as (e1 & Er & Hs1).
    pose proof (answer_outcome e1 _ _ _ _ _ _ _ _ m Hs1) as Ha.
    destruct (decoded m) as [u|]; simpl; [|done]. destruct Ha as [Ha Hf]. case_decide as Hroom; intros [= <-].
    + destruct (Ha Hroom) as (e' & Ee & Hs'). rewrite Er, Ee, Hobs. eexists. split; [done|seen].
    + rewrite Er, Hf by done. eexists. split; [done|seen].
  - case_decide as Hp.
    + intros [= <-]. destruct (receive_ping _ _ _ _ _ _ _ _ _ _ Hs Hp) as (e' & Er & Hs').
      rewrite Er, Hobs. eexists. split; [done|seen].
    + destruct (receive_reply _ _ _ _ _ _ _ _ _ _ Hs (conj Hn Hp)) as (e' & Er & Hs').
      rewrite Er, Hobs. case_decide; intros [= <-]; (eexists; split; [done|seen]).
Qed.

Lemma advance_validator_next s m av bk ch no p' :
  shows (drv s) [] [] bk ch no [] [] [] → carry (val_inbox s) (m :: av) → stuck s = None →
  next serve (St [] (m :: av) [] bk ch no None (rpc s) (val_state s) (trace s) (notes s)) = Some p' →
  ∃ fr rest s', val_inbox s = fr :: rest ∧ advance_validator s fr rest = Some s' ∧ views s' p'.
Proof.
  intros Hs Hav Eb Hnext. destruct (carry_cons _ _ _ Hav) as (d & rest & E & Hd & Hrest).
  assert (Hf : frame_msg [d] = Some ("", m, None)) by (by apply carries_frame; exists d).
  exists [d], rest. unfold advance_validator. rewrite Hf. revert Hnext. cbn [next]. case_decide.
  - destruct (serve (val_state s) m) as [[[t b] v]|]; simpl; [|done]. intros [= <-].
    destruct (DumpMsg_total t b (corr m)) as [d' Ed]. rewrite Ed. eexists. split; [done|]. split; [done|].
    split; [|done|done]. apply (arrive_shows s [] []); [done|]. apply (LoadMsg_DumpMsg _ _ _ _ Ed).
  - case_decide; intros [= <-]; eexists; rewrite ?app_nil_r; (split; [done|]); (split; [done|]); by split.
Qed.

Lemma advance_next s p p' :
  views s p → next serve p = Some p' → ∃ s', advance s = Some s' ∧ views s' p'.
Proof.
  intros [Hs Hav (Eb & Ec & Ev & Et & En)] Hnext. destruct p as [up av dn bk ch no bz cl v h n]. simpl in *.
  subst. unfold advance. pose proof (inbox_first _ _ _ _ _ _ _ _ _ Hs) as Hin.
  destruct (stuck s) as [m|] eqn:Eb.
  { pose proof (answer_outcome _ _ _ _ _ _ _ _ _ m Hs) as Ha.
    destruct (decoded m) as [u|]; simpl in Hnext; [|done]. case_decide as Hr; [|done].
    injection Hnext as <-. destruct Ha as [Ha _]. destruct (Ha Hr) as (e' & Ee & Hs').
    rewrite Ee. eexists. split; [done|seen]. }
  destruct dn as [|m dn]; destruct (inbox (validator (drv s))) as [|fr l];
    [|exfalso; by apply (proj1 Hin)|exfalso; by apply (proj2 Hin)|].
  2: by eapply advance_driver_next.
  destruct up as [|m up].
  - pose proof (s_up _ _ _ _ _ _ _ _ _ Hs) as Hup. apply Forall2_nil_inv_r in Hup. rewrite Hup.
    destruct av as [|m av]; [done|].
    destruct (advance_validator_next _ _ _ _ _ _ _ Hs Hav Eb Hnext) as (fr & rest & s' & -> & ? & ?). eauto.
  - destruct (receiveService_outcome _ _ _ _ _ _ _ _ _ _ Hs) as (e' & Er & Hs').
    destruct (carry_cons _ _ _ (s_up _ _ _ _ _ _ _ _ _ Hs)) as (d & rest & E & _). rewrite E, Er.
    injection Hnext as <-. eexists. split; [done|seen].
Qed.

Lemma real_next s p p' : next serve p = Some p' → views s p → ∃ s', step s s' ∧ views s' p'.
Proof.
  intros Hn Hv. destruct (advance_next s p p' Hv Hn) as (s' & [Hs _]%advance_others & ?). by exists s'.
Qed.

(** Every move of the protocol is a step of the code. *)
Lemma real_step s p p' : mv p p' → views s p → ∃ s', step s s' ∧ views s' p'.
Proof.
  intros Hm Hv. destruct Hm.
  1-6: eapply real_next; [|exact Hv]; repeat match goal with Hr : is_reply _ |- _ => destruct Hr
    | Hp : Message_MessageType _ = Message_PING_REQUEST |- _ => pose proof (ping_not_notice _ Hp); revert Hp
    end; intros; cbn [next]; by simplify_option_eq.
  all: destruct Hv as [Hs Hav (Eb & Ec & Ev & Et & En)];
    cbn [p_up p_av p_dn p_bk p_ch p_no p_bz p_cl p_v p_h p_n] in *; subst.
  - destruct (receiveService_outcome _ _ _ _ _ _ _ _ _ _ Hs) as (e' & Er & Hs').
    eexists. split; [apply step_service; [done| |done]|seen].
    destruct (carry_cons _ _ _ (s_up _ _ _ _ _ _ _ _ _ Hs)) as (d & rest & E & _). by rewrite E.
  - destruct q as [t id b]. destruct (rpc_send_outcome _ _ _ _ _ _ t b id Hs) as (x & Er & Hs').
    eexists. split; [by apply (step_call s t b id x)|]. seen.
  - destruct (rpc_note_outcome _ _ _ _ _ _ (corr q) Hs) as (x & Er & Hs').
    eexists. split; [by apply step_note|]. seen.
  - destruct (rpc_await_one 0 _ _ _ _ _ _ (corr q) Hs) as [(x & Er & Hs') _]; [done|].
    eexists. split; [by eapply (step_return s q 1)|]. seen.
  - assert (Hs' : shows (set_updateChan ch (drv s)) up dn bk ch no [] [] []).
    { destruct Hs as [? ? ? ? ? [_ ?] ?]. by split. }
    eexists. split; [apply (step_take s u ch); [done|apply Hs]|]. seen.
  - destruct (carry_cons _ _ _ Hav) as (d & rest & E & Hd & Hrest).
    destruct (DumpMsg_total t b (corr q)) as [d' Ed].
    eexists. split.
    { eapply (step_serve s [d]); [done|by apply carries_frame; exists d|done|done|done]. }
    split; [|done|done]. apply arrive_shows; [done|]. apply (LoadMsg_DumpMsg _ _ _ _ Ed).
  - destruct (carry_cons _ _ _ Hav) as (d & rest & E & Hd & Hrest). eexists. split.
    { eapply (step_ignore s [d]); [done|by apply carries_frame; exists d|by apply ack_not_request]. }
    rewrite decide_True by done. by split.
  - destruct (carry_cons _ _ _ Hav) as (d & rest & E & Hd & Hrest). eexists. split.
    { eapply (step_ignore s [d]); [done|by apply carries_frame; exists d|done]. }
    rewrite decide_False, app_nil_r by done. by split.
  - destruct (Marshal_total m) as [d Hd]. pose proof (Unmarshal_Marshal _ _ Hd) as Hl.
    eexists. split; [by apply (step_notify s m d)|]. split; [by apply arrive_shows|done|done].
  - destruct (Marshal_total m) as [d Hd]. pose proof (Unmarshal_Marshal _ _ Hd) as Hl.
    eexists. split; [by apply (step_ping s m d)|]. split; [by apply arrive_shows|done|done].
Qed.

(** ** Runs *)

Context (serve_replies : replies serve).

Lemma sim_run v0 s s' p :
  rtc step s s' → views s p → Inv serve v0 p → Delivery p →
  ∃ p', rtc mv p p' ∧ views s' p' ∧ Inv serve v0 p' ∧ Delivery p'.
Proof.
  intros Hrun. revert p. induction Hrun as [|s s1 s' Hs _ IH]; intros p Hv HI HD; [by exists p|].
  destruct (sim_step _ _ _ _ Hs Hv HI) as (p1 & Hm & Hv1).
  destruct (IH p1 Hv1) as (p' & ? & ?); [by eapply inv_move|by eapply delivery_move|].
  exists p'. split; [by eapply rtc_l|done].
Qed.

Lemma real_run s p p' : rtc mv p p' → views s p → ∃ s', rtc step s s' ∧ views s' p'.
Proof.
  intros Hrun. revert s. induction Hrun as [|p p1 p' Hm _ IH]; intros s Hv; [by exists s|].
  destruct (real_step _ _ _ Hm Hv) as (s1 & Hs & Hv1). destruct (IH _ Hv1) as (s' & ? & ?).
  exists s'. split; [by eapply rtc_l|done].
Qed.

(** The states a run reaches. *)
Lemma reached v0 s0 s :
  initial v0 s0 → rtc step s0 s → ∃ p, views s p ∧ Inv serve v0 p ∧ Delivery p.
Proof.
  intros Hini Hrun.
  destruct (sim_run v0 s0 s _ Hrun (views_initial _ _ Hini)) as (p & _ & ?);
    [apply inv_at_rest|apply delivery_at_rest|by exists p].
Qed.

(** A run of the protocol to a state that no move ends is a run of the code to a state
    that no step ends. *)
Lemma reach_forever v0 (P : Protocol (V:=V) → Prop) s0 p :
  (∀ p p', mv p p' → Inv serve v0 p → P p → P p') →
  initial v0 s0 → rtc mv (at_rest v0) p → P p →
  ∃ s, rtc step s0 s ∧ views s p ∧ ∀ s', rtc step s s' → ∃ p', views s' p' ∧ P p'.
Proof.
  intros HP Hini Hmv Hp.
  destruct (real_run s0 _ p Hmv (views_initial _ _ Hini)) as (s & Hrun & Hv).
  exists s. split; [done|]. split; [done|]. intros s' Hrun'.
  assert (HI : Inv serve v0 p) by (eapply inv_moves; [done..|apply inv_at_rest]).
  assert (HD : Delivery p).
  { by eapply delivery_moves; [..|apply inv_at_rest|apply delivery_at_rest]. }
  destruct (sim_run v0 s s' p Hrun' Hv HI HD) as (p' & Hmv' & Hv' & _).
  exists p'. split; [done|]. clear Hv Hv' HD Hmv.
  induction Hmv' as [|p p1 p' Hm _ IH]; [done|]. apply IH; [by eapply HP|by eapply inv_move].
Qed.
End system.

(** ** Claims *)

Section claims.
Context {M V : Type} `{Proto Message, GoRuntime, EngineProtos, Proto PingResponse}.
Context `{!ProtoLaws Message, !ProtoTotal Message}.
Context `{!ProtoTotal ConsensusNotifyAck, !ProtoTotal PingResponse}.
Context (serve : V → Message → option (Z * bytes * V)).
Implicit Types s : System (M:=M) (V:=V).

(** C3. Service calls take effect in order: in every run of the engine, its driver and
    a validator, however their steps interleave, the requests of the service are
    executed one after the other on the validator's state; each has an identifier of
    its own and is executed at most once, after it was sent; and a call returns only
    with the reply that its own request was executed with. *)
Theorem service_calls_serialized v0 s0 s :
  replies serve → initial v0 s0 → rtc (step serve) s0 s →
  serial serve v0 (execs (trace s)) (val_state s) ∧ ordered (trace s).
Proof.
  intros Hrep Hini Hrun. destruct (reached serve Hrep _ _ _ Hini Hrun) as (p & [_ _ Hv] & HI & _).
  destruct Hv as (_ & _ & -> & -> & _). split; apply HI.
Qed.

(** C12. Notifications reach the engine: in every run, the notifications the driver has
    handled are a first part of those the validator sent, in the same order; the
    engine took the updates of these, in the same order, each once, up to the at most
    two that are in the channel; and the validator got an acknowledgement for each of
    them, in the same order, up to those on the way. *)
Theorem notifications_delivered v0 s0 s :
  replies serve → initial v0 s0 → rtc (step serve) s0 s →
  ∃ unhandled on_the_way,
    notified (notes s) = handled (notes s) ++ unhandled ∧
    omap update_of (handled (notes s)) = took (notes s) ++ updateChan (drv s) ∧
    (length (updateChan (drv s)) ≤ updateChan_cap)%nat ∧
    corr <$> handled (notes s) = acked (notes s) ++ on_the_way.
Proof.
  intros Hrep Hini Hrun. destruct (reached serve Hrep _ _ _ Hini Hrun) as (p & [Hs _ Hv] & _ & HD).
  destruct Hv as (_ & _ & _ & _ & ->). rewrite (proj1 (s_ch _ _ _ _ _ _ _ _ _ Hs)).
  destruct HD as [Hh Ht Hk Hl]. by eexists _, _.
Qed.

(** C13. Service calls return: in every reachable state in which the engine is in a call
    whose reply was not dropped, and the update channel has room for the
    notifications the driver has not handled yet, some further steps end with the
    return of the call, with a message under its identifier. *)
Theorem service_call_returns v0 s0 s q unhandled :
  replies serve → answers_all serve → initial v0 s0 → rtc (step serve) s0 s →
  current (rpc s) = Some q → corr q ∉ corr <$> dropped (notes s) →
  notified (notes s) = handled (notes s) ++ unhandled →
  Forall (λ m, is_Some (decoded m)) unhandled →
  (length (updateChan (drv s)) + length unhandled ≤ updateChan_cap)%nat →
  ∃ s' m, rtc (step serve) s s' ∧ last (trace s') = Some (Returned engine_thread m) ∧
    corr m = corr q.
Proof.
  intros Hrep Htot Hini Hrun Hq Hd Hun Hdec Hroom.
  destruct (reached serve Hrep _ _ _ Hini Hrun) as (p & Hview & HI & HD).
  pose proof Hview as [Hs _ (_ & Ec & _ & _ & En)].
  rewrite (proj1 (s_ch _ _ _ _ _ _ _ _ _ Hs)) in Hroom. rewrite Ec in Hq. rewrite En in Hd, Hun.
  rewrite (d_handled _ HD) in Hun. apply app_inv_head in Hun. subst unhandled.
  destruct (call_can_return serve Hrep Htot v0 p q HI Hq (conj Hdec Hroom) Hd) as (p' & m & Hmv & Hl & Hm).
  destruct (real_run serve s p p' Hmv Hview) as (s' & Hrun' & [_ _ (_ & _ & _ & Et & _)]).
  exists s', m. rewrite Et. done.
Qed.

(** C39. An early reply is lost: from every initial state and for every request the
    validator answers, there is a run after which the request is executed and yet its
    call never returns, whatever happens: the reply reached the driver before the
    service had noted the identifier, and was dropped. *)
Theorem early_reply_lost v0 s0 q t b v :
  replies serve → initial v0 s0 → is_request q → corr q ≠ "" → serve v0 q = Some (t, b, v) →
  ∃ s, rtc (step serve) s0 s ∧ execs (trace s) = [(q, answer_to t b q)] ∧
    ∀ s', rtc (step serve) s s' → current (rpc s') = Some q.
Proof.
  intros Hrep Hini Hq Hid Hs.
  assert (∃ p, rtc (move serve) (at_rest v0) p ∧ execs (p_h p) = [(q, answer_to t b q)] ∧ lost q p)
    as (p & Hmv & Hex & Hlost).
  { pose proof (served_reply serve Hrep _ _ _ _ _ Hs) as Hr. eexists. split.
    { eapply rtc_l; [apply (m_call _ [] [] [] [] [] ∅ None v0 [] [] q); [done..|set_solver]|].
      eapply rtc_l; [apply m_forward|]. eapply rtc_l; [by eapply m_serve|].
      eapply rtc_once, m_drop; [done|set_solver]. }
    split; [done|]. split; [done|]. by left. }
  destruct (reach_forever serve Hrep v0 (lost q) s0 p) as (s & Hrun & [_ _ (_ & _ & _ & Et & _)] & Hstay);
    [intros ? ?; by apply lost_move|done..|].
  exists s. split; [done|]. rewrite Et. split; [done|]. intros s' Hrun'.
  by destruct (Hstay s' Hrun') as (p' & [_ _ (_ & -> & _)] & Hl & _).
Qed.

(** C40. A full channel deadlocks the engine: from every initial state, for every request
    and any three notifications that carry updates, there is a run after which the
    engine is in its call and the driver waits to put the third update on the channel,
    and both wait forever, whatever happens: the reply can only reach the engine
    through the driver, and only the engine makes room in the channel. *)
Theorem full_channel_deadlocks v0 s0 q m1 m2 m3 u1 u2 u3 :
  replies serve → initial v0 s0 → is_request q → corr q ≠ "" →
  is_notice m1 → is_notice m2 → is_notice m3 →
  decoded m1 = Some (Some u1) → decoded m2 = Some (Some u2) → decoded m3 = Some (Some u3) →
  ∃ s, rtc (step serve) s0 s ∧
    ∀ s', rtc (step serve) s s' → current (rpc s') = Some q ∧ stuck s' = Some m3.
Proof.
  intros Hrep Hini Hq Hid Hm1 Hm2 Hm3 Hu1 Hu2 Hu3.
  assert (∃ p, rtc (move serve) (at_rest v0) p ∧ deadlocked q m3 p) as (p & Hmv & Hdead).
  { eexists. split.
    { eapply rtc_l; [by apply (m_notify _ [] [] [] [] [] ∅ None Running v0 [] [] m1)|].
      eapply rtc_l; [by apply (m_notify _ _ _ _ _ _ _ _ _ _ _ _ m2)|].
      eapply rtc_l; [by apply (m_notify _ _ _ _ _ _ _ _ _ _ _ _ m3)|].
      eapply rtc_l; [apply (m_call _ _ _ _ _ _ _ _ _ _ _ q); [done..|set_solver]|].
      eapply rtc_l; [eapply m_handle; [exact Hm1|exact Hu1|simpl; unfold updateChan_cap; lia]|].
      eapply rtc_l; [eapply m_handle; [exact Hm2|exact Hu2|simpl; unfold updateChan_cap; lia]|].
      eapply rtc_once, m_block; [exact Hm3|exact Hu3|simpl; unfold updateChan_cap; lia]. }
    split; [done|]. split; [|done]. erewrite update_decoded by done. simpl. unfold updateChan_cap. lia. }
  destruct (reach_forever serve Hrep v0 (deadlocked q m3) s0 p) as (s & Hrun & _ & Hstay);
    [intros ? ? ? _ ?; by eapply deadlocked_move|done..|].
  exists s. split; [done|]. intros s' Hrun'.
  by destruct (Hstay s' Hrun') as (p' & [_ _ (-> & -> & _)] & Hb & _ & Hc & _).
Qed.
End claims.

(** ** Witnesses *)

Module witness.
#[local] Existing Instance ordered_runtime.
#[local] Instance wmsg : Proto Message := countable_proto Message.
#[local] Instance wping : Proto PingResponse := countable_proto PingResponse.
#[local] Instance wprotos : EngineProtos := {|
  ep_peer_connected := countable_proto _; ep_peer_disconnected := countable_proto _;
  ep_peer_message := countable_proto _; ep_peer_message_header := countable_proto _;
  ep_block_new := countable_proto _; ep_block_valid := countable_proto _;
  ep_block_invalid := countable_proto _; ep_block_commit := countable_proto _;
  ep_activated := countable_proto _; ep_ack := countable_proto _;
  ep_register_request := countable_proto _; ep_register_response := countable_proto _ |}.

#[local] Instance msg_laws : ProtoLaws Message := countable_proto_laws _.
#[local] Instance msg_total : ProtoTotal Message := countable_proto_total _.
#[local] Instance ack_total : ProtoTotal ConsensusNotifyAck := countable_proto_total _.
#[local] Instance ping_total : ProtoTotal PingResponse := countable_proto_total _.

(** A validator that keeps the contents of the requests it confirmed. *)
Definition confirm (v : list bytes) (q : Message) : option (Z * bytes * list bytes) :=
  Some (Message_CONSENSUS_COMMIT_BLOCK_RESPONSE, "", v ++ [Message_Content q]).
Lemma confirm_replies : replies confirm.
Proof. by intros v q t b v' [= <- <- <-]. Qed.
Lemma confirm_answers : answers_all confirm.
Proof. intros v q _. by eexists _, _, _. Qed.

Definition rest : System (M:=unit) (V:=list bytes) := {|
  drv := {|
    impl_Name := "Devmode"; impl_Version := "0.1"; validator := quiet_conn "v";
    service_sock := quiet_conn "s"; monitor := tt; shutdownRx := quiet_conn "x"; shutdownTx := NilIface;
    updateChan := []; updateChan_closed := false; slept := [];
    service := {| service_uri := "inproc://service"; connection := Some (quiet_conn "c");
                  corrIds := ∅ |} |};
  stuck := None; rpc := Running; val_inbox := []; val_state := []; trace := []; notes := [] |}.
Lemma rest_initial : initial [] rest.
Proof. split; try done. by exists (quiet_conn "c"). Qed.

Definition commit : Message := {|
  Message_MessageType := Message_CONSENSUS_COMMIT_BLOCK_REQUEST; Message_CorrelationId := "1";
  Message_Content := "b" |}.
Definition valid (b : string) : Message := {|
  Message_MessageType := Message_CONSENSUS_NOTIFY_BLOCK_VALID; Message_CorrelationId := b;
  Message_Content := pos_bits (encode (Build_ConsensusNotifyBlockValid b)) |}.

(** The engine commits a block while a notification is on its way. *)
Lemma calling :
  ∃ s, rtc (step confirm) rest s ∧ current (rpc s) = Some commit ∧ dropped (notes s) = [] ∧
    notified (notes s) = [valid "x"] ∧ handled (notes s) = [] ∧ updateChan (drv s) = [].
Proof.
  destruct (real_run confirm rest (at_rest []) (St [commit] [] [valid "x"] [] [] ∅ None (Sent commit)
    [] [Called engine_thread commit] [Notified (valid "x")])) as (s & Hrun & [Hs _ (_ & Ec & _ & _ & En)]).
  - eapply rtc_l; [by apply (m_notify _ [] [] [] [] [] ∅ None Running [] [] [] (valid "x"))|].
    apply rtc_once. apply (m_call _ [] [] _ [] [] ∅ None [] [] _ commit); [done..|set_solver].
  - apply views_initial, rest_initial.
  - exists s. rewrite Ec, En. split; [done|]. repeat (split; [done|]). apply (s_ch _ _ _ _ _ _ _ _ _ Hs).
Qed.

Lemma service_call_returns_witness :
  ∃ s s' m, rtc (step confirm) rest s ∧ rtc (step confirm) s s' ∧
    last (trace s') = Some (Returned engine_thread m) ∧ corr m = "1".
Proof.
  destruct calling as (s & Hrun & Hc & Hd & Hn & Hh & Hch).
  destruct (service_call_returns confirm [] rest s commit [valid "x"]) as (s' & m & ?);
    [apply confirm_replies|apply confirm_answers|apply rest_initial|done|done| | | | |by exists s, s', m].
  - rewrite Hd. set_solver.
  - by rewrite Hn, Hh.
  - repeat constructor. by exists (Some (UpdateBlockValid "x")).
  - rewrite Hch. simpl. unfold updateChan_cap. lia.
Defined.

(** A notification is handled and acknowledged, and a block committed. *)
Lemma busy_run :
  ∃ s, rtc (step confirm) rest s ∧ took (notes s) = [UpdateBlockValid "x"] ∧
    returns (trace s) = [answer_to Message_CONSENSUS_COMMIT_BLOCK_RESPONSE "" commit].
Proof.
  edestruct (real_run confirm rest (at_rest [])) as (s & Hrun & [_ _ (_ & _ & _ & Et & En)]).
  - eapply rtc_l; [by apply (m_notify _ [] [] [] [] [] ∅ None Running [] [] [] (valid "x"))|].
    eapply rtc_l; [by apply (m_handle _ _ _ _ _ _ _ _ _ _ _ _ (Some (UpdateBlockValid "x"))); [| |simpl; unfold updateChan_cap; lia]|].
    eapply rtc_l; [apply m_take|]. eapply rtc_l; [by apply m_acked|].
    eapply rtc_l; [apply (m_call _ _ _ _ _ _ _ _ _ _ _ commit); [done..|set_solver]|].
    eapply rtc_l; [apply m_note|]. eapply rtc_l; [apply m_forward|].
    eapply rtc_l; [by eapply m_serve|]. eapply rtc_l; [apply m_pass; [done|set_solver]|].
    by apply rtc_once, m_return.
  - apply views_initial, rest_initial.
  - exists s. rewrite Et, En. done.
Qed.

Lemma service_calls_serialized_witness :
  ∃ s, rtc (step confirm) rest s ∧
    returns (trace s) = [answer_to Message_CONSENSUS_COMMIT_BLOCK_RESPONSE "" commit] ∧
    serial confirm [] (execs (trace s)) (val_state s) ∧ ordered (trace s).
Proof.
  destruct busy_run as (s & Hrun & _ & Hret). exists s. split; [done|]. split; [done|].
  apply (service_calls_serialized confirm [] rest s confirm_replies rest_initial Hrun).
Defined.

Lemma notifications_delivered_witness :
  ∃ s, rtc (step confirm) rest s ∧ took (notes s) = [UpdateBlockValid "x"] ∧
    ∃ unhandled on_the_way,
      notified (notes s) = handled (notes s) ++ unhandled ∧
      omap update_of (handled (notes s)) = took (notes s) ++ updateChan (drv s) ∧
      (length (updateChan (drv s)) ≤ updateChan_cap)%nat ∧
      corr <$> handled (notes s) = acked (notes s) ++ on_the_way.
Proof.
  destruct busy_run as (s & Hrun & Htook & _). exists s. split; [done|]. split; [done|].
  apply (notifications_delivered confirm [] rest s confirm_replies rest_initial Hrun).
Defined.

Lemma early_reply_lost_witness :
  ∃ s, rtc (step confirm) rest s ∧
    execs (trace s) = [(commit, answer_to Message_CONSENSUS_COMMIT_BLOCK_RESPONSE "" commit)] ∧
    ∀ s', rtc (step confirm) s s' → current (rpc s') = Some commit.
Proof.
  by apply (early_reply_lost confirm [] rest commit Message_CONSENSUS_COMMIT_BLOCK_RESPONSE "" ["b"]
    confirm_replies rest_initial).
Defined.

Lemma full_channel_deadlocks_witness :
  ∃ s, rtc (step confirm) rest s ∧
    ∀ s', rtc (step confirm) s s' → current (rpc s') = Some commit ∧ stuck s' = Some (valid "z").
Proof.
  by apply (full_channel_deadlocks confirm [] rest commit (valid "x") (valid "y") (valid "z")
    (UpdateBlockValid "x") (UpdateBlockValid "y") (UpdateBlockValid "z") confirm_replies rest_initial).
Defined.
End witness.
End consensus_system.
