(* ===== verification/ConsensusSchedule.v ===== *)
(** * The code of an engine inside the consensus system

    The methods of the service, run inside the system of [ConsensusSystem]: before each
    of the three accesses a call consists of, and before each update the engine takes,
    the driver and the validator move as a schedule says.

    What is proved: under every schedule in which replies arrive, a reply does not
    overtake the noting of its identifier, and the update channel has room for the
    notifications that were sent, each call is one application of the validator's
    function to its state; so the service inside the system discharges the interface
    [ServiceBacked], and every theorem about engines that is stated against it holds
    for an engine behind the driver.  [ConsensusSystem] shows that without the second
    or the third condition a call may never return. *)

From S2P Require Import Prelude GoLib Errors Protobuf Messaging Answering Links History ConsensusProto ConsensusTypes ConsensusService ConsensusChain ConsensusEngine ConsensusProtocol ConsensusSystem.

From stdpp Require Import infinite.

Module consensus_schedule.
Import consensus_system.
Local Open Scope Z_scope.

Section schedule.
Context {M V : Type} `{Proto Message, GoRuntime, EngineProtos, Proto PingResponse}.
Context `{!ProtoLaws Message, !ProtoTotal Message}.
Context `{!ProtoTotal ConsensusNotifyAck, !ProtoTotal PingResponse}.
Context (serve : V → Message → option (Z * bytes * V)) (serve_replies : replies serve).
Abbreviation system := (System (M:=M) (V:=V)).
Implicit Types (s : system) (q m : Message) (v : V) (p : Protocol (V:=V)).

(** ** What driver and validator do *)

(** All requests are executed, except perhaps [o]; the validator's state is [st], or
    what [o] makes of it. *)
Definition standing (st : V) (o : option Message) s : Prop :=
  settled (λ _, True) serve st o (trace s) (val_state s).

Lemma move_effect v0 p p' :
  Inv serve v0 p → move serve p p' → p_cl p' = p_cl p →
  calls (p_h p') = calls (p_h p) ∧
  ((execs (p_h p') = execs (p_h p) ∧ p_v p' = p_v p) ∨
   ∃ w q t b, (w, q) ∈ calls (p_h p) ∧ (∀ a, (q, a) ∉ execs (p_h p)) ∧
     serve (p_v p) q = Some (t, b, p_v p') ∧
     execs (p_h p') = execs (p_h p) ++ [(q, answer_to t b q)]).
Proof.
  intros HI Hm. pose proof (i_sent _ _ _ HI) as Hsent.
  destruct Hm; simpl; intros Hcl; try done; try (split; [done|by left]).
  rewrite calls_app, execs_app. simpl. rewrite app_nil_r. split; [done|]. right.
  destruct (Hsent q) as [w Hw]; [simpl; rewrite filter_cons_True by done; set_solver|].
  exists w, q, t, b. split; [done|]. split; [|done].
  intros a. apply (request_not_executed serve v0 _ q a HI). simpl.
  rewrite filter_cons_True by done. set_solver.
Qed.

Lemma standing_kept v0 s s' p st o :
  views s p → Inv serve v0 p → others serve s s' → standing st o s → standing st o s'.
Proof.
  intros Hv HI (Hs & Hr & _) Hst. destruct (sim_step serve v0 s s' p Hs Hv HI) as (p' & Hm & Hv').
  destruct Hv as [_ _ (_ & Ec & Ev & Et & _)]. destruct Hv' as [_ _ (_ & Ec' & Ev' & Et' & _)].
  destruct (move_effect v0 p p' HI Hm) as [Hc Hx]; [congruence|].
  unfold standing in *. rewrite Ev, Et in Hst. rewrite Ev', Et'.
  destruct Hx as [[He Hvs]|(w & q & t & b & Hcall & Hnot & Hserve & He)].
  - rewrite Hvs. apply (settled_calls _ _ _ _ (p_h p) _ _ []); [by rewrite app_nil_r|done| |done].
    intros w q. rewrite Hc. by left.
  - apply (settled_exec _ _ _ _ (p_h p) _ (p_v p) _ [] w q t b); try done; [by rewrite app_nil_r|].
    intros w1 q1. rewrite Hc. by left.
Qed.

(** The update channel has room for the notifications that were sent, and all of these
    are well formed. *)
Definition roomy s : Prop :=
  ∃ unhandled, notified (notes s) = handled (notes s) ++ unhandled ∧
    Forall (λ m, is_Some (decoded m)) unhandled ∧
    (length (updateChan (drv s)) + length unhandled ≤ updateChan_cap)%nat.

(** ** Schedules *)

(** Which identifier the next request gets, and what the others do before the next
    action of the engine. *)
Record Schedule := { pick_id : nat → system → string; run_others : nat → system → system }.

(** The system seen from the engine, and how many actions it has taken. *)
Record Seat := { seat_sys : system; seat_turn : nat }.

Section seat.
Context (sched : Schedule).
Implicit Types x : Seat.

Definition elsewhere x : Seat :=
  {| seat_sys := run_others sched (seat_turn x) (seat_sys x); seat_turn := S (seat_turn x) |}.

(** An access of the service: what it sent goes to the driver. *)
Definition seat_do {A} (action : Go (ZmqService conn) A) (fin : A → Rpc → Rpc)
    (happened : A → list event) : Go Seat A := λ x,
  let s := seat_sys x in
  let '(r, sv) := action (service (drv s)) in
  let seat c e := {| seat_sys := after s (set_service sv (drv s)) (stuck s) c e [];
                     seat_turn := seat_turn x |} in
  match r with
  | Ret a => (Ret a, seat (fin a (rpc s)) (happened a))
  | Panic e => (Panic e, seat (rpc s) [])
  | Blocked => (Blocked, seat (rpc s) [])
  | OutOfFuel => (OutOfFuel, seat (rpc s) [])
  end.

Definition request (t : Z) (id : string) (b : bytes) : Message :=
  {| Message_MessageType := t; Message_CorrelationId := id; Message_Content := b |}.

#[local] Existing Instance link_connection.

Definition seat_send (t : Z) (b : bytes) : Go Seat (string * option error) := λ x,
  let x := elsewhere x in
  let id := pick_id sched (seat_turn x) (seat_sys x) in
  seat_do (λ sv, rpc_send t b (with_next id sv))
    (λ r c, match r.2 with None => Sent (request t r.1 b) | Some _ => c end)
    (λ r, match r.2 with None => [Called engine_thread (request t r.1 b)] | Some _ => [] end) x.

Definition seat_note (id : string) : Go Seat unit := λ x,
  seat_do (rpc_note id) (λ _ c, match c with Sent q => Waiting q | _ => c end) (λ _, []) (elsewhere x).

(** A receive reads what has arrived; if the message is not among it, it blocks. *)
Definition arrived_at (sv : ZmqService conn) : list (list string) :=
  from_option inbox [] (connection sv).
Definition seat_await (id : string) : Go Seat (error + option Message) := λ x,
  seat_do (λ sv, rpc_await (H:=zmq_connection (S (length (arrived_at sv)))) id sv)
    (λ _ _, Running)
    (λ r, match r with inr (Some m) => [Returned engine_thread m] | _ => [] end) (elsewhere x).

#[export] Instance seat_steps : RpcSteps Seat :=
  {| Rpc_send := seat_send; Rpc_note := seat_note; Rpc_await := seat_await |}.

(** Taking an update from the channel, if there is one. *)
Definition seat_take : Go Seat (option ConsensusUpdate) := λ x,
  let x := elsewhere x in
  let s := seat_sys x in
  match updateChan (drv s) with
  | [] => (Ret None, x)
  | u :: rest =>
      (Ret (Some u), {| seat_sys := after s (set_updateChan rest (drv s)) (stuck s) (rpc s) [] [Took u];
                        seat_turn := seat_turn x |})
  end.

(** *** Fair schedules *)

(** What the validator's notifications are like. *)
Context (honest : Message → Prop) (v0 : V) (s0 : system).
Abbreviation reach s := (rtc (step serve) s0 s).

(** A schedule gives new identifiers and moves only the others.  The reply to a request
    does not reach the driver before its identifier is noted, the validator does not
    send more notifications than the channel has room for, and only honest ones, and
    replies arrive. *)
Record fair : Prop := {
  fair_id n s : pick_id sched n s ≠ "" ∧ pick_id sched n s ∉ call_ids (trace s);
  fair_others n s : rtc (others serve) s (run_others sched n s);
  fair_note n s q : reach s → rpc s = Sent q → corr q ∉ corr <$> dropped (notes s) →
    corr q ∉ corr <$> dropped (notes (run_others sched n s));
  fair_room n s : reach s → roomy s → roomy (run_others sched n s);
  fair_news n s m : m ∈ notified (notes (run_others sched n s)) → m ∈ notified (notes s) ∨ honest m;
  fair_reply n s q : reach s → rpc s = Waiting q → corr q ∉ corr <$> dropped (notes s) →
    roomy s → arrived_at (service (drv (run_others sched n s))) ≠ [] }.

Context (Hinit : initial v0 s0) (Hfair : fair).

(** The engine is at [c], the channel has room, and the validator's state stands as
    said. *)
Record seated (c : Rpc) (st : V) (o : option Message) s : Prop := {
  st_reach : reach s;
  st_rpc : rpc s = c;
  st_room : roomy s;
  st_honest m : m ∈ notified (notes s) → honest m;
  st_standing : standing st o s }.

Lemma seated_initial : seated Running v0 None s0.
Proof.
  destruct Hinit as [_ _ _ _ [Hch _] (_ & Hc & _ & Hv & Ht & Hn)]. split; [done|done| | |].
  - exists []. rewrite Hn, Hch. split; [done|]. split; [done|]. simpl. lia.
  - intros m. rewrite Hn. by intros ?%not_elem_of_nil.
  - unfold standing. rewrite Hv, Ht. split; [|done]. by intros w q ?%not_elem_of_nil.
Qed.

Lemma driver_run c st o s s' :
  rtc (others serve) s s' → roomy s' → (∀ m, m ∈ notified (notes s') → honest m) →
  seated c st o s → seated c st o s'.
Proof.
  intros Hrun Hroom Hhon [Hr Hc _ _ Hst]. revert Hr Hc Hst.
  induction Hrun as [s|s s1 s' Hs _ IH]; intros Hr Hc Hst; [done|].
  destruct (reached serve serve_replies v0 s0 s Hinit Hr) as (p & Hv & HI & _).
  pose proof (standing_kept v0 s s1 p st o Hv HI Hs Hst) as Hst1. destruct Hs as (Hs & Hc1 & _).
  apply IH; [done|done| |congruence|done]. by eapply rtc_r.
Qed.

Lemma seated_meanwhile c st o n s : seated c st o s → seated c st o (run_others sched n s).
Proof.
  intros Hs. apply (driver_run c st o s); [by apply (fair_others Hfair)| | |done].
  - apply (fair_room Hfair); apply Hs.
  - intros m [Hm|Hm]%(fair_news Hfair); [by apply Hs|done].
Qed.

(** A step of the engine that leaves channel and notes alone. *)
Lemma roomy_after s sv b c tr : roomy s → roomy (after s (set_service sv (drv s)) b c tr []).
Proof.
  intros (unhandled & Hn & Hd & Hl). exists unhandled. simpl. rewrite app_nil_r.
  split; [done|]. split; [done|]. unfold wire. simpl. by destruct (connection sv).
Qed.

(** Only ids of executed requests are dropped. *)
Lemma dropped_called s k : reach s → k ∈ corr <$> dropped (notes s) → k ∈ call_ids (trace s).
Proof.
  intros Hr Hk. destruct (reached serve serve_replies v0 s0 s Hinit Hr) as (p & Hv & HI & _).
  destruct Hv as [_ _ (_ & _ & _ & Et & En)]. rewrite En in Hk. rewrite Et.
  apply (executed_called serve p v0 k HI).
  eapply elem_of_Permutation_proper; [exact (i_answered _ _ _ HI)|]. set_solver.
Qed.
Lemma fresh_not_executed s q a : reach s → corr q ∉ call_ids (trace s) → (q, a) ∉ execs (trace s).
Proof.
  intros Hr Hn Ha. destruct (reached serve serve_replies v0 s0 s Hinit Hr) as (p & Hv & HI & _).
  destruct Hv as [_ _ (_ & _ & _ & Et & _)]. rewrite Et in Hn, Ha.
  apply Hn, (executed_called serve p v0 _ HI), list_elem_of_fmap. by exists (q, a).
Qed.

(** Sending a request. *)
Lemma seat_sends st x t b :
  seated Running st None (seat_sys x) → (∀ id, is_request (request t id b)) →
  ∃ id x', seat_send t b x = (Ret (id, None), x') ∧
    seated (Sent (request t id b)) st (Some (request t id b)) (seat_sys x') ∧
    id ∉ corr <$> dropped (notes (seat_sys x')).
Proof.
  intros Hx Hreq. apply (seated_meanwhile _ _ _ (seat_turn x)) in Hx.
  set (s := run_others sched (seat_turn x) (seat_sys x)) in *.
  set (id := pick_id sched (S (seat_turn x)) s).
  destruct (fair_id Hfair (S (seat_turn x)) s) as [Hne Hnew]. fold id in Hne, Hnew.
  destruct Hx as [Hr Hc Hroom Hhon Hst].
  destruct (reached serve serve_replies v0 s0 s Hinit Hr) as (p & [Hsh _ _] & _).
  destruct (rpc_send_outcome (drv s) _ _ _ _ _ t b id Hsh) as (sv & E & _).
  eexists id, _. split; [|split; [split|]].
  - unfold seat_send, seat_do. cbn [elsewhere seat_sys seat_turn]. fold s id. rewrite E. reflexivity.
  - eapply rtc_r; [exact Hr|]. by apply (step_call serve s t b id sv).
  - done.
  - by apply roomy_after.
  - simpl. by rewrite app_nil_r.
  - unfold standing. simpl. apply settled_called; [done| |done].
    intros a. by apply (fresh_not_executed s (request t id b)).
  - simpl. rewrite app_nil_r. intros Hd. by apply Hnew, dropped_called.
Qed.

(** Noting its identifier. *)
Lemma seat_notes st x q :
  seated (Sent q) st (Some q) (seat_sys x) → corr q ∉ corr <$> dropped (notes (seat_sys x)) →
  ∃ x', seat_note (corr q) x = (Ret tt, x') ∧ seated (Waiting q) st (Some q) (seat_sys x') ∧
    corr q ∉ corr <$> dropped (notes (seat_sys x')).
Proof.
  intros Hx Hd. pose proof (fair_note Hfair (seat_turn x) _ q (st_reach _ _ _ _ Hx) (st_rpc _ _ _ _ Hx) Hd) as Hd'.
  apply (seated_meanwhile _ _ _ (seat_turn x)) in Hx.
  set (s := run_others sched (seat_turn x) (seat_sys x)) in *. destruct Hx as [Hr Hc Hroom Hhon Hst].
  eexists. split; [|split; [split|]].
  - unfold seat_note, seat_do. cbn [elsewhere seat_sys seat_turn]. fold s. rewrite Hc. reflexivity.
  - eapply rtc_r; [exact Hr|]. by apply step_note.
  - done.
  - by apply roomy_after.
  - simpl. by rewrite app_nil_r.
  - unfold standing. simpl. by rewrite app_nil_r.
  - simpl. by rewrite app_nil_r.
Qed.

(** The reply is there: it is the answer the validator's state gives. *)
Lemma seat_awaits st x q :
  seated (Waiting q) st (Some q) (seat_sys x) → corr q ∉ corr <$> dropped (notes (seat_sys x)) →
  ∃ t b x', seat_await (corr q) x = (Ret (inr (Some (answer_to t b q))), x') ∧
    serve st q = Some (t, b, val_state (seat_sys x')) ∧
    seated Running (val_state (seat_sys x')) None (seat_sys x').
Proof.
  intros Hx Hd. pose proof (fair_reply Hfair (seat_turn x) _ q (st_reach _ _ _ _ Hx) (st_rpc _ _ _ _ Hx) Hd
    (st_room _ _ _ _ Hx)) as Hin.
  apply (seated_meanwhile _ _ _ (seat_turn x)) in Hx.
  set (s := run_others sched (seat_turn x) (seat_sys x)) in *. destruct Hx as [Hr Hc Hroom Hhon Hst].
  destruct (reached serve serve_replies v0 s0 s Hinit Hr) as (p & [Hsh _ (_ & Ec & Ev & Et & En)] & HI & _).
  destruct (one_reply serve v0 p HI) as [Hbk|(m & q' & Hbk & Hcl & Hm)].
  { exfalso. apply Hin. destruct (s_bk _ _ _ _ _ _ _ _ _ Hsh) as (c & Hcn & Hcar & _).
    unfold arrived_at. rewrite Hcn. simpl. rewrite Hbk in Hcar. by apply Forall2_nil_inv_r in Hcar. }
  assert (q' = q) as -> by congruence. rewrite Hbk in Hsh.
  destruct (reply_of_call serve serve_replies v0 p q m HI) as [_ Hex]; [by rewrite Hcl|rewrite Hbk; set_solver|done|].
  destruct (rpc_await_one (length (arrived_at (service (drv s)))) _ _ _ _ _ _ (corr q) Hsh Hm)
    as [(sv & Er & _) _].
  destruct (settled_answered _ _ st (trace s) (trace s ++ [Returned engine_thread m]) _ q m Hst)
    as (t & b & Hreply & -> & Hset);
    [by rewrite Et|intros a'; rewrite Et; by apply (executed_once serve v0 p q _ _ HI Hex)|
     by rewrite calls_app, app_nil_r|by rewrite execs_app, app_nil_r|].
  eexists t, b, _. split; [|split; [|split]].
  - unfold seat_await, seat_do. cbn [elsewhere seat_sys seat_turn]. fold s. rewrite Er. reflexivity.
  - done.
  - eapply rtc_r; [exact Hr|]. exact (step_return serve s q _ (inr (Some (answer_to t b q))) sv Hc Er).
  - done.
  - by apply roomy_after.
  - simpl. by rewrite app_nil_r.
  - done.
Qed.

(** Taking an update. *)
Lemma seat_takes st x :
  seated Running st None (seat_sys x) →
  ∃ r x', seat_take x = (Ret r, x') ∧ seated Running st None (seat_sys x') ∧
    ∀ u, r = Some u → ∃ m, honest m ∧ update_of m = Some u.
Proof.
  intros Hx. apply (seated_meanwhile _ _ _ (seat_turn x)) in Hx. unfold seat_take.
  cbn [elsewhere seat_sys seat_turn].
  set (s := run_others sched (seat_turn x) (seat_sys x)) in *.
  destruct (updateChan (drv s)) as [|u rest] eqn:Ech; [by eexists None, _|].
  destruct Hx as [Hr Hc (unhandled & Hn & Hd & Hl) Hhon Hst].
  eexists (Some u), _. split; [done|]. split; [split; simpl|].
  - eapply rtc_r; [exact Hr|]. rewrite Hc. by apply step_take.
  - done.
  - exists unhandled. simpl. rewrite notified_app, handled_app, !app_nil_r. split; [done|]. split; [done|].
    rewrite Ech in Hl. simpl in Hl. unfold wire. simpl. destruct (connection (service (drv s))); simpl; lia.
  - by rewrite notified_app, app_nil_r.
  - unfold standing. simpl. by rewrite app_nil_r.
  - intros u' [= <-].
    destruct (reached serve serve_replies v0 s0 s Hinit Hr) as (p & [Hsh _ (_ & _ & _ & _ & En)] & _ & HD).
    assert (Hu : u ∈ omap update_of (handled (notes s))).
    { rewrite En, (d_taken _ HD), <-(proj1 (s_ch _ _ _ _ _ _ _ _ _ Hsh)), Ech. set_solver. }
    apply list_elem_of_omap in Hu as (m & Hm & Hu). exists m. split; [|done].
    apply Hhon. rewrite Hn. set_solver.
Qed.
End seat.

(** *** A fair schedule *)

(** The driver and the validator work off what is under way. *)
Fixpoint settle (n : nat) s : system :=
  match n with
  | O => s
  | S n => match advance serve s with Some s' => settle n s' | None => s end
  end.

Lemma settle_others n s : rtc (others serve) s (settle n s).
Proof.
  revert s. induction n as [|n IH]; intros s; simpl; [done|].
  destruct (advance serve s) as [s'|] eqn:E; [|done]. eapply rtc_l; [by apply advance_others|apply IH].
Qed.

(** None of these steps is a notification. *)
Lemma settle_notified n s : notified (notes (settle n s)) = notified (notes s).
Proof.
  revert s. induction n as [|n IH]; intros s; simpl; [done|].
  destruct (advance serve s) as [s'|] eqn:E; [|done]. rewrite IH. by apply (advance_notified serve).
Qed.

Lemma roomy_ready s p : views s p → Delivery p → roomy s ↔ ready p.
Proof.
  intros [Hs _ (_ & _ & _ & _ & En)] HD. pose proof (d_handled _ HD) as Hh.
  pose proof (proj1 (s_ch _ _ _ _ _ _ _ _ _ Hs)) as Ech. unfold roomy. rewrite En, Ech. split.
  - intros (unhandled & Hn & Hr). rewrite Hh in Hn. apply app_inv_head in Hn. by subst unhandled.
  - intros Hr. by exists (unhandled p).
Qed.

Context (serve_total : answers_all serve).

(** Enough steps to work everything off. *)
Definition load s : nat :=
  4 * length (inbox (service_sock (drv s))) + 3 * length (val_inbox s) +
  2 * (length (inbox (validator (drv s))) + length (option_list (stuck s))).
Lemma work_load s p : views s p → (work p ≤ load s)%nat.
Proof.
  intros [Hs Hav (Eb & _)]. unfold work, load. rewrite Eb.
  rewrite (Forall2_length _ _ _ (s_up _ _ _ _ _ _ _ _ _ Hs)), (Forall2_length _ _ _ (s_dn _ _ _ _ _ _ _ _ _ Hs)).
  rewrite (Forall2_length _ _ _ Hav).
  assert (∀ l, sum_list_with weight l ≤ 3 * length l)%nat as Hsum; [|pose proof (Hsum (p_av p)); lia].
  induction l as [|m l IH]; simpl; [lia|]. pose proof (weight_max m). lia.
Qed.

Lemma settle_works v0 q n s p :
  views s p → Inv serve v0 p → Delivery p → p_cl p = Waiting q → ready p →
  ∃ p', views (settle n s) p' ∧ Inv serve v0 p' ∧ Delivery p' ∧ p_cl p' = Waiting q ∧ ready p' ∧
    (corr q ∉ corr <$> dropped (p_n p) → corr q ∉ corr <$> dropped (p_n p')) ∧
    ((work p ≤ n)%nat → work p' = 0%nat).
Proof.
  revert s p. induction n as [|n IH]; intros s p Hv HI HD Hcl Hr; simpl.
  { exists p. split_and!; try done. lia. }
  destruct (decide (work p = 0%nat)) as [Hz|Hz].
  - destruct (advance serve s) as [s'|] eqn:Ea; [|by exists p].
    exfalso. pose proof (advance_others serve s s' Ea) as (Hs & _).
    revert Ea. unfold advance. destruct Hv as [Hsh Hav (Eb & _)].
    destruct p as [up av dn bk ch no bz cl v h n']. unfold work in Hz. simpl in *.
    destruct up; [|simpl in Hz; lia]. destruct dn; [|simpl in Hz; lia]. destruct bz; [simpl in Hz; lia|].
    destruct av as [|m av]; [|simpl in Hz; unfold weight in Hz; case_decide; lia].
    pose proof (s_up _ _ _ _ _ _ _ _ _ Hsh) as ->%Forall2_nil_inv_r.
    pose proof (s_dn _ _ _ _ _ _ _ _ _ Hsh) as ->%Forall2_nil_inv_r.
    apply Forall2_nil_inv_r in Hav as ->. by rewrite Eb.
  - destruct (work_progress serve serve_replies serve_total v0 p q HI Hcl Hr Hz) as (p1 & [Hn Hw Hr1 Hc1 Hk1]).
    destruct (advance_next serve s p p1 Hv Hn) as (s1 & -> & Hv1).
    apply next_move in Hn.
    destruct (IH s1 p1 Hv1) as (p' & ? & ? & ? & ? & ? & Hk' & Hz');
      [by eapply (inv_move serve serve_replies)|by eapply (delivery_move serve serve_replies)|congruence|done|].
    exists p'. split_and!; try done; [auto|]. intros ?. apply Hz'. lia.
Qed.

(** The validator sends what news there is when the engine is not in a call, as long as
    the channel has room; the others work off everything while it waits for a
    reply. *)
Definition announce (m : Message) s : system :=
  if decide (is_notice m ∧ is_Some (decoded m) ∧
      length (updateChan (drv s)) + length (notified (notes s))
        < updateChan_cap + length (handled (notes s)))%nat then
    match Marshal m with
    | inr d => {| drv := from_validator s d; stuck := stuck s; rpc := rpc s; val_inbox := val_inbox s;
                  val_state := val_state s; trace := trace s; notes := notes s ++ [Notified m] |}
    | inl _ => s
    end
  else s.
Definition patient (news : nat → option Message) : Schedule := {|
  pick_id _ s := fresh ("" :: call_ids (trace s));
  run_others n s :=
    match rpc s with
    | Running => match news n with Some m => announce m s | None => s end
    | Sent _ => s
    | Waiting _ => settle (load s) s
    end |}.

Lemma announce_others m s : rtc (others serve) s (announce m s).
Proof.
  unfold announce. case_decide as Hm; [|done]. destruct (Marshal m) as [|d] eqn:E; [done|].
  apply rtc_once. split; [apply step_notify; [apply Hm|done]|]. split; [done|]. simpl.
  by rewrite took_app, app_nil_r.
Qed.
Lemma announce_roomy m s : roomy s → roomy (announce m s).
Proof.
  intros Hr. unfold announce. case_decide as Hm; [|done]. destruct (Marshal m) as [|d] eqn:E; [done|].
  destruct Hm as (_ & Hd & Hl). destruct Hr as (unhandled & Hn & Hall & Hlen).
  exists (unhandled ++ [m]). simpl. rewrite notified_app, handled_app, Hn, app_nil_r, app_assoc.
  split; [done|]. split; [by apply Forall_app; split; [|constructor]|].
  rewrite Hn, length_app in Hl. rewrite length_app. simpl. lia.
Qed.

Lemma announce_notified m s m' :
  m' ∈ notified (notes (announce m s)) → m' ∈ notified (notes s) ∨ m = m'.
Proof.
  unfold announce. case_decide; [|by left]. case_match; [by left|]. simpl. rewrite notified_app. set_solver.
Qed.

Lemma patient_is_fair honest news v0 s0 :
  initial v0 s0 → (∀ n m, news n = Some m → honest m) → fair (patient news) honest s0.
Proof.
  intros Hinit Hnews. split.
  - intros n s. simpl. pose proof (infinite_is_fresh ("" :: call_ids (trace s))) as Hf.
    by apply not_elem_of_cons in Hf.
  - intros n s. simpl. destruct (rpc s); [|done|apply settle_others].
    destruct (news n); [apply announce_others|done].
  - intros n s q _ Hc. simpl. by rewrite Hc.
  - intros n s Hr Hroom. simpl. destruct (rpc s) as [|q|q] eqn:Hc; [|done|].
    { destruct (news n); [by apply announce_roomy|done]. }
    destruct (reached serve serve_replies v0 s0 s Hinit Hr) as (p & Hv & HI & HD).
    pose proof Hv as [_ _ (_ & Ec & _)].
    destruct (settle_works v0 q (load s) s p Hv HI HD) as (p' & Hv' & _ & HD' & _ & Hr' & _);
      [congruence|by eapply roomy_ready|]. by eapply roomy_ready.
  - intros n s m. simpl. destruct (rpc s) eqn:Hc; [|by left|].
    + destruct (news n) as [m'|] eqn:En; [|by left]. intros [?|<-]%announce_notified; [by left|right; eauto].
    + rewrite settle_notified. by left.
  - intros n s q Hr Hc Hd Hroom. simpl. rewrite Hc.
    destruct (reached serve serve_replies v0 s0 s Hinit Hr) as (p & Hv & HI & HD).
    pose proof Hv as [_ _ (_ & Ec & _ & _ & En)].
    destruct (settle_works v0 q (load s) s p Hv HI HD) as (p' & Hv' & HI' & _ & Hcl' & _ & Hk' & Hz');
      [congruence|by eapply roomy_ready|].
    destruct (idle_held serve serve_replies serve_total v0 p' q HI' Hcl') as (m & Hbk & _);
      [apply Hk'; congruence|by apply Hz', work_load|].
    destruct (s_bk _ _ _ _ _ _ _ _ _ (v_drv _ _ Hv')) as (c & Hcn & Hcar & _).
    unfold arrived_at. rewrite Hcn. simpl. intros E. rewrite E, Hbk in Hcar. by apply Forall2_nil_inv_l in Hcar.
Qed.
End schedule.

(** ** The service inside the system *)

Section chain.
Import consensus_chain.
Context {M : Type} `{Proto Message, GoRuntime, EngineProtos, Proto PingResponse}.
Context `{ServiceProtos, !ServiceProtosOk, !ProtoTotal ConsensusNotifyAck, !ProtoTotal PingResponse}.
Context (sign : BlockId → bytes → BlockId).

(** The reference validator; it has an empty answer to requests it does not know. *)
Definition chain_serve (c : Chain) (q : Message) : option (Z * bytes * Chain) :=
  match val_reply sign c q with
  | Some r => Some r
  | None => Some (Message_DEFAULT, "", c)
  end.

Lemma reply_with_type {Q R} `{Proto Q, Proto R} (f : Chain → Q → R * Chain) t c m t' b c' :
  reply_with f t c m = Some (t', b, c') → t' = t.
Proof. unfold reply_with. destruct (f _ _) as [r c1]. destruct (Marshal r); [done|]. by intros [= -> _ _]. Qed.

Lemma val_reply_types c q t b c' :
  val_reply sign c q = Some (t, b, c') →
  is_request q ∧ is_notification t = false ∧ t ≠ Message_PING_REQUEST.
Proof.
  unfold val_reply, is_request.
  repeat (let Ht := fresh in case_decide as Ht; [rewrite Ht; intros ->%reply_with_type;
    split_and!; vm_compute; congruence|]). done.
Qed.

Lemma chain_replies : replies chain_serve.
Proof.
  intros c q t b c'. unfold chain_serve. destruct (val_reply sign c q) as [[[t1 b1] c1]|] eqn:E.
  - intros [= <- <- <-]. by apply val_reply_types in E as [_ ?].
  - by intros [= <- <- <-].
Qed.
Lemma chain_answers : answers_all chain_serve.
Proof. intros c q _. unfold chain_serve. destruct (val_reply sign c q) as [[[t b] c']|]; eauto. Qed.

Section interface.
Context (sched : Schedule (M:=M) (V:=Chain)) (honest : Message → Prop).
Context (c0 : Chain) (s0 : System (M:=M) (V:=Chain)).
Context (Hinit : initial c0 s0) (Hfair : fair chain_serve sched honest s0).


(** The engine is in no call. *)
Definition seat_ok (x : Seat (M:=M) (V:=Chain)) : Prop :=
  seated chain_serve honest s0 Running (val_state (seat_sys x)) None (seat_sys x) ∧
  chain_ok (val_state (seat_sys x)).
Definition seat_chain (x : Seat (M:=M) (V:=Chain)) : Chain := val_state (seat_sys x).

Lemma seat_calls t b rt rb c' x :
  seat_ok x → chain_ok c' →
  (∀ corr, val_reply sign (seat_chain x) {| Message_MessageType := t;
     Message_CorrelationId := corr; Message_Content := b |} = Some (rt, rb, c')) →
  ∃ corr x1 x2 x3, seat_send sched t b x = (Ret (corr, None), x1) ∧
    seat_note sched corr x1 = (Ret tt, x2) ∧
    seat_await sched corr x2 = (Ret (inr (Some {| Message_MessageType := rt;
      Message_CorrelationId := corr; Message_Content := rb |})), x3) ∧ seat_ok x3 ∧ seat_chain x3 = c'.
Proof.
  intros [Hx _] Hc' Hval.
  destruct (seat_sends chain_serve chain_replies sched honest c0 s0 Hinit Hfair _ x t b Hx)
    as (id & x1 & E1 & Hx1 & Hd1); [intros id; by eapply val_reply_types, Hval|].
  destruct (seat_notes chain_serve chain_replies sched honest c0 s0 Hinit Hfair _ x1 _ Hx1 Hd1)
    as (x2 & E2 & Hx2 & Hd2).
  destruct (seat_awaits chain_serve chain_replies sched honest c0 s0 Hinit Hfair _ x2 _ Hx2 Hd2)
    as (t' & b' & x3 & E3 & Hs & Hx3).
  unfold chain_serve in Hs. unfold request in Hs at 1. rewrite Hval in Hs. injection Hs as <- <- Hs.
  exists id, x1, x2, x3. split; [done|]. split; [done|]. split; [exact E3|].
  unfold seat_ok, seat_chain. by rewrite <-Hs in Hx3 |- *.
Qed.

Definition seat_rpc : ChainRpc (H := seat_steps sched) Seat sign :=
  @Build_ChainRpc _ (seat_steps sched) _ _ sign seat_ok seat_chain (λ x Hx, proj2 Hx) seat_calls.
End interface.

End chain.

(** ** A concrete system *)

Module stack.
Import consensus_chain consensus_chain.demo.
#[export] Existing Instance ordered_runtime.
#[export] Instance ping_proto : Proto PingResponse := countable_proto PingResponse.
#[export] Instance engine_protos : EngineProtos := ltac:(split; exact (countable_proto _)).
#[export] Instance ack_total : ProtoTotal ConsensusNotifyAck := countable_proto_total _.
#[export] Instance ping_total : ProtoTotal PingResponse := countable_proto_total _.

Definition rest (c : Chain) : System (M:=unit) (V:=Chain) := {|
  drv := {|
    impl_Name := "Devmode"; impl_Version := "0.1"; validator := quiet_conn "v";
    service_sock := quiet_conn "s"; monitor := tt; shutdownRx := quiet_conn "x"; shutdownTx := NilIface;
    updateChan := []; updateChan_closed := false; slept := [];
    service := {| service_uri := "inproc://service"; connection := Some (quiet_conn "c");
                  corrIds := ∅ |} |};
  stuck := None; rpc := Running; val_inbox := []; val_state := c; trace := []; notes := [] |}.
Lemma stack_initial c : initial c (rest c).
Proof. split; try done. by exists (quiet_conn "c"). Qed.
Definition seat (c : Chain) : Seat (M:=unit) := {| seat_sys := rest c; seat_turn := 0 |}.
Lemma seat_at_rest honest c : chain_ok c → seat_ok sign0 honest (rest c) (seat c).
Proof. intros Hc. split; [|done]. apply (seated_initial _ honest c), stack_initial. Qed.

Definition valid (b : string) : Message := {|
  Message_MessageType := Message_CONSENSUS_NOTIFY_BLOCK_VALID; Message_CorrelationId := b;
  Message_Content := pos_bits (encode (Build_ConsensusNotifyBlockValid b)) |}.
(** A notification that block [r] is valid, before the engine's first action. *)
Definition news (n : nat) : option Message := if decide (n = 0%nat) then Some (valid "r") else None.
Definition sched : Schedule (M:=unit) := patient (chain_serve sign0) news.
Lemma stack_fair (honest : Message → Prop) c : honest (valid "r") → fair (chain_serve sign0) sched honest (rest c).
Proof.
  intros Hr. apply (patient_is_fair _ (chain_replies _) (chain_answers _) honest news c); [apply stack_initial|].
  unfold news. intros n m. case_decide; [by intros [= <-]|done].
Qed.
End stack.

Module witness.
Import consensus_chain consensus_chain.demo consensus_chain.witness stack.

End witness.
End consensus_schedule.
