(* ===== verification/Devmode.v ===== *)
(** * The devmode consensus engine

    Models [examples/devmode_consensus/engine.go] against the [ConsensusService]
    interface.  The state is the record [DevmodeEngineImpl]: the service with its
    log guard, the fields of the source's struct, the clock ([time.Now()]) and a
    counter of random draws.  The select of the main loop is given as a sequence
    of events, each with the time at which it happens.  The loops that wait until
    a block is ready and the walk down the chain are bounded by fuel; the walk
    needs one unit per block between the chain head and the height it looks
    for.  Times are in nanoseconds; log output is left out. *)

From S2P Require Import Prelude GoLib Errors Protobuf Messaging ConsensusProto ConsensusTypes ConsensusService.

Module devmode.
Local Open Scope Z_scope.

Definition defaultWaitTime : Z := 0.

Record logGuard := { notReadyToSummarize : bool; notReadyToFinalize : bool }.

Record devmodeService (S : Type) := { service : S; guard : logGuard }.
Arguments service {S} _.
Arguments guard {S} _.

Definition NewDevmodeService {S} (service : S) : devmodeService S := {|
  service := service;
  guard := {| notReadyToSummarize := false; notReadyToFinalize := false |} |}.

(** [createConsensus] puts the engine's name in front of the summary. *)
Definition createConsensus (summary : bytes) : bytes := "Devmode" +:+ summary.
Definition checkConsensus (b : block) : bool :=
  bool_decide (payload b = createConsensus (summary b)).

Section service.
Context {S : Type} `{ConsensusService S}.
Abbreviation dsvc := (devmodeService S).

Definition on_service {A} : Go S A → Go dsvc A :=
  zoom service (λ s d, {| service := s; guard := guard d |}).

Definition getChainHead : Go dsvc block :=
  r ← on_service GetChainHead;
  match r with
  | inl _ => go_panic "Failed to get chain head"
  | inr head => mret head
  end.

(** [None] is the nil [Block] read from the map for an absent key. *)
Definition getBlock (block_id : BlockId) : Go dsvc (option block) :=
  r ← on_service (GetBlocks [block_id]);
  match r with
  | inl _ => go_panic "Failed to get block"
  | inr blockIdMap => mret (blockIdMap !! block_id)
  end.

(** The calls that panic on an error of the service. *)
Definition must (text : string) (m : Go S (option error)) : Go dsvc unit :=
  err ← on_service m;
  match err with
  | Some _ => go_panic text
  | None => mret tt
  end.

Definition initializeBlock : Go dsvc unit :=
  must "Failed to initialize" (InitializeBlock BLOCK_ID_NULL).
Definition checkBlock (block_id : BlockId) : Go dsvc unit :=
  must "Failed to check block" (CheckBlocks [block_id]).
Definition failBlock (block_id : BlockId) : Go dsvc unit :=
  must "Failed to fail block" (FailBlock block_id).
Definition ignoreBlock (block_id : BlockId) : Go dsvc unit :=
  must "Failed to ignore block" (IgnoreBlock block_id).
Definition commitBlock (block_id : BlockId) : Go dsvc unit :=
  must "Failed to commit block" (CommitBlock block_id).
Definition broadcastPublishedBlock (block_id : BlockId) : Go dsvc unit :=
  must "Failed to broadcast published block" (Broadcast "published" (BlockId_AsBytes block_id)).
Definition sendBlockReceived (b : block) : Go dsvc unit :=
  must "Failed to send block received"
    (SendTo (signerId b) "received" (BlockId_AsBytes (blockId b))).
Definition sendBlockAck (sender_id : PeerId) (block_id : BlockId) : Go dsvc unit :=
  must "Failed to send block ack" (SendTo sender_id "ack" (BlockId_AsBytes block_id)).

Definition cancelBlock : Go dsvc unit :=
  err ← on_service CancelBlock;
  match err with
  | Some e => if IsInvalidStateError err then mret tt
              else go_panic ("Failed to cancel block: " +:+ Error e)
  | None => mret tt
  end.

Definition set_guard (g : logGuard) : Go dsvc unit :=
  go_modify (λ d, {| service := service d; guard := g |}).

(** [finalizeBlock]: the loop that asks again while the block is not ready to
    summarize, one unit of fuel per call. *)
Fixpoint summarize_loop (fuel : nat) : Go dsvc bytes :=
  match fuel with
  | O => λ d, (OutOfFuel, d)
  | Datatypes.S fuel =>
      '(summary, err) ← on_service SummarizeBlock;
      if IsBlockNotReadyError err then
        d ← go_get;
        _ ← set_guard {| notReadyToSummarize := true;
                         notReadyToFinalize := notReadyToFinalize (guard d) |};
        summarize_loop fuel
      else mret summary
  end.

Fixpoint finalize_loop (fuel : nat) (newConsensus : bytes) : Go dsvc BlockId :=
  match fuel with
  | O => λ d, (OutOfFuel, d)
  | Datatypes.S fuel =>
      '(blockId, err) ← on_service (FinalizeBlock newConsensus);
      if IsBlockNotReadyError err then
        d ← go_get;
        _ ← set_guard {| notReadyToSummarize := notReadyToSummarize (guard d);
                         notReadyToFinalize := true |};
        finalize_loop fuel newConsensus
      else mret blockId
  end.

(** Any other error is not looked at: the summary is then nil and the block id
    null. *)
Definition finalizeBlock (fuel : nat) : Go dsvc BlockId :=
  summary ← summarize_loop fuel;
  d ← go_get;
  _ ← set_guard {| notReadyToSummarize := false;
                   notReadyToFinalize := notReadyToFinalize (guard d) |};
  blockId ← finalize_loop fuel (createConsensus summary);
  d ← go_get;
  _ ← set_guard {| notReadyToSummarize := notReadyToSummarize (guard d);
                   notReadyToFinalize := false |};
  mret blockId.

Definition Atoi_or_0 (s : string) : Z := default 0 (Atoi s).

(** [calculateWaitTime] in seconds; [intn] stands for [rand.Intn]. *)
Definition wait_seconds (intn : Z → Z) (settings : gmap string string) (err : option error) : Z :=
  match err with
  | Some _ =>
      let minWaitTime :=
        Atoi_or_0 (default "" (settings !! "sawtooth.consensus.min_wait_time")) in
      let maxWaitTime :=
        Atoi_or_0 (default "" (settings !! "sawtooth.consensus.max_wait_time")) in
      if maxWaitTime <=? minWaitTime then defaultWaitTime
      else
        let rand_range := wrap_i64 (maxWaitTime - minWaitTime) in
        wrap_i64 (intn rand_range + minWaitTime)
  | None => defaultWaitTime
  end.

Definition calculateWaitTime (intn : Z → Z) (chain_head_id : BlockId) : Go dsvc Z :=
  '(settings, err) ← on_service (GetSettings chain_head_id
    ["sawtooth.consensus.min_wait_time"; "sawtooth.consensus.max_wait_time"]);
  mret (wrap_i64 (wait_seconds intn settings err * 1000000000)).
End service.

(** ** The engine *)

Record DevmodeEngineImpl (S : Type) := {
  dservice : devmodeService S;
  chainHead : block;
  waitTime : Z;
  publishedAtHeight : bool;
  start : Z;
  clock : Z;
  draws : nat }.
Arguments dservice {S} _.
Arguments chainHead {S} _.
Arguments waitTime {S} _.
Arguments publishedAtHeight {S} _.
Arguments start {S} _.
Arguments clock {S} _.
Arguments draws {S} _.

(** What the select delivers: a value from the update channel (nil once the
    channel is closed) or the timer. *)
Inductive event :=
| Notification (n : option ConsensusUpdate)
| Timer.

Section engine.
Context {S : Type} `{ConsensusService S}.
(** [rand.Intn], by draw; it panics unless its argument is positive, which it is
    where it is called. *)
Variable Intn : nat → Z → Z.
Abbreviation impl := (DevmodeEngineImpl S).

Definition Version : string := "0.1".
Definition Name : string := "Devmode".

Definition with_dservice (d : devmodeService S) (e : impl) : impl := {|
  dservice := d; chainHead := chainHead e; waitTime := waitTime e;
  publishedAtHeight := publishedAtHeight e; start := start e; clock := clock e;
  draws := draws e |}.
Definition on_d {A} : Go (devmodeService S) A → Go impl A := zoom dservice with_dservice.

Definition set_published (b : bool) : Go impl unit := go_modify (λ e, {|
  dservice := dservice e; chainHead := chainHead e; waitTime := waitTime e;
  publishedAtHeight := b; start := start e; clock := clock e; draws := draws e |}).

(** The fields set at the start and after a commit: a new wait time, nothing
    published yet, the timer starts now. *)
Definition new_height (head : BlockId) : Go impl unit :=
  e ← go_get;
  wait ← on_d (calculateWaitTime (Intn (draws e)) head);
  go_modify (λ e, {|
    dservice := dservice e; chainHead := chainHead e; waitTime := wait;
    publishedAtHeight := false; start := clock e; clock := clock e;
    draws := Datatypes.S (draws e) |}).

Definition HandlePeerMessage (m : peerMessage) (senderId : PeerId) : Go impl unit :=
  let t := messageType (header m) in
  if decide (t = "published") then mret tt
  else if decide (t = "received") then
    on_d (sendBlockAck senderId (NewBlockIdFromBytes (content m)))
  else if decide (t = "ack") then mret tt
  else go_panic "HandlePeerMessage() recieved an invalid message type".

Definition HandleBlockNew (b : block) : Go impl unit :=
  if decide (previousId b = BLOCK_ID_NULL) then mret tt
  else if checkConsensus b then on_d (checkBlock (blockId b))
  else on_d (failBlock (blockId b)).

(** The walk from the chain head to the block of a given height. *)
Fixpoint walk (fuel : nat) (num : Z) (chainBlock : block) : Go impl block :=
  match fuel with
  | O => λ e, (OutOfFuel, e)
  | Datatypes.S fuel =>
      r ← on_d (getBlock (previousId chainBlock));
      match r with
      | None => go_panic "invalid memory address or nil pointer dereference"
      | Some chainBlock =>
          if decide (blockNum chainBlock = num) then mret chainBlock
          else walk fuel num chainBlock
      end
  end.

Definition HandleBlockValid (fuel : nat) (id : BlockId) : Go impl unit :=
  r ← on_d (getBlock id);
  match r with
  | None => go_panic "invalid memory address or nil pointer dereference"
  | Some b =>
      _ ← on_d (sendBlockReceived b);
      head ← on_d getChainHead;
      let greater := bytes_gt (BlockId_AsBytes (blockId b)) (BlockId_AsBytes (blockId head)) in
      if (blockNum head <? blockNum b) || ((blockNum b =? blockNum head) && greater)
      then on_d (commitBlock id)
      else if blockNum b <? blockNum head then
        chainBlock ← walk fuel (blockNum b) head;
        if bytes_gt (BlockId_AsBytes (blockId b)) (BlockId_AsBytes (blockId chainBlock))
        then on_d (commitBlock id)
        else on_d (ignoreBlock id)
      else on_d (ignoreBlock id)
  end.

Definition HandleBlockCommit (newChainHead : BlockId) : Go impl unit :=
  _ ← on_d cancelBlock;
  _ ← new_height newChainHead;
  on_d initializeBlock.

(** The timer case of the select. *)
Definition HandleTimer (fuel : nat) : Go impl unit :=
  e ← go_get;
  if negb (publishedAtHeight e) && (waitTime e <? clock e - start e) then
    newBlockId ← on_d (finalizeBlock fuel);
    _ ← set_published true;
    on_d (broadcastPublishedBlock newBlockId)
  else mret tt.

(** The type switch: [true] when the loop returns.  The pointer to an
    [UpdateShutdown] matches no case, nor does nil. *)
Definition handle_event (fuel : nat) (ev : event) : Go impl bool :=
  match ev with
  | Notification (Some UpdateShutdown) => mret true
  | Notification (Some (UpdateBlockNew b)) => _ ← HandleBlockNew b; mret false
  | Notification (Some (UpdateBlockValid id)) => _ ← HandleBlockValid fuel id; mret false
  | Notification (Some (UpdateBlockCommit id)) => _ ← HandleBlockCommit id; mret false
  | Notification (Some (UpdatePeerMessage m sender)) =>
      _ ← HandlePeerMessage m sender; mret false
  | Notification _ => mret false
  | Timer => _ ← HandleTimer fuel; mret false
  end.

Definition set_clock (now : Z) : Go impl unit := go_modify (λ e, {|
  dservice := dservice e; chainHead := chainHead e; waitTime := waitTime e;
  publishedAtHeight := publishedAtHeight e; start := start e; clock := now;
  draws := draws e |}).

Fixpoint event_loop (fuel : nat) (events : list (Z * event)) : Go impl (option error) :=
  match events with
  | [] => go_block
  | (now, ev) :: rest =>
      _ ← set_clock now;
      stop ← handle_event fuel ev;
      if (stop : bool) then mret None else event_loop fuel rest
  end.

(** The same loop with the select as an action on the state the service lives in:
    receiving from the channel there, or the timer; [None] when neither is ready. *)
Fixpoint select_loop (fuel : nat) (selects : list (Z * Go S (option event))) : Go impl (option error) :=
  match selects with
  | [] => go_block
  | (now, select) :: rest =>
      _ ← set_clock now;
      r ← on_d (on_service select);
      match r with
      | None => select_loop fuel rest
      | Some ev =>
          stop ← handle_event fuel ev;
          if (stop : bool) then mret None else select_loop fuel rest
      end
  end.

(** [Start] up to its loop. *)
Definition start_with (st : startupState) (s : S) (now : Z) (loop : Go impl (option error)) :
    Res (option error) * impl :=
  (_ ← new_height (blockId (ConsensusTypes.chainHead st));
   _ ← on_d initializeBlock;
   loop)
    {| dservice := NewDevmodeService s; chainHead := ConsensusTypes.chainHead st;
       waitTime := 0; publishedAtHeight := false; start := now; clock := now; draws := 0 |}.

Definition Start (fuel : nat) (st : startupState) (s : S) (now : Z)
    (events : list (Z * event)) : Res (option error) * impl :=
  start_with st s now (event_loop fuel events).

(** A given sequence of events is a sequence of selects that do not depend on the
    state. *)
Lemma select_events fuel events e :
  select_loop fuel ((λ p, (p.1, mret (Some p.2))) <$> events) e = event_loop fuel events e.
Proof.
  revert e. induction events as [|[now ev] events IH]; intros e; [done|]. simpl.
  rewrite !(go_bind_Ret (set_clock now) _ _ _ _ eq_refl).
  rewrite (go_bind_Ret _ _ _ (Some ev) (set_clock now e).2) by (by destruct e as [[]]).
  unfold mbind, Go_bind. destruct (handle_event fuel ev _) as [[[]|?| |] e1]; done || apply IH.
Qed.

(** Only the shutdown value ends the loop. *)
Lemma event_goes_on fuel ev e stop e' :
  ev ≠ Notification (Some UpdateShutdown) → handle_event fuel ev e = (Ret stop, e') → stop = false.
Proof.
  intros Hev. destruct ev as [[[]|]|]; simpl; try done; try (by intros [= <-]);
    intros (? & ? & _ & E)%go_bind_inv; by go_eq.
Qed.
End engine.

(** ** Fork choice *)

(** The block [n] steps down the chain. *)
Fixpoint ancestor (blocks : gmap BlockId block) (n : nat) (b : block) : option block :=
  match n with
  | O => Some b
  | Datatypes.S n => blocks !! previousId b ≫= ancestor blocks n
  end.

(** Should a chain with this head give way to the block?  Yes when the block is
    higher, and otherwise when its id is greater than that of the chain's own
    block of the same height. *)
Definition better (blocks : gmap BlockId block) (head b : block) : bool :=
  if blockNum head <? blockNum b then true
  else match ancestor blocks (Z.to_nat (blockNum head - blockNum b)) head with
       | Some a => bytes_gt (blockId b) (blockId a)
       | None => false
       end.

(** What the engine relies on of the service while it decides about a block: the
    validator knows a set of blocks and a chain head, answers queries about them,
    delivers messages to the peers it can reach, and records the engine's verdicts
    on the blocks it knows ([true] for commit). *)
Class ChainService (S : Type) `{ConsensusService S} := {
  cok : S → Prop;
  blocks_of : S → gmap BlockId block;
  head_of : S → block;
  verdicts : S → list (BlockId * bool);
  reachable : S → PeerId → Prop;
  GetBlocks_chain id b s : cok s → blocks_of s !! id = Some b →
    ∃ m s', GetBlocks [id] s = (Ret (inr m), s') ∧ m !! id = Some b ∧
      cok s' ∧ blocks_of s' = blocks_of s ∧ head_of s' = head_of s ∧ verdicts s' = verdicts s ∧
      reachable s' = reachable s;
  GetChainHead_chain s : cok s →
    ∃ s', GetChainHead s = (Ret (inr (head_of s)), s') ∧
      cok s' ∧ blocks_of s' = blocks_of s ∧ head_of s' = head_of s ∧ verdicts s' = verdicts s;
  SendTo_chain peer t d s : cok s → reachable s peer →
    ∃ s', SendTo peer t d s = (Ret None, s') ∧
      cok s' ∧ blocks_of s' = blocks_of s ∧ head_of s' = head_of s ∧ verdicts s' = verdicts s;
  CommitBlock_chain id s : cok s → is_Some (blocks_of s !! id) →
    ∃ s', CommitBlock id s = (Ret None, s') ∧ cok s' ∧ verdicts s' = verdicts s ++ [(id, true)];
  IgnoreBlock_chain id s : cok s → is_Some (blocks_of s !! id) →
    ∃ s', IgnoreBlock id s = (Ret None, s') ∧ cok s' ∧
      verdicts s' = verdicts s ++ [(id, false)] }.
#[global] Hint Mode ChainService ! - : typeclass_instances.

(** Every known block but those of height 0 has its predecessor among the known
    blocks, one lower. *)
Definition linked (blocks : gmap BlockId block) (b : block) : Prop :=
  0 < blockNum b → ∃ p, blocks !! previousId b = Some p ∧ blockNum p = blockNum b - 1.
Definition chain_wf (blocks : gmap BlockId block) (head : block) : Prop :=
  map_Forall (λ _, linked blocks) blocks ∧ linked blocks head.

Section fork_choice.
Context {S : Type} `{ConsensusService S, !ChainService S}.
Abbreviation impl := (DevmodeEngineImpl S).
Implicit Types (e : impl) (b : block).

Definition svc e : S := service (dservice e).
(** Nothing the engine decides on has changed. *)
Definition same e e' : Prop :=
  cok (svc e') ∧ blocks_of (svc e') = blocks_of (svc e) ∧
  head_of (svc e') = head_of (svc e) ∧ verdicts (svc e') = verdicts (svc e).

Lemma AsBytes_id id : BlockId_AsBytes id = id.
Proof. unfold BlockId_AsBytes. by case_decide. Qed.

Lemma getBlock_chain id b e :
  cok (svc e) → blocks_of (svc e) !! id = Some b →
  ∃ e', on_d (getBlock id) e = (Ret (Some b), e') ∧ same e e' ∧
    reachable (svc e') = reachable (svc e).
Proof.
  intros Hc Hb. destruct (GetBlocks_chain id b (svc e) Hc Hb) as (m & s' & E & Hm & Hc' & ? & ? & ? & ?).
  eexists (with_dservice {| service := s'; guard := guard (dservice e) |} e).
  split; [|done]. unfold on_d, getBlock, on_service, zoom, mbind, Go_bind. fold (svc e).
  rewrite E. simpl. by rewrite Hm.
Qed.

Lemma getChainHead_chain e :
  cok (svc e) → ∃ e', on_d getChainHead e = (Ret (head_of (svc e)), e') ∧ same e e'.
Proof.
  intros Hc. destruct (GetChainHead_chain (svc e) Hc) as (s' & E & ?).
  eexists (with_dservice {| service := s'; guard := guard (dservice e) |} e).
  split; [|done]. unfold on_d, getChainHead, on_service, zoom, mbind, Go_bind. fold (svc e).
  by rewrite E.
Qed.

Lemma sendBlockReceived_chain b e :
  cok (svc e) → reachable (svc e) (signerId b) → ∃ e', on_d (sendBlockReceived b) e = (Ret tt, e') ∧ same e e'.
Proof.
  intros Hc Hr.
  destruct (SendTo_chain (signerId b) "received" (BlockId_AsBytes (blockId b)) (svc e) Hc Hr)
    as (s' & E & ?).
  eexists (with_dservice {| service := s'; guard := guard (dservice e) |} e).
  split; [|done]. unfold on_d, sendBlockReceived, must, on_service, zoom, mbind, Go_bind.
  fold (svc e). by rewrite E.
Qed.

Lemma verdict_chain id (yes : bool) e :
  cok (svc e) → is_Some (blocks_of (svc e) !! id) →
  ∃ e', on_d (if yes then commitBlock id else ignoreBlock id) e = (Ret tt, e') ∧
    cok (svc e') ∧ verdicts (svc e') = verdicts (svc e) ++ [(id, yes)].
Proof.
  intros Hc Hk. destruct yes.
  - destruct (CommitBlock_chain id (svc e) Hc Hk) as (s' & E & ?).
    eexists (with_dservice {| service := s'; guard := guard (dservice e) |} e).
    split; [|done]. unfold on_d, commitBlock, must, on_service, zoom, mbind, Go_bind.
    fold (svc e). by rewrite E.
  - destruct (IgnoreBlock_chain id (svc e) Hc Hk) as (s' & E & ?).
    eexists (with_dservice {| service := s'; guard := guard (dservice e) |} e).
    split; [|done]. unfold on_d, ignoreBlock, must, on_service, zoom, mbind, Go_bind.
    fold (svc e). by rewrite E.
Qed.

(** The walk ends, on the chain's block of the height it looks for. *)
Lemma walk_ancestor n fuel num cb e :
  cok (svc e) → map_Forall (λ _, linked (blocks_of (svc e))) (blocks_of (svc e)) →
  linked (blocks_of (svc e)) cb → 0 ≤ num → blockNum cb = num + Z.of_nat n + 1 → (n < fuel)%nat →
  ∃ a e', ancestor (blocks_of (svc e)) (Datatypes.S n) cb = Some a ∧
    walk fuel num cb e = (Ret a, e') ∧ same e e'.
Proof.
  revert fuel cb e. induction n as [|n IH]; intros fuel cb e Hc Hwf Hl Hnum Hcb Hfuel;
    (destruct fuel as [|fuel]; [lia|]); destruct Hl as (p & Hp & Hpn); try lia;
    destruct (getBlock_chain _ p e Hc Hp) as (e1 & E1 & Hs1 & _).
  - exists p, e1. split; [simpl; by rewrite Hp|]. cbn [walk].
    rewrite (go_bind_Ret _ _ _ _ _ E1), decide_True by lia. done.
  - destruct Hs1 as (Hc1 & Hb1 & Hh1 & Hv1).
    destruct (IH fuel p e1) as (a & e2 & Ha & E2 & Hs2); rewrite ?Hb1; [done|done| |done|lia|lia|].
    { by eapply Hwf. }
    exists a, e2. split; [|split].
    + rewrite Hb1 in Ha. change (blocks_of (svc e) !! previousId cb ≫=
        ancestor (blocks_of (svc e)) (Datatypes.S n) = Some a). by rewrite Hp.
    + cbn [walk]. rewrite (go_bind_Ret _ _ _ _ _ E1), decide_False by lia. done.
    + unfold same in *. rewrite Hb1, Hh1, Hv1 in Hs2. done.
Qed.

Lemma HandleBlockValid_better fuel id b e :
  cok (svc e) → chain_wf (blocks_of (svc e)) (head_of (svc e)) →
  blocks_of (svc e) !! id = Some b → reachable (svc e) (signerId b) → 0 ≤ blockNum b →
  (Z.to_nat (blockNum (head_of (svc e)) - blockNum b) ≤ fuel)%nat →
  ∃ e', HandleBlockValid fuel id e = (Ret tt, e') ∧ cok (svc e') ∧
    verdicts (svc e') =
      verdicts (svc e) ++ [(id, better (blocks_of (svc e)) (head_of (svc e)) b)].
Proof.
  intros Hc [Hwf Hlh] Hb Hpeer Hn Hfuel. unfold HandleBlockValid.
  destruct (getBlock_chain id b e Hc Hb) as (e1 & E1 & (Hc1 & Hb1 & Hh1 & Hv1) & Hr1).
  rewrite <-Hr1 in Hpeer. destruct (sendBlockReceived_chain b e1 Hc1 Hpeer) as (e2 & E2 & Hc2 & Hb2 & Hh2 & Hv2).
  destruct (getChainHead_chain e2 Hc2) as (e3 & E3 & Hc3 & Hb3 & Hh3 & Hv3).
  rewrite (go_bind_Ret _ _ _ _ _ E1), (go_bind_Ret _ _ _ _ _ E2), (go_bind_Ret _ _ _ _ _ E3).
  cbv beta iota zeta.
  assert (Hblocks : blocks_of (svc e3) = blocks_of (svc e)) by congruence.
  assert (Hhead : head_of (svc e2) = head_of (svc e)) by congruence.
  assert (Hverd : verdicts (svc e3) = verdicts (svc e)) by congruence.
  assert (Hk : is_Some (blocks_of (svc e3) !! id)) by (rewrite Hblocks; eauto).
  rewrite !AsBytes_id, Hhead, <-Hverd. set (head := head_of (svc e)) in *. unfold better.
  destruct (Z.ltb_spec (blockNum head) (blockNum b)) as [Hhi|Hlo]; simpl.
  { by apply (verdict_chain id true). }
  destruct (Z.eqb_spec (blockNum b) (blockNum head)) as [Heq|Hneq]; simpl.
  { replace (Z.to_nat (blockNum head - blockNum b)) with 0%nat by lia. simpl.
    destruct (bytes_gt (blockId b) (blockId head)); [by apply (verdict_chain id true)|].
    rewrite (proj2 (Z.ltb_ge _ _)) by lia. by apply (verdict_chain id false). }
  rewrite (proj2 (Z.ltb_lt _ _)) by lia.
  destruct (walk_ancestor (Z.to_nat (blockNum head - blockNum b - 1)) fuel (blockNum b) head e3)
    as (a & e4 & Ha & E4 & Hc4 & Hb4 & _ & Hv4); rewrite ?Hblocks; try done; [lia..|].
  rewrite (go_bind_Ret _ _ _ _ _ E4). rewrite AsBytes_id, Hblocks in *.
  replace (Z.to_nat (blockNum head - blockNum b))
    with (Datatypes.S (Z.to_nat (blockNum head - blockNum b - 1))) by lia.
  rewrite Ha, <-Hv4. rewrite <-Hb4 in Hk.
  destruct (bytes_gt (blockId b) (blockId a));
    [by apply (verdict_chain id true)|by apply (verdict_chain id false)].
Qed.

(** Two nodes with rival heads of one height agree on the winner. *)
Lemma better_rivals blocks blocks' b b' :
  blockNum b = blockNum b' → blockId b ≠ blockId b' →
  better blocks b b' = negb (better blocks' b' b).
Proof.
  intros Hn Hid. unfold better. rewrite Hn, Z.ltb_irrefl, Z.sub_diag. simpl.
  destruct (bytes_gt (blockId b) (blockId b')) eqn:E; simpl; [by apply bytes_gt_asym|].
  destruct (bytes_gt_total _ _ Hid); congruence.
Qed.

End fork_choice.

(** ** Publishing

    A service that counts the announcements of published blocks and is otherwise
    the given one: the count is only there to be spoken about. *)
Record watched (S : Type) := { inner : S; announced : nat }.
Arguments inner {S} _.
Arguments announced {S} _.

Section watched.
Context {S : Type} `{ConsensusService S}.

Definition forward {A} : Go S A → Go (watched S) A :=
  zoom inner (λ s w, {| inner := s; announced := announced w |}).
Definition note_published (t : string) : Go (watched S) unit := go_modify (λ w, {|
  inner := inner w;
  announced := if decide (t = "published") then Datatypes.S (announced w) else announced w |}).

#[export] Instance watched_service : ConsensusService (watched S) := {|
  SendTo p t d := forward (SendTo p t d);
  Broadcast t d := _ ← note_published t; forward (Broadcast t d);
  InitializeBlock i := forward (InitializeBlock i);
  SummarizeBlock := forward SummarizeBlock;
  FinalizeBlock d := forward (FinalizeBlock d);
  CancelBlock := forward CancelBlock;
  CheckBlocks l := forward (CheckBlocks l);
  CommitBlock i := forward (CommitBlock i);
  IgnoreBlock i := forward (IgnoreBlock i);
  FailBlock i := forward (FailBlock i);
  GetBlocks l := forward (GetBlocks l);
  GetChainHead := forward GetChainHead;
  GetSettings i l := forward (GetSettings i l);
  Service_GetState i l := forward (Service_GetState i l) |}.

(** Code that announces nothing. *)
Definition quiet {A} (m : Go (devmodeService (watched S)) A) : Prop :=
  ∀ a, preserves (λ d, announced (service d) = a) m.

Lemma quiet_ret {A} (x : A) : quiet (mret x).
Proof. by intros a d. Qed.
Lemma quiet_panic {A} t : quiet (go_panic t : Go _ A).
Proof. by intros a d. Qed.
Lemma quiet_fuel {A} : quiet (λ d, (OutOfFuel : Res A, d)).
Proof. by intros a d. Qed.
Lemma quiet_get : quiet go_get.
Proof. by intros a d. Qed.
Lemma quiet_set_guard g : quiet (set_guard g).
Proof. by intros a d. Qed.
Lemma quiet_bind {A B} (m : Go _ A) (f : A → Go _ B) :
  quiet m → (∀ x, quiet (f x)) → quiet (m ≫= f).
Proof. intros Hm Hf a. apply preserves_bind; [apply Hm|intros x; apply Hf]. Qed.
Lemma quiet_service {A} (m : Go S A) : quiet (on_service (forward m)).
Proof.
  intros a d <-. unfold on_service, forward, zoom. by destruct (m (inner (service d))).
Qed.
Lemma quiet_must t m : quiet (must t (forward m)).
Proof.
  apply quiet_bind; [apply quiet_service|]. intros []; [apply quiet_panic|apply quiet_ret].
Qed.

Ltac solve_quiet := repeat
  lazymatch goal with
  | |- ∀ _, _ => intros ?
  | |- quiet (_ ≫= _) => apply quiet_bind
  | |- quiet (mret _) => apply quiet_ret
  | |- quiet (go_panic _) => apply quiet_panic
  | |- quiet (λ _, _) => apply quiet_fuel
  | |- quiet go_get => apply quiet_get
  | |- quiet (set_guard _) => apply quiet_set_guard
  | |- quiet (must _ _) => apply quiet_must
  | |- quiet (on_service _) => apply quiet_service
  | |- quiet (match ?x with _ => _ end) => destruct x
  end.

Lemma quiet_getBlock id : quiet (getBlock id).
Proof. unfold getBlock. solve_quiet. Qed.
Lemma quiet_getChainHead : quiet getChainHead.
Proof. unfold getChainHead. solve_quiet. Qed.
Lemma quiet_cancelBlock : quiet cancelBlock.
Proof. unfold cancelBlock. solve_quiet. Qed.
Lemma quiet_wait intn id : quiet (calculateWaitTime intn id).
Proof. unfold calculateWaitTime. solve_quiet. Qed.
Lemma quiet_summarize fuel : quiet (summarize_loop fuel).
Proof. induction fuel; simpl; solve_quiet; done. Qed.
Lemma quiet_finalize fuel c : quiet (finalize_loop fuel c).
Proof. induction fuel; simpl; solve_quiet; done. Qed.
Lemma quiet_finalizeBlock fuel : quiet (finalizeBlock fuel).
Proof. unfold finalizeBlock. solve_quiet; auto using quiet_summarize, quiet_finalize. Qed.
End watched.

(** ** Claims *)

(** The commits among the events of the main loop. *)
Definition is_commit (ev : Z * event) : bool :=
  match ev.2 with Notification (Some (UpdateBlockCommit _)) => true | _ => false end.
Definition commits (events : list (Z * event)) : nat :=
  length (filter (λ ev, Is_true (is_commit ev)) events).

Section publishing.
Context {S : Type} `{ConsensusService S} (Intn : nat → Z → Z).
Abbreviation impl := (DevmodeEngineImpl (watched S)).
Implicit Types (e : impl) (b : block).

(** How many announcements were made, and how many can still follow before the
    next commit. *)
Definition spent e : nat := announced (svc e).
Definition budget e : nat := spent e + if publishedAtHeight e then 0 else 1.
Definition at_height (a : nat) (p : bool) e : Prop := spent e = a ∧ publishedAtHeight e = p.
(** Code that neither announces nor changes what may be announced. *)
Definition calm {A} (m : Go impl A) : Prop := ∀ a p, preserves (at_height a p) m.

Lemma calm_on_d {A} (m : Go _ A) : quiet m → calm (on_d m).
Proof.
  intros Hm a p e [Ha Hp]. specialize (Hm a (dservice e) Ha). revert Hm.
  unfold on_d, zoom. destruct (m (dservice e)) as [r d]. done.
Qed.
Lemma calm_ret {A} (x : A) : calm (mret x).
Proof. by intros a p e. Qed.
Lemma calm_panic {A} t : calm (go_panic t : Go _ A).
Proof. by intros a p e. Qed.
Lemma calm_fuel {A} : calm (λ e, (OutOfFuel : Res A, e)).
Proof. by intros a p e. Qed.
Lemma calm_clock now : calm (set_clock now).
Proof. by intros a p e. Qed.
Lemma calm_bind {A B} (m : Go _ A) (f : A → Go _ B) :
  calm m → (∀ x, calm (f x)) → calm (m ≫= f).
Proof. intros Hm Hf a p. apply preserves_bind; [apply Hm|intros x; apply Hf]. Qed.

Ltac solve_calm := repeat
  lazymatch goal with
  | |- ∀ _, _ => intros ?
  | |- calm (_ ≫= _) => apply calm_bind
  | |- calm (mret _) => apply calm_ret
  | |- calm (go_panic _) => apply calm_panic
  | |- calm (λ _, _) => apply calm_fuel
  | |- calm (on_d _) => apply calm_on_d;
      auto using quiet_getBlock, quiet_getChainHead, quiet_cancelBlock, quiet_finalizeBlock;
      apply quiet_must
  | |- calm (match ?x with _ => _ end) => destruct x
  end.

Lemma calm_peer m sender : calm (HandlePeerMessage m sender).
Proof. unfold HandlePeerMessage. solve_calm. Qed.
Lemma calm_new b : calm (HandleBlockNew b).
Proof. unfold HandleBlockNew. solve_calm. Qed.
Lemma calm_walk fuel num b : calm (walk fuel num b).
Proof. revert b. induction fuel as [|fuel IH]; intros b; simpl; solve_calm. apply IH. Qed.
Lemma calm_valid fuel id : calm (HandleBlockValid fuel id).
Proof. unfold HandleBlockValid. solve_calm. apply calm_walk. Qed.

Lemma calm_budget {A} (m : Go impl A) e : calm m → budget (m e).2 = budget e.
Proof.
  intros Hm. destruct (Hm (spent e) (publishedAtHeight e) e) as [Ha Hp]; [done|].
  unfold budget. by rewrite Ha, Hp.
Qed.

(** A new height lets one more block be published. *)
Lemma new_height_budget id e :
  (budget (new_height Intn id e).2 ≤ spent e + 1)%nat.
Proof.
  pose proof (calm_on_d (calculateWaitTime (Intn (draws e)) id) (quiet_wait _ _)
    (spent e) (publishedAtHeight e) e (conj eq_refl eq_refl)) as Hw.
  revert Hw. unfold new_height, mbind, Go_bind, go_get.
  destruct (on_d (calculateWaitTime (Intn (draws e)) id) e) as [[w|t| |] e1];
    intros [Ha Hp]; simpl in *; unfold budget, spent in *; simpl; rewrite ?Hp, ?Ha;
    [|case_match; lia..].
  change (announced (svc e1) + 1 ≤ announced (svc e) + 1)%nat. lia.
Qed.

Lemma commit_budget id e : (budget (HandleBlockCommit Intn id e).2 ≤ spent e + 1)%nat.
Proof.
  assert (Hc : calm (on_d cancelBlock)) by (apply calm_on_d, quiet_cancelBlock).
  assert (Hi : calm (on_d initializeBlock)) by (apply calm_on_d, quiet_must).
  destruct (Hc (spent e) (publishedAtHeight e) e) as [Ha Hp]; [done|].
  unfold HandleBlockCommit, mbind, Go_bind. destruct (on_d cancelBlock e) as [[[]|t| |] e1];
    simpl in *; [|unfold budget; rewrite Ha; case_match; lia..].
  pose proof (new_height_budget id e1) as Hn. destruct (new_height Intn id e1) as [[[]|t| |] e2];
    simpl in *; [|lia..]. rewrite (calm_budget (on_d initializeBlock) e2 Hi). lia.
Qed.

(** The timer spends what the height allows, once. *)
Lemma timer_budget fuel e : (budget (HandleTimer fuel e).2 ≤ budget e)%nat.
Proof.
  unfold HandleTimer, mbind, Go_bind, go_get.
  destruct (publishedAtHeight e) eqn:Hp; [done|]. simpl. destruct (_ <? _); [|done].
  assert (Hf : calm (on_d (finalizeBlock fuel))) by apply calm_on_d, quiet_finalizeBlock.
  pose proof (calm_budget _ e Hf) as Hb.
  destruct (Hf (spent e) false e) as [Ha Hp1]; [done|].
  destruct (on_d (finalizeBlock fuel) e) as [[id|t| |] e1]; simpl in *; [|lia..].
  unfold budget in *. rewrite Hp, <-Ha. unfold spent, svc.
  unfold on_d, broadcastPublishedBlock, must, on_service, zoom, mbind, Go_bind. simpl.
  unfold mbind, Go_bind, forward, zoom. simpl.
  destruct (Broadcast "published" (BlockId_AsBytes id) (inner (service (dservice e1))))
    as [[[?|]|t| |] ?]; simpl; lia.
Qed.

Lemma event_budget fuel now ev e :
  (budget (handle_event Intn fuel ev e).2 ≤
   budget e + if is_commit (now, ev) then 1 else 0)%nat.
Proof.
  assert (Hret : ∀ m : Go impl unit, budget ((_ ← m; mret false) e).2 = budget (m e).2).
  { intros m. unfold mbind, Go_bind. by destruct (m e) as [[]]. }
  destruct ev as [[[]|]|]; simpl; try (rewrite Hret || (simpl; lia)).
  - rewrite calm_budget by apply calm_peer. lia.
  - rewrite calm_budget by apply calm_new. lia.
  - rewrite calm_budget by apply calm_valid. lia.
  - pose proof (commit_budget BlockId e). unfold budget at 2. lia.
  - pose proof (timer_budget fuel e). lia.
Qed.

Lemma loop_budget fuel events e :
  (budget (event_loop Intn fuel events e).2 ≤ budget e + commits events)%nat.
Proof.
  revert e. induction events as [|[now ev] events IH]; intros e; [simpl; lia|].
  cbn [event_loop]. erewrite (go_bind_Ret (set_clock now)) by reflexivity.
  pose proof (calm_budget _ e (calm_clock now)) as Hb.
  pose proof (event_budget fuel now ev (set_clock now e).2) as Hev. rewrite Hb in Hev.
  assert (Hcs : commits ((now, ev) :: events) =
    ((if is_commit (now, ev) then 1 else 0) + commits events)%nat).
  { unfold commits. rewrite filter_cons. by destruct (is_commit _). }
  rewrite Hcs. revert Hev. simpl. unfold mbind, Go_bind.
  destruct (handle_event Intn fuel ev _) as [[[]|t| |] e1]; simpl; intros; [lia| |lia..].
  specialize (IH e1). lia.
Qed.

(** C26. The engine publishes at most one block per height: whatever the service
    answers, the random waits and the order of the events, from its start on it
    announces at most one block more than there were commits. *)
Theorem one_block_per_height fuel st (s : S) now events :
  (announced (svc (Start Intn fuel st {| inner := s; announced := 0 |} now events).2)
     ≤ 1 + commits events)%nat.
Proof.
  unfold Start, start_with. set (e := Build_DevmodeEngineImpl _ _ _ _ _ _ _ _).
  assert (Hi : calm (on_d initializeBlock)) by (apply calm_on_d, quiet_must).
  assert (Hspent : ∀ e' : impl, (spent e' ≤ budget e')%nat) by (intros; unfold budget; lia).
  change (spent ((_ ← new_height Intn (blockId (ConsensusTypes.chainHead st));
    _ ← on_d initializeBlock; event_loop Intn fuel events) e).2 ≤ 1 + commits events)%nat.
  pose proof (new_height_budget (blockId (ConsensusTypes.chainHead st)) e) as Hn.
  unfold mbind, Go_bind.
  destruct (new_height Intn _ e) as [[[]|t| |] e1]; simpl in Hn |- *;
    [|pose proof (Hspent e1); lia..].
  pose proof (calm_budget _ e1 Hi) as Hb.
  destruct (on_d initializeBlock e1) as [[[]|t| |] e2]; simpl in *;
    [|pose proof (Hspent e2); lia..].
  pose proof (loop_budget fuel events e2) as Hl.
  pose proof (Hspent (event_loop Intn fuel events e2).2). lia.
Qed.
End publishing.

(** With the SDK's own service the settings never matter: [GetSettings] returns
    them only without an error, and they are read only after one. *)
Lemma wait_time_zero {C} `{Connection C, ServiceProtos} intn id
    (d : devmodeService (ZmqService C)) w d' :
  calculateWaitTime intn id d = (Ret w, d') → w = 0.
Proof.
  unfold calculateWaitTime. intros E. apply go_bind_inv in E as ([settings err] & d1 & E & Hw).
  go_eq. destruct err as [err|]; [|done].
  assert (settings = ∅) as ->; [|done].
  change (GetSettings id) with (zmqs_GetSettings (S:=ZmqService C) id) in E. revert E.
  unfold on_service, zoom. destruct (zmqs_GetSettings _ _ _) as [r s'] eqn:Er.
  intros [= -> <-]. unfold zmqs_GetSettings in Er.
  apply go_bind_inv in Er as ([?|?] & ? & _ & Er); go_eq; [done|]. by repeat case_decide; go_eq.
Qed.

(** ** A concrete chain *)

Module witness.
(** A validator that knows three blocks of the chain and a rival of the second. *)
Record Chain := { known : gmap BlockId block; tip : block; decided : list (BlockId * bool) }.

Definition decide_block (id : BlockId) (commit : bool) : Go Chain (option error) := λ s,
  (Ret None, {| known := known s; tip := tip s; decided := decided s ++ [(id, commit)] |}).

#[local] Instance chain_consensus : ConsensusService Chain := {|
  SendTo _ _ _ := mret None;
  Broadcast _ _ := mret None;
  InitializeBlock _ := mret None;
  SummarizeBlock := mret ("", None);
  FinalizeBlock _ := mret ("", None);
  CancelBlock := mret None;
  CheckBlocks _ := mret None;
  CommitBlock i := decide_block i true;
  IgnoreBlock i := decide_block i false;
  FailBlock _ := mret None;
  GetBlocks l := λ s, (Ret (inr (filter (λ kv, kv.1 ∈ l) (known s))), s);
  GetChainHead := λ s, (Ret (inr (tip s)), s);
  GetSettings _ _ := mret (∅, None);
  Service_GetState _ _ := mret (inr ∅) |}.

#[local] Instance chain_chain : ChainService Chain.
Proof.
  refine {| cok _ := True; blocks_of := known; head_of := tip; verdicts := decided;
            reachable _ _ := True |}.
  - intros id b s _ Hb. eexists _, s. split; [reflexivity|]. split; [|done].
    apply map_lookup_filter_Some. split; [done|]. simpl. set_solver.
  - intros s _. by exists s.
  - intros p t d s _ _. by exists s.
  - intros id s _ _. eexists. done.
  - intros id s _ _. eexists. done.
Defined.

Definition blk (id prev : BlockId) (n : Z) : block := {|
  blockId := id; previousId := prev; signerId := "s"; blockNum := n; payload := ""; summary := "" |}.
Definition blocks : gmap BlockId block :=
  {["g" := blk "g" BLOCK_ID_NULL 0; "a" := blk "a" "g" 1; "b" := blk "b" "a" 2;
    "r" := blk "r" "g" 1]}.
Definition engine : DevmodeEngineImpl Chain := {|
  dservice := NewDevmodeService {| known := blocks; tip := blk "b" "a" 2; decided := [] |};
  chainHead := blk "b" "a" 2; waitTime := 0; publishedAtHeight := false; start := 0; clock := 0;
  draws := 0 |}.

Lemma blocks_linked : chain_wf blocks (blk "b" "a" 2).
Proof.
  split.
  - unfold blocks. repeat apply map_Forall_insert_2; try apply map_Forall_singleton;
      intros Hpos; first [by vm_compute in Hpos | eexists; split; vm_compute; reflexivity].
  - intros _. eexists. split; reflexivity.
Qed.

End witness.
End devmode.
