(* ===== verification/DevmodeDriver.v ===== *)
(** * The devmode engine under the driver

    Puts the driver of [consensus/engine.go] and the engine of
    [examples/devmode_consensus/engine.go] together at the update channel: which
    updates the driver can send, and what the engine's main loop makes of them. *)

From S2P Require Import Prelude GoLib Errors Protobuf Messaging ConsensusProto ConsensusTypes ConsensusService ConsensusEngine Devmode.

Local Open Scope Z_scope.

(** The shutdown update as a value, which the type switch of the engine looks for. *)
Definition no_shutdown_value (l : list ConsensusUpdate) : Prop :=
  Forall (λ u, u ≠ UpdateShutdown) l.

(** What the main loop received from the channel, in order; nil is what a closed
    channel yields. *)
Definition received (events : list (Z * devmode.event)) : list (option ConsensusUpdate) :=
  omap (λ ev, match ev.2 with
              | devmode.Notification n => Some n
              | devmode.Timer => None
              end) events.

(** The engine read some of the channel's updates and, once there were no more, nil. *)
Definition drained (ch : list ConsensusUpdate) (events : list (Z * devmode.event)) : Prop :=
  ∃ n, received events `prefix_of` ((Some <$> ch) ++ replicate n None).

Section driver.
Context {C M : Type} `{Connection C, Monitor M, Proto Message}.
Context `{EngineProtos, Proto PingResponse}.
Abbreviation engine := (Engine C M).
Implicit Types (e : engine).

Lemma performShutdown_chan e r e' :
  performShutdown e = (Ret r, e') →
  updateChan e' = updateChan e ++ [UpdateShutdown_ptr] ∧ updateChan_closed e' = true.
Proof.
  set (P := λ e', updateChan e' = updateChan e ++ [UpdateShutdown_ptr] ∧
    updateChan_closed e' = true).
  unfold performShutdown. intros E. apply go_bind_inv in E as (? & e1 & E1 & E).
  apply go_bind_inv in E as (? & e2 & E2 & E). change (P e').
  eapply (preserves_Ret P); [|exact E|].
  - repeat first [apply preserves_ret | apply preserves_bind; [by apply preserves_zoom|intros ?]].
  - revert E1 E2. unfold chan_send, chan_close. case_match; [done|]. case_decide; [|done].
    intros [= _ <-]. simpl. case_match; [done|]. by intros [= _ <-].
Qed.

Lemma decode_not_shutdown {S} msg (s : S) u s' :
  decode_update msg s = (Ret (Some u), s') → u ≠ UpdateShutdown.
Proof.
  unfold decode_update. repeat case_decide; repeat case_match; intros E; go_eq; try done.
  by apply go_bind_inv in E as (? & ? & _ & E); go_eq.
Qed.

(** No message of the validator makes the driver send the shutdown value. *)
Lemma receive_no_shutdown_value :
  preserves (λ e, no_shutdown_value (updateChan e)) (receiveValidator (C:=C) (M:=M)).
Proof.
  assert (Hzoom : ∀ A (m : Go C A), preserves (λ e, no_shutdown_value (updateChan e)) (on_validator (M:=M) m)).
  { intros A m. by apply preserves_zoom. }
  assert (Hsock : ∀ A (m : Go C A), preserves (λ e, no_shutdown_value (updateChan e)) (on_service_sock (M:=M) m)).
  { intros A m. by apply preserves_zoom. }
  assert (Hupd : ∀ msg, preserves (λ e, no_shutdown_value (updateChan e)) (handleUpdate (M:=M) (C:=C) msg)).
  { intros msg e He. unfold handleUpdate, mbind, Go_bind.
    rewrite (stateless_decode msg engine e).
    destruct (decode_update msg ()) as [[[u|]|t| |] []] eqn:E; simpl; try done.
    unfold chan_send. destruct (updateChan_closed e); [done|]. case_decide; [|done]. simpl.
    apply Forall_app. split; [done|]. apply Forall_singleton. by eapply decode_not_shutdown. }
  unfold receiveValidator, answer_notification. repeat
    lazymatch goal with
    | |- ∀ _, _ => intros ?
    | |- preserves _ (go_get ≫= _) => apply preserves_bind; [by intros ?|]
    | |- preserves _ (_ ≫= _) => apply preserves_bind
    | |- preserves _ (mret _) => apply preserves_ret
    | |- preserves _ (on_validator _) => apply Hzoom
    | |- preserves _ (on_service_sock _) => apply Hsock
    | |- preserves _ (handleUpdate _) => apply Hupd
    | |- preserves _ (match ?x with _ => _ end) => destruct x
    end.
Qed.

Context {S : Type} `{ConsensusService S} (Intn : nat → Z → Z).

Lemma loop_needs_value fuel events (d : devmode.DevmodeEngineImpl S) r :
  Forall (λ n, n ≠ Some UpdateShutdown) (received events) →
  (devmode.event_loop Intn fuel events d).1 ≠ Ret r.
Proof.
  revert d. induction events as [|[now ev] events IH]; intros d Hev; [done|].
  cbn [devmode.event_loop]. erewrite (go_bind_Ret (devmode.set_clock now)) by reflexivity.
  assert (Forall (λ n, n ≠ Some UpdateShutdown) (received events) ∧
    ev ≠ devmode.Notification (Some UpdateShutdown)) as [Hrest Hgo].
  { destruct ev as [n|]; [apply Forall_cons_1 in Hev as [Hn Hev]; split; [done|congruence]|done]. }
  unfold mbind, Go_bind.
  destruct (devmode.handle_event Intn fuel ev _) as [[stop|t| |] d1] eqn:E; try done.
  rewrite (devmode.event_goes_on _ _ _ _ _ _ Hgo E). by apply IH.
Qed.

(** C36. A shutdown does not stop the engine: the driver announces it by a pointer
    to an [UpdateShutdown] and closes the channel, the type switch of the main loop
    knows the value type only, and so, whatever the engine then reads from the
    channel and whatever timers fire, its main loop never returns. *)
Theorem shutdown_not_heard fuel e r e' events (d : devmode.DevmodeEngineImpl S) res :
  no_shutdown_value (updateChan e) → performShutdown e = (Ret r, e') →
  drained (updateChan e') events →
  last (updateChan e') = Some UpdateShutdown_ptr ∧
  (devmode.event_loop Intn fuel events d).1 ≠ Ret res.
Proof.
  intros Hch E [n [rest Hd]]. apply performShutdown_chan in E as [Hlast _].
  split; [by rewrite Hlast, last_snoc|]. apply loop_needs_value.
  assert (Hall : Forall (λ n, n ≠ Some UpdateShutdown) (received events ++ rest)).
  { rewrite <-Hd, Hlast, fmap_app. repeat apply Forall_app_2.
    - apply Forall_fmap. eapply list.Forall_impl; [exact Hch|]. by intros u Hu [= ->].
    - by apply Forall_singleton.
    - by apply Forall_replicate. }
  by apply Forall_app in Hall as [? _].
Qed.
End driver.

(** ** A concrete shutdown *)

Module witness.
Import ConsensusEngine.witness devmode.witness.
#[local] Existing Instance ordered_runtime.
#[local] Existing Instances wmsg wping wconn wmonitor wprotos chain_consensus.

Definition driver := set_service
  {| service_uri := "u"; connection := Some (script []); corrIds := ∅ |}
  (eng [] ∅ [UpdateBlockValid "r"]).
Definition stopped := (performShutdown driver).2.
Definition events : list (Z * devmode.event) :=
  [(10, devmode.Timer); (11, devmode.Notification (Some (UpdateBlockValid "r")));
   (12, devmode.Notification (Some UpdateShutdown_ptr));
   (13, devmode.Notification None); (23, devmode.Timer)].

(** The engine reads the pending block, the shutdown and nil, and waits on. *)
Lemma shutdown_not_heard_witness :
  (devmode.event_loop (λ _ _, 0) 1 events engine).1 = Blocked.
Proof.
  destruct (shutdown_not_heard (λ _ _, 0) 1 driver None stopped events engine None) as [_ H].
  - repeat constructor; discriminate.
  - vm_compute. reflexivity.
  - exists 1%nat, []. vm_compute. reflexivity.
  - destruct (devmode.event_loop (λ _ _, 0) 1 events engine).1 as [[?|]|t| |] eqn:E;
      [..|reflexivity|]; vm_compute in E; solve [discriminate | exfalso; exact (H eq_refl)].
Defined.
End witness.
