(* ===== verification/DevmodeChain.v ===== *)
(** * The devmode engine and the validator's chain

    The engine of [Devmode], run against the validator's promises of
    [ConsensusChain]: it builds on the chain head, publishes what it finalized,
    answers its peers, and decides about blocks.  What is proved: as long as the
    validator tells it of blocks it knows and of peers it is connected to, the engine
    never panics and never loops; the blocks it announces to its peers are exactly
    those it finalized, in the same order; and a block is under construction exactly
    when the engine has not published at this height. *)

From S2P Require Import Prelude GoLib Errors Protobuf Messaging Answering ConsensusProto ConsensusTypes ConsensusService ConsensusChain Devmode.

Module devmode_chain.
Import devmode consensus_chain.
Local Open Scope Z_scope.

(** The messages sent to all peers. *)
Definition broadcasts (c : Chain) : list (string * bytes) :=
  omap (λ x, match x.1.1 with None => Some (x.1.2, x.2) | Some _ => None end) (c_sent c).
(** The engine's verdicts among the directives. *)
Definition verdict_of (x : directive) : option (BlockId * bool) :=
  match x with ToCommit id => Some (id, true) | ToIgnore id => Some (id, false) | _ => None end.

Section engine.
Context {S : Type} `{ConsensusService S, !ServiceBacked S}.
Context (Intn : nat → Z → Z).
Abbreviation impl := (DevmodeEngineImpl S).
Implicit Types (e : impl) (b : block) (c : Chain).

(** ** Fork choice on the validator's chain *)

(** The validator answers queries about its chain and records verdicts: the interface
    under which the fork choice rule is proved. *)
Definition genesis : block := newBlockFromProto None.
#[export] Instance backed_chain : ChainService S.
Proof.
  refine {| cok s := sok s ∧ is_Some (c_head (chain s)); blocks_of s := c_blocks (chain s);
            head_of s := default genesis (c_head (chain s));
            verdicts s := omap verdict_of (c_told (chain s));
            reachable s p := p ∈ c_peers (chain s) |}.
  - intros id b s [Hs Hh] Hb. destruct (GetBlocks_backed [id] s Hs) as (s' & E & Hs' & Hc).
    simpl in Hc. eexists _, s'. split; [exact E|]. rewrite Hc. split; [|done].
    apply map_lookup_filter_Some. split; [done|]. simpl. set_solver.
  - intros s [Hs [h Hh]]. destruct (GetChainHead_backed s Hs) as (s' & E & Hs' & Hc).
    simpl in Hc, E. rewrite Hh in E. exists s'. rewrite Hc, Hh.
    split; [exact E|]. split; [by eauto|done].
  - intros p t d s [Hs Hh] Hp. destruct (SendTo_backed p t d s Hs) as (s' & E & Hs' & Hc).
    unfold spec_SendTo in E, Hc. rewrite decide_True in E, Hc by done. exists s'. rewrite Hc.
    split; [exact E|]. split; [by split|done].
  - intros id s [Hs Hh] Hk. destruct (CommitBlock_backed id s Hs) as (s' & E & Hs' & Hc).
    unfold spec_direct in E, Hc. rewrite decide_True in E, Hc by done. exists s'. rewrite Hc.
    split; [exact E|]. split; [done|]. simpl. by rewrite omap_app.
  - intros id s [Hs Hh] Hk. destruct (IgnoreBlock_backed id s Hs) as (s' & E & Hs' & Hc).
    unfold spec_direct in E, Hc. rewrite decide_True in E, Hc by done. exists s'. rewrite Hc.
    split; [exact E|]. split; [done|]. simpl. by rewrite omap_app.
Defined.

(** ** The engine's calls *)

(** The engine with another state of its service. *)
Definition moved (s : S) (g : logGuard) e : impl := with_dservice {| service := s; guard := g |} e.

(** A call that the specification lets succeed does not panic. *)
Lemma must_backed text m spec e :
  implements sok chain m spec → sok (svc e) → (spec (chain (svc e))).1 = None →
  ∃ s', on_d (must text m) e = (Ret tt, moved s' (guard (dservice e)) e) ∧ sok s' ∧
    chain s' = (spec (chain (svc e))).2.
Proof.
  intros Hm Hs Hok. destruct (Hm (svc e) Hs) as (s' & E & Hs' & Hc). rewrite Hok in E.
  exists s'. split; [|done].
  unfold on_d, must, on_service, zoom, mbind, Go_bind. fold (svc e). by rewrite E.
Qed.

(** *** Calls that neither build nor announce *)

Definition unchanged c c' : Prop :=
  same_chain c c' ∧ c_building c' = c_building c ∧ c_finalized c' = c_finalized c ∧
  broadcasts c' = broadcasts c.
Lemma unchanged_refl c : unchanged c c.
Proof. by repeat split. Qed.
Lemma unchanged_trans c1 c2 c3 : unchanged c1 c2 → unchanged c2 c3 → unchanged c1 c3.
Proof. unfold unchanged, same_chain. intuition congruence. Qed.

(** The engine is where it was, and the chain is unchanged. *)
Definition still e0 e : Prop :=
  sok (svc e) ∧ unchanged (chain (svc e0)) (chain (svc e)) ∧
  publishedAtHeight e = publishedAtHeight e0.

(** Code that leaves the engine where it was. *)
Definition calmly {A} (m : Go impl A) : Prop := ∀ e0, preserves (still e0) m.
Definition calmly_d {A} (m : Go (devmodeService S) A) : Prop := calmly (on_d m).

Lemma calmly_ret {A} (x : A) : calmly (mret x).
Proof. by intros e0 e. Qed.
Lemma calmly_panic {A} t : calmly (go_panic t : Go impl A).
Proof. by intros e0 e. Qed.
Lemma calmly_fuel {A} : calmly (λ e, (OutOfFuel : Res A, e)).
Proof. by intros e0 e. Qed.
Lemma calmly_bind {A B} (m : Go impl A) (f : A → Go impl B) :
  calmly m → (∀ x, calmly (f x)) → calmly (m ≫= f).
Proof. intros Hm Hf e0. apply preserves_bind; [apply Hm|intros x; apply Hf]. Qed.

Lemma on_d_bind {A B} (m : Go (devmodeService S) A) (f : A → Go _ B) e :
  on_d (m ≫= f) e = (on_d m ≫= λ x, on_d (f x)) e.
Proof.
  unfold on_d, zoom, mbind, Go_bind. by destruct (m (dservice e)) as [[x|t| |] d].
Qed.
Lemma calmly_d_bind {A B} (m : Go (devmodeService S) A) (f : A → Go _ B) :
  calmly_d m → (∀ x, calmly_d (f x)) → calmly_d (m ≫= f).
Proof.
  intros Hm Hf e0 e He. rewrite on_d_bind. revert e He. by apply calmly_bind.
Qed.
Lemma calmly_d_pure {A} (m : Go (devmodeService S) A) :
  (∀ d, service (m d).2 = service d) → calmly_d m.
Proof.
  intros Hm e0 e He. unfold on_d, zoom. specialize (Hm (dservice e)).
  destruct (m (dservice e)) as [r d]. simpl in *. unfold still, svc in *. simpl. by rewrite Hm.
Qed.

Lemma calmly_service {A} (m : Go S A) spec :
  implements sok chain m spec → (∀ c, unchanged c (spec c).2) → calmly_d (on_service m).
Proof.
  intros Hm Hspec e0 e (Hs & Hu & Hp). destruct (Hm (svc e) Hs) as (s' & E & Hs' & Hc).
  unfold on_d, on_service, zoom. fold (svc e). rewrite E. unfold still, svc. simpl.
  split; [done|]. split; [|done]. rewrite Hc. by eapply unchanged_trans.
Qed.

Lemma told_unchanged x c : unchanged c (add_told x c).
Proof. by repeat split. Qed.
Lemma sent_unchanged p t d c : unchanged c (add_sent (Some p, t, d) c).
Proof. repeat split. unfold broadcasts. simpl. by rewrite omap_app, app_nil_r. Qed.
Lemma spec_SendTo_unchanged p t d c : unchanged c (spec_SendTo p t d c).2.
Proof. unfold spec_SendTo. case_decide; [apply sent_unchanged|apply unchanged_refl]. Qed.
Lemma spec_direct_unchanged f id c : unchanged c (spec_direct f id c).2.
Proof. unfold spec_direct. case_decide; [apply told_unchanged|apply unchanged_refl]. Qed.
Lemma spec_CheckBlocks_unchanged ids c : unchanged c (spec_CheckBlocks ids c).2.
Proof. unfold spec_CheckBlocks. case_decide; [apply told_unchanged|apply unchanged_refl]. Qed.

Lemma calmly_must text m spec :
  implements sok chain m spec → (∀ c, unchanged c (spec c).2) → calmly_d (must text m).
Proof.
  intros Hm Hs. apply calmly_d_bind; [by eapply calmly_service|].
  intros [err|]; by apply calmly_d_pure.
Qed.
Lemma calmly_getBlock id : calmly_d (getBlock id).
Proof.
  apply calmly_d_bind; [eapply calmly_service; [apply GetBlocks_backed|apply unchanged_refl]|].
  intros [err|m]; by apply calmly_d_pure.
Qed.
Lemma calmly_getChainHead : calmly_d getChainHead.
Proof.
  apply calmly_d_bind; [eapply calmly_service; [apply GetChainHead_backed|apply unchanged_refl]|].
  intros [err|m]; by apply calmly_d_pure.
Qed.
Lemma calmly_send p t d text : calmly_d (must text (SendTo p t d)).
Proof. eapply calmly_must; [apply SendTo_backed|apply spec_SendTo_unchanged]. Qed.
Lemma calmly_commit id : calmly_d (commitBlock id).
Proof. eapply calmly_must; [apply CommitBlock_backed|apply spec_direct_unchanged]. Qed.
Lemma calmly_ignore id : calmly_d (ignoreBlock id).
Proof. eapply calmly_must; [apply IgnoreBlock_backed|apply spec_direct_unchanged]. Qed.

Lemma calmly_walk fuel num b : calmly (walk fuel num b).
Proof.
  revert b. induction fuel as [|fuel IH]; intros b; simpl; [apply calmly_fuel|].
  apply calmly_bind; [apply calmly_getBlock|]. intros [b'|]; [|apply calmly_panic].
  case_decide; [apply calmly_ret|apply IH].
Qed.
Lemma calmly_valid fuel id : calmly (HandleBlockValid fuel id).
Proof.
  unfold HandleBlockValid. apply calmly_bind; [apply calmly_getBlock|].
  intros [b|]; [|apply calmly_panic]. apply calmly_bind; [apply calmly_send|]. intros _.
  apply calmly_bind; [apply calmly_getChainHead|]. intros head. cbv zeta.
  case_match; [apply calmly_commit|]. case_match; [|apply calmly_ignore].
  apply calmly_bind; [apply calmly_walk|]. intros a. case_match; [apply calmly_commit|apply calmly_ignore].
Qed.

(** ** The engine between events *)

(** A block is under construction unless the engine has published at this height, and
    the announced blocks are the finalized ones. *)
Record Steady (c0 : Chain) e : Prop := {
  e_ok : sok (svc e);
  e_same : same_chain c0 (chain (svc e));
  e_building : if publishedAtHeight e then c_building (chain (svc e)) = None
    else ∃ prev k, c_building (chain (svc e)) = Some (prev, k) ∧ (k ≤ c_delay c0)%nat;
  e_announced : broadcasts (chain (svc e)) =
    (λ x, ("published", x.1)) <$> c_finalized (chain (svc e)) }.

Lemma still_refl c0 e : Steady c0 e → still e e.
Proof. intros [Hs _ _ _]. split; [done|]. split; [apply unchanged_refl|done]. Qed.
Lemma steady_still c0 e e' : Steady c0 e → still e e' → Steady c0 e'.
Proof.
  intros [_ Hsame Hb Ha] (Hs' & (Hsame' & Hb' & Hf' & Ha') & Hp). split; [done| | |].
  - unfold same_chain in *. intuition congruence.
  - by rewrite Hp, Hb'.
  - by rewrite Ha', Hf'.
Qed.

Lemma steady_must c0 text m spec e :
  implements sok chain m spec → (∀ c, unchanged c (spec c).2) → Steady c0 e →
  (spec (chain (svc e))).1 = None →
  ∃ e', on_d (must text m) e = (Ret tt, e') ∧ Steady c0 e'.
Proof.
  intros Hm Hu He Hok. destruct (must_backed text m spec e Hm (e_ok _ _ He) Hok) as (s' & E & Hs' & Hc).
  eexists. split; [exact E|]. apply (steady_still _ e); [done|]. split; [done|]. split; [|done].
  unfold svc at 2. simpl. rewrite Hc. apply Hu.
Qed.

(** What the validator's news can be about. *)
Definition acceptable (fuel : nat) c (u : ConsensusUpdate) : Prop :=
  match u with
  | UpdatePeerMessage m sender =>
      messageType (header m) = "published" ∨ messageType (header m) = "ack" ∨
      messageType (header m) = "received" ∧ sender ∈ c_peers c
  | UpdateBlockNew b => previousId b = BLOCK_ID_NULL ∨ known c (blockId b)
  | UpdateBlockValid id =>
      ∃ b h, c_blocks c !! id = Some b ∧ c_head c = Some h ∧ signerId b ∈ c_peers c ∧
        0 ≤ blockNum b ∧ (Z.to_nat (blockNum h - blockNum b) ≤ fuel)%nat
  | _ => True
  end.
Definition acceptable_event (fuel : nat) c (ev : devmode.event) : Prop :=
  match ev with Notification (Some u) => acceptable fuel c u | _ => True end.

Lemma steady_peer fuel c0 m sender e :
  Steady c0 e → acceptable fuel c0 (UpdatePeerMessage m sender) →
  ∃ e', HandlePeerMessage m sender e = (Ret tt, e') ∧ Steady c0 e'.
Proof.
  intros He Hm. unfold HandlePeerMessage. case_decide as H1; [by exists e|].
  case_decide as H2.
  - destruct Hm as [?|[?|[_ Hp]]]; [congruence..|].
    eapply (steady_must c0); [apply SendTo_backed|apply spec_SendTo_unchanged|done|].
    unfold spec_SendTo. destruct (e_same _ _ He) as (_ & _ & -> & _). by rewrite decide_True.
  - case_decide as H3; [by exists e|]. by destruct Hm as [?|[?|[? _]]].
Qed.

Lemma steady_known c0 e id : Steady c0 e → known c0 id → known (chain (svc e)) id.
Proof. intros He. unfold known. by destruct (e_same _ _ He) as (-> & _). Qed.

Lemma steady_new fuel c0 b e :
  Steady c0 e → acceptable fuel c0 (UpdateBlockNew b) →
  ∃ e', HandleBlockNew b e = (Ret tt, e') ∧ Steady c0 e'.
Proof.
  intros He Hb. unfold HandleBlockNew. case_decide; [by exists e|].
  destruct Hb as [?|Hk%(steady_known _ _ _ He)]; [done|]. destruct (checkConsensus b).
  - eapply (steady_must c0); [apply CheckBlocks_backed|apply spec_CheckBlocks_unchanged|done|].
    unfold spec_CheckBlocks. by rewrite decide_True by (by repeat constructor).
  - eapply (steady_must c0); [apply FailBlock_backed|apply spec_direct_unchanged|done|].
    unfold spec_direct. by rewrite decide_True.
Qed.

Lemma steady_valid fuel c0 h id e :
  Steady c0 e → c_head c0 = Some h → chain_wf (c_blocks c0) h →
  acceptable fuel c0 (UpdateBlockValid id) →
  ∃ e', HandleBlockValid fuel id e = (Ret tt, e') ∧ Steady c0 e'.
Proof.
  intros He Hh Hwf (b & h' & Hb & Hh' & Hp & Hn & Hfuel). rewrite Hh in Hh'. injection Hh' as <-.
  destruct (e_same _ _ He) as (Eb & Eh & Ep & _).
  destruct (HandleBlockValid_better fuel id b e) as (e' & E & _); simpl.
  - split; [apply He|]. rewrite Eh, Hh. eauto.
  - by rewrite Eb, Eh, Hh.
  - by rewrite Eb.
  - by rewrite Ep.
  - done.
  - by rewrite Eh, Hh.
  - exists e'. split; [done|]. apply (steady_still _ e); [done|].
    pose proof (calmly_valid fuel id e e (still_refl _ _ He)) as Hst. by rewrite E in Hst.
Qed.

(** *** A new height *)

Lemma cancel_backed e :
  sok (svc e) → ∃ s', on_d cancelBlock e = (Ret tt, moved s' (guard (dservice e)) e) ∧ sok s' ∧
    chain s' = with_building None (chain (svc e)).
Proof.
  intros Hs. destruct (CancelBlock_backed (svc e) Hs) as (s' & E & Hs' & Hc). exists s'.
  unfold on_d, cancelBlock, on_service, zoom, mbind, Go_bind. fold (svc e). rewrite E, Hc.
  unfold spec_CancelBlock. destruct (c_building (chain (svc e))) eqn:Eb; simpl; [done|].
  split; [done|]. split; [done|]. destruct (chain (svc e)). unfold with_building. simpl in *. by subst.
Qed.

Lemma new_height_backed id e :
  sok (svc e) → ∃ e', new_height Intn id e = (Ret tt, e') ∧ sok (svc e') ∧
    chain (svc e') = chain (svc e) ∧ publishedAtHeight e' = false.
Proof.
  intros Hs. unfold new_height. rewrite (go_bind_Ret go_get _ _ _ _ eq_refl).
  destruct (GetSettings_backed id ["sawtooth.consensus.min_wait_time";
    "sawtooth.consensus.max_wait_time"] (svc e) Hs) as (s' & E & Hs' & Hc).
  destruct (spec_GetSettings id _ (chain (svc e))).1 as [settings err] eqn:Er. 
  erewrite go_bind_Ret.
  2: { unfold on_d, calculateWaitTime, on_service, zoom, mbind, Go_bind. fold (svc e). rewrite E. 
       simpl. reflexivity. }
  eexists. split; [reflexivity|]. unfold svc. simpl. by rewrite Hc.
Qed.

Lemma initialize_backed h e :
  sok (svc e) → c_building (chain (svc e)) = None → c_head (chain (svc e)) = Some h →
  ∃ s', on_d initializeBlock e = (Ret tt, moved s' (guard (dservice e)) e) ∧ sok s' ∧
    chain s' = with_building (Some (blockId h, c_delay (chain (svc e)))) (chain (svc e)).
Proof.
  intros Hs Hb Hh. assert (Espec : spec_InitializeBlock BLOCK_ID_NULL (chain (svc e)) =
    (None, with_building (Some (blockId h, c_delay (chain (svc e)))) (chain (svc e)))).
  { unfold spec_InitializeBlock. by rewrite Hb, decide_True, Hh. }
  destruct (must_backed "Failed to initialize" _ _ e (InitializeBlock_backed BLOCK_ID_NULL) Hs)
    as (s' & E & Hs' & Hc); [by rewrite Espec|]. exists s'. rewrite Espec in Hc. done.
Qed.

Lemma begin_height c0 h id e :
  sok (svc e) → same_chain c0 (chain (svc e)) → c_head c0 = Some h →
  c_building (chain (svc e)) = None →
  broadcasts (chain (svc e)) = (λ x, ("published", x.1)) <$> c_finalized (chain (svc e)) →
  ∃ e', (_ ← new_height Intn id; on_d initializeBlock) e = (Ret tt, e') ∧ Steady c0 e'.
Proof.
  intros Hs Hsame Hh Hb Ha.
  destruct (new_height_backed id e Hs) as (e2 & E2 & Hs2 & Hc2 & Hp2).
  destruct (initialize_backed h e2 Hs2) as (s3 & E3 & Hs3 & Hc3).
  { by rewrite Hc2. }
  { rewrite Hc2. destruct Hsame as (_ & -> & _). done. }
  eexists. rewrite (go_bind_Ret _ _ _ _ _ E2). split; [exact E3|]. rewrite Hc2 in Hc3.
  split; unfold svc; simpl; rewrite ?Hc3; simpl; try done.
  rewrite Hp2. destruct Hsame as (_ & _ & _ & ->). eauto.
Qed.

Lemma steady_commit c0 h id e :
  Steady c0 e → c_head c0 = Some h →
  ∃ e', HandleBlockCommit Intn id e = (Ret tt, e') ∧ Steady c0 e'.
Proof.
  intros [Hs Hsame Hb Ha] Hh. destruct (cancel_backed e Hs) as (s1 & E1 & Hs1 & Hc1).
  unfold HandleBlockCommit. rewrite (go_bind_Ret _ _ _ _ _ E1).
  apply (begin_height c0 h); unfold svc; simpl; rewrite ?Hc1; done.
Qed.

(** *** Publishing *)

(** The loop ends when the validator has the block ready. *)
Lemma summarize_backed fuel prev k (d : devmodeService S) :
  sok (service d) → c_building (chain (service d)) = Some (prev, k) → (k < fuel)%nat →
  ∃ d', summarize_loop fuel d = (Ret (c_summary (chain (service d))), d') ∧ sok (service d') ∧
    chain (service d') = with_building (Some (prev, O)) (chain (service d)).
Proof.
  revert k d. induction fuel as [|fuel IH]; intros k d Hs Hb Hk; [lia|]. cbn [summarize_loop].
  destruct (SummarizeBlock_backed (service d) Hs) as (s' & E & Hs' & Hc).
  unfold spec_SummarizeBlock in E, Hc. rewrite Hb in E, Hc.
  erewrite (go_bind_Ret (on_service SummarizeBlock)) by (unfold on_service, zoom; by rewrite E).
  destruct k as [|k]; simpl in *.
  - eexists. split; [reflexivity|]. split; [done|]. simpl. rewrite Hc.
    destruct (chain (service d)). unfold with_building. simpl in *. by subst.
  - rewrite !(go_bind_Ret go_get _ _ _ _ eq_refl). erewrite (go_bind_Ret (set_guard _)) by reflexivity.
    destruct (IH k {| service := s'; guard := {| notReadyToSummarize := true;
      notReadyToFinalize := notReadyToFinalize (guard d) |} |}) as (d' & E' & ? & Hc');
      [done|simpl; by rewrite Hc|lia|].
    simpl in *. rewrite Hc in E', Hc'. exists d'. done.
Qed.

Lemma finalize_backed fuel prev data (d : devmodeService S) :
  sok (service d) → c_building (chain (service d)) = Some (prev, O) →
  ∃ d', finalize_loop (Datatypes.S fuel) data d = (Ret (sign (S:=S) prev data), d') ∧
    sok (service d') ∧
    chain (service d') = add_finalized (sign (S:=S) prev data, data) (chain (service d)).
Proof.
  intros Hs Hb. destruct (FinalizeBlock_backed data (service d) Hs) as (s' & E & Hs' & Hc).
  unfold spec_FinalizeBlock in E, Hc. rewrite Hb in E, Hc. cbn [finalize_loop].
  erewrite (go_bind_Ret (on_service (FinalizeBlock data))) by (unfold on_service, zoom; by rewrite E).
  by eexists.
Qed.

Lemma finalizeBlock_backed fuel prev k (d : devmodeService S) :
  sok (service d) → c_building (chain (service d)) = Some (prev, k) → (k < fuel)%nat →
  let data := createConsensus (c_summary (chain (service d))) in
  ∃ d', finalizeBlock fuel d = (Ret (sign (S:=S) prev data), d') ∧ sok (service d') ∧
    chain (service d') = add_finalized (sign (S:=S) prev data, data) (chain (service d)).
Proof.
  intros Hs Hb Hk data. destruct (summarize_backed fuel prev k d Hs Hb Hk) as (d1 & E1 & Hs1 & Hc1).
  destruct fuel as [|fuel]; [lia|]. unfold finalizeBlock.
  rewrite (go_bind_Ret _ _ _ _ _ E1), (go_bind_Ret go_get _ _ _ _ eq_refl).
  erewrite (go_bind_Ret (set_guard _)) by reflexivity.
  set (d2 := {| service := service d1; guard := _ |}).
  destruct (finalize_backed fuel prev data d2) as (d3 & E3 & Hs3 & Hc3);
    [done|simpl; by rewrite Hc1|].
  rewrite (go_bind_Ret _ _ _ _ _ E3), (go_bind_Ret go_get _ _ _ _ eq_refl).
  eexists. split; [reflexivity|]. split; [done|]. simpl in *. by rewrite Hc3, Hc1.
Qed.

Lemma steady_timer fuel c0 e :
  Steady c0 e → (c_delay c0 < fuel)%nat →
  ∃ e', HandleTimer fuel e = (Ret tt, e') ∧ Steady c0 e'.
Proof.
  intros He Hfuel. unfold HandleTimer. rewrite (go_bind_Ret go_get _ _ _ _ eq_refl).
  destruct (publishedAtHeight e) eqn:Hp; simpl; [by exists e|]. destruct (_ <? _); [|by exists e].
  destruct He as [Hs Hsame Hb Ha]. rewrite Hp in Hb. destruct Hb as (prev & k & Hb & Hk).
  destruct (finalizeBlock_backed fuel prev k (dservice e) Hs Hb) as (d1 & E1 & Hs1 & Hc1); [lia|].
  erewrite go_bind_Ret by (unfold on_d, zoom; by rewrite E1).
  erewrite (go_bind_Ret (set_published true)) by reflexivity.
  edestruct (must_backed "Failed to broadcast published block") as (s2 & E2 & Hs2 & Hc2);
    [apply Broadcast_backed|..]; cycle 2.
  - eexists. split; [exact E2|]. unfold svc in *. simpl in Hc2.
    split; unfold svc; simpl; rewrite ?Hc2, ?Hc1; try done. simpl.
    unfold broadcasts in *. simpl. rewrite omap_app, Ha, fmap_app. simpl. by rewrite AsBytes_id.
  - exact Hs1.
  - done.
Qed.

(** ** Events *)

Lemma steady_event fuel c0 h ev e :
  Steady c0 e → c_head c0 = Some h → chain_wf (c_blocks c0) h → (c_delay c0 < fuel)%nat →
  acceptable_event fuel c0 ev →
  ∃ stop e', handle_event Intn fuel ev e = (Ret stop, e') ∧ Steady c0 e'.
Proof.
  intros He Hh Hwf Hfuel Hev.
  assert (Hret : ∀ m : Go impl unit, (∃ e', m e = (Ret tt, e') ∧ Steady c0 e') →
    ∃ stop e', (_ ← m; mret false) e = (Ret stop, e') ∧ Steady c0 e').
  { intros m (e' & E & ?). exists false, e'. by rewrite (go_bind_Ret _ _ _ _ _ E). }
  destruct ev as [[u|]|]; [|by eexists _, _|apply Hret; by apply steady_timer].
  destruct u; try (by eexists _, _); apply Hret; simpl.
  - by apply (steady_peer fuel).
  - by apply (steady_new fuel).
  - by eapply steady_valid.
  - by eapply steady_commit.
Qed.

Lemma steady_loop fuel c0 h events e :
  Steady c0 e → c_head c0 = Some h → chain_wf (c_blocks c0) h → (c_delay c0 < fuel)%nat →
  Forall (acceptable_event fuel c0) events.*2 →
  ∃ r e', event_loop Intn fuel events e = (r, e') ∧ (r = Blocked ∨ r = Ret None) ∧ Steady c0 e'.
Proof.
  intros He Hh Hwf Hfuel. revert e He. induction events as [|[now ev] events IH]; intros e He Hev.
  { exists Blocked, e. split; [done|]. split; [by left|done]. }
  apply Forall_cons_1 in Hev as [Hev Hevs]. cbn [event_loop].
  erewrite (go_bind_Ret (set_clock now)) by reflexivity.
  destruct (steady_event fuel c0 h ev (set_clock now e).2) as (stop & e1 & E1 & He1); try done.
  { by destruct He. }
  rewrite (go_bind_Ret _ _ _ _ _ E1). destruct stop; [|by apply IH].
  exists (Ret None), e1. split; [done|]. split; [by right|done].
Qed.

(** A look at channel and timer that leaves the chain alone and yields acceptable news. *)
Definition calm_select (fuel : nat) (c0 : Chain) (select : Go S (option devmode.event)) : Prop :=
  ∀ s, sok s → ∃ r s', select s = (Ret r, s') ∧ sok s' ∧ chain s' = chain s ∧
    ∀ ev, r = Some ev → acceptable_event fuel c0 ev ∧ ev ≠ Notification (Some UpdateShutdown).

Lemma steady_selects fuel c0 h selects e :
  Steady c0 e → c_head c0 = Some h → chain_wf (c_blocks c0) h → (c_delay c0 < fuel)%nat →
  Forall (calm_select fuel c0) selects.*2 →
  ∃ e', select_loop Intn fuel selects e = (Blocked, e') ∧ Steady c0 e'.
Proof.
  intros He Hh Hwf Hfuel. revert e He. induction selects as [|[now sel] selects IH]; intros e He Hsel.
  { by exists e. }
  apply Forall_cons_1 in Hsel as [Hsel Hsels]. cbn [snd] in Hsel. cbn [select_loop].
  erewrite (go_bind_Ret (set_clock now)) by reflexivity.
  destruct (Hsel (svc e) (e_ok _ _ He)) as (r & s' & E & Hs' & Hc & Hr).
  assert (E1 : on_d (on_service sel) (set_clock now e).2
    = (Ret r, moved s' (guard (dservice e)) (set_clock now e).2)).
  { unfold on_d, on_service, zoom. simpl. fold (svc e). by rewrite E. }
  rewrite (go_bind_Ret _ _ _ _ _ E1).
  set (e1 := moved s' (guard (dservice e)) (set_clock now e).2) in *.
  assert (He1 : Steady c0 e1) by (destruct He; split; unfold svc; simpl; by rewrite ?Hc).
  destruct r as [ev|]; [|by apply IH]. destruct (Hr ev eq_refl) as [Hok Hgo].
  destruct (steady_event fuel c0 h ev e1) as (stop & e2 & E2 & He2); try done.
  rewrite (go_bind_Ret _ _ _ _ _ E2), (event_goes_on _ _ _ _ _ _ Hgo E2). by apply IH.
Qed.

(** The engine starts on a chain on which nothing is under construction, and whatever
    its loop does, it does it from a steady state. *)
Lemma start_steady st s now loop h (P : Res (option error) → Prop) :
  sok s → c_head (chain s) = Some h → c_building (chain s) = None →
  c_finalized (chain s) = [] → c_sent (chain s) = [] →
  (∀ e, Steady (chain s) e → ∃ r e', loop e = (r, e') ∧ P r ∧ Steady (chain s) e') →
  ∃ r e', start_with Intn st s now loop = (r, e') ∧ P r ∧ sok (svc e') ∧
    broadcasts (chain (svc e')) = (λ x, ("published", x.1)) <$> c_finalized (chain (svc e')) ∧
    (publishedAtHeight e' = true ↔ c_building (chain (svc e')) = None).
Proof.
  intros Hs Hh Hb Hf Hsent Hloop. unfold start_with. set (e0 := Build_DevmodeEngineImpl _ _ _ _ _ _ _ _).
  destruct (begin_height (chain s) h (blockId (ConsensusTypes.chainHead st)) e0) as (e1 & E1 & He1); try done.
  { unfold broadcasts, svc. simpl. by rewrite Hf, Hsent. }
  destruct (Hloop e1 He1) as (r & e2 & E2 & Hr & [Hs2 _ Hbuild Ha]).
  exists r, e2. split; [|split; [done|split; [done|split; [done|]]]].
  - rewrite <-go_bind_assoc. by rewrite (go_bind_Ret _ _ _ _ _ E1).
  - destruct (publishedAtHeight e2); [done|]. destruct Hbuild as (? & ? & -> & _). done.
Qed.

(** ** Claims *)


(** A valid block whose signer is not a connected peer stops the engine: the message
    that it was received cannot be sent, and the engine panics. *)
Lemma unknown_signer_panics fuel id b e :
  sok (svc e) → c_blocks (chain (svc e)) !! id = Some b → signerId b ∉ c_peers (chain (svc e)) →
  ∃ e', HandleBlockValid fuel id e = (Panic "Failed to send block received", e').
Proof.
  intros Hs Hb Hp. unfold HandleBlockValid.
  destruct (GetBlocks_backed [id] (svc e) Hs) as (s1 & E1 & Hs1 & Hc1).
  assert (Hlook : filter (λ p, p.1 ∈ [id]) (c_blocks (chain (svc e))) !! id = Some b).
  { apply map_lookup_filter_Some. split; [done|]. simpl. set_solver. }
  erewrite go_bind_Ret.
  2: { unfold on_d, getBlock, on_service, zoom, mbind, Go_bind. fold (svc e). rewrite E1. simpl.
       by rewrite Hlook. }
  destruct (SendTo_backed (signerId b) "received" (BlockId_AsBytes (blockId b)) s1 Hs1)
    as (s2 & E2 & _ & _). unfold spec_SendTo in E2. rewrite Hc1 in E2. simpl in E2.
  rewrite decide_False in E2 by done. eexists. apply go_bind_Panic.
  unfold on_d, sendBlockReceived, must, on_service, zoom, mbind, Go_bind. simpl. by rewrite E2.
Qed.
End engine.

(** ** Witness *)

(** The engine over the SDK's own service, connection and the reference validator: it
    starts to build on block [b], hears that the rival block [r] is valid, publishes
    when the timer fires, and starts again after the commit. *)
Module witness.
Import consensus_chain.demo.
#[local] Instance conn0 : Connection (ZmqConnection (Peer Chain)) :=
  @zmq_connection _ (peer_socket (val_reply sign0)) _ _ 1.
#[local] Instance backed0 : ServiceBacked (ZmqService (ZmqConnection (Peer Chain))) :=
  chain_backed sign0 0 sign0_normal.

Definition startup : startupState := {|
  ConsensusTypes.chainHead := blk "b" "a" 2; peers := [{| peerId := "s" |}];
  localPeerInfo := {| peerId := "e" |} |}.
Definition events : list (Z * devmode.event) :=
  [(1, Notification (Some (UpdateBlockValid "r"))); (2, Timer);
   (3, Notification (Some (UpdateBlockCommit "r"))); (4, Timer)].

Lemma chain0_linked : chain_wf (c_blocks chain0) (blk "b" "a" 2).
Proof.
  split.
  - unfold chain0. simpl. repeat apply map_Forall_insert_2; try apply map_Forall_singleton;
      intros Hpos; first [by vm_compute in Hpos | eexists; split; vm_compute; reflexivity].
  - intros _. eexists. split; reflexivity.
Qed.

End witness.
End devmode_chain.
