(* ===== verification/Signing.v ===== *)
(** * Signing

    Models the package [signing]: the interfaces of [core.go] as records of
    operations, the secp256k1 implementation of [secp256k1.go], and the error
    table of [pem_loader.go].  The curve arithmetic (btcec) is the class [Btcec]
    with the laws its documentation promises in [BtcecLaws]; the C function
    [load_pem_key] is the class [PemLoader].  Code that draws random keys runs
    over the state of the entropy source. *)

From S2P Require Import Prelude GoLib Errors Sha512 Sha256.

Module signing.
Local Open Scope Z_scope.

(** ** math/big *)

(** [new(big.Int).SetBytes(b)]: big-endian, unsigned. *)
Definition SetBytes (b : bytes) : Z := foldl (λ acc c, acc * 256 + byte_val c) 0 (chars b).

(** [x.Bytes()]: the absolute value, big-endian, without leading zeros. *)
Fixpoint be_digits (fuel : nat) (x : Z) : list ascii :=
  match fuel with
  | O => []
  | S fuel => if decide (x = 0) then [] else be_digits fuel (x / 256) ++ [byte_of (x mod 256)]
  end.
Definition Bytes (x : Z) : bytes := unchars (be_digits (S (Z.to_nat (Z.log2 (Z.abs x)))) (Z.abs x)).

(** [ellcurv.Signature] *)
Record Signature := { R : Z; S : Z }.

(** ** Interfaces *)

Record PrivateKey := {
  priv_AlgorithmName : string; priv_AsHex : string; priv_AsBytes : bytes }.
Record PublicKey := {
  pub_AlgorithmName : string; pub_AsHex : string; pub_AsBytes : bytes }.

Record Context (E : Type) := {
  GetAlgorithmName : string;
  NewRandomPrivateKey : Go E PrivateKey;
  GetPublicKey : PrivateKey → Go E PublicKey;
  Sign : bytes → PrivateKey → Go E bytes;
  Verify : bytes → bytes → PublicKey → Go E bool }.
Arguments GetAlgorithmName {E} _.
Arguments NewRandomPrivateKey {E} _.
Arguments GetPublicKey {E} _.
Arguments Sign {E} _.
Arguments Verify {E} _.

(** The curve library: keys, their serializations, signatures and their check. *)
Class Btcec := {
  ec_priv : Type;
  ec_pub : Type;
  PrivKeyFromBytes : bytes → ec_priv * ec_pub;
  Serialize : ec_priv → bytes;
  SerializeCompressed : ec_pub → bytes;
  ParsePubKey : bytes → error + ec_pub;
  ec_Sign : ec_priv → bytes → error + Signature;
  ec_Verify : Signature → bytes → ec_pub → bool }.
(** Drawing a private key from the entropy source. *)
Class Entropy (E : Type) `{Btcec} := NewPrivateKey : Go E (error + ec_priv).

(** The order of the group of secp256k1.  Bytes make a private key when the number
    they stand for is not a multiple of it: such a number has the point at infinity as
    its public key, which has no compressed form. *)
Definition group_order : Z :=
  0xFFFFFFFFFFFFFFFFFFFFFFFFFFFFFFFEBAAEDCE6AF48A03BBFD25E8CD0364141.
Definition usable (key : bytes) : Prop := SetBytes key mod group_order ≠ 0.
#[export] Instance usable_dec key : Decision (usable key) := _.

(** What its documentation promises: the public key of a private key parses back from
    its compressed form, a signature has two numbers below the group order (which
    is below 2^256) and verifies against the public key. *)
Class BtcecLaws `{Btcec} : Prop := {
  ParsePubKey_compressed key :
    usable key →
    ParsePubKey (SerializeCompressed (PrivKeyFromBytes key).2) = inr (PrivKeyFromBytes key).2;
  ec_Sign_range priv hash sig : ec_Sign priv hash = inr sig → 0 < R sig < 2^256 ∧ 0 < S sig < 2^256;
  ec_Sign_verifies key hash sig :
    usable key →
    ec_Sign (PrivKeyFromBytes key).1 hash = inr sig →
    ec_Verify sig hash (PrivKeyFromBytes key).2 = true }.

(** [C.load_pem_key]: the result number and what it leaves in the two buffers. *)
Class PemLoader := load_pem_key : string → nat → string → Z * string * string.

(** ** secp256k1.go *)

Record Secp256k1PrivateKey := { private_key : bytes }.
Record Secp256k1PublicKey := { public_key : bytes }.

(** The methods of the two key types. *)
Definition private_key_iface (self : Secp256k1PrivateKey) : PrivateKey := {|
  priv_AlgorithmName := "secp256k1";
  priv_AsHex := hex_EncodeToString (private_key self);
  priv_AsBytes := private_key self |}.
Definition public_key_iface (self : Secp256k1PublicKey) : PublicKey := {|
  pub_AlgorithmName := "secp256k1";
  pub_AsHex := hex_EncodeToString (public_key self);
  pub_AsBytes := public_key self |}.

Definition NewSecp256k1PrivateKey (key : bytes) : PrivateKey :=
  private_key_iface {| private_key := key |}.
Definition NewSecp256k1PublicKey (key : bytes) : PublicKey :=
  public_key_iface {| public_key := key |}.

Definition doSHA512 (input : bytes) : bytes := sha512.Sum input.
Definition doSHA256 (input : bytes) : bytes := sha256.Sum input.

Definition pad (buf : bytes) (size : nat) : bytes :=
  unchars (replicate (size - len buf) "000"%char) +:+ buf.

Definition serializeCompact {E} (sig : Signature) : Go E bytes :=
  let rbytes := pad (Bytes (R sig)) 32 in
  let sbytes := pad (Bytes (S sig)) 32 in
  let b := rbytes +:+ sbytes in
  if decide (len b ≠ 64%nat) then go_panic "Invalid signature length" else mret b.

(** Slicing a signature shorter than 32 bytes panics. *)
Definition deserializeCompact {E} (b : bytes) : Go E Signature :=
  if decide (len b < 32)%nat then go_panic "slice bounds out of range"
  else mret {| R := SetBytes (slice_to 32 b); S := SetBytes (slice_from 32 b) |}.

Section secp256k1.
Context {E : Type} `{Btcec, !Entropy E}.

(** The error of [NewPrivateKey] is dropped; the key is then nil. *)
Definition secp_NewRandomPrivateKey : Go E PrivateKey :=
  r ← NewPrivateKey;
  match r with
  | inl _ => go_panic "invalid memory address or nil pointer dereference"
  | inr priv => mret (private_key_iface {| private_key := Serialize priv |})
  end.

Definition secp_GetPublicKey (key : PrivateKey) : Go E PublicKey :=
  let '(_, pub) := PrivKeyFromBytes (priv_AsBytes key) in
  mret (NewSecp256k1PublicKey (SerializeCompressed pub)).

Definition secp_Sign (message : bytes) (key : PrivateKey) : Go E bytes :=
  let '(priv, _) := PrivKeyFromBytes (priv_AsBytes key) in
  let hash := doSHA256 message in
  match ec_Sign priv hash with
  | inl _ => go_panic "Signing failed"
  | inr sig => serializeCompact sig
  end.

Definition secp_Verify (signature message : bytes) (key : PublicKey) : Go E bool :=
  sig ← deserializeCompact signature;
  let hash := doSHA256 message in
  match ParsePubKey (pub_AsBytes key) with
  | inl err => go_panic (Error err)
  | inr pub => mret (ec_Verify sig hash pub)
  end.

Definition NewSecp256k1Context : Context E := {|
  GetAlgorithmName := "secp256k1";
  NewRandomPrivateKey := secp_NewRandomPrivateKey;
  GetPublicKey := secp_GetPublicKey;
  Sign := secp_Sign;
  Verify := secp_Verify |}.

(** ** core.go *)

Definition CreateContext (algorithmName : string) : Go E (Context E) :=
  if decide (algorithmName = "secp256k1") then mret NewSecp256k1Context
  else go_panic "No such algorithm".
End secp256k1.

Record Signer (E : Type) := { signer_context : Context E; signer_key : PrivateKey }.
Arguments signer_context {E} _.
Arguments signer_key {E} _.

Definition Signer_Sign {E} (self : Signer E) (message : bytes) : Go E bytes :=
  Sign (signer_context self) message (signer_key self).
Definition Signer_GetPublicKey {E} (self : Signer E) : Go E PublicKey :=
  GetPublicKey (signer_context self) (signer_key self).

Record CryptoFactory (E : Type) := { factory_context : Context E }.
Arguments factory_context {E} _.
Definition NewCryptoFactory {E} (context : Context E) : CryptoFactory E :=
  {| factory_context := context |}.
Definition GetContext {E} (self : CryptoFactory E) : Context E := factory_context self.
Definition NewSigner {E} (self : CryptoFactory E) (key : PrivateKey) : Signer E :=
  {| signer_context := factory_context self; signer_key := key |}.

(** ** PEM files *)

Inductive pem_error := pemLoad (text : string) | pemHex (e : hex_error).

Section pem.
Context `{PemLoader}.

Definition pem_error_text (errnum : Z) : string :=
  if decide (errnum = -1) then "Failed to decrypt or decode private key"
  else if decide (errnum = -2) then "Failed to create new big number context"
  else if decide (errnum = -3) then "Failed to load group"
  else if decide (errnum = -4) then "Failed to load private key"
  else if decide (errnum = -5) then "Failed to load public key point"
  else if decide (errnum = -6) then "Failed to construct public key from point"
  else "".

Definition loadPemKey (pemstr : string) (pemstrLen : nat) (password : string) :
    string + (string * string) :=
  let '(errnum, priv_key, pub_key) := load_pem_key pemstr pemstrLen password in
  if errnum <? 0 then inl (pem_error_text errnum) else inr (priv_key, pub_key).

Definition pemToPriv (pem password : string) : pem_error + bytes :=
  match loadPemKey pem (len pem) password with
  | inl err => inl (pemLoad err)
  | inr (priv, _) =>
      match hex_DecodeString priv with
      | (_, Some err) => inl (pemHex err)
      | (b, None) => inr b
      end
  end.

Definition PemToSecp256k1PrivateKey (pem password : string) : pem_error + Secp256k1PrivateKey :=
  match pemToPriv pem password with
  | inl err => inl err
  | inr priv => inr {| private_key := priv |}
  end.
End pem.

(** ** Serialization *)

Lemma byte_val_range c : 0 ≤ byte_val c < 256.
Proof. unfold byte_val. pose proof (N_ascii_bounded c). lia. Qed.
Lemma byte_val_of x : 0 ≤ x < 256 → byte_val (byte_of x) = x.
Proof. intros Hx. unfold byte_val, byte_of. rewrite N_ascii_embedding by lia. lia. Qed.

Definition value (l : list ascii) : Z := foldl (λ acc c, acc * 256 + byte_val c) 0 l.

Lemma value_acc l acc :
  foldl (λ acc c, acc * 256 + byte_val c) acc l = acc * 256 ^ Z.of_nat (length l) + value l.
Proof.
  unfold value. revert acc. induction l as [|c l IH]; intros acc; [simpl; lia|]. simpl.
  rewrite IH, (IH (0 * 256 + byte_val c)).
  rewrite Nat2Z.inj_succ.
  rewrite Z.pow_succ_r by lia. lia.
Qed.

Lemma value_snoc l c : value (l ++ [c]) = value l * 256 + byte_val c.
Proof. unfold value. by rewrite foldl_app. Qed.

Lemma value_zeros n l : value (replicate n "000"%char ++ l) = value l.
Proof. induction n as [|n IH]; [done|]. by unfold value in *; simpl. Qed.

Lemma value_digits fuel x : 0 ≤ x < 256 ^ Z.of_nat fuel → value (be_digits fuel x) = x.
Proof.
  revert x. induction fuel as [|fuel IH]; intros x Hx; [unfold value; simpl in *; lia|]. simpl.
  case_decide; [done|].
  rewrite Nat2Z.inj_succ in Hx.
  rewrite Z.pow_succ_r in Hx by lia.
  pose proof (Z.mod_pos_bound x 256). pose proof (Z.div_mod x 256).
  rewrite value_snoc, byte_val_of, IH; [lia| |lia].
  split; [apply Z.div_pos; lia|apply Z.div_lt_upper_bound; lia].
Qed.

Lemma length_digits fuel n x :
  0 ≤ x < 256 ^ Z.of_nat fuel → (length (be_digits fuel x) ≤ n)%nat ↔ x < 256 ^ Z.of_nat n.
Proof.
  revert n x. induction fuel as [|fuel IH]; intros n x Hx.
  { simpl in *. split; [|lia]. intros _. pose proof (Z.pow_pos_nonneg 256 (Z.of_nat n)). lia. }
  rewrite Nat2Z.inj_succ in Hx.
  rewrite Z.pow_succ_r in Hx by lia. simpl. case_decide as Hz.
  { simpl. split; [|lia]. intros. pose proof (Z.pow_pos_nonneg 256 (Z.of_nat n)). lia. }
  rewrite length_app. simpl. destruct n as [|n]; [simpl; lia|].
  rewrite Nat2Z.inj_succ. rewrite Z.pow_succ_r by lia.
  assert (Hx' : 0 ≤ x / 256 < 256 ^ Z.of_nat fuel).
  { split; [apply Z.div_pos; lia|apply Z.div_lt_upper_bound; lia]. }
  specialize (IH n _ Hx'). pose proof (Z.div_mod x 256). pose proof (Z.mod_pos_bound x 256).
  split; intros Hlt.
  - assert (x / 256 < 256 ^ Z.of_nat n) by (apply IH; lia). lia.
  - assert (x / 256 < 256 ^ Z.of_nat n) by (apply Z.div_lt_upper_bound; lia). apply IH in H1. lia.
Qed.

Lemma Bytes_fuel x : 0 ≤ x → 0 ≤ x < 256 ^ Z.of_nat (Datatypes.S (Z.to_nat (Z.log2 x))).
Proof.
  intros Hx. split; [done|]. rewrite Nat2Z.inj_succ, Z2Nat.id by apply Z.log2_nonneg.
  destruct (decide (x = 0)) as [->|Hz]; [by apply Z.pow_pos_nonneg|].
  eapply Z.lt_le_trans; [apply Z.log2_spec; lia|]. apply Z.pow_le_mono_l. lia.
Qed.

(** A number comes back from its bytes, padded or not, and fits in [n] bytes when
    it is below 256 to the n. *)
Lemma SetBytes_pad x n : 0 ≤ x → SetBytes (pad (Bytes x) n) = x.
Proof.
  intros Hx. unfold SetBytes, pad. change (value (chars (unchars
    (replicate (n - len (Bytes x)) "000"%char) +:+ Bytes x)) = x).
  rewrite chars_app, chars_unchars, value_zeros. unfold Bytes. rewrite Z.abs_eq by done.
  rewrite chars_unchars. by apply value_digits, Bytes_fuel.
Qed.

Lemma len_Bytes x n : 0 ≤ x → (len (Bytes x) ≤ n)%nat ↔ x < 256 ^ Z.of_nat n.
Proof.
  intros Hx. unfold Bytes. rewrite Z.abs_eq, <-length_chars, chars_unchars by done.
  by apply length_digits, Bytes_fuel.
Qed.

Lemma len_pad b n : len (pad b n) = Nat.max n (len b).
Proof.
  unfold pad. rewrite len_app, <-length_chars, chars_unchars, length_replicate. lia.
Qed.

Lemma slice_app a b :
  slice_to (len a) (a +:+ b) = a ∧ slice_from (len a) (a +:+ b) = b.
Proof.
  unfold slice_to, slice_from. rewrite chars_app, <-length_chars, take_app_length, drop_app_length.
  by rewrite !unchars_chars.
Qed.

Section serialization.
Context {E : Type}.

Lemma serializeCompact_ok sig (s : E) :
  0 ≤ R sig < 2^256 → 0 ≤ S sig < 2^256 →
  serializeCompact sig s = (Ret (pad (Bytes (R sig)) 32 +:+ pad (Bytes (S sig)) 32), s) ∧
  len (pad (Bytes (R sig)) 32) = 32%nat ∧ len (pad (Bytes (S sig)) 32) = 32%nat.
Proof.
  intros HR HS.
  assert (HlR : (len (Bytes (R sig)) ≤ 32)%nat) by (apply len_Bytes; [lia|]; apply HR).
  assert (HlS : (len (Bytes (S sig)) ≤ 32)%nat) by (apply len_Bytes; [lia|]; apply HS).
  assert (len (pad (Bytes (R sig)) 32) = 32%nat) by (rewrite len_pad; lia).
  assert (len (pad (Bytes (S sig)) 32) = 32%nat) by (rewrite len_pad; lia).
  split; [|done]. unfold serializeCompact. rewrite decide_False; [done|].
  rewrite len_app. lia.
Qed.

Lemma deserialize_serialize sig (s s' : E) :
  0 ≤ R sig < 2^256 → 0 ≤ S sig < 2^256 →
  ∃ b, serializeCompact sig s = (Ret b, s) ∧ len b = 64%nat ∧
    deserializeCompact b s' = (Ret sig, s').
Proof.
  intros HR HS. destruct (serializeCompact_ok sig s HR HS) as (E1 & HlR & HlS).
  eexists. split; [exact E1|]. split; [rewrite len_app; lia|].
  unfold deserializeCompact. rewrite decide_False by (rewrite len_app; lia).
  destruct (slice_app (pad (Bytes (R sig)) 32) (pad (Bytes (S sig)) 32)) as [Ht Hf].
  rewrite HlR in Ht, Hf. rewrite Ht, Hf, !SetBytes_pad by lia. by destruct sig.
Qed.

(** Signatures survive their compact form: every pair of numbers below 2^256 is
    written as 64 bytes that read back as the same pair, and a pair with a larger
    number is never written: the code panics. *)
Theorem compact_roundtrip sig (s : E) :
  0 ≤ R sig → 0 ≤ S sig →
  if decide (R sig < 2^256 ∧ S sig < 2^256) then
    ∃ b, serializeCompact sig s = (Ret b, s) ∧ len b = 64%nat ∧
      deserializeCompact b s = (Ret sig, s)
  else serializeCompact sig s = (Panic "Invalid signature length", s).
Proof.
  intros HR HS. case_decide as Hlt; [apply deserialize_serialize; lia|].
  unfold serializeCompact. rewrite decide_True; [done|].
  rewrite len_app, !len_pad.
  pose proof (len_Bytes (R sig) 32 HR) as H1. pose proof (len_Bytes (S sig) 32 HS) as H2.
  change (256 ^ Z.of_nat 32) with (2 ^ 256) in H1, H2. lia.
Qed.
End serialization.

Section signer.
Context {E : Type} `{Btcec, !BtcecLaws, !Entropy E}.

(** What a signer makes with a key: the signature has 64 bytes, the hash signed is
    the hash checked, and the public key survives its compressed form. *)
Lemma Signer_Sign_verifies key message sig (s : E) :
  usable key →
  ec_Sign (PrivKeyFromBytes key).1 (doSHA256 message) = inr sig →
  let signer := NewSigner (NewCryptoFactory NewSecp256k1Context) (NewSecp256k1PrivateKey key) in
  ∃ b, Signer_Sign signer message s = (Ret b, s) ∧ len b = 64%nat ∧
    ∀ s' : E, Verify NewSecp256k1Context b message
      (NewSecp256k1PublicKey (SerializeCompressed (PrivKeyFromBytes key).2)) s' = (Ret true, s').
Proof.
  intros Hkey Hsig signer. destruct (ec_Sign_range _ _ _ Hsig) as [HR HS].
  destruct (deserialize_serialize sig s s) as (b & E1 & Hl & E2); [lia..|].
  exists b. unfold signer, Signer_Sign. simpl. unfold secp_Sign, secp_Verify. simpl.
  pose proof (ParsePubKey_compressed key Hkey) as Hp. pose proof (ec_Sign_verifies key _ _ Hkey Hsig) as Hv.
  destruct (PrivKeyFromBytes key) as [priv pub]. simpl in *. rewrite Hsig.
  split; [done|]. split; [done|]. intros s'.
  assert (E3 : deserializeCompact b s' = (Ret sig, s')).
  { revert E2. unfold deserializeCompact. case_decide; [done|]. by intros [= ->]. }
  rewrite (go_bind_Ret _ _ _ _ _ E3), Hp, Hv. done.
Qed.

Lemma Signer_GetPublicKey_key key (s : E) :
  Signer_GetPublicKey (NewSigner (NewCryptoFactory NewSecp256k1Context)
    (NewSecp256k1PrivateKey key)) s
  = (Ret (NewSecp256k1PublicKey (SerializeCompressed (PrivKeyFromBytes key).2)), s).
Proof.
  unfold Signer_GetPublicKey. simpl. unfold secp_GetPublicKey. simpl.
  by destruct (PrivKeyFromBytes key).
Qed.

(** C30. A signature made by a signer is accepted by the context under the signer's
    public key, for every key (that is one: not a multiple of the group order) and
    every message: it has 64 bytes, the hash signed is the
    hash checked, and the public key survives its compressed form. *)
Theorem signatures_verify key message sig (s : E) :
  usable key →
  ec_Sign (PrivKeyFromBytes key).1 (doSHA256 message) = inr sig →
  let signer := NewSigner (NewCryptoFactory NewSecp256k1Context) (NewSecp256k1PrivateKey key) in
  ∃ b pub, Signer_Sign signer message s = (Ret b, s) ∧ len b = 64%nat ∧
    Signer_GetPublicKey signer s = (Ret pub, s) ∧
    Verify NewSecp256k1Context b message pub s = (Ret true, s).
Proof.
  intros Hkey Hsig signer. destruct (Signer_Sign_verifies key message sig s Hkey Hsig) as (b & ? & ? & ?).
  exists b. eexists. split_and!; [done|done|apply Signer_GetPublicKey_key|done].
Qed.
End signer.

(** A signature of fewer than 32 bytes is not refused: the check panics. *)
Lemma short_signature_panics {E} `{Btcec, !Entropy E} signature message pub (s : E) :
  (len signature < 32)%nat →
  Verify NewSecp256k1Context signature message pub s = (Panic "slice bounds out of range", s).
Proof.
  intros Hl. simpl. unfold secp_Verify, deserializeCompact, mbind, Go_bind. by rewrite decide_True.
Qed.

(** ** A toy curve *)

Module witness.
(** Keys are their bytes; a signature is made of the key and the hash. *)
#[local] Instance toy : Btcec := {|
  ec_priv := bytes;
  ec_pub := bytes;
  PrivKeyFromBytes b := (b, b);
  Serialize b := b;
  SerializeCompressed b := b;
  ParsePubKey b := inr b;
  ec_Sign priv hash := inr {| R := 1 + SetBytes priv mod 2^255; S := 1 + SetBytes hash mod 2^255 |};
  ec_Verify sig hash pub :=
    (R sig =? 1 + SetBytes pub mod 2^255) && (S sig =? 1 + SetBytes hash mod 2^255) |}.
#[local] Instance toy_entropy : Entropy unit := mret (inr "key").
#[local] Instance toy_laws : BtcecLaws.
Proof.
  split; [done| |].
  - intros priv hash sig [= <-]. cbn [R S].
    pose proof (Z.mod_pos_bound (SetBytes priv) (2^255)).
    pose proof (Z.mod_pos_bound (SetBytes hash) (2^255)). lia.
  - intros key hash sig _ [= <-]. simpl. by rewrite !Z.eqb_refl.
Qed.

Definition small : Signature := {| R := 5; S := 2^256 - 1 |}.

Lemma compact_roundtrip_witness : ∃ b, serializeCompact small tt = (Ret b, tt) ∧
  len b = 64%nat ∧ deserializeCompact b tt = (Ret small, tt).
Proof.
  assert (HR : 0 ≤ R small) by (unfold small; simpl; lia).
  assert (HS : 0 ≤ S small) by (unfold small; simpl; lia).
  exact (compact_roundtrip small tt HR HS).
Defined.

Lemma signatures_verify_witness :
  let signer := NewSigner (NewCryptoFactory NewSecp256k1Context) (NewSecp256k1PrivateKey "key") in
  ∃ b pub, Signer_Sign signer "message" tt = (Ret b, tt) ∧ len b = 64%nat ∧
    Signer_GetPublicKey signer tt = (Ret pub, tt) ∧
    Verify NewSecp256k1Context b "message" pub tt = (Ret true, tt).
Proof.
  assert (Hkey : usable "key") by (by vm_compute).
  exact (signatures_verify "key" "message" _ tt Hkey (eq_refl (ec_Sign "key" (doSHA256 "message")))).
Defined.
End witness.
End signing.
