(* ===== verification/Logging.v ===== *)
(** * The logger

    Models the package [logging]: one logger for the whole process, created on the
    first [Get], with a level below which records are dropped.  The state is what
    the process has printed, and the logger once there is one.  A record is the
    text the [fmt] functions make of the arguments; the date and source position
    that [log.Logger] puts in front of it are left out. *)

From S2P Require Import Prelude GoLib.

Module logging.
Local Open Scope Z_scope.

Definition CRITICAL : Z := 50.
Definition ERROR : Z := 40.
Definition WARN : Z := 30.
Definition INFO : Z := 20.
Definition DEBUG : Z := 10.

(** An [io.Writer]: standard output or another one. *)
Inductive Writer := Stdout | OtherWriter (n : nat).
#[export] Instance Writer_eq_dec : EqDecision Writer.
Proof. solve_decision. Defined.

Record Logger := { writer : Writer; level : Z }.

(** The process: the package variable [_LOGGER] and what was written where. *)
Record Process := { _LOGGER : option Logger; output : list (Writer * string) }.

Definition print (w : Writer) (line : string) : Go Process unit := go_modify (λ p,
  {| _LOGGER := _LOGGER p; output := output p ++ [(w, line)] |}).

Definition set_logger (l : Logger) : Go Process unit := go_modify (λ p,
  {| _LOGGER := Some l; output := output p |}).

Definition Get : Go Process Logger :=
  p ← go_get;
  match _LOGGER p with
  | None =>
      let l := {| writer := Stdout; level := DEBUG |} in
      _ ← set_logger l; mret l
  | Some l => mret l
  end.

(** The methods run on the logger [Get] handed out: all callers share it. *)
Definition on_logger {A} (f : Logger → Go Process A) : Go Process A :=
  p ← go_get;
  match _LOGGER p with
  | None => go_panic "invalid memory address or nil pointer dereference"
  | Some self => f self
  end.

Definition SetLevel (level : Z) : Go Process unit :=
  on_logger (λ self, set_logger {| writer := writer self; level := level |}).
Definition SetOutput (w : Writer) : Go Process unit :=
  on_logger (λ self, set_logger {| writer := w; level := level self |}).

(** [log.Logger.Output]: one line, with a newline when the text has none. *)
Definition ends_line (s : string) : bool :=
  bool_decide (last (chars s) = Some "010"%char).
Definition Output (self : Logger) (s : string) : Go Process unit :=
  print (writer self) (if ends_line s then s else s +:+ String "010" "").

(** [logf] and [log], on the text of the record. *)
Definition log_record (self : Logger) (prefix text : string) : Go Process unit :=
  Output self ("[" +:+ prefix +:+ "] " +:+ text).

Definition Debug (text : string) : Go Process unit := on_logger (λ self,
  if level self <=? DEBUG then log_record self "DEBUG" text else mret tt).
Definition Info (text : string) : Go Process unit := on_logger (λ self,
  if level self <=? INFO then log_record self "INFO" text else mret tt).
Definition Warn (text : string) : Go Process unit := on_logger (λ self,
  if level self <=? WARN then log_record self "WARN" text else mret tt).
Definition Error (text : string) : Go Process unit := on_logger (λ self,
  if level self <=? ERROR then log_record self "ERROR" text else mret tt).
Definition Critical (text : string) : Go Process unit := on_logger (λ self,
  if level self <=? CRITICAL then log_record self "CRITICAL" text else mret tt).

(** ** What reaches the output *)

(** The calls of a program. *)
Inductive call :=
| CallGet
| CallSetLevel (level : Z)
| CallSetOutput (w : Writer)
| CallDebug (text : string)
| CallInfo (text : string)
| CallWarn (text : string)
| CallError (text : string)
| CallCritical (text : string).

Definition run_call (c : call) : Go Process unit :=
  match c with
  | CallGet => _ ← Get; mret tt
  | CallSetLevel l => SetLevel l
  | CallSetOutput w => SetOutput w
  | CallDebug t => Debug t
  | CallInfo t => Info t
  | CallWarn t => Warn t
  | CallError t => Error t
  | CallCritical t => Critical t
  end.

Fixpoint run_calls (l : list call) : Go Process unit :=
  match l with
  | [] => mret tt
  | c :: l => _ ← run_call c; run_calls l
  end.

(** The severity, the name and the text of a call that logs. *)
Definition record_of (c : call) : option (Z * string * string) :=
  match c with
  | CallDebug t => Some (DEBUG, "DEBUG", t)
  | CallInfo t => Some (INFO, "INFO", t)
  | CallWarn t => Some (WARN, "WARN", t)
  | CallError t => Some (ERROR, "ERROR", t)
  | CallCritical t => Some (CRITICAL, "CRITICAL", t)
  | _ => None
  end.

Definition line (name text : string) : string :=
  let s := "[" +:+ name +:+ "] " +:+ text in
  if ends_line s then s else s +:+ String "010" "".

(** The specification: the level and the writer in force before each call decide
    about it; a record is written when its severity is at least the level. *)
Fixpoint expected (w : Writer) (level : Z) (l : list call) : list (Writer * string) :=
  match l with
  | [] => []
  | CallSetLevel level :: l => expected w level l
  | CallSetOutput w :: l => expected w level l
  | c :: l =>
      match record_of c with
      | Some (severity, name, text) =>
          (if severity <? level then [] else [(w, line name text)]) ++ expected w level l
      | None => expected w level l
      end
  end.

(** One severity, as the source's five pairs of methods have it. *)
Lemma log_at self severity name text p :
  _LOGGER p = Some self →
  on_logger (λ self, if level self <=? severity then log_record self name text else mret tt) p =
    (Ret tt, {| _LOGGER := Some self;
                output := output p ++
                  (if severity <? level self then [] else [(writer self, line name text)]) |}).
Proof.
  intros Hl. unfold on_logger, mbind, Go_bind, go_get. rewrite Hl.
  destruct (Z.ltb_spec severity (level self)).
  - rewrite (proj2 (Z.leb_gt _ _)) by done. rewrite app_nil_r. destruct p. simpl in *. by subst.
  - rewrite (proj2 (Z.leb_le _ _)) by done.
    unfold log_record, Output, print, go_modify. by rewrite Hl.
Qed.

Lemma run_calls_expected l self p :
  _LOGGER p = Some self →
  ∃ p', run_calls l p = (Ret tt, p') ∧ is_Some (_LOGGER p') ∧
    output p' = output p ++ expected (writer self) (level self) l.
Proof.
  revert self p. induction l as [|c l IH]; intros self p Hl.
  { exists p. rewrite app_nil_r. eauto. }
  assert (Hlog : ∀ severity name text, record_of c = Some (severity, name, text) →
    run_call c p = (Ret tt, {| _LOGGER := Some self;
                output := output p ++
                  (if severity <? level self then [] else [(writer self, line name text)]) |})).
  { intros severity name text Hc. destruct c; simplify_eq/=; by apply log_at. }
  cbn [run_calls]. destruct (record_of c) as [[[severity name] text]|] eqn:Hc.
  - pose proof (Hlog _ _ _ eq_refl) as E1. rewrite (go_bind_Ret _ _ _ _ _ E1).
    match type of E1 with _ = (_, ?p1) =>
      destruct (IH self p1 eq_refl) as (p' & E & Hs & Ho) end.
    exists p'. rewrite E, Ho. cbn [output]. split; [done|]. split; [done|].
    rewrite <-app_assoc. destruct c; simplify_eq/=; done.
  - assert (Hset : ∃ self', run_call c p = (Ret tt, {| _LOGGER := Some self'; output := output p |}) ∧
      expected (writer self) (level self) (c :: l) = expected (writer self') (level self') l).
    { destruct c; simplify_eq/=.
      - exists self. unfold Get, mbind, Go_bind, go_get. rewrite Hl. destruct p. simpl in *. by subst.
      - eexists. unfold SetLevel, on_logger, mbind, Go_bind, go_get. by rewrite Hl.
      - eexists. unfold SetOutput, on_logger, mbind, Go_bind, go_get. by rewrite Hl. }
    destruct Hset as (self' & E1 & ->). rewrite (go_bind_Ret _ _ _ _ _ E1).
    destruct (IH self' {| _LOGGER := Some self'; output := output p |} eq_refl) as (p' & ? & ? & ?).
    by exists p'.
Qed.

(** C37. The logger is its specification: whatever the program calls on it, and
    however often the level and the writer change in between, exactly the records
    at or above the level in force are written, in order, each as one line to the
    writer in force; a logger that does not exist yet starts at DEBUG on standard
    output. *)
Theorem log_output_expected l p :
  ∃ p', run_calls (CallGet :: l) p = (Ret tt, p') ∧
    output p' = output p ++
      match _LOGGER p with
      | Some self => expected (writer self) (level self) l
      | None => expected Stdout DEBUG l
      end.
Proof.
  cbn [run_calls run_call]. unfold Get. destruct (_LOGGER p) as [self|] eqn:Hl.
  - destruct (run_calls_expected l self p Hl) as (p' & E & _ & Ho). exists p'.
    unfold mbind, Go_bind, go_get. by rewrite Hl.
  - set (p1 := {| _LOGGER := Some {| writer := Stdout; level := DEBUG |}; output := output p |}).
    destruct (run_calls_expected l _ p1 eq_refl) as (p' & E & _ & Ho). exists p'.
    unfold mbind, Go_bind, go_get. rewrite Hl. done.
Qed.
End logging.
