(* ===== verification/Signals.v ===== *)
(** * Shutting down on a signal

    Models [ShutdownOnSignal] of [processor/processor.go] and of
    [consensus/engine.go], which are the same but for the [Shutdown] they call:
    the signals are relayed to an unbuffered channel, a goroutine waits for one of
    them, gives the signals back to the operating system and shuts down.  What
    [os/signal] does with a signal is written out: it is relayed if somebody asked
    for it (and dropped if nobody is waiting at the channel), and otherwise has its
    default effect, which ends the process. *)

From S2P Require Import Prelude GoLib Errors Protobuf Messaging Worker Processor ConsensusEngine.

(** Which signals are relayed to the channel, and whether the goroutine waits. *)
Record Signals := { relayed : list Z; waiting : option (list Z) }.

Definition SIGINT : Z := 2%Z.
Definition SIGTERM : Z := 15%Z.

Section signals.
Context {S : Type} (shutdown : Go S unit).

(** [signal.Notify] and the goroutine, which then waits at the channel. *)
Definition notify (siglist : list Z) : Go (Signals * S) unit := go_modify (λ p,
  ({| relayed := relayed p.1 ++ siglist; waiting := Some siglist |}, p.2)).

(** A signal arrives: [false] when it ends the process. *)
Definition deliver (sig : Z) : Go (Signals * S) bool :=
  p ← go_get;
  if decide (sig ∈ relayed p.1) then
    match waiting p.1 with
    | None => mret true
    | Some siglist =>
        _ ← go_put ({| relayed := filter (λ s, s ∉ siglist) (relayed p.1); waiting := None |}, p.2);
        _ ← zoom snd (λ s p, (p.1, s)) shutdown;
        mret true
    end
  else mret false.

Fixpoint deliver_all (sigs : list Z) : Go (Signals * S) bool :=
  match sigs with
  | [] => mret true
  | sig :: sigs =>
      alive ← deliver sig;
      if (alive : bool) then deliver_all sigs else mret false
  end.
End signals.

Definition no_signals : Signals := {| relayed := []; waiting := None |}.

Section processor.
Context {C : Type} `{Connection C}.
Definition ShutdownOnSignal (siglist : list Z) :
    Go (Signals * TransactionProcessor C) unit := notify siglist.
(** What a signal does to a processor. *)
Definition processor_signal (sig : Z) : Go (Signals * TransactionProcessor C) bool :=
  deliver Processor.Shutdown sig.
End processor.

Section engine.
Context {C M : Type} `{Connection C}.
Definition engine_ShutdownOnSignal (siglist : list Z) :
    Go (Signals * Engine C M) unit := notify siglist.
Definition engine_signal (sig : Z) : Go (Signals * Engine C M) bool :=
  deliver ConsensusEngine.Shutdown sig.
End engine.

(** ** One graceful chance *)

(** The first signal runs the shutdown, once, and gives the signals back; the
    second one, of whichever kind asked for, ends the process. *)
Lemma signals_effect {S} (shutdown : Go S unit) siglist sig sigs (s s1 : S) :
  sig ∈ siglist → shutdown s = (Ret tt, s1) → Forall (.∈ siglist) sigs →
  (_ ← notify siglist; deliver_all shutdown (sig :: sigs)) (no_signals, s) =
    (Ret (bool_decide (sigs = [])), ({| relayed := []; waiting := None |}, s1)).
Proof.
  intros Hsig Hs Hall. unfold notify. cbn [deliver_all].
  erewrite (go_bind_Ret (go_modify _)) by reflexivity.
  assert (Hf : filter (λ s, s ∉ siglist) siglist = []).
  { destruct (filter _ _) as [|x l] eqn:E; [done|].
    assert (Hx : x ∈ filter (λ s, s ∉ siglist) siglist) by (rewrite E; by left).
    by apply list_elem_of_filter in Hx as [? ?]. }
  assert (E : deliver shutdown sig
      ({| relayed := siglist; waiting := Some siglist |}, s) =
    (Ret true, ({| relayed := []; waiting := None |}, s1))).
  { unfold deliver. erewrite (go_bind_Ret go_get) by reflexivity. simpl.
    rewrite decide_True by done. unfold mbind, Go_bind, go_put, zoom. simpl.
    by rewrite Hs, Hf. }
  simpl. rewrite (go_bind_Ret _ _ _ _ _ E).
  destruct Hall as [|sig2 sigs Hsig2 Hall]; [done|].
  done.
Qed.

(** A shutdown that panics takes the process with it. *)
Lemma signals_panic {S} (shutdown : Go S unit) siglist sig sigs (s s1 : S) e :
  sig ∈ siglist → shutdown s = (Panic e, s1) →
  ((_ ← notify siglist; deliver_all shutdown (sig :: sigs)) (no_signals, s)).1 = Panic e.
Proof.
  intros Hsig Hs. unfold notify. cbn [deliver_all].
  erewrite (go_bind_Ret (go_modify _)) by reflexivity. unfold deliver, mbind, Go_bind, go_get. simpl.
  rewrite decide_True by done. unfold go_put, zoom. simpl. by rewrite Hs.
Qed.


(** ** A concrete signal *)

Module witness.
#[local] Existing Instance ordered_runtime.
#[local] Instance wmsg : Proto Message := countable_proto Message.
#[local] Instance wconn : Connection (ZmqConnection Script) := zmq_connection 5.

Definition tx : ZmqConnection Script := {|
  identity := "t"; uri := "u"; incoming := ∅;
  socket := {| script_inbox := []; script_outbox := []; script_ids := [] |} |}.
Definition running : TransactionProcessor (ZmqConnection Script) :=
  set_shutdown_tx (Ptr tx) (NewTransactionProcessor "tcp://localhost:4004" 4).

End witness.
