(* ===== verification/Entry.v ===== *)
(** * The programs

    Models the [main] functions of the example transaction processors and of the
    devmode engine.  The command line parser is a library: its outcome is the
    argument [parsed].  The state is the process of [Logging] (what was printed and
    the logger); a [main] ends with an exit code, or runs as long as the processor
    or engine it starts, whose sockets and polls are the argument [runs]. *)

From S2P Require Import Prelude GoLib Sha512 Errors Protobuf Messaging Answering ProcContext Worker Validator Intkey Smallbank Xo Noop Processor ConsensusProto ConsensusTypes ConsensusService ConsensusEngine Devmode Logging Signals.

Module entry.
Import logging.
Local Open Scope Z_scope.

(** [parser.Parse()]: help was asked for, the arguments are wrong, or the options
    with the arguments that are left. *)
Inductive parse (Opts : Type) :=
| ParseHelp
| ParseError (err : Errors.error)
| Parsed (opts : Opts) (remaining : list string).
Arguments ParseHelp {Opts}.
Arguments ParseError {Opts} err.
Arguments Parsed {Opts} opts remaining.

(** How a [main] ends: [os.Exit], or it returns. *)
Inductive ending := Exit (code : Z) | Returned.

(** [Verbose] is the number of flags given. *)
Record ProcessorOpts := { Verbose : nat; Connect : string; Queue : Z; Threads : Z }.
Record ConnectOpts := { c_Verbose : nat; c_Connect : string }.
Record NoopOpts := { flag_v : bool; flag_vv : bool; noop_args : list string }.

(** The switch on the number of flags, in its two forms. *)
Definition verbosity (n : nat) : Z :=
  match n with
  | 2%nat => DEBUG
  | 1%nat => INFO
  | _ => WARN
  end.
Definition verbosity_more (n : nat) : Z :=
  match n with
  | 0%nat => WARN
  | 1%nat => INFO
  | _ => DEBUG
  end.

(** The start of most mains: help ends with 0, wrong arguments with 2. *)
Definition with_opts {Opts} (parsed : parse Opts) (run : Opts → Go Process ending) :
    Go Process ending :=
  _ ← Get;
  match parsed with
  | ParseHelp => mret (Exit 0)
  | ParseError err => _ ← logging.Error ("Failed to parse args: " +:+ Errors.Error err); mret (Exit 2)
  | Parsed opts remaining =>
      if decide (remaining ≠ []) then
        _ ← print Stdout ("Error: Unrecognized arguments passed: "
                          +:+ fmt_strings remaining +:+ String "010" "");
        mret (Exit 2)
      else run opts
  end.

Section processors.
Context {C M : Type} `{Connection C, Monitor M, Proto Message}.
Context `{Proto TpProcessResponse, Proto PingResponse, Proto TpUnregisterRequest}.
Context `{Proto TpRegisterRequest, Proto TpRegisterResponse}.
Context `{ContextProtos, GoRuntime}.
Abbreviation runs_of := (list (option Errors.error * Processor.Sockets (C:=C) (M:=M) * list (Processor.Turn C M))).
Context (gomaxprocs : Z) (runs : runs_of).

(** [processor.ShutdownOnSignal(...)], then [processor.Start()] and what is logged when
    it ends. *)
Definition run_processor (p : TransactionProcessor C) : Go Process ending := λ s,
  let '(_, (_, p)) := ShutdownOnSignal [SIGINT; SIGTERM] (no_signals, p) in
  match (Processor.Start runs p).1 with
  | Ret (Some err) =>
      (_ ← logging.Error ("Processor stopped: " +:+ Errors.Error err); mret Returned) s
  | Ret None => (Ret Returned, s)
  | Panic reason => (Panic reason, s)
  | Blocked => (Blocked, s)
  | OutOfFuel => (OutOfFuel, s)
  end.

Definition with_threads (n : Z) (p : TransactionProcessor C) : TransactionProcessor C :=
  if 0 <? n then SetThreadCount n p else p.

Definition intkey_processor `{intkey.Cbor} (opts : ProcessorOpts) : TransactionProcessor C :=
  let prefix := slice_to 6 (hexdigest "intkey") in
  let handler := intkey.NewIntkeyHandler prefix in
  AddHandler (intkey.handler handler)
    (with_threads (Threads opts)
      (SetMaxQueueSize (Queue opts) (NewTransactionProcessor (Connect opts) gomaxprocs))).

Definition intkey_main `{intkey.Cbor} (parsed : parse ProcessorOpts) : Go Process ending :=
  with_opts parsed (λ opts,
    _ ← SetLevel (verbosity (Verbose opts));
    run_processor (intkey_processor opts)).

Definition debug_options (args : list string) (verbose : nat) (endpoint : string) :
    Go Process unit :=
  _ ← Debug ("command line arguments: " +:+ fmt_strings args);
  _ ← Debug ("verbose = " +:+ pretty verbose +:+ String "010" "");
  Debug ("endpoint = " +:+ endpoint +:+ String "010" "").

Definition xo_processor (opts : ConnectOpts) : TransactionProcessor C :=
  AddHandler xo.handler (NewTransactionProcessor (c_Connect opts) gomaxprocs).

Definition xo_main (args : list string) (parsed : parse ConnectOpts) : Go Process ending :=
  with_opts parsed (λ opts,
    _ ← SetLevel (verbosity (c_Verbose opts));
    _ ← debug_options args (c_Verbose opts) (c_Connect opts);
    run_processor (xo_processor opts)).

Section smallbank.
Context `{Proto smallbank.SmallbankTransactionPayload, Proto smallbank.Account}.

Definition smallbank_processor (opts : ProcessorOpts) : TransactionProcessor C :=
  AddHandler smallbank.handler
    (with_threads (Threads opts)
      (SetMaxQueueSize (Queue opts) (NewTransactionProcessor (Connect opts) gomaxprocs))).

(** Arguments that are left over are not looked at. *)
Definition smallbank_main (args : list string) (parsed : parse ProcessorOpts) :
    Go Process ending :=
  _ ← Get;
  match parsed with
  | ParseHelp => mret (Exit 0)
  | ParseError err =>
      _ ← logging.Error ("Failed to parse args: " +:+ Errors.Error err); mret (Exit 2)
  | Parsed opts _ =>
      _ ← SetLevel (verbosity_more (Verbose opts));
      _ ← debug_options args (Verbose opts) (Connect opts);
      run_processor (smallbank_processor opts)
  end.
End smallbank.

(** The standard library's [flag.Parse] exits by itself on wrong arguments. *)
Definition noop_processor (opts : NoopOpts) : TransactionProcessor C :=
  let endpoint := default "tcp://localhost:4004" (head (noop_args opts)) in
  let prefix := slice_to 6 (hexdigest "noop") in
  AddHandler (noop.handler (noop.NewNoopHandler prefix))
    (NewTransactionProcessor endpoint gomaxprocs).

Definition noop_main (opts : NoopOpts) : Go Process ending :=
  let level := WARN in
  let level := if flag_v opts then INFO else level in
  let level := if flag_vv opts then DEBUG else level in
  _ ← Get;
  _ ← SetLevel level;
  run_processor (noop_processor opts).
End processors.

Section devmode.
Context {C M : Type} `{Connection C, Monitor M, Proto Message}.
Context `{EngineProtos, Proto PingResponse}.
Context (runs : list (option Errors.error * ConsensusEngine.Sockets (C:=C) (M:=M) * list (ConsensusEngine.Turn C M))).

(** The result of [engine.Start()] is dropped: the error looked at afterwards is
    that of the parser, which is nil here.  The signals are watched as for a
    processor, by the engine's own [ShutdownOnSignal] (in [Signals]). *)
Definition run_engine : Go Process ending := λ s,
  match ConsensusEngine.Start devmode.Name devmode.Version runs with
  | Ret _ => (Ret Returned, s)
  | Panic reason => (Panic reason, s)
  | Blocked => (Blocked, s)
  | OutOfFuel => (OutOfFuel, s)
  end.

Definition devmode_main (parsed : parse ConnectOpts) : Go Process ending :=
  with_opts parsed (λ opts,
    _ ← SetLevel (verbosity (c_Verbose opts));
    run_engine).
End devmode.

(** ** Addresses and namespaces *)

(** A state address as the validator takes it: 70 lower-case hexadecimal digits,
    the first six of which are a registered namespace. *)
Definition lower_hex (c : ascii) : Prop :=
  ∃ n, fromHexChar c = Some n ∧ c = hex_digit n.
Definition is_address (ns a : string) : Prop :=
  len ns = 6%nat ∧ len a = 70%nat ∧ slice_to 6 a = ns ∧ Forall lower_hex (chars a).

Lemma hex_lower_hex b : Forall lower_hex (chars (hex_EncodeToString b)).
Proof.
  induction b as [|c b IH]; [constructor|]. unfold chars in *. simpl. repeat constructor; [..|done].
  - destruct c as [[] [] [] [] [] [] [] []]; eexists; split; reflexivity.
  - destruct c as [[] [] [] [] [] [] [] []]; eexists; split; reflexivity.
Qed.

Lemma hexdigest_address family rest :
  len rest = 64%nat → Forall lower_hex (chars rest) →
  is_address (slice_to 6 (hexdigest family)) (slice_to 6 (hexdigest family) +:+ rest).
Proof.
  intros Hl Hr. assert (H6 : len (slice_to 6 (hexdigest family)) = 6%nat).
  { apply len_slice_to. rewrite hexdigest_len. lia. }
  split; [done|]. split; [rewrite len_app; lia|]. rewrite <-length_chars in H6. split.
  - unfold slice_to at 1. rewrite chars_app, take_app_length' by done. apply unchars_chars.
  - rewrite chars_app. apply Forall_app_2; [|done]. unfold slice_to. rewrite chars_unchars.
    rewrite hexdigest_eq. apply Forall_take, hex_lower_hex.
Qed.

Lemma len_digest_to s : len (slice_to 64 (hexdigest s)) = 64%nat ∧
  Forall lower_hex (chars (slice_to 64 (hexdigest s))).
Proof.
  split; [apply len_slice_to; rewrite hexdigest_len; lia|].
  unfold slice_to. rewrite chars_unchars, hexdigest_eq. apply Forall_take, hex_lower_hex.
Qed.
Lemma len_digest_from s : len (slice_from 64 (hexdigest s)) = 64%nat ∧
  Forall lower_hex (chars (slice_from 64 (hexdigest s))).
Proof.
  unfold slice_from. rewrite <-length_chars, chars_unchars.
  split; [rewrite length_drop, length_chars, hexdigest_len; done|].
  rewrite hexdigest_eq. apply Forall_drop, hex_lower_hex.
Qed.


(** ** What a user does not see *)

(** Three flags or more are taken for none. *)
Lemma verbosity_wraps n : (3 ≤ n)%nat → verbosity n = WARN.
Proof. by destruct n as [|[|[|n]]]; [lia..|]. Qed.

(** An engine that fails to start leaves no trace: the process ends normally and
    prints nothing. *)
Lemma devmode_error_silent {C M} `{Connection C, Monitor M, Proto Message}
    `{EngineProtos, Proto PingResponse}
    (runs : list (option Errors.error * ConsensusEngine.Sockets (C:=C) (M:=M)
                  * list (ConsensusEngine.Turn C M))) opts p err :
  ConsensusEngine.Start devmode.Name devmode.Version runs = Ret (Some err) →
  ∃ p', devmode_main runs (Parsed opts []) p = (Ret Returned, p') ∧ output p' = output p.
Proof.
  intros E. unfold devmode_main, with_opts, run_engine, Get, mbind, Go_bind, go_get, mret, Go_ret.
  rewrite E. destruct p as [[l|] out]; simpl; eauto.
Qed.
End entry.
