(* ===== verification/Base64.v ===== *)
(** * encoding/base64

    [base64.StdEncoding.DecodeString] as [intkey_client.go] uses it: line breaks are
    skipped, the data comes in groups of four digits, the last of which may be
    padded, and the first byte that does not fit is reported with its position.
    [EncodeToString], which the other side of the REST API uses, is its inverse. *)

From S2P Require Import Prelude GoLib.

Module base64.
Local Open Scope Z_scope.

Definition alphabet : list ascii :=
  chars "ABCDEFGHIJKLMNOPQRSTUVWXYZabcdefghijklmnopqrstuvwxyz0123456789+/".

(** [enc.decodeMap] *)
Fixpoint index_of (c : ascii) (l : list ascii) (i : Z) : option Z :=
  match l with
  | [] => None
  | x :: l => if decide (x = c) then Some i else index_of c l (i + 1)
  end.
Definition digit (c : ascii) : option Z := index_of c alphabet 0.

Definition newline (c : ascii) : bool := bool_decide (c = "010"%char ∨ c = "013"%char).

(** The line breaks at the front are skipped; [si] counts the bytes read. *)
Fixpoint skip_newlines (l : list ascii) (si : Z) : list ascii * Z :=
  match l with
  | c :: l' => if newline c then skip_newlines l' (si + 1) else (l, si)
  | [] => ([], si)
  end.

(** The bytes of the digits of a group: one less than there are digits. *)
Definition group_bytes (ds : list Z) : list ascii :=
  let v := foldl (λ acc d, acc * 64 + d) 0 (ds ++ replicate (4 - length ds) 0) in
  take (length ds - 1) [byte_of (v / 65536); byte_of ((v / 256) mod 256); byte_of (v mod 256)].

Definition CorruptInputError (n : Z) : string :=
  "illegal base64 data at input byte " +:+ Itoa n.

(** After the padding only line breaks may follow. *)
Definition finish (l : list ascii) (si : Z) (out : list ascii) : string + list ascii :=
  match skip_newlines l si with
  | ([], _) => inr out
  | (_, si) => inl (CorruptInputError si)
  end.

(** [decodeQuantum] over and over: [ds] are the digits of the group so far. *)
Fixpoint decode (l : list ascii) (si : Z) (ds : list Z) (out : list ascii) :
    string + list ascii :=
  match l with
  | [] => if decide (ds = []) then inr out else inl (CorruptInputError (si - Z.of_nat (length ds)))
  | c :: l =>
      match digit c with
      | Some d =>
          let ds := ds ++ [d] in
          if decide (length ds = 4%nat) then decode l (si + 1) [] (out ++ group_bytes ds)
          else decode l (si + 1) ds out
      | None =>
          if newline c then decode l (si + 1) ds out
          else if decide (c ≠ "="%char) then inl (CorruptInputError si)
          else match length ds with
               | 0%nat | 1%nat => inl (CorruptInputError si)
               | 2%nat =>
                   match skip_newlines l (si + 1) with
                   | ([], si) => inl (CorruptInputError si)
                   | (c :: l, si) =>
                       if decide (c ≠ "="%char) then inl (CorruptInputError (si - 1))
                       else finish l (si + 1) (out ++ group_bytes ds)
                   end
               | _ => finish l (si + 1) (out ++ group_bytes ds)
               end
      end
  end.

Definition DecodeString (s : string) : string + bytes :=
  match decode (chars s) 0 [] [] with
  | inl err => inl err
  | inr out => inr (unchars out)
  end.

(** [EncodeToString] *)
Definition char_of (d : Z) : ascii := default "A"%char (alphabet !! Z.to_nat d).

Fixpoint encode (b : list Z) : list ascii :=
  match b with
  | [] => []
  | [x] => [char_of (x / 4); char_of (x mod 4 * 16); "="%char; "="%char]
  | [x; y] => [char_of (x / 4); char_of (x mod 4 * 16 + y / 16); char_of (y mod 16 * 4); "="%char]
  | x :: y :: z :: b =>
      char_of (x / 4) :: char_of (x mod 4 * 16 + y / 16) :: char_of (y mod 16 * 4 + z / 64)
        :: char_of (z mod 64) :: encode b
  end.
Definition EncodeToString (b : bytes) : string := unchars (encode (byte_val <$> chars b)).

Lemma digit_char d : 0 ≤ d < 64 → digit (char_of d) = Some d.
Proof.
  intros Hd. assert (Hall : forallb (λ d, bool_decide (digit (char_of d) = Some d))
    (Z.of_nat <$> seq 0 64) = true) by (vm_compute; reflexivity).
  rewrite forallb_forall in Hall. specialize (Hall d).
  apply (bool_decide_eq_true_1 _), Hall. apply list_elem_of_In, list_elem_of_fmap.
  exists (Z.to_nat d). split; [lia|]. apply elem_of_seq. lia.
Qed.

Lemma decode_more d l si ds out :
  0 ≤ d < 64 → length ds ≠ 3%nat →
  decode (char_of d :: l) si ds out = decode l (si + 1) (ds ++ [d]) out.
Proof.
  intros Hd Hl. cbn [decode]. rewrite digit_char by done. cbv zeta.
  rewrite decide_False; [done|]. rewrite length_app. simpl. lia.
Qed.
Lemma decode_last d l si ds out :
  0 ≤ d < 64 → length ds = 3%nat →
  decode (char_of d :: l) si ds out = decode l (si + 1) [] (out ++ group_bytes (ds ++ [d])).
Proof.
  intros Hd Hl. cbn [decode]. rewrite digit_char by done. cbv zeta.
  rewrite decide_True; [done|]. rewrite length_app. simpl. lia.
Qed.

Lemma byte_of_val c z : z = byte_val c → byte_of z = c.
Proof. intros ->. unfold byte_of, byte_val. rewrite N2Z.id. apply ascii_N_embedding. Qed.
Lemma byte_val_bound c : 0 ≤ byte_val c < 256.
Proof. unfold byte_val. pose proof (N_ascii_bounded c). lia. Qed.

(** The bytes of one group come back from its digits. *)
Lemma group_value X Y W :
  ((((0 * 64 + X / 4) * 64 + (X mod 4 * 16 + Y / 16)) * 64 + (Y mod 16 * 4 + W / 64)) * 64
    + W mod 64)%Z = X * 65536 + Y * 256 + W.
Proof.
  pose proof (Z.div_mod X 4). pose proof (Z.div_mod Y 16). pose proof (Z.div_mod W 64). lia.
Qed.

Lemma three_bytes x y z v :
  v = byte_val x * 65536 + byte_val y * 256 + byte_val z →
  [byte_of (v / 65536); byte_of ((v / 256) mod 256); byte_of (v mod 256)] = [x; y; z].
Proof.
  intros ->. pose proof (byte_val_bound x). pose proof (byte_val_bound y).
  pose proof (byte_val_bound z).
  rewrite (byte_of_val x), (byte_of_val y), (byte_of_val z); [done|..];
    Z.to_euclidean_division_equations; lia.
Qed.

Lemma group_of_three x y z :
  group_bytes [byte_val x / 4; byte_val x mod 4 * 16 + byte_val y / 16;
               byte_val y mod 16 * 4 + byte_val z / 64; byte_val z mod 64] = [x; y; z].
Proof.
  unfold group_bytes. cbn [length app replicate Nat.sub foldl].
  by rewrite (three_bytes x y z) by apply group_value.
Qed.

Lemma group_of_two x y :
  group_bytes [byte_val x / 4; byte_val x mod 4 * 16 + byte_val y / 16; byte_val y mod 16 * 4]
    = [x; y].
Proof.
  unfold group_bytes. cbn [length app replicate Nat.sub foldl].
  rewrite (three_bytes x y "000"); [done|]. change (byte_val "000") with 0.
  pose proof (group_value (byte_val x) (byte_val y) 0) as Hv.
  change (0 / 64) with 0 in Hv. change (0 mod 64) with 0 in Hv. lia.
Qed.

Lemma group_of_one x : group_bytes [byte_val x / 4; byte_val x mod 4 * 16] = [x].
Proof.
  unfold group_bytes. cbn [length app replicate Nat.sub foldl].
  rewrite (three_bytes x "000" "000"); [done|]. change (byte_val "000") with 0.
  pose proof (group_value (byte_val x) 0 0) as Hv. change (0 / 16) with 0 in Hv.
  change (0 mod 16 * 4) with 0 in Hv. change (0 / 64) with 0 in Hv.
  change (0 mod 64) with 0 in Hv. lia.
Qed.

(** Induction in steps of three bytes. *)
Lemma three_ind (P : list ascii → Prop) :
  P [] → (∀ x, P [x]) → (∀ x y, P [x; y]) → (∀ x y z l, P l → P (x :: y :: z :: l)) → ∀ l, P l.
Proof.
  intros H0 H1 H2 H3. fix IH 1. intros [|x [|y [|z l]]]; [done|done|done|]. apply H3, IH.
Qed.

Lemma decode_pad_two a b si out :
  decode ["="; "="]%char si [a; b] out = inr (out ++ group_bytes [a; b]).
Proof. reflexivity. Qed.
Lemma decode_pad_one a b c si out :
  decode ["="]%char si [a; b; c] out = inr (out ++ group_bytes [a; b; c]).
Proof. reflexivity. Qed.

Lemma decode_encode l si out :
  decode (encode (byte_val <$> l)) si [] out = inr (out ++ l).
Proof.
  assert (Hd : ∀ x y, 0 ≤ byte_val x / 4 < 64 ∧ 0 ≤ byte_val x mod 4 * 16 < 64 ∧
    0 ≤ byte_val x mod 4 * 16 + byte_val y / 16 < 64 ∧ 0 ≤ byte_val x mod 16 * 4 < 64 ∧
    0 ≤ byte_val x mod 16 * 4 + byte_val y / 64 < 64 ∧ 0 ≤ byte_val x mod 64 < 64).
  { intros x y. pose proof (byte_val_bound x). pose proof (byte_val_bound y).
    Z.to_euclidean_division_equations. lia. }
  revert si out. induction l as [|x|x y|x y z l IH] using three_ind; intros si out.
  - simpl. by rewrite app_nil_r.
  - cbn [fmap list_fmap encode]. destruct (Hd x x) as (? & ? & _).
    do 2 (rewrite decode_more by done).
    cbn [app]. by rewrite decode_pad_two, group_of_one.
  - cbn [fmap list_fmap encode]. destruct (Hd x y) as (? & _ & ? & _), (Hd y y) as (_ & _ & _ & ? & _).
    do 3 (rewrite decode_more by done).
    cbn [app]. by rewrite decode_pad_one, group_of_two.
  - cbn [fmap list_fmap encode]. destruct (Hd x y) as (? & _ & ? & _), (Hd y z) as (_ & _ & _ & _ & ? & _),
      (Hd z z) as (_ & _ & _ & _ & _ & ?).
    do 3 (rewrite decode_more by done). rewrite decode_last by done.
    cbn [app]. rewrite group_of_three, IH. by rewrite <-app_assoc.
Qed.

Lemma DecodeString_Encode b : DecodeString (EncodeToString b) = inr b.
Proof.
  unfold DecodeString, EncodeToString. rewrite chars_unchars, decode_encode. simpl.
  by rewrite unchars_chars.
Qed.
End base64.
