(* ===== verification/IntkeyClient.v ===== *)
(** * The intkey client

    Models [examples/intkey_go/src/sawtooth_intkey_client]: the client that builds,
    signs and submits intkey transactions and reads the state over the REST API
    ([intkey_client.go]), its subcommands ([set.go], [inc.go], [dec.go], [show.go],
    [list.go]) and the program ([main.go]).  The state is what is outside of the
    program (class [ClientWorld]: HTTP, files, the user, the clock, random numbers)
    and the process of [Logging].  YAML and CBOR are libraries (class
    [ClientCodec]); values the client only prints are the text [fmt] prints for
    them.  [uint] is 64 bits wide. *)

From S2P Require Import Prelude GoLib Sha512 Errors Protobuf Signing Logging Base64 Entry.

Module client.
Import logging entry.
Local Open Scope Z_scope.

(** ** Constants *)

Definition FAMILY_NAME : string := "intkey".
Definition FAMILY_VERSION : string := "1.0".
Definition DISTRIBUTION_NAME : string := "sawtooth-intkey".
Definition DEFAULT_URL : string := "http://127.0.0.1:8008".
Definition VERB_SET : string := "set".
Definition VERB_INC : string := "inc".
Definition VERB_DEC : string := "dec".
Definition BATCH_SUBMIT_API : string := "batches".
Definition BATCH_STATUS_API : string := "batch_statuses".
Definition STATE_API : string := "state".
Definition CONTENT_TYPE_OCTET_STREAM : string := "application/octet-stream".
Definition FAMILY_NAMESPACE_ADDRESS_LENGTH : nat := 6.
Definition FAMILY_VERB_ADDRESS_LENGTH : nat := 64.

(** ** Libraries *)

Record Response := { StatusCode : Z; Status : string; Body : Errors.error + bytes }.

Class ClientWorld (W : Type) := {
  http_Post : string → string → bytes → Go W (Errors.error + Response);
  http_Get : string → Go W (Errors.error + Response);
  ReadFile : string → Go W (Errors.error + bytes);
  user_Current : Go W (Errors.error + string * string);
  Now : Go W Z;
  rand_Int : Go W Z }.
#[global] Hint Mode ClientWorld ! : typeclass_instances.

(** A YAML value; maps by their entries, values that are neither text, list nor map
    by what [fmt] prints for them. *)
Inductive yaml :=
| YString (s : string)
| YList (l : list yaml)
| YMap (m : list (string * yaml))
| YOther (text : string).

(** [cbor.Dumps] of the map with Verb, Name and Value, [cbor.Loads] into a map
    (which may panic), [yaml.Unmarshal] into a map, and the texts [fmt] prints for
    lists and maps, for a response and for the error of [strconv.Atoi]. *)
Class ClientCodec := {
  Dumps_request : string → string → Z → Errors.error + bytes;
  Loads_any : bytes → Res (Errors.error + gmap string string);
  yaml_Unmarshal : string → Errors.error + list (string * yaml);
  yaml_text : yaml → string;
  Response_text : Response → string;
  Atoi_text : string → string }.

Fixpoint yaml_get (m : list (string * yaml)) (k : string) : option yaml :=
  match m with
  | [] => None
  | (k', v) :: m => if decide (k' = k) then Some v else yaml_get m k
  end.

(** [fmt.Sprint] of an element of a map, nil when there is none. *)
Definition Sprint `{ClientCodec} (v : option yaml) : string :=
  match v with
  | None => "<nil>"
  | Some (YString s) | Some (YOther s) => s
  | Some v => yaml_text v
  end.

(** [errors.New] *)
Definition errors_New {A} (text : string) : Errors.error + A := inl (errString text).

(** ** The client *)

Record Env (W : Type) := { world : W; process : Process }.
Arguments world {W} _.
Arguments process {W} _.

Record IntkeyClient (W : Type) := { url : string; signer : signing.Signer W }.
Arguments url {W} _.
Arguments signer {W} _.

Definition Sha512HashValue (value : string) : string :=
  ToLower (hex_EncodeToString (sha512.Sum value)).

Definition getPrefix : string :=
  slice_to FAMILY_NAMESPACE_ADDRESS_LENGTH (Sha512HashValue FAMILY_NAME).
Definition getAddress (name : string) : string :=
  let prefix := getPrefix in
  let nameAddress := slice_from FAMILY_VERB_ADDRESS_LENGTH (Sha512HashValue name) in
  prefix +:+ nameAddress.

Section client.
Context {W : Type} `{ClientWorld W, ClientCodec}.
Context `{signing.Btcec, !signing.Entropy W}.
Context `{Proto TransactionHeader, Proto BatchHeader, Proto BatchList}.
Abbreviation env := (Env W).

Definition on_world {A} : Go W A → Go env A :=
  zoom world (λ w e, {| world := w; process := process e |}).
Definition on_process {A} : Go Process A → Go env A :=
  zoom process (λ p e, {| world := world e; process := p |}).

Definition NewIntkeyClient (url keyfile : string) : Go env (Errors.error + IntkeyClient W) :=
  key ← (if decide (keyfile ≠ "") then
           r ← on_world (ReadFile keyfile);
           mret match r with
                | inl err => inl (errString ("Failed to read private key: " +:+ Errors.Error err))
                | inr privateKeyStr => inr (signing.NewSecp256k1PrivateKey privateKeyStr)
                end
         else
           key ← on_world signing.secp_NewRandomPrivateKey;
           mret (inr key));
  match key with
  | inl err => mret (inl err)
  | inr privateKey =>
      let cryptoFactory := signing.NewCryptoFactory signing.NewSecp256k1Context in
      mret (inr {| url := url; signer := signing.NewSigner cryptoFactory privateKey |})
  end.

(** A nil response cannot occur beside a nil error. *)
Definition sendRequest (self : IntkeyClient W) (apiSuffix : string) (data : bytes)
    (contentType name : string) : Go env (Errors.error + string) :=
  let url := if HasPrefix (url self) "http://" then url self +:+ "/" +:+ apiSuffix
             else "http://" +:+ url self +:+ "/" +:+ apiSuffix in
  r ← on_world (if decide (0 < len data)%nat then http_Post url contentType data else http_Get url);
  match r with
  | inl err => mret (errors_New ("Failed to connect to REST API: " +:+ Errors.Error err))
  | inr response =>
      if decide (StatusCode response = 404) then
        _ ← on_process (logging.Debug (Response_text response));
        mret (errors_New ("No such key: " +:+ name))
      else if 400 <=? StatusCode response then
        mret (errors_New ("Error " +:+ Itoa (StatusCode response) +:+ ": " +:+ Status response))
      else match Body response with
           | inl err => mret (errors_New ("Error reading response: " +:+ Errors.Error err))
           | inr reponseBody => mret (inr reponseBody)
           end
  end.

Definition createBatchList (self : IntkeyClient W) (transactions : list Transaction) :
    Go env (Errors.error + BatchList) :=
  let transactionSignatures := Transaction_HeaderSignature <$> transactions in
  pub ← on_world (signing.Signer_GetPublicKey (signer self));
  let rawBatchHeader := {|
    BatchHeader_SignerPublicKey := signing.pub_AsHex pub;
    BatchHeader_TransactionIds := transactionSignatures |} in
  match Marshal rawBatchHeader with
  | inl err => mret (errors_New ("Unable to serialize batch header: " +:+ Errors.Error err))
  | inr batchHeader =>
      sig ← on_world (signing.Signer_Sign (signer self) batchHeader);
      let batch := {|
        Batch_Header := batchHeader; Batch_HeaderSignature := hex_EncodeToString sig;
        Batch_Transactions := transactions; Batch_Trace := false |} in
      mret (inr {| BatchList_Batches := [batch] |})
  end.

(** The first part of [sendTransaction]: the id of the batch and the serialized
    list that is submitted. *)
Definition make_batch (self : IntkeyClient W) (verb name : string) (value : Z) :
    Go env (Errors.error + string * bytes) :=
  match Dumps_request verb name value with
  | inl err => mret (errors_New ("Failed to construct CBOR: " +:+ Errors.Error err))
  | inr payload =>
  let address := getAddress name in
  pub ← on_world (signing.Signer_GetPublicKey (signer self));
  nonce ← on_world rand_Int;
  pub' ← on_world (signing.Signer_GetPublicKey (signer self));
  let rawTransactionHeader := {|
    TransactionHeader_SignerPublicKey := signing.pub_AsHex pub;
    TransactionHeader_FamilyName := FAMILY_NAME;
    TransactionHeader_FamilyVersion := FAMILY_VERSION;
    TransactionHeader_Dependencies := [];
    TransactionHeader_Nonce := Itoa nonce;
    TransactionHeader_BatcherPublicKey := signing.pub_AsHex pub';
    TransactionHeader_Inputs := [address];
    TransactionHeader_Outputs := [address];
    TransactionHeader_PayloadSha512 := Sha512HashValue payload |} in
  match Marshal rawTransactionHeader with
  | inl err => mret (errors_New ("Unable to serialize transaction header: " +:+ Errors.Error err))
  | inr transactionHeader =>
  sig ← on_world (signing.Signer_Sign (signer self) transactionHeader);
  let transaction := {|
    Transaction_Header := transactionHeader;
    Transaction_HeaderSignature := hex_EncodeToString sig;
    Transaction_Payload := payload |} in
  rawBatchList ← createBatchList self [transaction];
  match rawBatchList with
  | inl err => mret (errors_New ("Unable to construct batch list: " +:+ Errors.Error err))
  | inr rawBatchList =>
  match BatchList_Batches rawBatchList with
  | [] => go_panic "index out of range"
  | batch :: _ =>
      match Marshal rawBatchList with
      | inl err => mret (errors_New ("Unable to serialize batch list: " +:+ Errors.Error err))
      | inr batchList => mret (inr (Batch_HeaderSignature batch, batchList))
      end
  end
  end
  end
  end.

(** The type assertions on the answer panic when it has another shape. *)
Definition getStatus (self : IntkeyClient W) (batchId : string) (wait : Z) :
    Go env (Errors.error + string) :=
  let apiSuffix := BATCH_STATUS_API +:+ "?id=" +:+ batchId +:+ "&wait=" +:+ Itoa wait in
  r ← sendRequest self apiSuffix "" "" "";
  match r with
  | inl err => mret (inl err)
  | inr response =>
      match yaml_Unmarshal response with
      | inl err => mret (errors_New ("Error reading response: " +:+ Errors.Error err))
      | inr responseMap =>
          match yaml_get responseMap "data" with
          | Some (YList (YMap entry :: _)) => mret (inr (Sprint (yaml_get entry "status")))
          | Some (YList []) => go_panic "index out of range"
          | _ => go_panic "interface conversion"
          end
      end
  end.

(** [t.Sub(u)]: a duration in nanoseconds, at most the largest [int64] and at least
    the smallest. *)
Definition Sub (t u : Z) : Z := Z.max (- 2^63) (Z.min (2^63 - 1) (t - u)).

(** [for waitTime < wait]: the time waited is a duration in nanoseconds, converted
    to [uint]; one unit of fuel per status request. *)
Fixpoint wait_loop (fuel : nat) (self : IntkeyClient W) (batchId : string)
    (startTime wait waitTime : Z) (response : string) : Go env (Errors.error + string) :=
  if wait <=? waitTime then mret (inr response)
  else match fuel with
  | O => λ e, (OutOfFuel, e)
  | S fuel =>
      r ← getStatus self batchId (wrap_u64 (wait - waitTime));
      match r with
      | inl err => mret (inl err)
      | inr status =>
          now ← on_world Now;
          let waitTime := wrap_u64 (Sub now startTime) in
          if decide (status ≠ "PENDING") then mret (inr response)
          else wait_loop fuel self batchId startTime wait waitTime response
      end
  end.

Definition sendTransaction (fuel : nat) (self : IntkeyClient W) (verb name : string)
    (value wait : Z) : Go env (Errors.error + string) :=
  r ← make_batch self verb name value;
  match r with
  | inl err => mret (inl err)
  | inr (batchId, batchList) =>
      if 0 <? wait then
        startTime ← on_world Now;
        r ← sendRequest self BATCH_SUBMIT_API batchList CONTENT_TYPE_OCTET_STREAM name;
        match r with
        | inl err => mret (inl err)
        | inr response => wait_loop fuel self batchId startTime wait 0 response
        end
      else sendRequest self BATCH_SUBMIT_API batchList CONTENT_TYPE_OCTET_STREAM name
  end.

Definition client_Set (fuel : nat) (self : IntkeyClient W) (name : string) (value wait : Z) :=
  sendTransaction fuel self VERB_SET name value wait.
Definition client_Inc (fuel : nat) (self : IntkeyClient W) (name : string) (value wait : Z) :=
  sendTransaction fuel self VERB_INC name value wait.
Definition client_Dec (fuel : nat) (self : IntkeyClient W) (name : string) (value wait : Z) :=
  sendTransaction fuel self VERB_DEC name value wait.

(** A library panic is not recovered from. *)
Definition lift_res {A} (r : Res A) : Go env A := λ e, (r, e).

Definition client_Show (self : IntkeyClient W) (name : string) : Go env (Errors.error + string) :=
  let apiSuffix := STATE_API +:+ "/" +:+ getAddress name in
  r ← sendRequest self apiSuffix "" "" name;
  match r with
  | inl err => mret (inl err)
  | inr response =>
  match yaml_Unmarshal response with
  | inl err => mret (errors_New ("Error reading response: %v" +:+ Errors.Error err))
  | inr responseMap =>
  match yaml_get responseMap "data" with
  | Some (YString data) =>
      match base64.DecodeString data with
      | inl err => mret (errors_New ("Error decoding response: %v" +:+ err))
      | inr responseData =>
          r ← lift_res (Loads_any responseData);
          match r with
          | inl err => mret (errors_New ("Error binary decoding: %v" +:+ Errors.Error err))
          | inr responseFinal => mret (inr (default "<nil>" (responseFinal !! name)))
          end
      end
  | _ => mret (errors_New "Error reading as string")
  end
  end
  end.

(** The loop over the entries of the answer. *)
Fixpoint list_entries (entries : list yaml) (toReturn : list (gmap string string)) :
    Go env (Errors.error + list (gmap string string)) :=
  match entries with
  | [] => mret (inr toReturn)
  | YMap entryData :: rest =>
      match yaml_get entryData "data" with
      | Some (YString stringData) =>
          match base64.DecodeString stringData with
          | inl err => mret (errors_New ("Error decoding: %v" +:+ err))
          | inr decodedBytes =>
              r ← lift_res (Loads_any decodedBytes);
              match r with
              | inl err => mret (errors_New ("Error binary decoding: %v" +:+ Errors.Error err))
              | inr foundMap => list_entries rest (toReturn ++ [foundMap])
              end
          end
      | _ => mret (errors_New "Error reading string data")
      end
  | _ => mret (errors_New "Error reading entry data")
  end.

Definition client_List (self : IntkeyClient W) : Go env (Errors.error + list (gmap string string)) :=
  let apiSuffix := STATE_API +:+ "?address=" +:+ getPrefix in
  r ← sendRequest self apiSuffix "" "" "";
  match r with
  | inl err => mret (inl err)
  | inr response =>
      match yaml_Unmarshal response with
      | inl err => mret (errors_New ("Error reading response: " +:+ Errors.Error err))
      | inr responseMap =>
          match yaml_get responseMap "data" with
          | Some (YList encodedEntries) => list_entries encodedEntries []
          | _ => go_panic "interface conversion"
          end
      end
  end.

(** ** Subcommands *)

(** The options and arguments of set, inc and dec, of show and of list. *)
Record ChangeArgs := {
  Args_Name : string; Args_Value : string; Url : string; Keyfile : string; Wait : Z }.
Definition Set_ : Type := ChangeArgs.
Definition Inc : Type := ChangeArgs.
Definition Dec : Type := ChangeArgs.
Record Show := { Show_Name : string; Show_Url : string }.
Record List_ := { List_Url : string }.

Inductive Command :=
| CmdSet (args : Set_)
| CmdInc (args : Inc)
| CmdDec (args : Dec)
| CmdShow (args : Show)
| CmdList (args : List_).

(** The methods of the five types, and the interface. *)
Definition Set_Name (args : Set_) : string := "set".
Definition Set_KeyfilePassed (args : Set_) : string := Keyfile args.
Definition Set_UrlPassed (args : Set_) : string := Url args.
Definition Inc_Name (args : Inc) : string := "inc".
Definition Inc_KeyfilePassed (args : Inc) : string := Keyfile args.
Definition Inc_UrlPassed (args : Inc) : string := Url args.
Definition Dec_Name (args : Dec) : string := "dec".
Definition Dec_KeyfilePassed (args : Dec) : string := Keyfile args.
Definition Dec_UrlPassed (args : Dec) : string := Url args.
Definition Show_CommandName (args : Show) : string := "show".
Definition Show_KeyfilePassed (args : Show) : string := "".
Definition Show_UrlPassed (args : Show) : string := Show_Url args.
Definition List_Name (args : List_) : string := "list".
Definition List_KeyfilePassed (args : List_) : string := "".
Definition List_UrlPassed (args : List_) : string := List_Url args.

Definition Name (c : Command) : string :=
  match c with
  | CmdSet a => Set_Name a | CmdInc a => Inc_Name a | CmdDec a => Dec_Name a
  | CmdShow a => Show_CommandName a | CmdList a => List_Name a
  end.
Definition KeyfilePassed (c : Command) : string :=
  match c with
  | CmdSet a => Set_KeyfilePassed a | CmdInc a => Inc_KeyfilePassed a
  | CmdDec a => Dec_KeyfilePassed a | CmdShow a => Show_KeyfilePassed a
  | CmdList a => List_KeyfilePassed a
  end.
Definition UrlPassed (c : Command) : string :=
  match c with
  | CmdSet a => Set_UrlPassed a | CmdInc a => Inc_UrlPassed a | CmdDec a => Dec_UrlPassed a
  | CmdShow a => Show_UrlPassed a | CmdList a => List_UrlPassed a
  end.

(** Registration with the option parser: [AddCommand name short long] is
    [parent.AddCommand] of go-flags, a parameter. *)
Section registration.
Context (AddCommand : string → string → string → option Errors.error).

Definition Set_Register (args : Set_) : option Errors.error :=
  AddCommand (Set_Name args) "Sets an intkey value"
    "Sends an intkey transaction to set <name> to <value>.".
Definition Inc_Register (args : Inc) : option Errors.error :=
  AddCommand (Inc_Name args) "Increments an intkey value"
    "Sends an intkey transaction to increment <name> by <value>.".
Definition Dec_Register (args : Dec) : option Errors.error :=
  AddCommand (Dec_Name args) "Decrements an intkey value"
    "Sends an intkey transaction to decrement <name> by <value>.".
Definition Show_Register (args : Show) : option Errors.error :=
  AddCommand (Show_CommandName args) "Displays the specified intkey value"
    "Shows the value of the key <name>.".
Definition List_Register (args : List_) : option Errors.error :=
  AddCommand (List_Name args) "Displays all intkey values"
    "Shows the values of all keys in intkey state.".

Definition Register (c : Command) : option Errors.error :=
  match c with
  | CmdSet a => Set_Register a | CmdInc a => Inc_Register a | CmdDec a => Dec_Register a
  | CmdShow a => Show_Register a | CmdList a => List_Register a
  end.

(** The loop of [main] stops at the first command the parser does not take. *)
Fixpoint register_commands (cmds : list Command) : option (string * Errors.error) :=
  match cmds with
  | [] => None
  | cmd :: cmds =>
      match Register cmd with
      | Some err => Some (Name cmd, err)
      | None => register_commands cmds
      end
  end.
End registration.

(** [path.Join] of non-empty parts: joined with slashes and cleaned. *)
Fixpoint clean_parts (rooted : bool) (parts : list string) (stack : list string) : list string :=
  match parts with
  | [] => stack
  | p :: parts =>
      if decide (p = "" ∨ p = ".") then clean_parts rooted parts stack
      else if decide (p = "..") then
        match last stack with
        | Some top => if decide (top = "..") then clean_parts rooted parts (stack ++ [".."])
                      else clean_parts rooted parts (removelast stack)
        | None => clean_parts rooted parts (if rooted then [] else [".."])
        end
      else clean_parts rooted parts (stack ++ [p])
  end.
Definition path_Clean (p : string) : string :=
  if decide (p = "") then "." else
  let rooted := HasPrefix p "/" in
  let parts := clean_parts rooted (Split "/" p) [] in
  if rooted then "/" +:+ Join "/" parts
  else if decide (parts = []) then "." else Join "/" parts.
Definition path_Join (elem : list string) : string :=
  let parts := filter (λ s, s ≠ "") elem in
  if decide (parts = []) then "" else path_Clean (Join "/" parts).

Definition GetKeyfile (keyfile : string) : Go env (Errors.error + string) :=
  if decide (keyfile = "") then
    r ← on_world user_Current;
    match r with
    | inl err => mret (inl err)
    | inr (HomeDir, Username) =>
        mret (inr (path_Join [HomeDir; ".sawtooth"; "keys"; Username +:+ ".priv"]))
    end
  else mret (inr keyfile).

Definition GetClient (args : Command) (readFile : bool) :
    Go env (Errors.error + IntkeyClient W) :=
  let url := if decide (UrlPassed args = "") then DEFAULT_URL else UrlPassed args in
  keyfile ← (if readFile then GetKeyfile (KeyfilePassed args) else mret (inr ""));
  match keyfile with
  | inl err => mret (inl err)
  | inr keyfile => NewIntkeyClient url keyfile
  end.

(** The value of set, inc and dec is converted to [uint]. *)
Definition Set_Run (fuel : nat) (args : Set_) : Go env (option Errors.error) :=
  let name := Args_Name args in
  match Atoi (Args_Value args) with
  | None => mret (Some (errString (Atoi_text (Args_Value args))))
  | Some value =>
      let wait := Wait args in
      intkeyClient ← GetClient (CmdSet args) true;
      match intkeyClient with
      | inl err => mret (Some err)
      | inr intkeyClient =>
          r ← client_Set fuel intkeyClient name (wrap_u64 value) wait;
          mret match r with inl err => Some err | inr _ => None end
      end
  end.

Definition Inc_Run (fuel : nat) (args : Inc) : Go env (option Errors.error) :=
  let name := Args_Name args in
  match Atoi (Args_Value args) with
  | None => mret (Some (errString (Atoi_text (Args_Value args))))
  | Some value =>
      let wait := Wait args in
      intkeyClient ← GetClient (CmdInc args) true;
      match intkeyClient with
      | inl err => mret (Some err)
      | inr intkeyClient =>
          r ← client_Inc fuel intkeyClient name (wrap_u64 value) wait;
          mret match r with inl err => Some err | inr _ => None end
      end
  end.

Definition Dec_Run (fuel : nat) (args : Dec) : Go env (option Errors.error) :=
  let name := Args_Name args in
  match Atoi (Args_Value args) with
  | None => mret (Some (errString (Atoi_text (Args_Value args))))
  | Some value =>
      let wait := Wait args in
      intkeyClient ← GetClient (CmdDec args) true;
      match intkeyClient with
      | inl err => mret (Some err)
      | inr intkeyClient =>
          r ← client_Dec fuel intkeyClient name (wrap_u64 value) wait;
          mret match r with inl err => Some err | inr _ => None end
      end
  end.

Definition Println (line : string) : Go env unit :=
  on_process (print Stdout (line +:+ String "010" "")).

Definition Show_Run (args : Show) : Go env (option Errors.error) :=
  let name := Show_Name args in
  intkeyClient ← GetClient (CmdShow args) false;
  match intkeyClient with
  | inl err => mret (Some err)
  | inr intkeyClient =>
      value ← client_Show intkeyClient name;
      match value with
      | inl err => mret (Some err)
      | inr value => _ ← Println (name +:+ " :  " +:+ value); mret None
      end
  end.

Section list.
Context `{GoRuntime}.

Fixpoint print_pairs (pairs : list (gmap string string)) : Go env unit :=
  match pairs with
  | [] => mret tt
  | found :: pairs =>
      _ ← foldl (λ acc kv, _ ← acc; Println (kv.1 +:+ " :  " +:+ kv.2)) (mret tt) (range found);
      print_pairs pairs
  end.

Definition List_Run (args : List_) : Go env (option Errors.error) :=
  intkeyClient ← GetClient (CmdList args) false;
  match intkeyClient with
  | inl err => mret (Some err)
  | inr intkeyClient =>
      pairs ← client_List intkeyClient;
      match pairs with
      | inl err => mret (Some err)
      | inr pairs => _ ← print_pairs pairs; mret None
      end
  end.

Definition Run (fuel : nat) (c : Command) : Go env (option Errors.error) :=
  match c with
  | CmdSet a => Set_Run fuel a
  | CmdInc a => Inc_Run fuel a
  | CmdDec a => Dec_Run fuel a
  | CmdShow a => Show_Run a
  | CmdList a => List_Run a
  end.

(** ** The program *)

(** What the parser leaves: the number of verbose flags, the subcommand that was
    given, and the fields of the five subcommands, which are empty before. *)
Record ClientOpts := {
  cl_Verbose : nat; Active : option string;
  cl_Set : Set_; cl_Inc : Inc; cl_Dec : Dec; cl_Show : Show; cl_List : List_ }.
Definition no_change : ChangeArgs :=
  {| Args_Name := ""; Args_Value := ""; Url := ""; Keyfile := ""; Wait := 0 |}.
Definition no_opts : ClientOpts := {|
  cl_Verbose := 0; Active := None; cl_Set := no_change; cl_Inc := no_change;
  cl_Dec := no_change; cl_Show := {| Show_Name := ""; Show_Url := "" |};
  cl_List := {| List_Url := "" |} |}.
Definition commands (opts : ClientOpts) : list Command :=
  [CmdSet (cl_Set opts); CmdInc (cl_Inc opts); CmdDec (cl_Dec opts); CmdShow (cl_Show opts);
   CmdList (cl_List opts)].

Fixpoint run_active (fuel : nat) (name : string) (cmds : list Command) : Go env ending :=
  match cmds with
  | [] => _ ← Println ("Error: Command not found:  " +:+ name); mret Returned
  | cmd :: cmds =>
      if decide (Name cmd = name) then
        err ← Run fuel cmd;
        match err with
        | Some err => _ ← Println ("Error:  " +:+ Errors.Error err); mret (Exit 1)
        | None => mret Returned
        end
      else run_active fuel name cmds
  end.

Definition main (fuel : nat) (version : string) (arguments : list string)
    (AddCommand : string → string → string → option Errors.error)
    (parsed : parse ClientOpts) : Go env ending :=
  _ ← on_process Get;
  if decide ("-V" ∈ arguments ∨ "--version" ∈ arguments) then
    _ ← Println (DISTRIBUTION_NAME +:+ " (Hyperledger Sawtooth) version "
                 +:+ (if decide (version = "") then "Unknown" else version));
    mret (Exit 0)
  else match register_commands AddCommand (commands no_opts) with
  | Some (name, err) =>
      _ ← on_process (logging.Error ("Couldn't register command " +:+ name +:+ ": "
                                     +:+ Errors.Error err));
      mret (Exit 1)
  | None =>
  match parsed with
  | ParseHelp => mret Returned
  | ParseError _ => mret (Exit 1)
  | Parsed opts remaining =>
      if decide (remaining ≠ []) then
        _ ← Println ("Error: Unrecognized arguments passed:  " +:+ fmt_strings remaining);
        mret (Exit 2)
      else
        _ ← on_process (SetLevel (verbosity (cl_Verbose opts)));
        match Active opts with
        | None => mret (Exit 2)
        | Some name => run_active fuel name (commands opts)
        end
  end
  end.
End list.
End client.
End client.
