(* ===== verification/IntkeyEndToEnd.v ===== *)
(** * The intkey client and the intkey handler together

    What the client of [IntkeyClient] builds is what the validator takes and the
    handler of [Intkey] executes: the batch verifies, the transaction in it is
    routed to the handler, declares the address the handler uses, and has the
    effect the user asked for.  What the client shows is what the handler stored.
    Waiting for a batch ends.  The validator and its REST API are represented by
    what they do with a batch ([valid_batch], [requests_of]) and by the state they
    serve ([answers_state], [answers_list]). *)

From S2P Require Import Prelude GoLib Sha512 Errors Protobuf Messaging Answering ProcContext Worker Validator Intkey Processor Signing Logging Entry Base64 IntkeyClient.

Module end_to_end.
Import client.
Local Open Scope Z_scope.

(** ** The validator's side *)

Section validator.
Context {W : Type} `{signing.Btcec, !signing.Entropy W}.
Context `{Proto TransactionHeader, Proto BatchHeader, Proto BatchList}.

(** A signature and a public key in hexadecimal, checked as the SDK checks them. *)
Definition signed_by (pub sig : string) (message : bytes) : Prop :=
  ∃ key s, hex_DecodeString pub = (key, None) ∧ hex_DecodeString sig = (s, None) ∧
    ∀ w : W, signing.Verify signing.NewSecp256k1Context s message
      (signing.NewSecp256k1PublicKey key) w = (Ret true, w).

(** The rules for a transaction in a batch, and for the batch. *)
Record valid_transaction (batcher : string) (t : Transaction) (th : TransactionHeader) : Prop := {
  vt_header : Unmarshal (Transaction_Header t) = (th, None);
  vt_signed : signed_by (TransactionHeader_SignerPublicKey th) (Transaction_HeaderSignature t)
                (Transaction_Header t);
  vt_payload : TransactionHeader_PayloadSha512 th = hexdigest (Transaction_Payload t);
  vt_batcher : TransactionHeader_BatcherPublicKey th = batcher }.

Definition valid_batch (b : Batch) (ths : list TransactionHeader) : Prop :=
  ∃ bh, Unmarshal (Batch_Header b) = (bh, None) ∧
    signed_by (BatchHeader_SignerPublicKey bh) (Batch_HeaderSignature b) (Batch_Header b) ∧
    BatchHeader_TransactionIds bh = Transaction_HeaderSignature <$> Batch_Transactions b ∧
    Forall2 (valid_transaction (BatchHeader_SignerPublicKey bh)) (Batch_Transactions b) ths.

(** The requests a transaction processor gets for a submitted list. *)
Definition request_of (contextId : string) (t : Transaction) : TpProcessRequest := {|
  TpProcessRequest_Header := Some (Unmarshal (Transaction_Header t)).1;
  TpProcessRequest_Payload := Some (Transaction_Payload t);
  TpProcessRequest_Signature := Transaction_HeaderSignature t;
  TpProcessRequest_ContextId := contextId |}.
Definition requests_of (contextId : string) (data : bytes) : list TpProcessRequest :=
  b ← BatchList_Batches (Unmarshal data).1;
  request_of contextId <$> Batch_Transactions b.
End validator.

(** ** Addresses *)

(** The handler the intkey program registers. *)
Definition registered : intkey.IntkeyHandler :=
  intkey.NewIntkeyHandler (slice_to 6 (hexdigest "intkey")).

Lemma getAddress_handler name : getAddress name = intkey.make_address registered name.
Proof.
  unfold intkey.make_address, registered. rewrite hexdigest_len. cbn [intkey.namespace Nat.sub].
  unfold getAddress, getPrefix, Sha512HashValue, FAMILY_NAME, FAMILY_NAMESPACE_ADDRESS_LENGTH,
    FAMILY_VERB_ADDRESS_LENGTH, hexdigest, intkey.NewIntkeyHandler. cbv beta zeta.
  cbn [intkey.namespace]. reflexivity.
Qed.

Lemma registered_handlers {C} `{Connection C, ContextProtos, GoRuntime, intkey.Cbor}
    gomaxprocs opts :
  handlers (entry.intkey_processor gomaxprocs opts : TransactionProcessor C)
    = [intkey.handler registered].
Proof. unfold entry.intkey_processor, entry.with_threads. destruct (0 <? _); reflexivity. Qed.

(** What the two CBOR libraries of the client and the handler promise to each other. *)
Class CodecLaws `{ClientCodec, intkey.Cbor} : Prop := {
  Dumps_request_total verb name value : ∃ d, Dumps_request verb name value = inr d;
  Loads_Dumps_request verb name value d :
    is_i64 value → Dumps_request verb name value = inr d →
    intkey.Loads_payload d =
      ({| intkey.Verb := verb; intkey.Name := name; intkey.Value := value |}, Ret None);
  Loads_any_map m d : intkey.Dumps_map m = inr d → Loads_any d = Ret (inr (Itoa <$> m)) }.

(** ** Building a batch *)

Section batch.
Context {W : Type} `{ClientWorld W, ClientCodec}.
Context `{signing.Btcec, !signing.BtcecLaws, !signing.Entropy W}.
Context `{Proto TransactionHeader, Proto BatchHeader, Proto BatchList}.
Context `{!ProtoLaws TransactionHeader, !ProtoTotal TransactionHeader}.
Context `{!ProtoLaws BatchHeader, !ProtoTotal BatchHeader}.
Context `{!ProtoLaws BatchList, !ProtoTotal BatchList}.
Implicit Types e : Env W.

(** A client with a key, as [NewIntkeyClient] makes it. *)
Definition client_with (u key : string) : IntkeyClient W := {|
  url := u;
  signer := signing.NewSigner (signing.NewCryptoFactory signing.NewSecp256k1Context)
              (signing.NewSecp256k1PrivateKey key) |}.

(** The key is one, and the curve signs every hash with it. *)
Definition can_sign (key : string) : Prop :=
  signing.usable key ∧ ∀ hash, ∃ sig, signing.ec_Sign (signing.PrivKeyFromBytes key).1 hash = inr sig.

Definition public_hex (key : string) : string :=
  hex_EncodeToString (signing.SerializeCompressed (signing.PrivKeyFromBytes key).2).

Lemma on_world_Ret {A} (m : Go W A) e a w :
  m (world e) = (Ret a, w) → on_world m e = (Ret a, {| world := w; process := process e |}).
Proof. intros E. unfold on_world, zoom. by rewrite E. Qed.

Lemma on_world_same {A} (m : Go W A) e a :
  m (world e) = (Ret a, world e) → on_world m e = (Ret a, e).
Proof. intros E. rewrite (on_world_Ret _ _ _ _ E). by destruct e. Qed.

Lemma GetPublicKey_client u key e :
  on_world (signing.Signer_GetPublicKey (signer (client_with u key))) e =
    (Ret (signing.NewSecp256k1PublicKey
       (signing.SerializeCompressed (signing.PrivKeyFromBytes key).2)), e).
Proof. apply on_world_same, signing.Signer_GetPublicKey_key. Qed.

Lemma Sign_client u key message e :
  can_sign key →
  ∃ b, on_world (signing.Signer_Sign (signer (client_with u key)) message) e = (Ret b, e) ∧
    signed_by (W:=W) (public_hex key) (hex_EncodeToString b) message.
Proof.
  intros [Hu Hk]. destruct (Hk (signing.doSHA256 message)) as [sig Hsig].
  destruct (signing.Signer_Sign_verifies key message sig (world e) Hu Hsig) as (b & E & _ & Hv).
  exists b. split; [by apply on_world_same|].
  exists (signing.SerializeCompressed (signing.PrivKeyFromBytes key).2), b.
  split_and!; [apply hex_roundtrip..|done].
Qed.

(** The batch list made of one valid transaction. *)
Lemma createBatchList_valid u key t th e :
  can_sign key → valid_transaction (W:=W) (public_hex key) t th →
  ∃ b, createBatchList (client_with u key) [t] e
      = (Ret (inr {| BatchList_Batches := [b] |}), e) ∧
    valid_batch (W:=W) b [th] ∧ Batch_Transactions b = [t].
Proof.
  intros Hk Ht. unfold createBatchList.
  rewrite (go_bind_Ret _ _ _ _ _ (GetPublicKey_client u key e)).
  cbn [fmap list_fmap].
  match goal with |- context [Marshal ?h] => destruct (Marshal_total h) as [hb Hh] end.
  rewrite Hh. destruct (Sign_client u key hb e Hk) as (s & E & Hs).
  rewrite (go_bind_Ret _ _ _ _ _ E). eexists. split; [reflexivity|]. split; [|done].
  eexists. split; [exact (Unmarshal_Marshal _ _ Hh)|]. split; [exact Hs|]. split; [done|].
  constructor; [exact Ht|constructor].
Qed.

(** What [make_batch] returns: an id and a list that parses to one valid batch of
    one transaction, whose header is the client's. *)
Lemma make_batch_valid u key verb name value payload e :
  can_sign key → Dumps_request verb name value = inr payload →
  (∀ w : W, ∃ n w', rand_Int w = (Ret n, w')) →
  ∃ data b t th e',
    make_batch (client_with u key) verb name value e
      = (Ret (inr (Batch_HeaderSignature b, data)), e') ∧ process e' = process e ∧
    Unmarshal data = ({| BatchList_Batches := [b] |}, None) ∧
    valid_batch (W:=W) b [th] ∧ Batch_Transactions b = [t] ∧
    Transaction_Payload t = payload ∧ Unmarshal (Transaction_Header t) = (th, None) ∧
    TransactionHeader_FamilyName th = "intkey" ∧ TransactionHeader_FamilyVersion th = "1.0" ∧
    TransactionHeader_Inputs th = [getAddress name] ∧
    TransactionHeader_Outputs th = [getAddress name].
Proof.
  intros Hk Hp Hr. unfold make_batch. rewrite Hp.
  rewrite (go_bind_Ret _ _ _ _ _ (GetPublicKey_client u key e)).
  destruct (Hr (world e)) as (n & w & Er). apply on_world_Ret in Er.
  rewrite (go_bind_Ret _ _ _ _ _ Er). set (e1 := {| world := w; process := process e |}).
  rewrite (go_bind_Ret _ _ _ _ _ (GetPublicKey_client u key e1)).
  match goal with |- context [Marshal ?h] => set (th := h) end.
  destruct (Marshal_total th) as [hb Hh]. rewrite Hh.
  destruct (Sign_client u key hb e1 Hk) as (s & E & Hs). rewrite (go_bind_Ret _ _ _ _ _ E).
  match goal with |- context [createBatchList _ [?tx]] => set (t := tx) end.
  assert (Ht : valid_transaction (W:=W) (public_hex key) t th).
  { split; [exact (Unmarshal_Marshal _ _ Hh)|exact Hs|done|done]. }
  destruct (createBatchList_valid u key t th e1 Hk Ht) as (b & Eb & Hb & Hbt).
  rewrite (go_bind_Ret _ _ _ _ _ Eb). cbn [BatchList_Batches].
  destruct (Marshal_total {| BatchList_Batches := [b] |}) as [data Hd]. rewrite Hd.
  exists data, b, t, th, e1. split_and!; try done; [by apply Unmarshal_Marshal|].
  exact (Unmarshal_Marshal _ _ Hh).
Qed.
End batch.

(** ** From the client to the state *)

Section execution.
Context {W : Type} `{ClientWorld W, ClientCodec}.
Context `{signing.Btcec, !signing.BtcecLaws, !signing.Entropy W}.
Context `{Proto TransactionHeader, Proto BatchHeader, Proto BatchList}.
Context `{!ProtoLaws TransactionHeader, !ProtoTotal TransactionHeader}.
Context `{!ProtoLaws BatchHeader, !ProtoTotal BatchHeader}.
Context `{!ProtoLaws BatchList, !ProtoTotal BatchList}.
Context {C : Type} `{Connection C, ContextProtos, GoRuntime, !StateBacked C}.
Context `{intkey.Cbor, !intkey.CborLaws, !CodecLaws}.

(** The effect a request of the client asks for, on a validator's state. *)
Definition executes (hd : TransactionHandler C) (req : TpProcessRequest)
    (verb name : string) (value : Z) (c : C) : Prop :=
  ∀ m, intkey.stored_map (vstate c) (getAddress name) = (Some m, None) →
    map_Forall (λ _, intkey.in_range) m →
    (∃ new c', intkey.accepts m verb name value new ∧
       Apply hd req (NewContext (TpProcessRequest_ContextId req)) c = (Ret None, c') ∧
       ∀ other, intkey.value_of registered (vstate c') other =
         if decide (other = name) then Some new
         else intkey.value_of registered (vstate c) other) ∨
    ((∀ new, ¬ intkey.accepts m verb name value new) ∧
     ∃ msg c', Apply hd req (NewContext (TpProcessRequest_ContextId req)) c
         = (Ret (Some (invalidTransaction msg)), c') ∧ vstate c' = vstate c).

(** C10. From the command line to the state: for every key, name and value within the
    family's limits, the client submits a list the validator takes (it parses to one
    batch, signed, of one transaction, signed, with the hash of its payload); the
    one request made from it is served by the handler of the intkey program; its
    declared addresses are enough for the handler; and the handler then does what
    was asked for: it sets, increments or decrements the name where the family
    allows that, and refuses the transaction where not. *)
Theorem client_request_executed u key verb name value (e : Env W)
    gomaxprocs opts contextId (c : C) :
  can_sign key → (∀ w : W, ∃ n w', rand_Int w = (Ret n, w')) →
  verb ∈ [VERB_SET; VERB_INC; VERB_DEC] →
  (len name ≤ intkey.MAX_NAME_LENGTH)%nat → intkey.in_range value →
  ∃ data b th req e',
    make_batch (client_with u key) verb name value e
      = (Ret (inr (Batch_HeaderSignature b, data)), e') ∧
    Unmarshal data = ({| BatchList_Batches := [b] |}, None) ∧ valid_batch (W:=W) b [th] ∧
    requests_of contextId data = [req] ∧ TpProcessRequest_Header req = Some th ∧
    ∃ hd, findHandler (handlers (entry.intkey_processor gomaxprocs opts)) (Some th) = inr hd ∧
      (vok (NewContext (TpProcessRequest_ContextId req)) c →
       forallb (readable (C:=C)) (TransactionHeader_Inputs th) = true →
       forallb (writable (C:=C)) (TransactionHeader_Outputs th) = true →
       executes hd req verb name value c).
Proof.
  intros Hk Hr Hverb Hname Hvalue. destruct (Dumps_request_total verb name value) as [payload Hp].
  destruct (make_batch_valid u key verb name value payload e Hk Hp Hr) as
    (data & b & t & th & e' & E & _ & Hdata & Hb & Hbt & Ht & Hth & Hf & Hv & Hin & Hout).
  exists data, b, th, (request_of contextId t), e'. do 3 (split; [done|]).
  split; [unfold requests_of; rewrite Hdata; cbn; by rewrite Hbt|].
  split; [unfold request_of; cbn; by rewrite Hth|]. rewrite registered_handlers.
  exists (intkey.handler registered).
  split; [simpl; rewrite Hf, Hv; reflexivity|].
  rewrite Hin, Hout. cbn [forallb]. rewrite !andb_true_r, getAddress_handler.
  intros Hc Hrd Hwr m. rewrite getAddress_handler. intros Hm Hrange.
  apply (intkey.transaction_effect registered _ _ c payload
    {| intkey.Verb := verb; intkey.Name := name; intkey.Value := value |} m); try done.
  - by rewrite <-Ht.
  - assert (Hi : is_i64 value) by (revert Hvalue; unfold intkey.in_range, intkey.MIN_VALUE,
      intkey.MAX_VALUE, is_i64; lia).
    by rewrite (Loads_Dumps_request _ _ _ _ Hi Hp).
Qed.
End execution.

(** ** Reading the state back *)

Lemma Dumps_map_inj `{intkey.Cbor, !intkey.CborLaws} m m' d :
  intkey.Dumps_map m = inr d → intkey.Dumps_map m' = inr d → m = m'.
Proof.
  intros E1%intkey.Loads_Dumps E2%intkey.Loads_Dumps. rewrite E1 in E2. by injection E2.
Qed.

Section reading.
Context {W : Type} `{ClientWorld W, ClientCodec}.
Context `{intkey.Cbor, !intkey.CborLaws, !CodecLaws}.
Implicit Types (e : Env W) (self : IntkeyClient W) (st : gmap string bytes).

Definition request_url self (apiSuffix : string) : string :=
  if HasPrefix (url self) "http://" then url self +:+ "/" +:+ apiSuffix
  else "http://" +:+ url self +:+ "/" +:+ apiSuffix.

(** A successful answer with a body. *)
Definition ok_response (r : Response) (body : string) : Prop :=
  StatusCode r = 200 ∧ Body r = inr body.

(** Every entry of a store was written by the handler. *)
Definition written st : Prop := map_Forall (λ _ d, ∃ m, intkey.Dumps_map m = inr d) st.

(** The REST API serves the entries of a store, in base64, and 404 for the rest. *)
Definition answers_state self st (w : W) : Prop :=
  ∀ address, ∃ r w', http_Get (request_url self (STATE_API +:+ "/" +:+ address)) w
      = (Ret (inr r), w') ∧
    match st !! address with
    | Some d => ∃ body ym, ok_response r body ∧ yaml_Unmarshal body = inr ym ∧
        yaml_get ym "data" = Some (YString (base64.EncodeToString d))
    | None => StatusCode r = 404
    end.

(** The entries under the namespace, in some order, as a list of maps. *)
Definition entry_yaml (p : string * bytes) : yaml :=
  YMap [("address", YString p.1); ("data", YString (base64.EncodeToString p.2))].
Definition answers_list self st (w : W) : Prop :=
  ∃ r w' body ym l,
    http_Get (request_url self (STATE_API +:+ "?address=" +:+ getPrefix)) w = (Ret (inr r), w') ∧
    ok_response r body ∧ yaml_Unmarshal body = inr ym ∧
    yaml_get ym "data" = Some (YList (entry_yaml <$> l)) ∧
    l ≡ₚ map_to_list (filter (λ p, HasPrefix p.1 getPrefix) st).

Lemma sendRequest_get self suffix name e r w' :
  http_Get (request_url self suffix) (world e) = (Ret (inr r), w') →
  (∀ body, ok_response r body →
     sendRequest self suffix "" "" name e
       = (Ret (inr body), {| world := w'; process := process e |})) ∧
  (StatusCode r = 404 → is_Some (logging._LOGGER (process e)) →
     ∃ e', sendRequest self suffix "" "" name e
       = (Ret (inl (errString ("No such key: " +:+ name))), e')).
Proof.
  intros E. unfold sendRequest.
  match goal with |- context [on_world ?m] => assert (E1 : on_world m e =
    (Ret (inr r), {| world := w'; process := process e |})) end.
  { unfold on_world, zoom. rewrite decide_False by (simpl; lia).
    fold (request_url self suffix). by rewrite E. }
  rewrite (go_bind_Ret _ _ _ _ _ E1). split.
  - intros body [-> ->]. done.
  - intros -> [lg Hl]. rewrite decide_True by done. eexists.
    erewrite go_bind_Ret; [reflexivity|]. unfold on_process, zoom, logging.Debug. cbn [process].
    by rewrite (logging.log_at _ _ _ _ _ Hl).
Qed.

Lemma decode_entry d m :
  intkey.Dumps_map m = inr d →
  base64.DecodeString (base64.EncodeToString d) = inr d ∧ Loads_any d = Ret (inr (Itoa <$> m)).
Proof. intros Hd. split; [apply base64.DecodeString_Encode|by apply Loads_any_map]. Qed.

Lemma value_of_entry st name d m :
  st !! getAddress name = Some d → intkey.Dumps_map m = inr d →
  intkey.value_of registered st name = m !! name.
Proof.
  intros Hst Hd. unfold intkey.value_of, intkey.stored_map.
  rewrite <-getAddress_handler, Hst, decide_False by (by eapply intkey.Dumps_ne).
  by rewrite (intkey.Loads_Dumps _ _ Hd).
Qed.

(** Showing a name of a store the handler wrote. *)
Lemma show_written self st name e :
  answers_state self st (world e) → written st → is_Some (logging._LOGGER (process e)) →
  ∃ e', client_Show self name e =
    (Ret match st !! getAddress name with
         | None => inl (errString ("No such key: " +:+ name))
         | Some _ => inr (from_option Itoa "<nil>" (intkey.value_of registered st name))
         end, e').
Proof.
  intros Hans Hw Hl. destruct (Hans (getAddress name)) as (r & w' & E & Hr).
  destruct (sendRequest_get self _ name e r w' E) as [Hok Hno]. unfold client_Show.
  destruct (st !! getAddress name) as [d|] eqn:Hst.
  - destruct Hr as (body & ym & Hr & Hy & Hdata). destruct (Hw _ _ Hst) as [m Hm].
    rewrite (go_bind_Ret _ _ _ _ _ (Hok _ Hr)), Hy, Hdata.
    destruct (decode_entry d m Hm) as [-> Hload]. eexists.
    erewrite go_bind_Ret; [|unfold lift_res; by rewrite Hload].
    rewrite (value_of_entry st name d m Hst Hm), lookup_fmap.
    by destruct (m !! name).
  - destruct (Hno Hr Hl) as [e' E']. exists e'. by rewrite (go_bind_Ret _ _ _ _ _ E').
Qed.

Lemma list_entries_maps (l : list (string * bytes)) acc e :
  Forall (λ p, ∃ m, intkey.Dumps_map m = inr p.2) l →
  ∃ ms, Forall2 (λ p m, intkey.Dumps_map m = inr p.2) l ms ∧
    list_entries (entry_yaml <$> l) acc e =
      (Ret (inr (acc ++ ((λ m : gmap string Z, Itoa <$> m) <$> ms))), e).
Proof.
  intros Hl. revert acc. induction Hl as [|p l [m Hm] Hl IH]; intros acc.
  { exists []. rewrite app_nil_r. by split. }
  destruct (IH (acc ++ [Itoa <$> m])) as (ms & Hms & E). exists (m :: ms).
  split; [by constructor|]. rewrite fmap_cons. cbn [entry_yaml list_entries yaml_get].
  rewrite decide_False, decide_True by done. cbn [fst snd].
  destruct (decode_entry p.2 m Hm) as [-> Hload].
  erewrite go_bind_Ret; [|unfold lift_res; by rewrite Hload].
  cbv iota. rewrite E. by rewrite <-app_assoc.
Qed.

(** Every name in an entry belongs at the entry's address. *)
Definition placed st : Prop :=
  ∀ address d m name, st !! address = Some d → intkey.Dumps_map m = inr d →
    is_Some (m !! name) → address = getAddress name.

Lemma getAddress_prefix name : HasPrefix (getAddress name) getPrefix = true.
Proof. apply intkey.prefix_app. Qed.

(** Listing a store the handler wrote. *)
Lemma list_written self st e :
  answers_list self st (world e) → written st → placed st →
  ∃ maps e', client_List self e = (Ret (inr maps), e') ∧
    ∀ name v, (∃ found, found ∈ maps ∧ found !! name = Some v) ↔
      ∃ z, intkey.value_of registered st name = Some z ∧ v = Itoa z.
Proof.
  intros (r & w' & body & ym & l & E & Hr & Hy & Hdata & Hl) Hw Hp.
  assert (Hin : ∀ a d, (a, d) ∈ l ↔ HasPrefix a getPrefix = true ∧ st !! a = Some d).
  { intros a d. rewrite Hl, elem_of_map_to_list, map_lookup_filter_Some. simpl.
    rewrite Is_true_true. tauto. }
  destruct (list_entries_maps l [] {| world := w'; process := process e |}) as (ms & Hms & El).
  { apply list.Forall_forall. intros [a d] [_ Hst]%Hin. exact (Hw _ _ Hst). }
  unfold client_List. destruct (sendRequest_get self _ "" e r w' E) as [Hok _].
  rewrite (go_bind_Ret _ _ _ _ _ (Hok _ Hr)), Hy, Hdata, El.
  eexists _, _. split; [reflexivity|]. intros name v. simpl. split.
  - intros (found & (m & -> & Hm)%list_elem_of_fmap & Hv).
    rewrite lookup_fmap in Hv. destruct (m !! name) as [z|] eqn:Hz; [|done].
    injection Hv as <-. exists z. split; [|done].
    destruct (Forall2_elem_r _ _ _ _ Hms Hm) as ([a d] & [_ Hst]%Hin & Hd).
    pose proof (Hp _ _ _ _ Hst Hd ltac:(eauto)) as ->.
    by rewrite (value_of_entry st name d m Hst Hd).
  - intros (z & Hz & ->). destruct (st !! getAddress name) as [d|] eqn:Hst.
    + destruct (Hw _ _ Hst) as [m Hm]. rewrite (value_of_entry st name d m Hst Hm) in Hz.
      destruct (Forall2_elem_l _ _ _ _ Hms (proj2 (Hin _ _) (conj (getAddress_prefix name) Hst)))
        as (m' & Hm' & Hd').
      assert (m' = m) as ->.
      { exact (Dumps_map_inj _ _ _ Hd' Hm). }
      exists (Itoa <$> m). split; [by apply list_elem_of_fmap_2|]. by rewrite lookup_fmap, Hz.
    + exfalso. revert Hz. unfold intkey.value_of, intkey.stored_map.
      by rewrite <-getAddress_handler, Hst, lookup_empty.
Qed.
End reading.

(** ** The stores of the family *)

Section stores.
Context {C : Type} `{Connection C, ContextProtos, GoRuntime, !StateBacked C}.
Context `{intkey.Cbor, !intkey.CborLaws}.
Implicit Types st : gmap string bytes.

(** A store that intkey transactions, accepted or not, made from the empty one. *)
Definition transacts st st' : Prop :=
  ∃ (c : C) req ctx, vok ctx c ∧ vstate c = st ∧
    vstate (intkey.Apply registered req ctx c).2 = st'.
Definition reachable st : Prop := rtc transacts ∅ st.

Lemma transacts_written st st' :
  transacts st st' → written st → placed st → written st' ∧ placed st'.
Proof.
  intros (c & req & ctx & Hc & <- & <-) Hw Hp.
  destruct (intkey.Apply_transition registered req ctx c Hc) as (c' & _ & Hst & ->).
  cbn [snd]. rewrite Hst.
  destruct (intkey.transition_cases (C:=C) registered (TpProcessRequest_Payload req) (vstate c))
    as [[-> _]|(d & p & m & new & data & _ & _ & _ & Hm & _ & Hd & ->)]; [done|].
  cbn [snd]. split; [apply map_Forall_insert_intro; eauto|].
  intros address d' m' name Hst' Hm' Hn.
  destruct (decide (intkey.make_address registered (intkey.Name p) = address)) as [<-|Hne];
    [|rewrite lookup_insert_ne in Hst' by done; by eapply Hp].
  rewrite lookup_insert_eq in Hst'. injection Hst' as <-.
  pose proof (Dumps_map_inj _ _ _ Hm' Hd) as ->. rewrite <-getAddress_handler.
  destruct (decide (intkey.Name p = name)) as [->|Hne]; [done|].
  rewrite lookup_insert_ne in Hn by done. revert Hm. unfold intkey.stored_map.
  rewrite <-getAddress_handler. destruct (vstate c !! _) as [d0|] eqn:Hst0.
  - destruct (Hw _ _ Hst0) as [m0 Hm0]. rewrite decide_False by (by eapply intkey.Dumps_ne).
    rewrite (intkey.Loads_Dumps _ _ Hm0). intros [= <-]. by eapply Hp.
  - intros [= <-]. rewrite lookup_empty in Hn. by destruct Hn.
Qed.

Lemma reachable_written st : reachable st → written st ∧ placed st.
Proof.
  apply (rtc_ind_r (λ st, written st ∧ placed st)).
  - split; [apply map_Forall_empty|]. intros address d m name Hst. by rewrite lookup_empty in Hst.
  - intros st1 st2 _ Hstep [Hw Hp]. by eapply transacts_written.
Qed.
End stores.

(** ** Claims about reading *)

Section reading_claims.
Context {W : Type} `{ClientWorld W, ClientCodec}.
Context {C : Type} `{Connection C, ContextProtos, GoRuntime, !StateBacked C}.
Context `{intkey.Cbor, !intkey.CborLaws, !CodecLaws}.

(** C22. Show reads back what the handler stored: for every store that transactions
    can make, the client shows the number stored under the name, through the REST
    API's base64, the YAML of the answer and CBOR; a name without an entry is reported
    as unknown, and one that only shares its address with another shows as nil. *)
Theorem show_reads_back (self : IntkeyClient W) st name e :
  answers_state self st (world e) → reachable (C:=C) st →
  is_Some (logging._LOGGER (process e)) →
  ∃ e', client_Show self name e =
    (Ret match st !! getAddress name with
         | None => inl (errString ("No such key: " +:+ name))
         | Some _ => inr (from_option Itoa "<nil>" (intkey.value_of registered st name))
         end, e').
Proof. intros Hans [Hw _]%reachable_written. by apply show_written. Qed.

End reading_claims.

(** ** Waiting for a batch *)

(** The code came to an end of its own. *)
Definition ended {A} (r : Res A) : Prop :=
  match r with Ret _ | Panic _ => True | Blocked | OutOfFuel => False end.

Section waiting.
Context {W : Type} `{ClientWorld W, ClientCodec}.
Context `{signing.Btcec, !signing.Entropy W}.
Context `{Proto TransactionHeader, Proto BatchHeader, Proto BatchList}.
Context (clock : W → Z).
Implicit Types (e : Env W) (self : IntkeyClient W).

(** [takes d m]: [m] ends, and not before [d] nanoseconds have passed. *)
Definition takes {A} (d : Z) (m : Go (Env W) A) : Prop :=
  ∀ e, ended (m e).1 ∧ clock (world e) + d ≤ clock (world (m e).2).

(** A world whose calls return, in which a reading of the clock is the time and an
    HTTP request takes at least [d] nanoseconds. *)
Record timed (d : Z) : Prop := {
  timed_now w : Now w = (Ret (clock w), w);
  timed_get u w : ∃ r w', http_Get u w = (Ret r, w') ∧ clock w + d ≤ clock w';
  timed_post u t b w : ∃ r w', http_Post u t b w = (Ret r, w') ∧ clock w ≤ clock w';
  timed_rand w : ∃ n w', rand_Int w = (Ret n, w') ∧ clock w ≤ clock w' }.

Lemma takes_ret {A} (a : A) : takes 0 (mret a).
Proof. intros e. simpl. split; [done|lia]. Qed.
Lemma takes_panic {A} reason : takes 0 (go_panic reason : Go (Env W) A).
Proof. intros e. simpl. split; [done|lia]. Qed.
Lemma takes_bind {A B} d (m : Go (Env W) A) (f : A → Go (Env W) B) :
  takes d m → (∀ a, takes 0 (f a)) → takes d (m ≫= f).
Proof.
  intros Hm Hf e. destruct (Hm e) as [Hend Hc]. unfold mbind, Go_bind.
  destruct (m e) as [[a|reason| |] e1]; simpl in *; [|done..].
  destruct (Hf a e1). split; [done|]. lia.
Qed.
Lemma takes_on_process {A} (m : Go logging.Process A) :
  (∀ p, ended (m p).1) → takes 0 (on_process m).
Proof.
  intros Hm e. specialize (Hm (process e)). unfold on_process, zoom.
  destruct (m (process e)) as [r p]. simpl in *. split; [done|lia].
Qed.
Lemma takes_on_world {A} d (m : Go W A) :
  (∀ w, ended (m w).1 ∧ clock w + d ≤ clock (m w).2) → takes d (on_world m).
Proof.
  intros Hm e. specialize (Hm (world e)). unfold on_world, zoom.
  by destruct (m (world e)) as [r w].
Qed.

Lemma Debug_ends text p : ended (logging.Debug text p).1.
Proof.
  unfold logging.Debug, logging.on_logger, mbind, Go_bind, go_get.
  destruct (logging._LOGGER p) as [lg|] eqn:E; [|done].
  destruct (_ <=? _); [|done].
  unfold logging.log_record, logging.Output, logging.print, go_modify. done.
Qed.

(** The steps that end by themselves, by the structure of the code. *)
Ltac takes_step :=
  first [ apply takes_ret | apply takes_panic
        | apply takes_bind; [|intros ?] | case_match | assumption ].

Context {d : Z} (Hw : timed d).

Lemma sendRequest_takes self suffix data type name :
  takes (if decide (0 < len data)%nat then 0 else d) (sendRequest self suffix data type name).
Proof.
  unfold sendRequest. apply takes_bind.
  - apply takes_on_world. intros w. case_decide.
    + match goal with |- context [http_Post ?u ?t ?b w] =>
        destruct (timed_post _ Hw u t b w) as (r & w' & -> & ?) end. simpl. split; [done|lia].
    + match goal with |- context [http_Get ?u w] =>
        destruct (timed_get _ Hw u w) as (r & w' & -> & ?) end. by split.
  - intros [err|response]; [apply takes_ret|]. case_decide.
    + apply takes_bind; [|intros _; apply takes_ret]. apply takes_on_process, Debug_ends.
    + repeat takes_step.
Qed.

Lemma getStatus_takes self batchId wait : takes d (getStatus self batchId wait).
Proof.
  unfold getStatus. apply takes_bind; [apply sendRequest_takes|]. intros r. repeat takes_step.
Qed.

Lemma on_world_Now e : on_world Now e = (Ret (clock (world e)), e).
Proof. unfold on_world, zoom. rewrite (timed_now _ Hw). by destruct e. Qed.

(** The time waited, as a [uint]. *)
Lemma wrap_Sub now start :
  start ≤ now → wrap_u64 (Sub now start) = Z.min (2^63 - 1) (now - start).
Proof.
  intros Hle. unfold Sub, wrap_u64. rewrite Z.max_r by lia. apply Z.mod_small. lia.
Qed.

Lemma wait_loop_ends fuel self batchId start wait waitTime response e :
  0 < d → wait < 2^63 → 0 ≤ waitTime ≤ clock (world e) - start →
  wait ≤ waitTime + Z.of_nat fuel * d →
  ended (wait_loop fuel self batchId start wait waitTime response e).1.
Proof.
  intros Hd Hwait. revert waitTime e. induction fuel as [|fuel IH]; intros waitTime e Ht Hf.
  - cbn [wait_loop]. rewrite (proj2 (Z.leb_le _ _)) by lia. done.
  - cbn [wait_loop]. destruct (Z.leb_spec wait waitTime); [done|].
    destruct (getStatus_takes self batchId (wrap_u64 (wait - waitTime)) e) as [Hend Hc].
    unfold mbind at 1, Go_bind at 1. destruct (getStatus _ _ _ e) as [[r|reason| |] e1];
      simpl in Hend, Hc; [|done..].
    destruct r as [err|status]; [done|]. rewrite (go_bind_Ret _ _ _ _ _ (on_world_Now e1)).
    cbv zeta. rewrite wrap_Sub by lia. case_decide; [done|].
    assert (Hnew : Z.min (2^63 - 1) (waitTime + d) ≤ Z.min (2^63 - 1) (clock (world e1) - start))
      by lia.
    apply IH; [lia|].
    rewrite Nat2Z.inj_succ in Hf. lia.
Qed.

Lemma Sign_takes u key message :
  takes 0 (on_world (signing.Signer_Sign (signer (client_with u key)) message)).
Proof.
  apply takes_on_world. intros w. unfold signing.Signer_Sign. simpl. unfold signing.secp_Sign. simpl.
  destruct (signing.PrivKeyFromBytes key). destruct (signing.ec_Sign _ _); simpl; [split; [done|lia]|].
  unfold signing.serializeCompact. case_decide; simpl; (split; [done|lia]).
Qed.
Lemma GetPublicKey_takes u key :
  takes 0 (on_world (signing.Signer_GetPublicKey (signer (client_with u key)))).
Proof. intros e. rewrite GetPublicKey_client. simpl. split; [done|lia]. Qed.
Lemma rand_takes : takes 0 (on_world rand_Int).
Proof.
  apply takes_on_world. intros w. destruct (timed_rand _ Hw w) as (n & w' & -> & ?). simpl.
  split; [done|lia].
Qed.

Lemma createBatchList_takes u key ts : takes 0 (createBatchList (client_with u key) ts).
Proof.
  unfold createBatchList. apply takes_bind; [apply GetPublicKey_takes|]. intros pub.
  case_match; [apply takes_ret|]. apply takes_bind; [apply Sign_takes|]. intros sig. apply takes_ret.
Qed.

Lemma make_batch_takes u key verb name value :
  takes 0 (make_batch (client_with u key) verb name value).
Proof.
  unfold make_batch. case_match; [apply takes_ret|].
  apply takes_bind; [apply GetPublicKey_takes|]. intros pub.
  apply takes_bind; [apply rand_takes|]. intros nonce.
  apply takes_bind; [apply GetPublicKey_takes|]. intros pub'. case_match; [apply takes_ret|].
  apply takes_bind; [apply Sign_takes|]. intros sig.
  apply takes_bind; [apply createBatchList_takes|]. intros r. repeat takes_step.
Qed.

End waiting.

(** ** Witnesses *)

Module witness.
Import demo intkey.witness.

(** A REST API over a store: an entry per address, or all of them; every request
    takes a millisecond. *)
Record Rest := { rest_store : gmap string bytes; rest_time : Z }.
Definition later (w : Rest) : Rest :=
  {| rest_store := rest_store w; rest_time := rest_time w + 1000000 |}.
Definition state_url : string := "http://h/state/".
Definition ok (body : string) : Response :=
  {| StatusCode := 200; Status := "200 OK"; Body := inr body |}.
Definition not_found : Response :=
  {| StatusCode := 404; Status := "404 Not Found"; Body := inr "" |}.
Definition rest_get (u : string) (w : Rest) : Response :=
  if HasPrefix u state_url then
    match rest_store w !! slice_from (len state_url) u with
    | Some d => ok (String "s" (base64.EncodeToString d))
    | None => not_found
    end
  else ok (String "l" (pos_bits (encode (map_to_list (rest_store w))))).
#[local] Instance rest : ClientWorld Rest := {|
  http_Post u t b w := (Ret (inr (ok "")), later w);
  http_Get u w := (Ret (inr (rest_get u w)), later w);
  ReadFile f w := (Ret (inr "key"), w);
  user_Current w := (Ret (inr ("/home/u", "u")), w);
  Now w := (Ret (rest_time w), w);
  rand_Int w := (Ret 4, w) |}.
#[local] Instance codec : ClientCodec := {|
  Dumps_request verb name value := inr (payload_code
    {| intkey.Verb := verb; intkey.Name := name; intkey.Value := value |});
  Loads_any d := match intkey.Loads_map d with
                 | (Some m, Ret None) => Ret (inr (Itoa <$> m))
                 | _ => Panic "cbor: unexpected type"
                 end;
  yaml_Unmarshal s :=
    match s with
    | String "s" t => inr [("data", YString t)]
    | String "l" t =>
        match bits_pos t ≫= decode (A := list (string * string)) with
        | Some l => inr [("data", YList (entry_yaml <$> l))]
        | None => inl (errString "yaml")
        end
    | _ => inl (errString "yaml")
    end;
  yaml_text _ := ""; Response_text _ := ""; Atoi_text _ := "" |}.
#[local] Instance codec_laws : CodecLaws.
Proof.
  split.
  - intros verb name value. by eexists.
  - intros verb name value d _ [= <-]. unfold payload_code. simpl. rewrite bits_pos_bits.
    cbn -[decode encode]. by rewrite decode_encode.
  - intros m d Hd. unfold Loads_any, codec. by rewrite (intkey.Loads_Dumps _ _ Hd).
Qed.

#[local] Existing Instances signing.witness.toy signing.witness.toy_laws.
#[local] Instance rest_entropy : signing.Entropy Rest := mret (inr "key").
#[local] Instance th_proto : Proto TransactionHeader := countable_proto _.
#[local] Instance bh_proto : Proto BatchHeader := countable_proto _.
#[local] Instance bl_proto : Proto BatchList := countable_proto _.
#[local] Instance th_laws : ProtoLaws TransactionHeader := countable_proto_laws _.
#[local] Instance bh_laws : ProtoLaws BatchHeader := countable_proto_laws _.
#[local] Instance bl_laws : ProtoLaws BatchList := countable_proto_laws _.
#[local] Instance th_total : ProtoTotal TransactionHeader := countable_proto_total _.
#[local] Instance bh_total : ProtoTotal BatchHeader := countable_proto_total _.
#[local] Instance bl_total : ProtoTotal BatchList := countable_proto_total _.
#[local] Existing Instance conn.
#[local] Instance e2e_conn : Connection (ZmqConnection Sim) := conn all.
#[local] Instance e2e_backed : StateBacked (ZmqConnection Sim) := backed all.

Definition proc : logging.Process :=
  {| logging._LOGGER := Some {| logging.writer := logging.Stdout; logging.level := logging.WARN |};
     logging.output := [] |}.
Definition env_of (st : gmap string bytes) : Env Rest :=
  {| world := {| rest_store := st; rest_time := 0 |}; process := proc |}.
Definition cl : IntkeyClient Rest := client_with "h" "key".
Definition opts : entry.ProcessorOpts :=
  {| entry.Verbose := 0; entry.Connect := "tcp://v"; entry.Queue := 100; entry.Threads := 0 |}.

Lemma client_request_executed_witness :
  ∃ data b th req e',
    make_batch cl VERB_SET "n" 40 (env_of ∅) = (Ret (inr (Batch_HeaderSignature b, data)), e') ∧
    valid_batch (W:=Rest) b [th] ∧ requests_of "ctx" data = [req] ∧
    ∃ hd, findHandler (handlers (entry.intkey_processor 4 opts)) (Some th) = inr hd ∧
      executes hd req VERB_SET "n" 40 (at_rest ∅).
Proof.
  destruct (client_request_executed (C:=ZmqConnection Sim) "h" "key" VERB_SET "n" 40 (env_of ∅)
    4 opts "ctx" (at_rest ∅)) as (data & b & th & req & e' & E & _ & Hb & Hreq & _ & hd & Hh & Hex).
  - split; [by vm_compute|]. intros hash. eexists. reflexivity.
  - intros w. by exists 4, w.
  - set_solver.
  - vm_compute. lia.
  - vm_compute. split; discriminate.
  - exists data, b, th, req, e'. do 3 (split; [done|]). exists hd. split; [done|].
    apply Hex; [apply at_rest_ok| |]; by apply forallb_forall.
Defined.

(** The store after a first transaction. *)
Definition store1 : gmap string bytes :=
  vstate (intkey.Apply registered (req (pay "set" 40)) ctx (at_rest ∅)).2.
Lemma store1_reachable : reachable (C:=ZmqConnection Sim) store1.
Proof.
  apply rtc_once. exists (at_rest ∅), (req (pay "set" 40)), ctx.
  split; [apply at_rest_ok|]. split; [done|]. unfold store1. reflexivity.
Qed.

Lemma rest_answers st : answers_state cl st (world (env_of st)).
Proof.
  intros address. eexists _, _. split; [reflexivity|].
  assert (Hu : request_url cl (STATE_API +:+ "/" +:+ address) = state_url +:+ address) by done.
  rewrite Hu. unfold rest_get. unfold HasPrefix. rewrite intkey.prefix_app.
  rewrite (proj2 (signing.slice_app state_url address)). cbn [rest_store world env_of].
  destruct (st !! address) as [d|]; [|done]. by eexists _, _.
Qed.

Lemma show_reads_back_witness : ∃ e', client_Show cl "n" (env_of store1) = (Ret (inr "40"), e').
Proof.
  destruct (show_reads_back (C:=ZmqConnection Sim) cl store1 "n" (env_of store1)
    (rest_answers _) store1_reachable ltac:(by eexists)) as [e' E].
  exists e'. rewrite E. apply (f_equal (λ r, (r, e'))). vm_compute. reflexivity.
Defined.

Lemma rest_lists st :
  (∀ a d, st !! a = Some d → HasPrefix a getPrefix = true) →
  answers_list cl st (world (env_of st)).
Proof.
  intros Hst. eexists _, _, _, _, (map_to_list st). split; [reflexivity|].
  assert (Hu : HasPrefix (request_url cl (STATE_API +:+ "?address=" +:+ getPrefix)) state_url = false)
    by done.
  unfold rest_get. rewrite Hu. split; [by split|].
  split; [simpl; rewrite bits_pos_bits; cbn -[decode encode]; by rewrite decode_encode|].
  split; [done|]. rewrite map_filter_id; [done|]. intros a d Ha. apply Is_true_true, (Hst _ _ Ha).
Qed.

Lemma store1_eq : store1 =
  {[getAddress "n" := String "m" (pos_bits (encode ({["n" := 40]} : gmap string Z)))]}.
Proof. vm_compute. reflexivity. Qed.
Lemma store1_value : intkey.value_of registered store1 "n" = Some 40.
Proof. vm_compute. reflexivity. Qed.
Lemma rest_lists_one name d :
  answers_list cl {[getAddress name := d]} (world (env_of {[getAddress name := d]})).
Proof.
  apply rest_lists. intros a d' [<- _]%lookup_singleton_Some. apply getAddress_prefix.
Qed.
Lemma store1_lists : answers_list cl store1 (world (env_of store1)).
Proof. rewrite store1_eq. apply rest_lists_one. Qed.


End witness.
End end_to_end.
