(* ===== verification/System.v ===== *)
(** * The transaction processor as a system

    The router of [Processor], any number of worker threads over the connections
    of [Messaging], and a validator that executes state requests, composed into one
    transition system: every thread moves at any time, sockets are FIFO queues, and
    each step of the router or of a thread runs the code of its component.  The
    validator is any function [serve] from its state and a request to a reply and
    the state after it.

    What is proved: whatever the interleaving, the requests of all threads are
    executed one after the other, each once and between its call and its return, and
    every thread gets the reply to its own request; and from every state a thread
    that waits can get its reply. *)

From S2P Require Import Prelude GoLib Errors Protobuf Messaging Answering ProcContext Worker Validator Processor Links History.

Module system.
Export links history.
Local Open Scope Z_scope.

(** ** The messages *)

(** The messages a thread expects a reply to. *)
Definition is_call (m : Message) : Prop :=
  Message_MessageType m ≠ Message_TP_PROCESS_RESPONSE ∧ Message_MessageType m ≠ Message_PING_RESPONSE.
#[export] Instance is_call_dec m : Decision (is_call m).
Proof. unfold is_call. apply _. Defined.
(** The messages the router passes on to threads. *)
Definition is_reply (m : Message) : Prop :=
  Message_MessageType m ≠ Message_TP_PROCESS_REQUEST ∧ Message_MessageType m ≠ Message_PING_REQUEST.
#[export] Instance is_reply_dec m : Decision (is_reply m).
Proof. unfold is_reply. apply _. Defined.

(** ** The system *)

(** A worker thread: its connection, the request it works on and the correlation id
    it waits for. *)
Record Thread := { th_conn : conn; th_job : option Message; th_waits : option string }.

Section system.
Context {M V : Type} `{Monitor M, Proto Message, GoRuntime}.
Context `{Proto TpProcessResponse, Proto PingResponse, Proto TpUnregisterRequest}.
Context (serve : V → Message → option (Z * bytes * V)).

#[local] Instance link_connection : Connection conn := zmq_connection 0.
Abbreviation router := (Router conn M).

Record System := {
  sys_router : router;
  sys_threads : gmap string Thread;
  val_inbox : list (list string);
  val_state : V;
  trace : list event }.
Implicit Types (s : System) (th : Thread) (r : router).

Definition deliver (ths : gmap string Thread) (fr : list string) : gmap string Thread :=
  match fr with
  | [w; data] => alter (λ th, {| th_conn := arrive [data] (th_conn th); th_job := th_job th;
                                 th_waits := th_waits th |}) w ths
  | _ => ths
  end.

(** What the router sent reaches the validator and the threads. *)
Definition after_router s (r : router) : System := {|
  sys_router := set_validator (flush (validator r)) (set_workers (flush (workers r)) r);
  sys_threads := foldl deliver (sys_threads s) (outbox (workers r));
  val_inbox := val_inbox s ++ outbox (validator r);
  val_state := val_state s; trace := trace s |}.

(** A thread's connection after it acted: what it sent reaches the router under the
    thread's identity. *)
Definition after_thread s (w : string) (th : Thread) (e : list event) : System := {|
  sys_router := set_workers (foldl (λ c fr, arrive (w :: fr) c) (workers (sys_router s))
                               (outbox (th_conn th))) (sys_router s);
  sys_threads := <[w := {| th_conn := flush (th_conn th); th_job := th_job th;
                           th_waits := th_waits th |}]> (sys_threads s);
  val_inbox := val_inbox s; val_state := val_state s; trace := trace s ++ e |}.

Definition to_router s (d : bytes) : router :=
  set_validator (arrive [d] (validator (sys_router s))) (sys_router s).

Inductive step : System → System → Prop :=
(** The router finds a socket ready. *)
| step_workers s r :
    inbox (workers (sys_router s)) ≠ [] →
    receiveWorkers (sys_router s) = (Ret tt, r) → step s (after_router s r)
| step_validator s r :
    inbox (validator (sys_router s)) ≠ [] →
    receiveValidator (sys_router s) = (Ret tt, r) → step s (after_router s r)
(** A thread takes a request off the work queue, sends a state request with a new
    identifier, gets its reply, and answers. *)
| step_take s w c msg rest :
    sys_threads s !! w = Some {| th_conn := c; th_job := None; th_waits := None |} →
    queue (sys_router s) = msg :: rest →
    step s {| sys_router := set_queue rest (sys_router s);
              sys_threads := <[w := {| th_conn := c; th_job := Some msg; th_waits := None |}]>
                               (sys_threads s);
              val_inbox := val_inbox s; val_state := val_state s; trace := trace s |}
| step_call s w c msg id t b c' :
    sys_threads s !! w = Some {| th_conn := c; th_job := Some msg; th_waits := None |} →
    id ≠ "" → id ∉ call_ids (trace s) →
    is_call {| Message_MessageType := t; Message_CorrelationId := id; Message_Content := b |} →
    zmq_SendNewMsg t b (with_id id c) = (Ret (id, None), c') →
    step s (after_thread s w {| th_conn := c'; th_job := Some msg; th_waits := Some id |}
      [Called w {| Message_MessageType := t; Message_CorrelationId := id; Message_Content := b |}])
| step_return s w c job id fuel i m err c' :
    sys_threads s !! w = Some {| th_conn := c; th_job := job; th_waits := Some id |} →
    zmq_RecvMsgWithId fuel id c = (Ret (i, Some m, err), c') →
    step s (after_thread s w {| th_conn := c'; th_job := job; th_waits := None |}
      [Returned w m])
| step_respond s w c msg b c' :
    sys_threads s !! w = Some {| th_conn := c; th_job := Some msg; th_waits := None |} →
    zmq_SendMsg Message_TP_PROCESS_RESPONSE b (Message_CorrelationId msg) c = (Ret None, c') →
    step s (after_thread s w {| th_conn := c'; th_job := None; th_waits := None |} [])
(** The validator executes a request, ignores a message, or sends a request of its
    own. *)
| step_serve s fr rest i q t b v d :
    val_inbox s = fr :: rest → frame_msg fr = Some (i, q, None) → is_call q →
    serve (val_state s) q = Some (t, b, v) → DumpMsg t b (Message_CorrelationId q) = inr d →
    step s {| sys_router := to_router s d; sys_threads := sys_threads s; val_inbox := rest;
              val_state := v;
              trace := trace s ++ [Executed q {| Message_MessageType := t;
                Message_CorrelationId := Message_CorrelationId q; Message_Content := b |}] |}
| step_ignore s fr rest :
    val_inbox s = fr :: rest →
    (∀ i q, frame_msg fr = Some (i, q, None) → ¬ is_call q) →
    step s {| sys_router := sys_router s; sys_threads := sys_threads s; val_inbox := rest;
              val_state := val_state s; trace := trace s |}
| step_request s m d :
    ¬ is_reply m → Marshal m = inr d →
    step s {| sys_router := to_router s d; sys_threads := sys_threads s;
              val_inbox := val_inbox s; val_state := val_state s; trace := trace s |}.

(** Everything at rest: empty sockets, an empty table. *)
Definition initial (v : V) s : Prop :=
  idle (validator (sys_router s)) ∧ idle (workers (sys_router s)) ∧ ids (sys_router s) = ∅ ∧
  map_Forall (λ _ th, idle (th_conn th) ∧ th_job th = None ∧ th_waits th = None) (sys_threads s) ∧
  val_inbox s = [] ∧ val_state s = v ∧ trace s = [].

(** ** What the router does on these sockets *)

(** The router and a message of a thread. *)
Lemma receiveWorkers_link r w d rest m :
  inbox (workers r) = [w; d] :: rest → LoadMsg d = (m, None) →
  ∃ r', receiveWorkers r = (Ret tt, r') ∧
    inbox (workers r') = rest ∧ outbox (workers r') = outbox (workers r) ∧
    inbox (validator r') = inbox (validator r) ∧
    outbox (validator r') = outbox (validator r) ++ [[d]] ∧
    ids r' = note_worker (ids r) (w, m).
Proof.
  intros E Hm. unfold receiveWorkers.
  erewrite go_bind_Ret; [|unfold on_workers, zoom; simpl; by rewrite (RecvData_link _ _ _ E)].
  simpl. rewrite Hm. unfold note_worker. simpl. case_decide; eexists; split; reflexivity || done.
Qed.

(** Sending a message with a correlation id: the frame is appended, or the message
    could not be serialized. *)
Definition own_answer (fr : list string) : Prop :=
  ∃ t b corr d, fr = [d] ∧ DumpMsg t b corr = inr d ∧
    ¬ is_call {| Message_MessageType := t; Message_CorrelationId := corr; Message_Content := b |}.

Lemma SendMsg_link t b corr c :
  (t = Message_TP_PROCESS_RESPONSE ∨ t = Message_PING_RESPONSE) →
  ∃ err own c', zmq_SendMsg t b corr c = (Ret err, c') ∧ inbox c' = inbox c ∧
    outbox c' = outbox c ++ own ∧ Forall own_answer own ∧ (length own ≤ 1)%nat.
Proof.
  intros Ht. unfold zmq_SendMsg, zmq_SendMsgTo. destruct (DumpMsg t b corr) as [e|d] eqn:Ed.
  - exists (Some e), [], c. rewrite app_nil_r. split_and!; auto with lia.
  - eexists _, [[d]], _. rewrite SendData_link. split; [done|]. split; [done|]. split; [done|].
    split; [|done]. repeat constructor. exists t, b, corr, d. split; [done|]. split; [done|].
    unfold is_call. simpl. naive_solver.
Qed.

(** What becomes of a message of the validator: a reply goes to the thread noted for
    it, nothing else reaches threads, and the router's own answers are no calls. *)
Definition routed r (d : bytes) (rest : list (list string)) (m : Message) (r' : router) : Prop :=
  inbox (validator r') = rest ∧ inbox (workers r') = inbox (workers r) ∧
  ((∃ w, is_reply m ∧ ids r !! Message_CorrelationId m = Some w ∧
      ids r' = delete (Message_CorrelationId m) (ids r) ∧
      outbox (workers r') = outbox (workers r) ++ [if decide (w ≠ "") then [w; d] else [d]] ∧
      outbox (validator r') = outbox (validator r)) ∨
   (ids r' = ids r ∧ outbox (workers r') = outbox (workers r) ∧
    (∃ own, outbox (validator r') = outbox (validator r) ++ own ∧ Forall own_answer own ∧
       (length own ≤ 1)%nat) ∧
    (is_reply m → Message_CorrelationId m ≠ "" → ids r !! Message_CorrelationId m = None))).

Lemma routed_quiet r d rest m r' own :
  inbox (validator r') = rest → workers r' = workers r → ids r' = ids r →
  outbox (validator r') = outbox (validator r) ++ own → Forall own_answer own →
  (length own ≤ 1)%nat →
  (is_reply m → Message_CorrelationId m ≠ "" → ids r !! Message_CorrelationId m = None) →
  routed r d rest m r'.
Proof. intros Hi Hw Hids Ho Hown Hl Hm. unfold routed. rewrite Hw. eauto 10. Qed.

Lemma receiveValidator_link r d rest m :
  inbox (validator r) = [d] :: rest → LoadMsg d = (m, None) →
  ∃ r', receiveValidator r = (Ret tt, r') ∧ routed r d rest m r'.
Proof.
  intros E Hm. unfold receiveValidator, go_recover, receiveValidator_body.
  erewrite go_bind_Ret; [|unfold on_validator, zoom; simpl; by rewrite (RecvData_link _ _ _ E)].
  cbn [split_frames]. rewrite Hm. cbv zeta.
  match goal with |- context [set_validator ?c r] => set (c1 := c) end.
  assert (Hquiet : ∀ r', inbox (validator r') = rest → workers r' = workers r → ids r' = ids r →
    outbox (validator r') = outbox (validator r) →
    (is_reply m → Message_CorrelationId m ≠ "" → ids r !! Message_CorrelationId m = None) →
    routed r d rest m r').
  { intros r' ? ? ? Ho ?. apply (routed_quiet _ _ _ _ _ []); rewrite ?app_nil_r; auto with lia. }
  assert (Hsend : ∀ t b r1, (t = Message_TP_PROCESS_RESPONSE ∨ t = Message_PING_RESPONSE) →
    r1 = set_validator c1 r → ¬ is_reply m →
    ∃ r', (_ ← on_validator (SendMsg t b (Message_CorrelationId m)); mret tt) r1 = (Ret tt, r') ∧
      routed r d rest m r').
  { intros t b r1 Ht -> Hn.
    destruct (SendMsg_link t b (Message_CorrelationId m) c1 Ht) as (err & own & c' & Es & Hi & Ho & Hown & Hl).
    exists (set_validator c' r). split.
    - erewrite go_bind_Ret; [|unfold on_validator, zoom; simpl; by rewrite Es]. done.
    - apply (routed_quiet _ _ _ _ _ own); [exact Hi|done|done|exact Ho|done..]. }
  destruct (decide (Message_MessageType m = Message_TP_PROCESS_REQUEST)) as [Ht|Ht].
  { assert (Hn : ¬ is_reply m) by (unfold is_reply; tauto).
    unfold queue_try_send. unfold mbind at 1, Go_bind at 1.
    cbn [queue_closed set_validator queue queue_cap].
    destruct (queue_closed r); [eexists; split; [reflexivity|by apply Hquiet]|].
    destruct (decide (length (queue r) < queue_cap r)%nat);
      [eexists; split; [reflexivity|by apply Hquiet]|].
    destruct (Hsend Message_TP_PROCESS_RESPONSE (marshal_or_nil denied) _ (or_introl eq_refl)
      eq_refl Hn) as (r' & Es & Hr). rewrite Es. eauto. }
  destruct (decide (Message_MessageType m = Message_PING_REQUEST)) as [Hp|Hp].
  { assert (Hn : ¬ is_reply m) by (unfold is_reply; tauto).
    destruct (Hsend Message_PING_RESPONSE (marshal_or_nil Build_PingResponse) _
      (or_intror eq_refl) eq_refl Hn) as (r' & Es & Hr). rewrite Es. eauto. }
  rewrite (go_bind_Ret go_get _ _ _ _ eq_refl). cbn [ids set_validator].
  destruct (ids r !! Message_CorrelationId m) as [w|] eqn:Ew;
    [|eexists; split; [reflexivity|by apply Hquiet]].
  destruct (decide _) as [Hc|Hc]; [|eexists; split; [reflexivity|by apply Hquiet]].
  erewrite go_bind_Ret; [|unfold on_workers, zoom; simpl; by rewrite SendData_link].
  eexists. split; [reflexivity|]. split; [done|]. split; [done|]. left. by exists w.
Qed.

(** ** The invariant *)

(** The identifier of the call a frame carries. *)
Definition frame_call (fr : list string) : option string :=
  match frame_msg fr with
  | Some (_, m, None) => if decide (is_call m) then Some (Message_CorrelationId m) else None
  | _ => None
  end.
(** The calls on their way to the validator and those it executed. *)
Definition pending s : list string :=
  omap frame_call (inbox (workers (sys_router s))) ++ omap frame_call (val_inbox s) ++
  (exec_ids (trace s)).

(** Where a request that a thread waits for can be, or its reply. *)
Definition in_flight s (w : string) (q : Message) : Prop :=
  (∃ d, [w; d] ∈ inbox (workers (sys_router s)) ∧ LoadMsg d = (q, None)) ∨
  (∃ fr, fr ∈ val_inbox s ∧ carries fr q) ∨
  (∃ fr m, fr ∈ inbox (validator (sys_router s)) ∧ carries fr m ∧ is_reply m ∧
     Message_CorrelationId m = Message_CorrelationId q ∧
     ids (sys_router s) !! Message_CorrelationId q = Some w) ∨
  (∃ th m, sys_threads s !! w = Some th ∧ holds (th_conn th) m ∧
     Message_CorrelationId m = Message_CorrelationId q).

Definition replies_to (tr : list event) (w : string) (m : Message) : Prop :=
  ∃ q, (q, m) ∈ execs tr ∧ (w, q) ∈ calls tr.

Record thread_ok (tr : list event) (w : string) (c : conn) : Prop := {
  ok_sent : outbox c = [];
  ok_clean : clean c;
  ok_wf : conn_wf c;
  ok_holds m : holds c m → replies_to tr w m }.

Record Inv (v0 : V) s : Prop := {
  i_serial : serial serve v0 (execs (trace s)) (val_state s);
  i_ordered : ordered (trace s);
  i_unique : NoDup (call_ids (trace s));
  i_calls w q : (w, q) ∈ calls (trace s) →
    is_call q ∧ Message_CorrelationId q ≠ "" ∧ is_Some (sys_threads s !! w);
  i_execs q a : (q, a) ∈ execs (trace s) →
    Message_CorrelationId a = Message_CorrelationId q ∧ is_reply a ∧ ∃ w, (w, q) ∈ calls (trace s);
  i_sent : outbox (workers (sys_router s)) = [] ∧ outbox (validator (sys_router s)) = [];
  i_workers fr : fr ∈ inbox (workers (sys_router s)) →
    ∃ w d m, fr = [w; d] ∧ LoadMsg d = (m, None) ∧
      ((w, m) ∈ calls (trace s) ∨ Message_MessageType m = Message_TP_PROCESS_RESPONSE);
  i_validator fr : fr ∈ val_inbox s →
    ∃ m, carries fr m ∧ (is_call m → ∃ w, (w, m) ∈ calls (trace s) ∧
      ids (sys_router s) !! Message_CorrelationId m = Some w);
  i_once : NoDup (pending s);
  i_ids k w : ids (sys_router s) !! k = Some w →
    ∃ q, (w, q) ∈ calls (trace s) ∧ Message_CorrelationId q = k;
  i_replies fr : fr ∈ inbox (validator (sys_router s)) →
    ∃ m, carries fr m ∧ (is_reply m → ∃ q, (q, m) ∈ execs (trace s));
  i_names w : is_Some (sys_threads s !! w) → w ≠ "";
  i_threads w th : sys_threads s !! w = Some th → thread_ok (trace s) w (th_conn th);
  i_waiting w th id : sys_threads s !! w = Some th → th_waits th = Some id →
    ∃ q, last_call (trace s) w = Some q ∧ Message_CorrelationId q = id ∧ in_flight s w q }.

Lemma inv_initial v0 s : initial v0 s → sys_threads s !! "" = None → Inv v0 s.
Proof.
  intros ((Hvi & Hvo & _) & (Hwi & Hwo & _) & Hids & Hths & Hvb & <- & Htr) Hname.
  assert (Hc : calls (trace s) = []) by (by rewrite Htr).
  assert (He : execs (trace s) = []) by (by rewrite Htr).
  split; rewrite ?Hc, ?He, ?Hvi, ?Hwi, ?Hids, ?Hvb; try (by intros; exfalso; set_solver).
  - constructor.
  - rewrite Htr. intros [] ? ? ?; discriminate.
  - unfold call_ids. rewrite Hc. constructor.
  - done.
  - unfold pending, exec_ids. rewrite Hwi, Hvb, He. constructor.
  - intros w Hw ->. rewrite Hname in Hw. by destruct Hw.
  - intros w th Hw. destruct (Hths _ _ Hw) as ((Hi & Ho & Hinc) & _). split; [done| | |].
    + unfold clean. rewrite Hi. constructor.
    + unfold conn_wf. rewrite Hinc. apply map_Forall_empty.
    + intros m [(fr & Hfr & _)|(k & st & Hk & _)]; [rewrite Hi in Hfr; set_solver|].
      by rewrite Hinc, lookup_empty in Hk.
  - intros w th id Hw. destruct (Hths _ _ Hw) as (_ & _ & ->). done.
Qed.

(** A correlation id determines the call. *)
Lemma call_unique v0 s w q w' q' :
  Inv v0 s → (w, q) ∈ calls (trace s) → (w', q') ∈ calls (trace s) →
  Message_CorrelationId q = Message_CorrelationId q' → w = w' ∧ q = q'.
Proof.
  intros HI Hq Hq' E. pose proof (NoDup_fmap_eq _ _ _ _ (i_unique _ _ HI) Hq Hq' E) as Heq.
  by simplify_eq.
Qed.

(** A call that is still on its way to the validator was not executed. *)
Lemma not_executed v0 s fr m q a :
  Inv v0 s → fr ∈ val_inbox s → carries fr m → is_call m → (q, a) ∈ execs (trace s) →
  Message_CorrelationId m ≠ Message_CorrelationId q.
Proof.
  intros HI Hfr (d & -> & Hd) Hm Hq E. pose proof (i_once _ _ HI) as Hn. unfold pending in Hn.
  apply NoDup_app in Hn as (_ & _ & Hn). apply NoDup_app in Hn as (_ & Hdisj & _).
  apply (Hdisj (Message_CorrelationId m)).
  - apply list_elem_of_omap. exists [d]. split; [done|]. unfold frame_call, frame_msg. simpl.
    rewrite Hd. by rewrite decide_True.
  - rewrite E. apply list_elem_of_fmap. by exists (q, a).
Qed.

(** Noting a thread for its own call does not disturb the table. *)
Lemma note_worker_keeps v0 s w m k w0 :
  Inv v0 s → ((w, m) ∈ calls (trace s) ∨ Message_MessageType m = Message_TP_PROCESS_RESPONSE) →
  ids (sys_router s) !! k = Some w0 →
  note_worker (ids (sys_router s)) (w, m) !! k = Some w0.
Proof.
  intros HI Hm Hk. unfold note_worker. simpl. case_decide as Ht; [|done].
  destruct Hm as [Hm|Hm]; [|done]. destruct (decide (Message_CorrelationId m = k)) as [<-|Hne].
  - destruct (i_ids _ _ HI _ _ Hk) as (q & Hq & E).
    destruct (call_unique _ _ _ _ _ _ HI Hq Hm E) as [-> _]. apply lookup_insert_eq.
  - by rewrite lookup_insert_ne.
Qed.

Lemma frame_call_strip w d : frame_call [w; d] = frame_call [d].
Proof. unfold frame_call, frame_msg. simpl. by destruct (LoadMsg d). Qed.

(** Passing a worker's message on loses no request and no reply. *)
Lemma in_flight_forwarded s r w d rest w0 q :
  inbox (workers (sys_router s)) = [w; d] :: rest → inbox (workers r) = rest →
  outbox (workers r) = [] → inbox (validator r) = inbox (validator (sys_router s)) →
  outbox (validator r) = [[d]] →
  (∀ k w1, ids (sys_router s) !! k = Some w1 → ids r !! k = Some w1) →
  in_flight s w0 q → in_flight (after_router s r) w0 q.
Proof.
  intros Ein Hi Ho Hvi Hvo Hlook
    [(d0 & Hin & Hd0)|[(fr & Hin & Hc)|[(fr & m0 & Hin & Hc & Hrep & Hk & Hw0)|HD]]].
  - rewrite Ein in Hin. apply elem_of_cons in Hin as [[= -> ->]|Hin].
    + right. left. exists [d]. simpl. rewrite Hvo. split; [set_solver|]. by exists d.
    + left. exists d0. change (inbox (workers _)) with (inbox (workers r)). by rewrite Hi.
  - right. left. exists fr. simpl. set_solver.
  - right. right. left. exists fr, m0. change (inbox (validator _)) with (inbox (validator r)).
    rewrite Hvi. split_and!; auto.
  - right. right. right. simpl. by rewrite Ho.
Qed.

Lemma inv_workers v0 s r :
  Inv v0 s → inbox (workers (sys_router s)) ≠ [] → receiveWorkers (sys_router s) = (Ret tt, r) →
  Inv v0 (after_router s r).
Proof.
  intros HI Hne Hr. destruct (inbox (workers (sys_router s))) as [|fr rest] eqn:Ein; [done|].
  destruct (i_workers _ _ HI fr) as (w & d & m & -> & Hd & Hm); [rewrite Ein; set_solver|].
  destruct (receiveWorkers_link _ _ _ _ _ Ein Hd) as (r' & Hr' & Hi & Ho & Hvi & Hvo & Hids).
  rewrite Hr in Hr'. injection Hr' as <-. destruct (i_sent _ _ HI) as [Hs1 Hs2].
  rewrite Hs1 in Ho. rewrite Hs2 in Hvo. simpl in Hvo.
  assert (Hth : sys_threads (after_router s r) = sys_threads s) by (simpl; by rewrite Ho).
  assert (Hcall : is_call m → (w, m) ∈ calls (trace s)).
  { destruct Hm as [?|Ht]; [done|]. intros [Hn _]. done. }
  pose proof (λ k w0, note_worker_keeps _ _ _ _ k w0 HI Hm) as Hkeep.
  assert (Hlook : ∀ k w0, ids (sys_router s) !! k = Some w0 → ids r !! k = Some w0).
  { intros k w0 ?. rewrite Hids. by apply Hkeep. }
  split; try (rewrite Hth); try apply HI.
  - by split.
  - intros fr. change (inbox (workers _)) with (inbox (workers r)). rewrite Hi. intros Hfr.
    apply (i_workers _ _ HI). rewrite Ein. by right.
  - intros fr. simpl. rewrite Hvo, elem_of_app, list_elem_of_singleton. intros [Hfr| ->].
    + destruct (i_validator _ _ HI _ Hfr) as (m0 & Hc & Hq). exists m0. split; [done|].
      intros (w0 & ? & ?)%Hq. exists w0. auto.
    + exists m. split; [by exists d|]. intros Hc. exists w. split; [auto|]. rewrite Hids.
      unfold note_worker. simpl. rewrite decide_True by apply Hc. apply lookup_insert_eq.
  - pose proof (i_once _ _ HI) as Hn. unfold pending in *.
    change (inbox (workers (sys_router (after_router s r)))) with (inbox (workers r)).
    simpl (val_inbox _). simpl (trace _). rewrite Hi, Hvo. rewrite Ein in Hn.
    rewrite omap_app. simpl in *. rewrite <-(frame_call_strip w d).
    destruct (frame_call [w; d]) as [k|]; simpl in *; [|by rewrite app_nil_r].
    revert Hn. apply NoDup_Permutation_proper. solve_Permutation.
  - intros k w0. simpl. rewrite Hids. unfold note_worker. simpl. case_decide as Ht; [|apply HI].
    destruct Hm as [Hm|Hm]; [|done]. intros [[<- <-]|[_ Hk]]%lookup_insert_Some; [eauto|].
    by apply HI.
  - intros fr. change (inbox (validator _)) with (inbox (validator r)). rewrite Hvi. apply HI.
  - intros w0 th id Hw Hid. destruct (i_waiting _ _ HI _ _ _ Hw Hid) as (q & Hq & Hqid & Hfl).
    exists q. split; [done|]. split; [done|]. by eapply in_flight_forwarded.
Qed.

Lemma thread_ok_arrive tr w c d m :
  LoadMsg d = (m, None) → replies_to tr w m → thread_ok tr w c → thread_ok tr w (arrive [d] c).
Proof.
  intros Hd Hm [Ho Hc Hwf Hh]. split; [done| |done|].
  - unfold clean. change (inbox (arrive [d] c)) with (inbox c ++ [[d]]).
    apply Forall_app_2; [done|]. repeat constructor. exists m, d. done.
  - intros m' [?| ->]%(holds_arrive _ _ _ _ Hd); auto.
Qed.

(** The thread a frame is delivered to. *)
Lemma lookup_deliver ths w d w0 th :
  deliver ths [w; d] !! w0 = Some th →
  ∃ th0, ths !! w0 = Some th0 ∧ th_waits th = th_waits th0 ∧
    th_conn th = if decide (w = w0) then arrive [d] (th_conn th0) else th_conn th0.
Proof.
  simpl. destruct (decide (w = w0)) as [<-|Hne].
  - rewrite lookup_alter_eq. intros (th0 & -> & ->)%fmap_Some. eauto.
  - rewrite lookup_alter_ne by done. eauto.
Qed.
Lemma deliver_is_Some ths fr w0 : is_Some (deliver ths fr !! w0) ↔ is_Some (ths !! w0).
Proof. destruct fr as [|w [|d [|]]]; simpl; [done|done| |done]. by rewrite lookup_alter_is_Some. Qed.

(** Handing a reply to its thread loses no request and no other reply. *)
Lemma in_flight_delivered s r d rest m w w0 q th th' :
  inbox (validator (sys_router s)) = [d] :: rest → LoadMsg d = (m, None) →
  ids (sys_router s) !! Message_CorrelationId m = Some w →
  inbox (validator r) = rest → inbox (workers r) = inbox (workers (sys_router s)) →
  ids r = delete (Message_CorrelationId m) (ids (sys_router s)) →
  val_inbox (after_router s r) = val_inbox s →
  sys_threads s !! w0 = Some th → sys_threads (after_router s r) !! w0 = Some th' →
  th_conn th' = (if decide (w = w0) then arrive [d] (th_conn th) else th_conn th) →
  in_flight s w0 q → in_flight (after_router s r) w0 q.
Proof.
  intros Ein Hd Hw Hi Hwi Hids Hvb Hth Hth' Hconn. set (k := Message_CorrelationId m) in *.
  assert (Hgot : w0 = w → k = Message_CorrelationId q → in_flight (after_router s r) w0 q).
  { intros -> Ek. right. right. right. exists th', m. split; [done|].
    split; [|done]. rewrite Hconn, decide_True by done. apply (holds_arrive _ _ _ _ Hd). by right. }
  intros [(d0 & Hin & Hd0)|[HU|[(fr & m0 & Hin & Hc & Hr0 & Hk0 & Hw0)|(th1 & m0 & Hth1 & Hh & Hk0)]]].
  - left. exists d0. change (inbox (workers _)) with (inbox (workers r)). by rewrite Hwi.
  - right. left. by rewrite Hvb.
  - destruct (decide (k = Message_CorrelationId q)) as [Ek|Hne].
    { apply Hgot; [|done]. rewrite <-Ek, Hw in Hw0. by injection Hw0. }
    rewrite Ein in Hin. apply elem_of_cons in Hin as [->|Hin].
    { exfalso. apply Hne. rewrite <-Hk0. unfold k. f_equal.
      apply (carries_fun [d]); [by exists d|done]. }
    right. right. left. exists fr, m0. change (inbox (validator _)) with (inbox (validator r)).
    rewrite Hi. split_and!; try done. simpl. by rewrite Hids, lookup_delete_ne.
  - rewrite Hth in Hth1. injection Hth1 as <-. right. right. right. exists th', m0.
    split; [done|]. split; [|done]. rewrite Hconn. case_decide; [|done].
    apply (holds_arrive _ _ _ _ Hd). by left.
Qed.

Lemma inv_reply v0 s r d rest m w :
  Inv v0 s → inbox (validator (sys_router s)) = [d] :: rest → LoadMsg d = (m, None) →
  is_reply m → ids (sys_router s) !! Message_CorrelationId m = Some w →
  inbox (validator r) = rest → inbox (workers r) = inbox (workers (sys_router s)) →
  ids r = delete (Message_CorrelationId m) (ids (sys_router s)) →
  outbox (workers r) = [[w; d]] → outbox (validator r) = [] →
  Inv v0 (after_router s r).
Proof.
  intros HI Ein Hd Hm Hw Hi Hwi Hids Ho Hvo. set (k := Message_CorrelationId m) in *.
  destruct (i_replies _ _ HI [d]) as (m' & Hc & Hq); [rewrite Ein; set_solver|].
  assert (m' = m) as -> by (apply (carries_fun [d]); [done|by exists d]). clear Hc.
  destruct (Hq Hm) as [q Hex]. destruct (i_execs _ _ HI _ _ Hex) as (Hk & _ & w1 & Hcall).
  destruct (i_ids _ _ HI _ _ Hw) as (q' & Hcall' & Hk').
  destruct (call_unique _ _ _ _ _ _ HI Hcall Hcall') as [-> <-]; [unfold k in *; congruence|].
  assert (Hrep : replies_to (trace s) w m) by (by exists q).
  assert (Hths : sys_threads (after_router s r) = deliver (sys_threads s) [w; d])
    by (simpl; by rewrite Ho).
  assert (Hvb : val_inbox (after_router s r) = val_inbox s) by (simpl; by rewrite Hvo, app_nil_r).
  split; try apply HI.
  - intros w0 q0 Hcq. rewrite Hths, deliver_is_Some. by apply HI.
  - by split.
  - intros fr. change (inbox (workers _)) with (inbox (workers r)). rewrite Hwi. apply HI.
  - rewrite Hvb. intros fr Hfr. destruct (i_validator _ _ HI _ Hfr) as (m0 & Hc & Hq0).
    exists m0. split; [done|]. intros Hc0. destruct (Hq0 Hc0) as (w0 & ? & ?). exists w0.
    split; [done|]. simpl. rewrite Hids, lookup_delete_ne; [done|].
    intros E. apply (not_executed _ _ _ _ _ _ HI Hfr Hc Hc0 Hex). congruence.
  - unfold pending. rewrite Hvb. change (inbox (workers (sys_router (after_router s r))))
      with (inbox (workers r)). rewrite Hwi. apply HI.
  - intros k0 w0. simpl. rewrite Hids. intros [_ ?]%lookup_delete_Some. by apply HI.
  - intros fr. change (inbox (validator _)) with (inbox (validator r)). rewrite Hi. intros Hfr.
    apply (i_replies _ _ HI). rewrite Ein. by right.
  - intros w0. rewrite Hths, deliver_is_Some. apply HI.
  - intros w0 th. rewrite Hths. intros (th0 & Hth0 & _ & ->)%lookup_deliver.
    pose proof (i_threads _ _ HI _ _ Hth0). case_decide; subst; [|done].
    by eapply thread_ok_arrive.
  - intros w0 th id Hth Hid. rewrite Hths in Hth.
    destruct (lookup_deliver _ _ _ _ _ Hth) as (th0 & Hth0 & Hwt & Hconn). rewrite Hwt in Hid.
    destruct (i_waiting _ _ HI _ _ _ Hth0 Hid) as (q0 & Hq0 & Hqid & Hfl).
    exists q0. split; [done|]. split; [done|].
    eapply (in_flight_delivered s r d rest m w w0 q0 th0 th); try done. by rewrite Hths.
Qed.

Context `{!ProtoLaws Message}.

Lemma own_answer_frame fr :
  own_answer fr → (∃ m, carries fr m ∧ ¬ is_call m) ∧ frame_call fr = None.
Proof.
  intros (t & b & corr & d & -> & Hd & Hn). pose proof (LoadMsg_DumpMsg _ _ _ _ Hd) as Hl.
  split; [eexists; split; [by exists d|done]|].
  unfold frame_call, frame_msg. simpl. rewrite Hl. by rewrite decide_False.
Qed.

Lemma inv_quiet v0 s r d rest m own :
  Inv v0 s → inbox (validator (sys_router s)) = [d] :: rest → LoadMsg d = (m, None) →
  (is_reply m → Message_CorrelationId m ≠ "" →
     ids (sys_router s) !! Message_CorrelationId m = None) →
  inbox (validator r) = rest → inbox (workers r) = inbox (workers (sys_router s)) →
  ids r = ids (sys_router s) → outbox (workers r) = [] → outbox (validator r) = own →
  Forall own_answer own → Inv v0 (after_router s r).
Proof.
  intros HI Ein Hd Hno Hi Hwi Hids Ho Hvo Hown.
  assert (Hth : sys_threads (after_router s r) = sys_threads s) by (simpl; by rewrite Ho).
  split; try (rewrite Hth); try apply HI.
  - by split.
  - intros fr. change (inbox (workers _)) with (inbox (workers r)). rewrite Hwi. apply HI.
  - intros fr. simpl. rewrite Hvo, Hids, elem_of_app. intros [Hfr|Hfr]; [by apply HI|].
    rewrite list.Forall_forall in Hown. destruct (own_answer_frame _ (Hown _ Hfr)) as [(m0 & ? & ?) _].
    exists m0. by split.
  - unfold pending. change (inbox (workers (sys_router (after_router s r))))
      with (inbox (workers r)). simpl (val_inbox _). rewrite Hwi, Hvo, omap_app, (omap_none _ own).
    { rewrite app_nil_r. apply HI. }
    eapply Forall_impl; [exact Hown|]. intros fr Hfr. apply (own_answer_frame _ Hfr).
  - intros k w. simpl. rewrite Hids. apply HI.
  - intros fr. change (inbox (validator _)) with (inbox (validator r)). rewrite Hi. intros Hfr.
    apply (i_replies _ _ HI). rewrite Ein. by right.
  - intros w th id Hw Hid. destruct (i_waiting _ _ HI _ _ _ Hw Hid) as (q & Hq & Hqid & Hfl).
    exists q. split; [done|]. split; [done|].
    destruct Hfl as [HU|[(fr & Hin & Hc)|[(fr & m0 & Hin & Hc & Hr & Hk & Hw0)|HD]]].
    + left. by rewrite <-Hwi in HU.
    + right. left. exists fr. simpl. set_solver.
    + right. right. left. exists fr, m0. rewrite Ein in Hin.
      apply elem_of_cons in Hin as [->|Hin].
      * exfalso. assert (m = m0) as <- by (apply (carries_fun [d]); [by exists d|done]).
        rewrite <-Hk in Hw0. rewrite Hno in Hw0; [done|done|]. rewrite Hk.
        apply (i_calls _ _ HI w), last_call_in, Hq.
      * change (inbox (validator _)) with (inbox (validator r)). rewrite Hi.
        split_and!; try done. simpl. by rewrite Hids.
    + right. right. right. by rewrite Hth.
Qed.

Lemma inv_from_validator v0 s r :
  Inv v0 s → inbox (validator (sys_router s)) ≠ [] → receiveValidator (sys_router s) = (Ret tt, r) →
  Inv v0 (after_router s r).
Proof.
  intros HI Hne Hr. destruct (inbox (validator (sys_router s))) as [|fr rest] eqn:Ein; [done|].
  destruct (i_replies _ _ HI fr) as (m & (d & -> & Hd) & _); [rewrite Ein; set_solver|].
  destruct (receiveValidator_link _ _ _ _ Ein Hd) as (r' & Hr' & Hi & Hwi & Hcases).
  rewrite Hr in Hr'. injection Hr' as <-. destruct (i_sent _ _ HI) as [Hs1 Hs2].
  destruct Hcases as [(w & Hm & Hw & Hids & Ho & Hvo)|(Hids & Ho & (own & Hvo & Hown & _) & Hno)];
    rewrite Hs1 in Ho; rewrite Hs2 in Hvo.
  - assert (Hn : w ≠ "").
    { destruct (i_ids _ _ HI _ _ Hw) as (q & Hq & _). by apply HI, (i_calls _ _ HI _ q). }
    rewrite decide_True in Ho by done. by eapply inv_reply.
  - by eapply inv_quiet.
Qed.

(** *** Steps of threads *)

Lemma in_flight_mono s s' w q :
  inbox (workers (sys_router s)) ⊆ inbox (workers (sys_router s')) → val_inbox s ⊆ val_inbox s' →
  inbox (validator (sys_router s)) ⊆ inbox (validator (sys_router s')) →
  ids (sys_router s') = ids (sys_router s) → sys_threads s' !! w = sys_threads s !! w →
  in_flight s w q → in_flight s' w q.
Proof.
  intros Hw Hv Hr Hids Hth [(d & ? & ?)|[(fr & ? & ?)|[(fr & m & ? & ?)|HD]]].
  - left. exists d. auto.
  - right. left. exists fr. auto.
  - right. right. left. exists fr, m. rewrite Hids. naive_solver.
  - right. right. right. by rewrite Hth.
Qed.

Lemma thread_ok_mono tr e w c c' :
  (∀ m, holds c' m → holds c m) → clean c' → conn_wf c' → outbox c' = [] →
  thread_ok tr w c → thread_ok (tr ++ e) w c'.
Proof.
  intros Hh Hc Hwf Ho Hok. split; [done..|]. intros m (q & ? & ?)%Hh%(ok_holds _ _ _ Hok).
  exists q. rewrite execs_app, calls_app, !elem_of_app. auto.
Qed.

(** Every identifier on its way or executed is that of a call. *)
Lemma pending_called v0 s k :
  Inv v0 s → k ∈ pending s → k ∈ call_ids (trace s).
Proof.
  intros HI. unfold pending. rewrite !elem_of_app.
  assert (Hfr : ∀ fr m, (∃ i, frame_msg fr = Some (i, m, None)) → frame_call fr = Some k →
    is_call m ∧ k = Message_CorrelationId m).
  { intros fr m (i & E). unfold frame_call. rewrite E. case_decide; naive_solver. }
  intros [(fr & Hin & Hk)%list_elem_of_omap|[(fr & Hin & Hk)%list_elem_of_omap|Hex]].
  - destruct (i_workers _ _ HI _ Hin) as (w & d & m & -> & Hd & Hm).
    destruct (Hfr [w; d] m) as [Hc ->]; [exists w; unfold frame_msg; simpl; by rewrite Hd|done|].
    destruct Hm as [Hm|Ht]; [|by destruct Hc].
    apply list_elem_of_fmap. by exists (w, m).
  - destruct (i_validator _ _ HI _ Hin) as (m & (d & -> & Hd) & Hm).
    destruct (Hfr [d] m) as [Hc ->]; [exists ""; unfold frame_msg; simpl; by rewrite Hd|done|].
    destruct (Hm Hc) as (w & ? & _). apply list_elem_of_fmap. by exists (w, m).
  - apply list_elem_of_fmap in Hex as ([q a] & -> & Hex).
    destruct (i_execs _ _ HI _ _ Hex) as (_ & _ & w & ?). apply list_elem_of_fmap. by exists (w, q).
Qed.

Lemma thread_present s w th th' w0 :
  sys_threads s !! w = Some th →
  is_Some (<[w := th']> (sys_threads s) !! w0) ↔ is_Some (sys_threads s !! w0).
Proof.
  intros Hth. rewrite lookup_insert_is_Some. destruct (decide (w = w0)) as [<-|Hne]; [|naive_solver].
  rewrite Hth. split; [by eexists|by left].
Qed.

(** A call with a new identifier is on its way once. *)
Lemma once_called v0 s s' w d q :
  Inv v0 s → LoadMsg d = (q, None) → is_call q →
  Message_CorrelationId q ∉ call_ids (trace s) →
  inbox (workers (sys_router s')) = inbox (workers (sys_router s)) ++ [[w; d]] →
  val_inbox s' = val_inbox s → execs (trace s') = execs (trace s) → NoDup (pending s').
Proof.
  intros HI Hl Hq Hnew Hin Hvb He. unfold pending, exec_ids. rewrite Hin, He, Hvb, omap_app.
  assert (E : omap frame_call [[w; d]] = [Message_CorrelationId q]).
  { simpl. rewrite frame_call_strip. unfold frame_call, frame_msg. simpl. rewrite Hl.
    by rewrite decide_True. }
  rewrite E. assert (Hn : NoDup (Message_CorrelationId q :: pending s)).
  { constructor; [|apply HI]. intros ?%(pending_called _ _ _ HI). done. }
  revert Hn. apply NoDup_Permutation_proper. unfold pending. solve_Permutation.
Qed.

(** A thread that calls waits for a request that is under way, and the others still
    wait for theirs. *)
Lemma waiting_called v0 s s' w th' d q w0 th id :
  Inv v0 s → trace s' = trace s ++ [Called w q] → sys_threads s' = <[w := th']> (sys_threads s) →
  th_waits th' = Some (Message_CorrelationId q) → LoadMsg d = (q, None) →
  inbox (workers (sys_router s')) = inbox (workers (sys_router s)) ++ [[w; d]] →
  val_inbox s' = val_inbox s → validator (sys_router s') = validator (sys_router s) →
  ids (sys_router s') = ids (sys_router s) →
  sys_threads s' !! w0 = Some th → th_waits th = Some id →
  ∃ q, last_call (trace s') w0 = Some q ∧ Message_CorrelationId q = id ∧ in_flight s' w0 q.
Proof.
  intros HI -> Hths Hwt Hl Hin Hvb Hval Hids Hw0 Hid. rewrite Hths in Hw0.
  apply lookup_insert_Some in Hw0 as [[<- <-]|[Hne Hw0]].
  - rewrite Hwt in Hid. injection Hid as <-. exists q. split; [apply last_call_snoc|].
    split; [done|]. left. exists d. rewrite Hin. set_solver.
  - destruct (i_waiting _ _ HI _ _ _ Hw0 Hid) as (q0 & ? & ? & ?). exists q0.
    rewrite last_call_other by done. split; [done|]. split; [done|].
    apply (in_flight_mono s); [rewrite Hin; set_solver|by rewrite Hvb|by rewrite Hval|by rewrite Hids| |done].
    by rewrite Hths, lookup_insert_ne.
Qed.

Lemma inv_call v0 s w c msg id t b c' :
  Inv v0 s →
  sys_threads s !! w = Some {| th_conn := c; th_job := Some msg; th_waits := None |} →
  id ≠ "" → id ∉ call_ids (trace s) →
  let q := {| Message_MessageType := t; Message_CorrelationId := id; Message_Content := b |} in
  is_call q → zmq_SendNewMsg t b (with_id id c) = (Ret (id, None), c') →
  Inv v0 (after_thread s w {| th_conn := c'; th_job := Some msg; th_waits := Some id |} [Called w q]).
Proof.
  intros HI Hth Hid Hnew q Hq (d & Hd & ->)%SendNewMsg_link.
  pose proof (LoadMsg_DumpMsg _ _ _ _ Hd) as Hl. fold q in Hl.
  pose proof (i_threads _ _ HI _ _ Hth) as Hok. cbn [th_conn] in Hok.
  assert (Hout : outbox (depart [d] (with_id id c)) = [[d]]).
  { change (outbox c ++ [[d]] = [[d]]). by rewrite (ok_sent _ _ _ Hok). }
  destruct (inbox_arrivals w [[d]] (workers (sys_router s))) as [Hin Hso].
  set (s' := after_thread s w _ _).
  assert (Hin' : inbox (workers (sys_router s')) = inbox (workers (sys_router s)) ++ [[w; d]]).
  { simpl. rewrite Hout. exact Hin. }
  assert (Hc' : calls (trace s') = calls (trace s) ++ [(w, q)]) by (simpl; by rewrite calls_app).
  assert (He' : execs (trace s') = execs (trace s)).
  { simpl. rewrite execs_app. simpl. by rewrite app_nil_r. }
  assert (Hsome : ∀ w0, is_Some (sys_threads s' !! w0) ↔ is_Some (sys_threads s !! w0)).
  { intros w0. exact (thread_present _ _ _ _ _ Hth). }
  split; rewrite ?He', ?Hc', ?Hin'; try apply HI.
  - apply ordered_snoc; [apply HI|done].
  - unfold call_ids. rewrite Hc', fmap_app. apply NoDup_app. split; [apply HI|]. split; [|apply NoDup_singleton].
    intros k Hk Hk'. apply list_elem_of_singleton in Hk' as ->. done.
  - intros w0 q0. rewrite elem_of_app, list_elem_of_singleton, Hsome.
    intros [?|[= -> ->]]; [by apply HI|]. split; [done|]. split; [done|]. by rewrite Hth.
  - intros q0 a Hex. destruct (i_execs _ _ HI _ _ Hex) as (? & ? & w0 & ?).
    split; [done|]. split; [done|]. exists w0. set_solver.
  - simpl. rewrite Hout. split; [|apply HI]. rewrite Hso. apply HI.
  - intros fr. rewrite elem_of_app, list_elem_of_singleton. intros [Hfr| ->].
    + destruct (i_workers _ _ HI _ Hfr) as (w0 & d0 & m0 & -> & ? & ?).
      exists w0, d0, m0. set_solver.
    + exists w, d, q. set_solver.
  - intros fr Hfr. destruct (i_validator _ _ HI _ Hfr) as (m0 & ? & Hm0). exists m0.
    split; [done|]. intros (w0 & ? & ?)%Hm0. exists w0. set_solver.
  - by apply (once_called v0 s s' w d q).
  - intros k w0 Hk. destruct (i_ids _ _ HI _ _ Hk) as (q0 & ? & ?). exists q0. set_solver.
  - intros w0. rewrite Hsome. apply HI.
  - intros w0 th Hw0. cbn [s' after_thread sys_threads] in Hw0.
    apply lookup_insert_Some in Hw0 as [[<- <-]|[_ Hw0]].
    + apply (thread_ok_mono _ _ _ c); [done|apply Hok|apply Hok|done|done].
    + pose proof (i_threads _ _ HI _ _ Hw0) as Hok0.
      apply (thread_ok_mono _ _ _ (th_conn th)); [done|apply Hok0..|done].
  - intros w0 th id0. by apply (waiting_called v0 s s' w _ d q _ _ _ HI eq_refl eq_refl).
Qed.

(** A step of a thread that is no call: it sends process responses at most, and does
    not wait afterwards. *)
Definition response_of (w : string) (fr : list string) : Prop :=
  ∃ d m, fr = [w; d] ∧ LoadMsg d = (m, None) ∧ Message_MessageType m = Message_TP_PROCESS_RESPONSE.

Record local_step s (w : string) (s' : System) (th' : Thread) (e : list event)
    (extra : list (list string)) : Prop := {
  l_threads : sys_threads s' = <[w := th']> (sys_threads s);
  l_waits : th_waits th' = None;
  l_trace : trace s' = trace s ++ e ∧ calls e = [] ∧ execs e = [];
  l_validator : val_inbox s' = val_inbox s ∧ val_state s' = val_state s;
  l_router : ids (sys_router s') = ids (sys_router s) ∧
    validator (sys_router s') = validator (sys_router s) ∧
    outbox (workers (sys_router s')) = outbox (workers (sys_router s));
  l_inbox : inbox (workers (sys_router s')) = inbox (workers (sys_router s)) ++ extra;
  l_extra : Forall (response_of w) extra }.

Lemma inv_local v0 s w th s' th' e extra :
  Inv v0 s → sys_threads s !! w = Some th → local_step s w s' th' e extra →
  ordered (trace s') → thread_ok (trace s) w (th_conn th') → Inv v0 s'.
Proof.
  intros HI Hth [Hths Hwt (Htr & Hce & Hee) [Hvb Hvs] (Hids & Hval & Hso) Hin Hex] Hord Hok.
  assert (Hc : calls (trace s') = calls (trace s)) by (by rewrite Htr, calls_app, Hce, app_nil_r).
  assert (He : execs (trace s') = execs (trace s)) by (by rewrite Htr, execs_app, Hee, app_nil_r).
  assert (Hsome : ∀ w0, is_Some (sys_threads s' !! w0) ↔ is_Some (sys_threads s !! w0)).
  { intros w0. rewrite Hths. exact (thread_present _ _ _ _ _ Hth). }
  assert (Hokm : ∀ w0 c, thread_ok (trace s) w0 c → thread_ok (trace s') w0 c).
  { intros w0 c Hok0. rewrite Htr. apply (thread_ok_mono _ _ _ c); [done|apply Hok0..|done]. }
  split; rewrite ?Hc, ?He, ?Hin, ?Hvb, ?Hvs, ?Hids, ?Hval, ?Hso; try apply HI; [done|..].
  - unfold call_ids. rewrite Hc. apply HI.
  - intros w0 q0. rewrite Hsome. apply HI.
  - intros fr. rewrite elem_of_app. intros [Hfr|Hfr]; [by apply HI|].
    rewrite list.Forall_forall in Hex. destruct (Hex _ Hfr) as (d & m & -> & ? & ?).
    exists w, d, m. auto.
  - unfold pending, exec_ids. rewrite Hin, Hvb, He, omap_app, (omap_none _ extra), app_nil_r; [apply HI|].
    eapply Forall_impl; [exact Hex|]. intros fr (d & m & -> & Hd & Hm).
    unfold frame_call, frame_msg. simpl. rewrite Hd. by rewrite decide_False by (intros []; done).
  - intros w0. rewrite Hsome. apply HI.
  - intros w0 th0 Hw0. rewrite Hths in Hw0. apply Hokm.
    apply lookup_insert_Some in Hw0 as [[<- <-]|[_ Hw0]]; [done|by apply HI].
  - intros w0 th0 id Hw0 Hid. rewrite Hths in Hw0.
    apply lookup_insert_Some in Hw0 as [[<- <-]|[Hne Hw0]]; [congruence|].
    destruct (i_waiting _ _ HI _ _ _ Hw0 Hid) as (q & Hq & ? & ?). exists q.
    unfold last_call. rewrite Hc. split; [done|]. split; [done|].
    apply (in_flight_mono s); rewrite ?Hin, ?Hvb, ?Hval, ?Hths, ?lookup_insert_ne by done; set_solver.
Qed.

Lemma after_thread_local s w th e extra :
  th_waits th = None → calls e = [] → execs e = [] →
  (λ fr, w :: fr) <$> outbox (th_conn th) = extra → Forall (response_of w) extra →
  local_step s w (after_thread s w th e)
    {| th_conn := flush (th_conn th); th_job := th_job th; th_waits := th_waits th |} e extra.
Proof.
  intros Hwt Hc He Hout Hex.
  destruct (inbox_arrivals w (outbox (th_conn th)) (workers (sys_router s))) as [Hi Ho].
  rewrite Hout in Hi. by split.
Qed.

Lemma inv_return v0 s w c job id fuel i m err c' :
  Inv v0 s →
  sys_threads s !! w = Some {| th_conn := c; th_job := job; th_waits := Some id |} →
  zmq_RecvMsgWithId fuel id c = (Ret (i, Some m, err), c') →
  Inv v0 (after_thread s w {| th_conn := c'; th_job := job; th_waits := None |} [Returned w m]).
Proof.
  intros HI Hth Hr. pose proof (i_threads _ _ HI _ _ Hth) as Hok. cbn [th_conn] in Hok.
  pose proof (recv_corr _ _ _ _ _ _ _ (ok_wf _ _ _ Hok) Hr) as Hid.
  destruct (RecvMsgWithId_link _ _ _ _ _ _ _ (ok_clean _ _ _ Hok) Hr) as (Hm & Hsub & Hcl & Ho).
  rewrite (ok_sent _ _ _ Hok) in Ho.
  assert (Hok' : thread_ok (trace s) w (flush c')).
  { split; [done|exact Hcl| |].
    - exact (preserves_Ret _ _ _ _ _ (zmq_RecvMsgWithId_wf fuel id) Hr (ok_wf _ _ _ Hok)).
    - intros m' Hm'. apply (ok_holds _ _ _ Hok), Hsub. exact Hm'. }
  eapply (inv_local _ _ w _ _ _ _ []);
    [done|exact Hth|apply after_thread_local; [done..| |]| |exact Hok'].
  - cbn [th_conn]. by rewrite Ho.
  - constructor.
  - apply ordered_snoc; [apply HI|]. simpl.
    destruct (i_waiting _ _ HI _ _ _ Hth eq_refl) as (q & Hq & Hqid & _).
    destruct (ok_holds _ _ _ Hok _ Hm) as (q' & Hex & Hcall). exists q. split; [done|].
    destruct (i_execs _ _ HI _ _ Hex) as (Hk & _).
    destruct (call_unique _ _ _ _ _ _ HI (last_call_in _ _ _ Hq) Hcall) as [_ ->]; [congruence|done].
Qed.

Lemma inv_respond v0 s w c msg b c' :
  Inv v0 s →
  sys_threads s !! w = Some {| th_conn := c; th_job := Some msg; th_waits := None |} →
  zmq_SendMsg Message_TP_PROCESS_RESPONSE b (Message_CorrelationId msg) c = (Ret None, c') →
  Inv v0 (after_thread s w {| th_conn := c'; th_job := None; th_waits := None |} []).
Proof.
  intros HI Hth (d & Hd & ->)%SendMsg_sent. pose proof (LoadMsg_DumpMsg _ _ _ _ Hd) as Hl.
  pose proof (i_threads _ _ HI _ _ Hth) as Hok. cbn [th_conn] in Hok.
  eapply (inv_local _ _ w _ _ _ _ [[w; d]]);
    [done|exact Hth|apply after_thread_local; [done..| |]| |].
  - cbn [th_conn]. change (outbox (depart [d] c)) with (outbox c ++ [[d]]).
    by rewrite (ok_sent _ _ _ Hok).
  - repeat constructor. by eexists _, _.
  - simpl. rewrite app_nil_r. apply HI.
  - split; [done|apply Hok..].
Qed.

Lemma inv_take v0 s w c msg rest :
  Inv v0 s →
  sys_threads s !! w = Some {| th_conn := c; th_job := None; th_waits := None |} →
  Inv v0 {| sys_router := set_queue rest (sys_router s);
            sys_threads := <[w := {| th_conn := c; th_job := Some msg; th_waits := None |}]>
                             (sys_threads s);
            val_inbox := val_inbox s; val_state := val_state s; trace := trace s |}.
Proof.
  intros HI Hth. pose proof (i_threads _ _ HI _ _ Hth) as Hok.
  apply (inv_local _ _ w _ _ {| th_conn := c; th_job := Some msg; th_waits := None |} [] [] HI Hth);
    [|apply HI|exact Hok].
  split; try done; cbn; rewrite app_nil_r; done.
Qed.

(** *** Steps of the validator *)

Lemma inv_request v0 s m d :
  Inv v0 s → ¬ is_reply m → Marshal m = inr d →
  Inv v0 {| sys_router := to_router s d; sys_threads := sys_threads s;
            val_inbox := val_inbox s; val_state := val_state s; trace := trace s |}.
Proof.
  intros HI Hm Hd. pose proof (Unmarshal_Marshal _ _ Hd) as Hl.
  split; try apply HI.
  - intros fr. change (inbox (validator _)) with (inbox (validator (sys_router s)) ++ [[d]]).
    rewrite elem_of_app, list_elem_of_singleton. intros [?| ->]; [by apply HI|].
    exists m. split; [by exists d|done].
  - intros w th id Hw Hid. destruct (i_waiting _ _ HI _ _ _ Hw Hid) as (q & ? & ? & ?).
    exists q. split; [done|]. split; [done|]. apply (in_flight_mono s); try done.
    change (inbox (validator (sys_router s)) ⊆ inbox (validator (sys_router s)) ++ [[d]]).
    set_solver.
Qed.

Lemma inv_ignore v0 s fr rest :
  Inv v0 s → val_inbox s = fr :: rest →
  (∀ i q, frame_msg fr = Some (i, q, None) → ¬ is_call q) →
  Inv v0 {| sys_router := sys_router s; sys_threads := sys_threads s; val_inbox := rest;
            val_state := val_state s; trace := trace s |}.
Proof.
  intros HI Ev Hno. split; try apply HI.
  - intros fr' Hfr. apply (i_validator _ _ HI). rewrite Ev. by right.
  - pose proof (i_once _ _ HI) as Hn. unfold pending in *. rewrite Ev in Hn. simpl in *.
    destruct (frame_call fr) as [k|]; [|done]. simpl in Hn.
    rewrite <-Permutation_middle in Hn. by apply NoDup_cons in Hn as [_ ?].
  - intros w th id Hw Hid. destruct (i_waiting _ _ HI _ _ _ Hw Hid) as (q & Hq & ? & Hfl).
    exists q. split; [done|]. split; [done|].
    destruct Hfl as [HU|[(fr' & Hin & Hc)|HD]]; [by left| |by right; right].
    right. left. rewrite Ev in Hin. apply elem_of_cons in Hin as [->|Hin]; [|by exists fr'].
    exfalso. apply (Hno _ _ (carries_frame _ _ Hc)). by apply (i_calls _ _ HI w), last_call_in.
Qed.

Context (serve_reply : ∀ v q t b v', serve v q = Some (t, b, v') →
  t ≠ Message_TP_PROCESS_REQUEST ∧ t ≠ Message_PING_REQUEST).

Lemma inv_serve v0 s fr rest i q t b v d :
  Inv v0 s → val_inbox s = fr :: rest → frame_msg fr = Some (i, q, None) → is_call q →
  serve (val_state s) q = Some (t, b, v) → DumpMsg t b (Message_CorrelationId q) = inr d →
  Inv v0 {| sys_router := to_router s d; sys_threads := sys_threads s; val_inbox := rest;
            val_state := v;
            trace := trace s ++ [Executed q {| Message_MessageType := t;
              Message_CorrelationId := Message_CorrelationId q; Message_Content := b |}] |}.
Proof.
  intros HI Ev Hfr Hq Hs Hd. set (a := Build_Message _ _ _). set (s' := Build_System _ _ _ _ _).
  pose proof (LoadMsg_DumpMsg _ _ _ _ Hd) as Hl. fold a in Hl.
  assert (Hin : fr ∈ val_inbox s) by (rewrite Ev; by left).
  destruct (i_validator _ _ HI _ Hin) as (m & Hc & Hm).
  rewrite (carries_frame _ _ Hc) in Hfr. injection Hfr as _ ->.
  destruct (Hm Hq) as (w & Hcall & Hw).
  assert (Hcs : calls (trace s') = calls (trace s)).
  { simpl. rewrite calls_app. by rewrite app_nil_r. }
  assert (Hes : execs (trace s') = execs (trace s) ++ [(q, a)]) by (simpl; by rewrite execs_app).
  assert (Hvi : inbox (validator (sys_router s')) = inbox (validator (sys_router s)) ++ [[d]]) by done.
  split; rewrite ?Hcs, ?Hes, ?Hvi; try apply HI.
  - by apply (serial_snoc _ _ _ (val_state s)); [apply HI|].
  - apply ordered_snoc; [apply HI|]. split; [eauto|]. intros a' Hex.
    by apply (not_executed _ _ _ _ _ _ HI Hin Hc Hq Hex).
  - unfold call_ids. rewrite Hcs. apply HI.
  - intros q0 a0. rewrite elem_of_app, list_elem_of_singleton. intros [?|[= -> ->]]; [by apply HI|].
    split; [done|]. split; [|eauto]. by apply (serve_reply _ _ _ _ _ Hs).
  - intros fr' Hfr'. apply (i_validator _ _ HI). rewrite Ev. by right.
  - pose proof (i_once _ _ HI) as Hn. unfold pending, exec_ids in *. rewrite Hes, fmap_app. rewrite Ev in Hn.
    simpl in *. assert (E : frame_call fr = Some (Message_CorrelationId q)).
    { unfold frame_call. by rewrite (carries_frame _ _ Hc), decide_True. }
    rewrite E in Hn. revert Hn. apply NoDup_Permutation_proper. solve_Permutation.
  - intros fr'. rewrite elem_of_app, list_elem_of_singleton. intros [Hfr'| ->].
    + destruct (i_replies _ _ HI _ Hfr') as (m' & ? & Hm'). exists m'. split; [done|].
      intros (q' & ?)%Hm'. exists q'. set_solver.
    + exists a. split; [by exists d|]. intros _. exists q. set_solver.
  - intros w0 th Hw0. pose proof (i_threads _ _ HI _ _ Hw0) as Hok.
    apply (thread_ok_mono _ _ _ (th_conn th)); [done|apply Hok..|done].
  - intros w0 th id Hw0 Hid. destruct (i_waiting _ _ HI _ _ _ Hw0 Hid) as (q0 & Hq0 & ? & Hfl).
    exists q0. unfold last_call. rewrite Hcs. split; [done|]. split; [done|].
    destruct Hfl as [HU|[(fr' & Hin' & Hc')|[(fr' & m' & Hin' & HD)|HD]]];
      [by left| | |by right; right; right].
    + rewrite Ev in Hin'. apply elem_of_cons in Hin' as [->|Hin']; [|right; left; by exists fr'].
      assert (q0 = q) as -> by (by eapply carries_fun). right. right. left. exists [d], a.
      rewrite Hvi. split; [set_solver|]. split; [by exists d|].
      split; [by apply (serve_reply _ _ _ _ _ Hs)|]. split; [done|].
      by destruct (call_unique _ _ _ _ _ _ HI (last_call_in _ _ _ Hq0) Hcall eq_refl) as [-> _].
    + right. right. left. exists fr', m'. rewrite Hvi. split; [set_solver|done].
Qed.

Lemma inv_step v0 s s' : step s s' → Inv v0 s → Inv v0 s'.
Proof.
  intros [] HI.
  - by apply inv_workers.
  - by apply inv_from_validator.
  - by eapply inv_take.
  - by eapply inv_call.
  - by eapply inv_return.
  - by eapply inv_respond.
  - by eapply inv_serve.
  - by eapply inv_ignore.
  - by eapply inv_request.
Qed.

Lemma inv_run v0 s s' : rtc step s s' → Inv v0 s → Inv v0 s'.
Proof. induction 1 as [|s s1 s' Hs _ IH]; [done|]. intros HI. apply IH. by eapply inv_step. Qed.

(** *** Progress *)

Context `{!ProtoTotal Message}.
Context (serve_total : ∀ v q, is_call q → ∃ t b v', serve v q = Some (t, b, v')).

Definition waits s (w id : string) : Prop :=
  ∃ th, sys_threads s !! w = Some th ∧ th_waits th = Some id.

(** How much the router and the validator have to do. *)
Definition weight (fr : list string) : nat :=
  match frame_call fr with Some _ => 3 | None => 1 end.
Definition work s : nat :=
  4 * length (inbox (workers (sys_router s))) + sum_list_with weight (val_inbox s) +
  2 * length (inbox (validator (sys_router s))).

(** What the router does leaves the threads at their jobs. *)
Definition at_work s (w : string) : option (option Message * option string) :=
  (λ th, (th_job th, th_waits th)) <$> sys_threads s !! w.
Lemma at_work_router s r w : at_work (after_router s r) w = at_work s w.
Proof.
  unfold at_work. simpl. generalize (sys_threads s).
  induction (outbox (workers r)) as [|fr frs IH]; intros ths; [done|]. simpl. rewrite IH.
  destruct fr as [|w0 [|d [|]]]; simpl; try done.
  destruct (decide (w0 = w)) as [->|Hne].
  - rewrite lookup_alter_eq. by destruct (ths !! w).
  - by rewrite lookup_alter_ne.
Qed.
Lemma waits_at_work s w id : waits s w id ↔ snd <$> at_work s w = Some (Some id).
Proof.
  unfold waits, at_work. destruct (sys_threads s !! w) as [th|]; simpl; [|by split; [intros (?&?&?)|]].
  split; [intros (th' & [= <-] & ->)|intros [= E]]; eauto.
Qed.

Lemma work_router s r :
  work (after_router s r) = (4 * length (inbox (workers r)) + sum_list_with weight (val_inbox s) +
    sum_list_with weight (outbox (validator r)) + 2 * length (inbox (validator r)))%nat.
Proof.
  unfold work. simpl (val_inbox _). rewrite sum_list_with_app.
  change (inbox (workers (sys_router (after_router s r)))) with (inbox (workers r)).
  change (inbox (validator (sys_router (after_router s r)))) with (inbox (validator r)). lia.
Qed.

Lemma weight_bounds fr : (1 ≤ weight fr ≤ 3)%nat.
Proof. unfold weight. case_match; lia. Qed.

Lemma own_answers_light own :
  Forall own_answer own → (length own ≤ 1)%nat → (sum_list_with weight own ≤ 1)%nat.
Proof.
  destruct own as [|fr [|]]; simpl; [lia| |lia]. intros [Hfr _]%Forall_cons_1 _.
  unfold weight. rewrite (proj2 (own_answer_frame _ Hfr)). lia.
Qed.

Lemma work_workers v0 s :
  Inv v0 s → inbox (workers (sys_router s)) ≠ [] →
  ∃ r, receiveWorkers (sys_router s) = (Ret tt, r) ∧ (work (after_router s r) < work s)%nat.
Proof.
  intros HI Hne. destruct (inbox (workers (sys_router s))) as [|fr rest] eqn:Ein; [done|].
  destruct (i_workers _ _ HI fr) as (w & d & m & -> & Hd & Hm); [rewrite Ein; set_solver|].
  destruct (receiveWorkers_link _ _ _ _ _ Ein Hd) as (r & Hr & Hi & Ho & Hvi & Hvo & Hids).
  rewrite (proj2 (i_sent _ _ HI)) in Hvo. exists r. split; [done|].
  rewrite work_router. unfold work. rewrite Hi, Hvi, Hvo, Ein. simpl.
  pose proof (weight_bounds [d]). lia.
Qed.

Lemma work_validator v0 s :
  Inv v0 s → inbox (validator (sys_router s)) ≠ [] →
  ∃ r, receiveValidator (sys_router s) = (Ret tt, r) ∧ (work (after_router s r) < work s)%nat.
Proof.
  intros HI Hne. destruct (inbox (validator (sys_router s))) as [|fr rest] eqn:Ein; [done|].
  destruct (i_replies _ _ HI fr) as (m & (d & -> & Hd) & _); [rewrite Ein; set_solver|].
  destruct (receiveValidator_link _ _ _ _ Ein Hd) as (r & Hr & Hi & Hwi & Hcases). exists r.
  split; [done|].
  rewrite work_router. unfold work. rewrite Hi, Hwi, Ein. simpl.
  destruct Hcases as [(w & _ & _ & _ & _ & Hvo)|(_ & _ & (own & Hvo & Hown & Hlen) & _)];
    rewrite Hvo, (proj2 (i_sent _ _ HI)); simpl; [lia|].
  pose proof (own_answers_light own Hown Hlen). lia.
Qed.

Lemma to_router_inbox s d :
  inbox (validator (to_router s d)) = inbox (validator (sys_router s)) ++ [[d]] ∧
  inbox (workers (to_router s d)) = inbox (workers (sys_router s)).
Proof. done. Qed.

(** One turn of the router or of the validator, when one of them has something to do. *)
Definition tick s : option System :=
  if decide (inbox (workers (sys_router s)) ≠ []) then
    match receiveWorkers (sys_router s) with
    | (Ret _, r) => Some (after_router s r)
    | _ => None
    end
  else if decide (inbox (validator (sys_router s)) ≠ []) then
    match receiveValidator (sys_router s) with
    | (Ret _, r) => Some (after_router s r)
    | _ => None
    end
  else
    match val_inbox s with
    | [] => None
    | fr :: rest =>
        let ignored := {| sys_router := sys_router s; sys_threads := sys_threads s;
          val_inbox := rest; val_state := val_state s; trace := trace s |} in
        match frame_msg fr with
        | Some (_, q, None) =>
            if decide (is_call q) then
              match serve (val_state s) q with
              | Some (t, b, v) =>
                  match DumpMsg t b (Message_CorrelationId q) with
                  | inr d => Some {| sys_router := to_router s d; sys_threads := sys_threads s;
                      val_inbox := rest; val_state := v;
                      trace := trace s ++ [Executed q {| Message_MessageType := t;
                        Message_CorrelationId := Message_CorrelationId q;
                        Message_Content := b |}] |}
                  | inl _ => None
                  end
              | None => None
              end
            else Some ignored
        | _ => Some ignored
        end
    end.

Fixpoint settle (n : nat) s : System :=
  match n with
  | O => s
  | Datatypes.S n => match tick s with Some s' => settle n s' | None => s end
  end.

(** A step in which no thread moves. *)
Definition no_thread s s' : Prop :=
  step s s' ∧ (∀ w, at_work s' w = at_work s w) ∧ calls (trace s') = calls (trace s).

Lemma tick_step s s' : tick s = Some s' → no_thread s s'.
Proof.
  unfold tick. repeat case_decide.
  - destruct (receiveWorkers (sys_router s)) as [[[]| | |] r] eqn:E; [|done..]. intros [= <-].
    split; [by apply step_workers|]. split; [intros w; apply at_work_router|done].
  - destruct (receiveValidator (sys_router s)) as [[[]| | |] r] eqn:E; [|done..]. intros [= <-].
    split; [by apply step_validator|]. split; [intros w; apply at_work_router|done].
  - destruct (val_inbox s) as [|fr rest] eqn:Ev; [done|]. cbv zeta.
    destruct (frame_msg fr) as [[[i q] [e|]]|] eqn:Ef.
    2: case_decide.
    2: { destruct (serve (val_state s) q) as [[[t b] v]|] eqn:Es; [|done].
         destruct (DumpMsg t b (Message_CorrelationId q)) as [|d] eqn:Ed; [done|]. intros [= <-].
         split; [by eapply step_serve|]. split; [done|]. simpl. by rewrite calls_app, app_nil_r. }
    all: intros [= <-]; split; [eapply step_ignore; [done|]; intros i' q'; rewrite Ef; by intros [=]; subst|done].
Qed.

Lemma work_serve v0 s :
  Inv v0 s → inbox (workers (sys_router s)) = [] → inbox (validator (sys_router s)) = [] →
  val_inbox s ≠ [] → ∃ s', tick s = Some s' ∧ (work s' < work s)%nat.
Proof.
  intros HI E1 E2 Hne. unfold tick. rewrite !decide_False by tauto.
  destruct (val_inbox s) as [|fr rest] eqn:Ev; [done|].
  destruct (i_validator _ _ HI fr) as (m & Hc & _); [rewrite Ev; set_solver|].
  pose proof (carries_frame _ _ Hc) as Hfr. rewrite Hfr. cbv zeta.
  destruct (decide (is_call m)) as [Hm|Hm].
  - destruct (serve_total (val_state s) m Hm) as (t & b & v & ->).
    destruct (Marshal_total {| Message_MessageType := t;
      Message_CorrelationId := Message_CorrelationId m; Message_Content := b |}) as [d Hd].
    unfold DumpMsg. rewrite Hd. eexists. split; [done|].
    assert (Hweight : weight fr = 3%nat).
    { unfold weight, frame_call. by rewrite Hfr, decide_True. }
    unfold work. rewrite Ev. cbn [sum_list_with val_inbox sys_router]. rewrite Hweight.
    destruct (to_router_inbox s d) as [-> ->]. rewrite length_app. simpl. lia.
  - eexists. split; [done|]. unfold work. rewrite Ev. simpl. pose proof (weight_bounds fr). lia.
Qed.

Lemma tick_progress v0 s :
  Inv v0 s → work s ≠ 0%nat → ∃ s', tick s = Some s' ∧ (work s' < work s)%nat.
Proof.
  intros HI Hz.
  destruct (decide (inbox (workers (sys_router s)) = [])) as [E1|E1].
  2: { destruct (work_workers _ _ HI E1) as (r & Er & ?). exists (after_router s r).
       unfold tick. by rewrite decide_True, Er. }
  destruct (decide (inbox (validator (sys_router s)) = [])) as [E2|E2].
  2: { destruct (work_validator _ _ HI E2) as (r & Er & ?). exists (after_router s r).
       unfold tick. by rewrite decide_False, decide_True, Er by tauto. }
  apply (work_serve v0); [done..|]. intros E3. apply Hz. unfold work. by rewrite E1, E2, E3.
Qed.

Lemma work_idle s :
  work s = 0%nat → inbox (workers (sys_router s)) = [] ∧ inbox (validator (sys_router s)) = [] ∧
    val_inbox s = [].
Proof.
  unfold work. intros Hz. split_and!; [apply nil_length_inv; lia..|].
  destruct (val_inbox s) as [|fr l]; [done|]. simpl in Hz. pose proof (weight_bounds fr). lia.
Qed.

Lemma tick_idle s : work s = 0%nat → tick s = None.
Proof. intros (E1 & E2 & E3)%work_idle. unfold tick. by rewrite !decide_False, E3 by tauto. Qed.

Lemma settle_steps n s : rtc no_thread s (settle n s).
Proof.
  revert s. induction n as [|n IH]; intros s; simpl; [done|].
  destruct (tick s) as [s'|] eqn:E; [|done]. eapply rtc_l; [by apply tick_step|apply IH].
Qed.

Lemma settle_waits s s' w id : rtc no_thread s s' → waits s w id → waits s' w id.
Proof.
  intros Hrun Hw. apply waits_at_work. apply waits_at_work in Hw. rewrite <-Hw. f_equal.
  clear Hw. induction Hrun as [|s1 s2 s3 (_ & Hw & _) _ IH]; [done|]. by rewrite IH.
Qed.

(** The router and the validator can work off everything that is under way. *)
Lemma settle_drains v0 n s : Inv v0 s → (work s ≤ n)%nat → work (settle n s) = 0%nat.
Proof.
  revert s. induction n as [|n IH]; intros s HI Hn; simpl; [lia|].
  destruct (decide (work s = 0%nat)) as [Hz|Hz].
  - destruct (tick s) as [s'|] eqn:E; [|done]. by rewrite (tick_idle s) in E.
  - destruct (tick_progress v0 s HI Hz) as (s' & E & ?). rewrite E. apply IH; [|lia].
    eapply inv_step; [|done]. by apply tick_step.
Qed.

Lemma drain v0 s w id :
  Inv v0 s → waits s w id →
  ∃ s', rtc step s s' ∧ Inv v0 s' ∧ waits s' w id ∧ work s' = 0%nat.
Proof.
  intros HI Hw. exists (settle (work s) s).
  pose proof (settle_steps (work s) s) as Hrun. split; [|split; [|split]].
  - eapply rtc_subrel; [|exact Hrun]. by intros ?? [].
  - eapply inv_run; [|exact HI]. eapply rtc_subrel; [|exact Hrun]. by intros ?? [].
  - by apply (settle_waits _ _ _ _ Hrun).
  - by apply (settle_drains v0).
Qed.

(** With nothing under way, the reply a thread waits for has arrived. *)
Lemma idle_holds v0 s w id :
  Inv v0 s → waits s w id → work s = 0%nat →
  ∃ th m, sys_threads s !! w = Some th ∧ th_waits th = Some id ∧ holds (th_conn th) m ∧
    Message_CorrelationId m = id.
Proof.
  intros HI (th & Hth & Hid) Hz.
  destruct (work_idle s Hz) as (Hw0 & Hv0 & Hb0).
  destruct (i_waiting _ _ HI _ _ _ Hth Hid) as (q & _ & Hq & Hfl). unfold in_flight in Hfl.
  rewrite Hw0, Hv0, Hb0 in Hfl.
  destruct Hfl as [(d & Hin & _)|[(fr & Hin & _)|[(fr & m & Hin & _)|(th' & m & Hth' & Hh & Hk)]]];
    [set_solver..|].
  rewrite Hth in Hth'. injection Hth' as <-. exists th, m. split_and!; [done..|congruence].
Qed.

Lemma idle_return v0 s w id :
  Inv v0 s → waits s w id → work s = 0%nat →
  ∃ s' m, step s s' ∧ trace s' = trace s ++ [Returned w m] ∧ Message_CorrelationId m = id.
Proof.
  intros HI Hw Hz. destruct (idle_holds v0 s w id HI Hw Hz) as (th & m & Hth & Hid & Hh & Hk).
  pose proof (i_threads _ _ HI _ _ Hth) as Hok.
  destruct (RecvMsgWithId_progress id (th_conn th) m) as (i & m' & err & c' & Hr);
    [apply Hok|apply Hok|done|congruence|].
  pose proof (recv_corr _ _ _ _ _ _ _ (ok_wf _ _ _ Hok) Hr) as Hid'.
  destruct th as [c job wt]. simpl in *. subst wt. eexists _, m'.
  split; [by eapply step_return|]. done.
Qed.

Lemma can_return v0 s w id :
  Inv v0 s → waits s w id →
  ∃ s' m, rtc step s s' ∧ last (trace s') = Some (Returned w m) ∧ Message_CorrelationId m = id.
Proof.
  intros HI Hw. destruct (drain _ _ _ _ HI Hw) as (s1 & Hrun & HI1 & Hw1 & Hz).
  destruct (idle_return _ _ _ _ HI1 Hw1 Hz) as (s2 & m & Hs & Htr & Hid).
  exists s2, m. split; [by eapply rtc_r|]. by rewrite Htr, last_snoc.
Qed.
End system.

(** ** Claims *)

Section claims.
Context {M V : Type} `{Monitor M, Proto Message, GoRuntime, !ProtoLaws Message}.
Context `{Proto TpProcessResponse, Proto PingResponse}.
Context (serve : V → Message → option (Z * bytes * V)).

(** The validator does not answer with a request. *)
Definition replies : Prop := ∀ v q t b v', serve v q = Some (t, b, v') →
  t ≠ Message_TP_PROCESS_REQUEST ∧ t ≠ Message_PING_REQUEST.
(** It answers every call. *)
Definition answers_all : Prop := ∀ v q, is_call q → ∃ t b v', serve v q = Some (t, b, v').

(** C1. Concurrent workers see one store: in every run of the processor with any
    number of worker threads, however the steps of the router, the threads, the
    sockets and the validator interleave, the state requests are executed one after
    the other on the validator's state; each has an identifier of its own and is
    executed at most once, after it was called; and a thread returns only with the
    reply that its own last request was executed with.  The execution thus lies
    between the call and the return of each operation: access to the state is
    linearizable. *)
Theorem workers_serialized v0 (s0 s : System (M:=M) (V:=V)) :
  replies → initial v0 s0 → sys_threads s0 !! "" = None → rtc (step serve) s0 s →
  serial serve v0 (execs (trace s)) (val_state s) ∧ ordered (trace s).
Proof.
  intros Hrep Hini Hname Hrun.
  assert (HI : Inv serve v0 s); [|split; apply HI].
  apply (inv_run serve Hrep _ _ _ Hrun), inv_initial; done.
Qed.

(** C21. No thread is stuck: in every state a run can reach, whatever is queued in the
    sockets, a thread that waits for a reply can get it: some further steps end with
    the thread's return, with a message that carries the identifier it waits for. *)
Theorem waiting_thread_returns `{!ProtoTotal Message} v0 (s0 s : System (M:=M) (V:=V)) w id :
  replies → answers_all → initial v0 s0 → sys_threads s0 !! "" = None →
  rtc (step serve) s0 s → waits s w id →
  ∃ s' m, rtc (step serve) s s' ∧ last (trace s') = Some (Returned w m) ∧
    Message_CorrelationId m = id.
Proof.
  intros Hrep Htot Hini Hname Hrun. apply (can_return serve Hrep Htot v0).
  apply (inv_run serve Hrep _ _ _ Hrun), inv_initial; done.
Qed.
End claims.

(** ** Witnesses *)

Module witness.
Import demo.
#[local] Instance resp_proto : Proto TpProcessResponse := countable_proto _.
#[local] Instance ping_proto : Proto PingResponse := countable_proto _.
#[local] Instance no_monitor : Monitor unit :=
  {| RecvEvent := go_block; MonitorClose := mret tt |}.

(** The reference validator, which answers what it does not understand with an empty
    message. *)
Definition serve (st : gmap string bytes) (m : Message) : option (Z * bytes * gmap string bytes) :=
  match sim_reply all all st m with
  | Some x => Some x
  | None => Some (Message_DEFAULT, "", st)
  end.
Lemma serve_replies : replies serve.
Proof.
  intros v q t b v'. unfold serve, sim_reply.
  repeat (case_decide || case_match); intros; simplify_eq/=; done.
Qed.
Lemma serve_answers : answers_all serve.
Proof. intros v q _. unfold serve. destruct (sim_reply _ _ v q) as [[[t b] v']|]; eauto. Qed.

Definition job : Message := {|
  Message_MessageType := Message_TP_PROCESS_REQUEST; Message_CorrelationId := "j";
  Message_Content := "" |}.
Definition start : System (M:=unit) (V:=gmap string bytes) := {|
  sys_router := {|
    ids := ∅; validator := quiet_conn "v"; workers := quiet_conn "r";
    shutdown_rx := quiet_conn "s"; shutdown_tx := NilIface; monitor := tt; queue := [job];
    queue_cap := 1; queue_closed := false; workers_done := [] |};
  sys_threads := {["a" := {| th_conn := quiet_conn "a"; th_job := None; th_waits := None |};
                   "b" := {| th_conn := quiet_conn "b"; th_job := None; th_waits := None |}]};
  val_inbox := []; val_state := ∅; trace := [] |}.
Lemma start_initial : initial ∅ start.
Proof.
  split; [done|]. split; [done|]. split; [done|]. split; [|done].
  apply map_Forall_insert_2; [done|]. apply map_Forall_insert_2; [done|]. apply map_Forall_empty.
Qed.

(** Thread a takes the request and asks for the data at an address. *)
Lemma first_steps : ∃ s, rtc (step serve) start s ∧ waits s "a" "1".
Proof.
  eexists. split.
  - eapply rtc_l; [apply (step_take _ _ "a" (quiet_conn "a") job []); reflexivity|].
    eapply rtc_once. eapply (step_call _ _ "a" (quiet_conn "a") job "1"
      Message_TP_STATE_GET_REQUEST ""); [reflexivity|done|apply not_elem_of_nil|done|reflexivity].
  - eexists. split; reflexivity.
Qed.

Lemma waiting_thread_returns_witness :
  ∃ s s' m, rtc (step serve) start s ∧ rtc (step serve) s s' ∧
    last (trace s') = Some (Returned "a" m) ∧ Message_CorrelationId m = "1".
Proof.
  destruct first_steps as (s & Hrun & Hw).
  destruct (waiting_thread_returns serve ∅ start s "a" "1" serve_replies serve_answers
    start_initial eq_refl Hrun Hw) as (s' & m & ?). by exists s, s', m.
Defined.

Lemma full_run : ∃ s m, rtc (step serve) start s ∧ last (trace s) = Some (Returned "a" m).
Proof.
  destruct first_steps as (s & Hrun & Hw).
  destruct (can_return serve serve_replies serve_answers ∅ s "a" "1") as (s' & m & Hrun' & Hl & _);
    [|done|exists s', m; split; [by etrans|done]].
  exact (inv_run serve serve_replies ∅ start s Hrun (inv_initial serve ∅ start start_initial eq_refl)).
Qed.

Lemma workers_serialized_witness :
  ∃ s m, rtc (step serve) start s ∧ last (trace s) = Some (Returned "a" m) ∧
    serial serve ∅ (execs (trace s)) (val_state s) ∧ ordered (trace s).
Proof.
  destruct full_run as (s & m & Hrun & Hl).
  destruct (workers_serialized serve ∅ start s serve_replies start_initial eq_refl Hrun).
  by exists s, m.
Defined.
End witness.
End system.
