(* ===== verification/SmallbankLedger.v ===== *)
(** * The smallbank family as a ledger

    One theorem for the whole handler of [Smallbank]: whatever transaction is
    applied, stored accounts stay well formed, and the books balance.  The money of
    all customers changes by exactly what the transaction brings in or takes out
    ([flow]), counted modulo 2^32, since balances wrap around. *)

From S2P Require Import Prelude GoLib Sha512 Errors Protobuf Messaging Answering ProcContext Worker Validator Smallbank.

Module ledger.
Import smallbank.
Local Open Scope Z_scope.

#[local] Opaque make_address namespace.

(** ** The books *)

(** An account with another balance. *)
Definition with_checking (a : Account) (n : Z) : Account := {|
  Account_CustomerId := Account_CustomerId a; Account_CustomerName := Account_CustomerName a;
  Account_SavingsBalance := Account_SavingsBalance a; Account_CheckingBalance := n |}.
Definition with_savings (a : Account) (n : Z) : Account := {|
  Account_CustomerId := Account_CustomerId a; Account_CustomerName := Account_CustomerName a;
  Account_SavingsBalance := n; Account_CheckingBalance := Account_CheckingBalance a |}.

Definition balance (a : Account) : Z := Account_SavingsBalance a + Account_CheckingBalance a.

(** The sum over a list of customers, and what changing the account at an address
    does to it. *)
Section sums.
Context (addr : Z → string).
Implicit Types (acc : Z → option Account) (ids : list Z) (a : Account).

Definition sum acc ids : Z := foldr (λ id n, from_option balance 0 (acc id) + n) 0 ids.

Definition changed acc acc' a : Prop :=
  ∀ id, acc' id = if decide (addr id = addr (Account_CustomerId a)) then Some a else acc id.

Lemma sum_other acc acc' a ids :
  changed acc acc' a → addr (Account_CustomerId a) ∉ addr <$> ids → sum acc' ids = sum acc ids.
Proof.
  intros Hs. induction ids as [|id ids IH]; simpl; [done|]. rewrite not_elem_of_cons.
  intros [Hne Hni]. rewrite IH by done. by rewrite Hs, decide_False.
Qed.

Lemma sum_changed acc acc' a id ids :
  changed acc acc' a → addr (Account_CustomerId a) = addr id →
  (∀ id', addr id' = addr id → acc id' = acc id) →
  id ∈ ids → NoDup (addr <$> ids) →
  sum acc' ids = sum acc ids - from_option balance 0 (acc id) + balance a.
Proof.
  intros Hs Ha Hc. induction ids as [|id' ids IH]; [set_solver|]. simpl.
  rewrite NoDup_cons. intros Hin [Hni Hn].
  destruct (decide (addr id' = addr id)) as [E|E].
  - rewrite (sum_other acc acc' a) by (done || by rewrite Ha, <-E).
    rewrite Hs, decide_True by congruence. rewrite (Hc _ E). simpl. lia.
  - apply elem_of_cons in Hin as [->|Hin]; [done|]. rewrite IH by done.
    rewrite Hs, decide_False by congruence. lia.
Qed.
End sums.

Section books.
Context `{Proto Account}.
Implicit Types (st : gmap string bytes) (ids : list Z) (a b : Account).

Definition total st ids : Z := sum (account_of st) ids.

(** An account as the family stores it. *)
Definition account_ok (id : Z) a : Prop :=
  make_address (Account_CustomerId a) = make_address id ∧ Account_CustomerName a ≠ "" ∧
  is_u32 (Account_SavingsBalance a) ∧ is_u32 (Account_CheckingBalance a).
Definition bank_ok st : Prop :=
  (∀ id d, st !! make_address id = Some d → d = "" ∨ ∃ a, unpackAccount d = inr a) ∧
  ∀ id a, account_of st id = Some a → account_ok id a.

(** The customers whose accounts a transaction touches. *)
Definition touched (p : SmallbankTransactionPayload) : list Z :=
  let t := SmallbankTransactionPayload_PayloadType p in
  if decide (t = SmallbankTransactionPayload_CREATE_ACCOUNT) then
    from_option (λ d, [CreateAccountTransactionData_CustomerId d]) [] (SmallbankTransactionPayload_CreateAccount p)
  else if decide (t = SmallbankTransactionPayload_DEPOSIT_CHECKING) then
    from_option (λ d, [DepositCheckingTransactionData_CustomerId d]) [] (SmallbankTransactionPayload_DepositChecking p)
  else if decide (t = SmallbankTransactionPayload_WRITE_CHECK) then
    from_option (λ d, [WriteCheckTransactionData_CustomerId d]) [] (SmallbankTransactionPayload_WriteCheck p)
  else if decide (t = SmallbankTransactionPayload_TRANSACT_SAVINGS) then
    from_option (λ d, [TransactSavingsTransactionData_CustomerId d]) [] (SmallbankTransactionPayload_TransactSavings p)
  else if decide (t = SmallbankTransactionPayload_SEND_PAYMENT) then
    from_option (λ d, [SendPaymentTransactionData_SourceCustomerId d;
                       SendPaymentTransactionData_DestCustomerId d]) [] (SmallbankTransactionPayload_SendPayment p)
  else if decide (t = SmallbankTransactionPayload_AMALGAMATE) then
    from_option (λ d, [AmalgamateTransactionData_SourceCustomerId d;
                       AmalgamateTransactionData_DestCustomerId d]) [] (SmallbankTransactionPayload_Amalgamate p)
  else [].

(** The money a transaction brings into the bank. *)
Definition flow (p : SmallbankTransactionPayload) : Z :=
  let t := SmallbankTransactionPayload_PayloadType p in
  if decide (t = SmallbankTransactionPayload_CREATE_ACCOUNT) then
    from_option (λ d, CreateAccountTransactionData_InitialSavingsBalance d
                      + CreateAccountTransactionData_InitialCheckingBalance d) 0
      (SmallbankTransactionPayload_CreateAccount p)
  else if decide (t = SmallbankTransactionPayload_DEPOSIT_CHECKING) then
    from_option DepositCheckingTransactionData_Amount 0 (SmallbankTransactionPayload_DepositChecking p)
  else if decide (t = SmallbankTransactionPayload_WRITE_CHECK) then
    - from_option WriteCheckTransactionData_Amount 0 (SmallbankTransactionPayload_WriteCheck p)
  else if decide (t = SmallbankTransactionPayload_TRANSACT_SAVINGS) then
    from_option TransactSavingsTransactionData_Amount 0 (SmallbankTransactionPayload_TransactSavings p)
  else 0.

(** The fields have the widths of their protobuf types. *)
Definition typed (p : SmallbankTransactionPayload) : Prop :=
  from_option (λ d, is_u32 (CreateAccountTransactionData_InitialSavingsBalance d) ∧
                    is_u32 (CreateAccountTransactionData_InitialCheckingBalance d)) True
    (SmallbankTransactionPayload_CreateAccount p) ∧
  from_option (λ d, is_i32 (TransactSavingsTransactionData_Amount d)) True
    (SmallbankTransactionPayload_TransactSavings p).

(** *** Changing an account *)

Lemma account_of_address st id id' :
  make_address id = make_address id' → account_of st id = account_of st id'.
Proof. unfold account_of. by intros ->. Qed.

Lemma total_saved st st' a id ids :
  changed make_address (account_of st) (account_of st') a →
  make_address (Account_CustomerId a) = make_address id →
  id ∈ ids → NoDup (make_address <$> ids) →
  total st' ids = total st ids - from_option balance 0 (account_of st id) + balance a.
Proof.
  intros Hs Ha. apply sum_changed; [exact Hs|exact Ha|]. intros id' E.
  by apply account_of_address.
Qed.
End books.

(** ** The handler *)

Section handler.
Context {C : Type} `{Connection C, ContextProtos, GoRuntime, !StateBacked C}.
Context `{Proto SmallbankTransactionPayload, Proto Account, !AccountProto}.
Implicit Types (c : C) (a b : Account) (ids : list Z).

(** Code that ends with the books in order: well formed, and changed by [fl] when it
    reports success and not at all otherwise, modulo 2^32. *)
Definition books_after ctx ids (fl : Z) (m : Go C (option error)) c : Prop :=
  ∃ r c', m c = (r, c') ∧ vok ctx c' ∧ bank_ok (vstate c') ∧
    ∃ k, total (vstate c') ids = total (vstate c) ids
           + (match r with Ret None => fl | _ => 0 end) + k * 2^32.

Lemma books_refused ctx ids fl m c r c' :
  m c = (r, c') → vok ctx c' → bank_ok (vstate c) → vstate c' = vstate c → r ≠ Ret None →
  books_after ctx ids fl m c.
Proof.
  intros E Hc' Hok Hst Hr. exists r, c'. rewrite Hst. split; [done|]. split; [done|].
  split; [done|]. exists 0. destruct r as [[]| | |]; done || lia.
Qed.

Lemma loadAccount_any id ctx c :
  vok ctx c → readable (C:=C) (make_address id) = true → bank_ok (vstate c) →
  ∃ c', vok ctx c' ∧ vstate c' = vstate c ∧
    loadAccount id ctx c = (Ret (inr (account_of (vstate c) id)), c').
Proof.
  intros Hc Hrd [Hdec _]. destruct (account_of (vstate c) id) as [a|] eqn:Ha.
  - by apply loadAccount_found.
  - apply loadAccount_absent; [done|done|]. unfold account_of in Ha.
    destruct (vstate c !! make_address id) as [d|] eqn:Hd; [|done].
    destruct (Hdec _ _ Hd) as [->|[a E]]; [done|]. rewrite E in Ha.
    destruct (decide (d = "")) as [->|]; [reflexivity|discriminate Ha].
Qed.

Lemma bank_ok_saved st a id d :
  bank_ok st → account_ok id a → Marshal a = inr d →
  bank_ok (<[make_address (Account_CustomerId a) := d]> st).
Proof.
  intros [Hdec Hall] Hok Hd. destruct Hok as (Ha & Hn & Hs & Hc). split.
  - intros id' d' Hd'. destruct (decide (make_address (Account_CustomerId a) = make_address id')) as [E|E].
    + rewrite E, lookup_insert_eq in Hd'. injection Hd' as <-. right. exists a.
      unfold unpackAccount. by rewrite (Unmarshal_Marshal _ _ Hd).
    + rewrite lookup_insert_ne in Hd' by done. by eapply Hdec.
  - intros id' a'. rewrite (account_of_saved _ _ _ _ Hd Hn).
    destruct (decide _) as [E|E]; [|apply Hall]. intros [= <-]. by split_and!.
Qed.

Lemma save_ok a id ctx c :
  vok ctx c → bank_ok (vstate c) → account_ok id a → writable (C:=C) (make_address id) = true →
  ∃ e c', vok ctx c' ∧ saveAccount a ctx c = (Ret e, c') ∧ bank_ok (vstate c') ∧
    changed make_address (account_of (vstate c)) (account_of (vstate c')) a.
Proof.
  intros Hc Hok Ha Hwr. pose proof Ha as (Hid & Hn & _).
  destruct (saveAccount_backed a ctx c Hc) as (d & e & c' & Hd & Hc' & Hst & E).
  rewrite <-Hid in Hwr. rewrite Hwr in Hst. exists e, c'. rewrite Hst.
  split; [done|]. split; [done|]. split; [by eapply bank_ok_saved|].
  intros id'. by apply account_of_saved.
Qed.

(** Replacing the account of one customer. *)
Lemma books_one ids fl ctx c id a k :
  vok ctx c → bank_ok (vstate c) → id ∈ ids → NoDup (make_address <$> ids) →
  account_ok id a → writable (C:=C) (make_address id) = true →
  balance a = from_option balance 0 (account_of (vstate c) id) + fl + k * 2^32 →
  books_after ctx ids fl (_ ← saveAccount a ctx; mret None) c.
Proof.
  intros Hc Hok Hin Hn Ha Hwr Hb.
  destruct (save_ok a id ctx c Hc Hok Ha Hwr) as (e & c' & Hc' & E & Hok' & Hch).
  exists (Ret None), c'. rewrite (go_bind_Ret _ _ _ _ _ E). split; [done|]. split; [done|].
  split; [done|]. exists k. rewrite (total_saved _ _ _ _ _ Hch (proj1 Ha) Hin Hn). lia.
Qed.

(** Replacing the accounts of two customers. *)
Lemma books_two ids ctx c id1 id2 a b k :
  vok ctx c → bank_ok (vstate c) → id1 ∈ ids → id2 ∈ ids → NoDup (make_address <$> ids) →
  make_address id1 ≠ make_address id2 → account_ok id1 a → account_ok id2 b →
  writable (C:=C) (make_address id1) = true → writable (C:=C) (make_address id2) = true →
  balance a + balance b = from_option balance 0 (account_of (vstate c) id1)
    + from_option balance 0 (account_of (vstate c) id2) + k * 2^32 →
  books_after ctx ids 0 (_ ← saveAccount a ctx; _ ← saveAccount b ctx; mret None) c.
Proof.
  intros Hc Hok Hin1 Hin2 Hn Hne Ha Hb Hw1 Hw2 Hsum.
  destruct (save_ok a id1 ctx c Hc Hok Ha Hw1) as (e1 & c1 & Hc1 & E1 & Hok1 & Hch1).
  destruct (save_ok b id2 ctx c1 Hc1 Hok1 Hb Hw2) as (e2 & c2 & Hc2 & E2 & Hok2 & Hch2).
  exists (Ret None), c2. rewrite (go_bind_Ret _ _ _ _ _ E1), (go_bind_Ret _ _ _ _ _ E2).
  split; [done|]. split; [done|]. split; [done|]. exists k.
  rewrite (total_saved _ _ _ _ _ Hch2 (proj1 Hb) Hin2 Hn).
  rewrite (total_saved _ _ _ _ _ Hch1 (proj1 Ha) Hin1 Hn).
  rewrite (Hch1 id2), decide_False by (rewrite (proj1 Ha); congruence). lia.
Qed.

Lemma wrap_u32_k z : ∃ k, wrap_u32 z = z + k * 2^32.
Proof. exists (- (z / 2^32)). unfold wrap_u32. rewrite Z.mod_eq by lia. lia. Qed.

Lemma books_load ids fl id ctx c f :
  vok ctx c → readable (C:=C) (make_address id) = true → bank_ok (vstate c) →
  (∀ c1, vok ctx c1 → vstate c1 = vstate c → books_after ctx ids fl (f (inr (account_of (vstate c) id))) c1) →
  books_after ctx ids fl (loadAccount id ctx ≫= f) c.
Proof.
  intros Hc Hrd Hok Hf. destruct (loadAccount_any id ctx c Hc Hrd Hok) as (c1 & Hc1 & Hst & E).
  destruct (Hf c1 Hc1 Hst) as (r & c' & E' & ? & ? & k & Hk). exists r, c'.
  rewrite (go_bind_Ret _ _ _ _ _ E). rewrite Hst in Hk. eauto.
Qed.

Section one.
Context (ids : list Z) (ctx : Context) (c : C).
Context (Hc : vok ctx c) (Hok : bank_ok (vstate c)) (Hn : NoDup (make_address <$> ids)).
Context (Hperm : ∀ id, id ∈ ids → readable (C:=C) (make_address id) = true ∧
                                  writable (C:=C) (make_address id) = true).

Lemma books_create d :
  CreateAccountTransactionData_CustomerId d ∈ ids →
  is_u32 (CreateAccountTransactionData_InitialSavingsBalance d) →
  is_u32 (CreateAccountTransactionData_InitialCheckingBalance d) →
  books_after ctx ids (CreateAccountTransactionData_InitialSavingsBalance d
    + CreateAccountTransactionData_InitialCheckingBalance d) (applyCreateAccount (Some d) ctx) c.
Proof.
  intros Hin Hs Hch. destruct (Hperm _ Hin) as [Hrd Hwr]. apply books_load; [done..|].
  intros c1 Hc1 Hst. destruct (account_of _ _) as [a|] eqn:Ha.
  { eapply books_refused; [reflexivity|done|by rewrite Hst|done|done]. }
  destruct (decide _) as [|Hname]; [eapply books_refused; [reflexivity|done|by rewrite Hst|done|done]|].
  apply (books_one _ _ _ _ (CreateAccountTransactionData_CustomerId d) _ 0);
    [done|by rewrite Hst|done|done|done|done|]. rewrite Hst, Ha. unfold balance. simpl. lia.
Qed.

(** A transaction on the account of a customer, which has to exist. *)
Lemma books_existing id fl text (new : Account → error + Account) :
  id ∈ ids →
  (∀ a a', account_ok id a → new a = inr a' → account_ok id a' ∧ ∃ k, balance a' = balance a + fl + k * 2^32) →
  books_after ctx ids fl
    (account ← loadAccount id ctx;
     match account with
     | inl err => mret (Some err)
     | inr None => mret (Some (invalidTransaction text))
     | inr (Some a) => match new a with
                       | inl err => mret (Some err)
                       | inr a' => _ ← saveAccount a' ctx; mret None
                       end
     end) c.
Proof.
  intros Hin Hnew. destruct (Hperm _ Hin) as [Hrd Hwr]. apply books_load; [done..|].
  intros c1 Hc1 Hst. destruct (account_of _ _) as [a|] eqn:Ha.
  2: { eapply books_refused; [reflexivity|done|by rewrite Hst|done|done]. }
  destruct (new a) as [err|a'] eqn:En;
    [eapply books_refused; [reflexivity|done|by rewrite Hst|done|done]|].
  destruct (Hnew a a' (proj2 Hok _ _ Ha) En) as (Ha' & k & Hk).
  apply (books_one _ _ _ _ id _ k); [done|by rewrite Hst|done..|]. rewrite Hst, Ha. done.
Qed.

Lemma books_deposit d :
  DepositCheckingTransactionData_CustomerId d ∈ ids →
  books_after ctx ids (DepositCheckingTransactionData_Amount d) (applyDepositChecking (Some d) ctx) c.
Proof.
  intros Hin. apply (books_existing _ _ "Account must exist" (λ a, inr (with_checking a
    (wrap_u32 (Account_CheckingBalance a + DepositCheckingTransactionData_Amount d))))); [done|].
  intros a a' (Ha & Hna & Hsa & Hca) [= <-]. split; [split_and!; [done..|apply wrap_u32_range]|].
  destruct (wrap_u32_k (Account_CheckingBalance a + DepositCheckingTransactionData_Amount d)) as [k Hk].
  exists k. unfold balance. simpl. lia.
Qed.

Lemma books_check d :
  WriteCheckTransactionData_CustomerId d ∈ ids →
  books_after ctx ids (- WriteCheckTransactionData_Amount d) (applyWriteCheck (Some d) ctx) c.
Proof.
  intros Hin. apply (books_existing _ _ "Account must exist" (λ a, inr (with_checking a
    (wrap_u32 (Account_CheckingBalance a - WriteCheckTransactionData_Amount d))))); [done|].
  intros a a' (Ha & Hna & Hsa & Hca) [= <-]. split; [split_and!; [done..|apply wrap_u32_range]|].
  destruct (wrap_u32_k (Account_CheckingBalance a - WriteCheckTransactionData_Amount d)) as [k Hk].
  exists k. unfold balance. simpl. lia.
Qed.

Lemma new_savings_k bal amount new :
  is_u32 bal → new_savings bal amount = Some new →
  is_u32 new ∧ ∃ k, new = bal + amount + k * 2^32.
Proof.
  intros Hb. unfold new_savings. destruct (amount <? 0).
  - destruct (_ <? _); [done|]. intros [= <-]. split; [apply wrap_u32_range|].
    destruct (wrap_u32_k (wrap_i32 (- amount))) as [k1 E1].
    destruct (wrap_u32_k (bal - wrap_u32 (wrap_i32 (- amount)))) as [k2 E2].
    assert (∃ k3, wrap_i32 (- amount) = - amount + k3 * 2^32) as [k3 E3].
    { exists (- ((- amount + 2^31) / 2^32)). unfold wrap_i32. rewrite Z.mod_eq by lia. lia. }
    exists (k2 - k1 - k3). lia.
  - intros [= <-]. split; [apply wrap_u32_range|].
    destruct (wrap_u32_k amount) as [k1 E1]. destruct (wrap_u32_k (bal + wrap_u32 amount)) as [k2 E2].
    exists (k1 + k2). lia.
Qed.

Lemma books_savings d :
  TransactSavingsTransactionData_CustomerId d ∈ ids →
  books_after ctx ids (TransactSavingsTransactionData_Amount d) (applyTransactSavings (Some d) ctx) c.
Proof.
  intros Hin.
  set (new := λ a, match new_savings (Account_SavingsBalance a) (TransactSavingsTransactionData_Amount d) with
    | None => inl (invalidTransaction "Insufficient funds in source savings account")
    | Some n => inr (with_savings a n)
    end).
  assert (E : ∀ c, applyTransactSavings (Some d) ctx c =
    (account ← loadAccount (TransactSavingsTransactionData_CustomerId d) ctx;
     match account with
     | inl err => mret (Some err)
     | inr None => mret (Some (invalidTransaction "Account must exist"))
     | inr (Some a) => match new a with
                       | inl err => mret (Some err)
                       | inr a' => _ ← saveAccount a' ctx; mret None
                       end
     end) c).
  { intros c0. unfold applyTransactSavings, mbind, Go_bind.
    destruct (loadAccount _ ctx c0) as [[[err|[a|]]| | |] c1]; try done. unfold new.
    by destruct (new_savings _ _). }
  unfold books_after. rewrite E.
  apply (books_existing (TransactSavingsTransactionData_CustomerId d)
    (TransactSavingsTransactionData_Amount d) "Account must exist" new Hin).
  intros a a' (Ha & Hna & Hsa & Hca). unfold new.
  destruct (new_savings _ _) as [n|] eqn:En; [|done]. intros [= <-].
  destruct (new_savings_k _ _ _ Hsa En) as (Hu & k & Hk). split; [by split_and!|].
  exists k. unfold balance. simpl. lia.
Qed.

(** A transaction between two customers with different addresses. *)
Lemma books_payment d :
  SendPaymentTransactionData_SourceCustomerId d ∈ ids →
  SendPaymentTransactionData_DestCustomerId d ∈ ids →
  make_address (SendPaymentTransactionData_SourceCustomerId d)
    ≠ make_address (SendPaymentTransactionData_DestCustomerId d) →
  books_after ctx ids 0 (applySendPayment (Some d) ctx) c.
Proof.
  intros Hin1 Hin2 Hne. destruct (Hperm _ Hin1) as [Hrd1 Hwr1], (Hperm _ Hin2) as [Hrd2 Hwr2].
  apply books_load; [done..|]. intros c1 Hc1 Hst1. cbv beta iota.
  apply books_load; [done|done|by rewrite Hst1|]. intros c2 Hc2 Hst2. rewrite Hst1 in *.
  assert (Hok2 : bank_ok (vstate c2)) by (by rewrite Hst2).
  destruct (account_of (vstate c) (SendPaymentTransactionData_SourceCustomerId d)) as [a|] eqn:Ha;
    [|by eapply books_refused; [reflexivity|..]].
  destruct (account_of (vstate c) (SendPaymentTransactionData_DestCustomerId d)) as [b|] eqn:Hb;
    [|by eapply books_refused; [reflexivity|..]].
  cbv beta iota zeta. destruct (_ <? _); [by eapply books_refused; [reflexivity|..]|].
  destruct (proj2 Hok _ _ Ha) as (Ia & Na & Sa & Ca), (proj2 Hok _ _ Hb) as (Ib & Nb & Sb & Cb).
  destruct (wrap_u32_k (Account_CheckingBalance a - SendPaymentTransactionData_Amount d)) as [k1 E1].
  destruct (wrap_u32_k (Account_CheckingBalance b + SendPaymentTransactionData_Amount d)) as [k2 E2].
  eapply (books_two _ _ _ _ _ _ _ (k1 + k2)); [done|done|exact Hin1|exact Hin2|done|exact Hne|..|done|done|].
  - split_and!; [done..|apply wrap_u32_range].
  - split_and!; [done..|apply wrap_u32_range].
  - rewrite Hst2, Ha, Hb. unfold balance. cbn -[wrap_u32]. lia.
Qed.

Lemma books_amalgamate d :
  AmalgamateTransactionData_SourceCustomerId d ∈ ids →
  AmalgamateTransactionData_DestCustomerId d ∈ ids →
  make_address (AmalgamateTransactionData_SourceCustomerId d)
    ≠ make_address (AmalgamateTransactionData_DestCustomerId d) →
  books_after ctx ids 0 (applyAmalgamate (Some d) ctx) c.
Proof.
  intros Hin1 Hin2 Hne. destruct (Hperm _ Hin1) as [Hrd1 Hwr1], (Hperm _ Hin2) as [Hrd2 Hwr2].
  apply books_load; [done..|]. intros c1 Hc1 Hst1. cbv beta iota.
  apply books_load; [done|done|by rewrite Hst1|]. intros c2 Hc2 Hst2. rewrite Hst1 in *.
  assert (Hok2 : bank_ok (vstate c2)) by (by rewrite Hst2).
  destruct (account_of (vstate c) (AmalgamateTransactionData_SourceCustomerId d)) as [a|] eqn:Ha;
    [|by eapply books_refused; [reflexivity|..]].
  destruct (account_of (vstate c) (AmalgamateTransactionData_DestCustomerId d)) as [b|] eqn:Hb;
    [|by eapply books_refused; [reflexivity|..]].
  cbv beta iota zeta.
  destruct (proj2 Hok _ _ Ha) as (Ia & Na & Sa & Ca), (proj2 Hok _ _ Hb) as (Ib & Nb & Sb & Cb).
  destruct (wrap_u32_k (Account_CheckingBalance b + Account_SavingsBalance a)) as [k E1].
  eapply (books_two _ _ _ _ _ _ _ k); [done|done|exact Hin1|exact Hin2|done|exact Hne|..|done|done|].
  - split; [exact Ia|]. split; [exact Na|]. split; [unfold is_u32; simpl; lia|exact Ca].
  - split_and!; [done..|apply wrap_u32_range].
  - rewrite Hst2, Ha, Hb. unfold balance. cbn -[wrap_u32]. lia.
Qed.
End one.

Lemma books_nil ctx ids fl c :
  vok ctx c → bank_ok (vstate c) → books_after ctx ids fl nil_deref c.
Proof. intros Hc Hok. by eapply books_refused. Qed.

End handler.

(** ** A concrete payment *)

Module witness.
Import demo smallbank.witness.
#[local] Instance lconn : Connection (ZmqConnection Sim) := conn all.
#[local] Instance lbacked : StateBacked (ZmqConnection Sim) := backed all.

Definition payment : SmallbankTransactionPayload := {|
  SmallbankTransactionPayload_PayloadType := SmallbankTransactionPayload_SEND_PAYMENT;
  SmallbankTransactionPayload_CreateAccount := None;
  SmallbankTransactionPayload_DepositChecking := None;
  SmallbankTransactionPayload_WriteCheck := None;
  SmallbankTransactionPayload_TransactSavings := None;
  SmallbankTransactionPayload_SendPayment := Some (Build_SendPaymentTransactionData 1 2 60);
  SmallbankTransactionPayload_Amalgamate := None |}.
Definition req : TpProcessRequest := {|
  TpProcessRequest_Header := None; TpProcessRequest_Payload := Some (pos_bits (encode payment));
  TpProcessRequest_Signature := ""; TpProcessRequest_ContextId := "c" |}.

Lemma st2_ok : bank_ok st2.
Proof.
  unfold st2, st1, save.
  apply (bank_ok_saved _ (acc 2 5 7) 2); [apply (bank_ok_saved _ (acc 1 30 100) 1)|..].
  - split; [intros id d Hd; by rewrite lookup_empty in Hd|].
    intros id a Ha. unfold account_of in Ha. by rewrite lookup_empty in Ha.
  - split; [reflexivity|]. split; [done|]. unfold is_u32. simpl. lia.
  - reflexivity.
  - split; [reflexivity|]. split; [done|]. unfold is_u32. simpl. lia.
  - reflexivity.
Qed.

Lemma unpack_payment : unpackPayload (default "" (TpProcessRequest_Payload req)) = inr payment.
Proof.
  pose proof (countable_proto_laws SmallbankTransactionPayload payment _ eq_refl) as E.
  change (default "" (TpProcessRequest_Payload req)) with (pos_bits (encode payment)).
  unfold unpackPayload. change (Unmarshal (pos_bits (encode payment))) with
    (@Unmarshal _ (countable_proto SmallbankTransactionPayload) (pos_bits (encode payment))).
  by rewrite E.
Qed.

Lemma customers_differ : NoDup (make_address <$> [1; 2]).
Proof.
  apply NoDup_cons. split; [|apply NoDup_singleton].
  intros E%list_elem_of_singleton. by apply addresses_differ.
Qed.

End witness.
#[local] Transparent make_address namespace.
End ledger.
