(* ===== verification/Isolation.v ===== *)
(** * Transactions among concurrent workers

    The code of a worker thread, run inside the system of [System]: between any two
    of its messages the router, the validator and the other threads move as a
    schedule says.  The validator keeps a store for each context, as the Sawtooth
    validator does, and the other threads use other contexts.

    What is proved: for every schedule under which replies arrive, a context behaves
    as a map from addresses to data, although its requests share sockets, router and
    validator with everybody else's; so every theorem about handlers that is stated
    against [StateBacked] holds for a handler among concurrent workers; and a
    worker's whole turn on a transaction of one of the families has exactly the effect
    and the verdict the handler has when it runs alone. *)

From S2P Require Import Prelude GoLib Errors Protobuf Messaging Answering ProcContext Worker Validator Intkey Smallbank Xo Noop Agreement Processor Links History System.

From stdpp Require Import infinite.

Module isolation.
Import system agreement.
Local Open Scope Z_scope.

(** ** A validator with a store per context *)

Section isolation.
Context {M : Type} `{Monitor M, Proto Message, ContextProtos, GoRuntime, !ContextProtosOk}.
Context `{Proto TpProcessResponse, Proto PingResponse}.
Context (rd wr : string → bool).
(** The answers to messages that are not about the state. *)
Context (other : Message → Z * bytes).
Context (other_replies : ∀ q, (other q).1 ≠ Message_TP_PROCESS_REQUEST ∧
                              (other q).1 ≠ Message_PING_REQUEST).

Abbreviation system := (System (M:=M) (V:=gmap string (gmap string bytes))).
Implicit Types (s : system) (st : gmap string bytes) (k w : string) (q : Message).

Definition store_of (v : gmap string (gmap string bytes)) k : gmap string bytes :=
  default ∅ (v !! k).

Definition serve (v : gmap string (gmap string bytes)) q :
    option (Z * bytes * gmap string (gmap string bytes)) :=
  match request_context q with
  | Some k =>
      match sim_reply rd wr (store_of v k) q with
      | Some (t, b, st) => Some (t, b, <[k := st]> v)
      | None => None
      end
  | None => Some ((other q).1, (other q).2, v)
  end.

Lemma sim_reply_type st q t b st' :
  sim_reply rd wr st q = Some (t, b, st') →
  t ≠ Message_TP_PROCESS_REQUEST ∧ t ≠ Message_PING_REQUEST.
Proof. unfold sim_reply. repeat (case_decide || case_match); intros; by simplify_eq/=. Qed.

Lemma contexts_reply : replies serve.
Proof.
  intros v q t b v'. unfold serve. destruct (request_context q) as [k|].
  - destruct (sim_reply _ _ _ _) as [[[t' b'] st]|] eqn:E; [|done]. intros [= <- <- <-].
    by eapply sim_reply_type.
  - intros [= <- <- _]. apply other_replies.
Qed.

Lemma sim_reply_total st q k : request_context q = Some k → is_Some (sim_reply rd wr st q).
Proof.
  unfold request_context, sim_reply. repeat case_decide; [intros _..|done].
  - destruct (Marshal_total (sim_get rd st (TpStateGetRequest_Addresses
      (Unmarshal (Message_Content q)).1))) as [b ->]. eauto.
  - destruct (sim_set wr st _) as [resp st']. destruct (Marshal_total resp) as [b ->]. eauto.
  - destruct (sim_delete wr st _) as [resp st']. destruct (Marshal_total resp) as [b ->]. eauto.
Qed.

Lemma contexts_answered : answers_all serve.
Proof.
  intros v q _. unfold serve. destruct (request_context q) as [k|] eqn:E; [|eauto].
  destruct (sim_reply_total (store_of v k) q k E) as [[[t b] st] ->]. eauto.
Qed.

(** Requests for other contexts leave a store alone. *)
Lemma serve_frame v q t b v' k :
  serve v q = Some (t, b, v') → request_context q ≠ Some k → store_of v' k = store_of v k.
Proof.
  unfold serve. destruct (request_context q) as [k'|]; [|by intros [= _ _ <-]].
  destruct (sim_reply _ _ _ _) as [[[t' b'] st]|]; [|done]. intros [= _ _ <-] Hne.
  unfold store_of. rewrite lookup_insert_ne by congruence. done.
Qed.
Lemma serve_own v q t b v' k :
  serve v q = Some (t, b, v') → request_context q = Some k →
  sim_reply rd wr (store_of v k) q = Some (t, b, store_of v' k).
Proof.
  unfold serve. intros Hs E. rewrite E in Hs.
  destruct (sim_reply _ _ _ _) as [[[t' b'] st]|]; [|done]. injection Hs as -> -> <-.
  unfold store_of. by rewrite lookup_insert_eq.
Qed.

Lemma request_context_call q k : request_context q = Some k → is_call q.
Proof.
  unfold request_context, is_call.
  destruct (decide _) as [->|_]; [done|]. destruct (decide _) as [->|_]; [done|].
  by destruct (decide _) as [->|_].
Qed.

(** ** What other threads do *)

(** A step in which thread [w] does not move and nobody sends a request for context
    [k]. *)
Definition others k w s s' : Prop :=
  step serve s s' ∧ at_work s' w = at_work s w ∧
  ∀ w' q, (w', q) ∈ calls (trace s') → (w', q) ∈ calls (trace s) ∨ request_context q ≠ Some k.

(** What a step does to the requests and the stores: nothing is executed, or one
    request that was called and not yet executed. *)
Lemma step_effect v0 s s' :
  Inv serve v0 s → step serve s s' →
  (∃ l, calls (trace s') = calls (trace s) ++ l) ∧
  ((execs (trace s') = execs (trace s) ∧ val_state s' = val_state s) ∨
   ∃ w q t b, (w, q) ∈ calls (trace s) ∧ (∀ a, (q, a) ∉ execs (trace s)) ∧
     serve (val_state s) q = Some (t, b, val_state s') ∧
     execs (trace s') = execs (trace s) ++ [(q, answer_to t b q)]).
Proof.
  intros HI Hs.
  destruct Hs as [s r|s r|s w c m rest|s w c m id t b c'|s w c m id fuel i a err c'|s w c m b c'
                 |s fr rest i q t b v d Hv Hfr Hq Hserve|s fr rest|s m d]; simpl;
    rewrite ?calls_app, ?execs_app; simpl; rewrite ?app_nil_r;
    try (split; [by exists []; rewrite app_nil_r|by left]).
  - split; [by eexists|by left].
  - split; [by exists []; rewrite app_nil_r|]. right.
    destruct (i_validator _ _ _ HI fr) as (m & Hc & Hm); [rewrite Hv; set_solver|].
    rewrite (carries_frame _ _ Hc) in Hfr. injection Hfr as _ ->.
    destruct (Hm Hq) as (w & Hw & _). exists w, q, t, b. split_and!; try done.
    intros a Ha. eapply (not_executed _ _ _ fr q q a HI); [rewrite Hv; set_solver|done..].
Qed.

(** ** A context among the others *)

(** All requests for context [k] are executed, except perhaps [p]; the store of the
    context is [st], or what [p] makes of it. *)
Definition standing k st (p : option Message) s : Prop :=
  settled (λ q, request_context q = Some k) (sim_reply rd wr) st p (trace s) (store_of (val_state s) k).

Lemma standing_others v0 k w st p s s' :
  Inv serve v0 s → others k w s s' → standing k st p s → standing k st p s'.
Proof.
  intros HI (Hs & _ & Hnew) Hset.
  destruct (step_effect v0 s s' HI Hs) as [[l Hc] [[He Hv]|(w0 & q & t & b & Hcall & Hnot & Hserve & He)]].
  - unfold standing. rewrite Hv. by apply (settled_calls _ _ _ _ (trace s) _ _ l).
  - apply (settled_exec _ _ _ _ (trace s) _ (store_of (val_state s) k) _ l w0 q t b); try done.
    + by apply serve_own.
    + by apply (serve_frame _ _ _ _ _ _ Hserve).
Qed.

(** A run of the others. *)
Lemma others_run v0 k w st p s s' :
  Inv serve v0 s → rtc (others k w) s s' → standing k st p s →
  rtc (step serve) s s' ∧ at_work s' w = at_work s w ∧ standing k st p s'.
Proof.
  intros HI Hrun. induction Hrun as [s|s s1 s2 Hs _ IH]; [done|]. intros Hset.
  pose proof (standing_others _ _ _ _ _ _ _ HI Hs Hset) as Hset1. destruct Hs as (Hs & Hw & _).
  destruct IH as (? & ? & ?); [exact (inv_step serve contexts_reply _ _ _ Hs HI)|done|].
  split; [by eapply rtc_l|]. split; [congruence|done].
Qed.

(** A request is executed with one answer only. *)
Lemma exec_unique v0 s q a a' :
  Inv serve v0 s → (q, a) ∈ execs (trace s) → (q, a') ∈ execs (trace s) → a = a'.
Proof.
  intros HI Ha Ha'. pose proof (i_once _ _ _ HI) as Hn. unfold pending in Hn.
  apply NoDup_app in Hn as (_ & _ & Hn). apply NoDup_app in Hn as (_ & _ & Hn).
  by pose proof (NoDup_fmap_eq _ _ _ _ Hn Ha Ha' eq_refl) as [= ->].
Qed.

(** A request with a new identifier was not executed. *)
Lemma new_not_executed v0 s q a :
  Inv serve v0 s → Message_CorrelationId q ∉ call_ids (trace s) → (q, a) ∉ execs (trace s).
Proof.
  intros HI Hnew Ha. destruct (i_execs _ _ _ HI _ _ Ha) as (_ & _ & w0 & Hw0). apply Hnew.
  apply list_elem_of_fmap. by exists (w0, q).
Qed.

(** ** The code of a thread inside the system *)

(** Which identifier the next request gets, and what the others do before the next
    action of the thread. *)
Record Schedule := { pick_id : nat → system → string; run_others : nat → system → system }.

(** The system seen from a thread, and how many actions it has taken. *)
Record Seat := { seat_sys : system; seat_turn : nat }.

Section seat.
Context (sched : Schedule) (k w : string).
Implicit Types x : Seat.

Definition elsewhere x : Seat :=
  {| seat_sys := run_others sched (seat_turn x) (seat_sys x); seat_turn := S (seat_turn x) |}.

(** An action of the thread on its connection: what it sent goes to the router. *)
Definition seat_do {A} (action : Go conn A) (fin : A → Thread → Thread)
    (happened : A → list event) : Go Seat A := λ x,
  let s := seat_sys x in
  match sys_threads s !! w with
  | None => (Blocked, x)
  | Some th =>
      let '(r, c) := action (th_conn th) in
      let th := {| th_conn := c; th_job := th_job th; th_waits := th_waits th |} in
      let seat th e := {| seat_sys := after_thread s w th e; seat_turn := seat_turn x |} in
      match r with
      | Ret a => (Ret a, seat (fin a th) (happened a))
      | Panic e => (Panic e, seat th [])
      | Blocked => (Blocked, seat th [])
      | OutOfFuel => (OutOfFuel, seat th [])
      end
  end.

Definition seat_SendNewMsg (t : Z) (b : bytes) : Go Seat (string * option error) := λ x,
  let x := elsewhere x in
  let id := pick_id sched (seat_turn x) (seat_sys x) in
  seat_do (λ c, zmq_SendNewMsg t b (with_id id c))
    (λ r th, {| th_conn := th_conn th; th_job := th_job th;
                th_waits := match r.2 with None => Some r.1 | Some _ => th_waits th end |})
    (λ r, match r.2 with
          | None => [Called w {| Message_MessageType := t; Message_CorrelationId := r.1;
                                 Message_Content := b |}]
          | Some _ => []
          end) x.

(** A receive reads what has arrived; if the message is not among it, it blocks. *)
Definition seat_RecvMsgWithId (id : string) : Go Seat (string * option Message * option error) :=
  λ x, seat_do (λ c, zmq_RecvMsgWithId (S (length (inbox c))) id c)
    (λ _ th, {| th_conn := th_conn th; th_job := th_job th; th_waits := None |})
    (λ r, match r.1.2 with Some m => [Returned w m] | None => [] end) (elsewhere x).

Definition seat_SendMsg (t : Z) (b : bytes) (corrId : string) : Go Seat (option error) := λ x,
  seat_do (zmq_SendMsg t b corrId)
    (λ err th, {| th_conn := th_conn th;
                  th_job := match err with None => None | Some _ => th_job th end;
                  th_waits := th_waits th |})
    (λ _, []) (elsewhere x).

(** The other methods of a connection, which workers do not call. *)
Definition seat_plain {A} (action : Go conn A) : Go Seat A :=
  seat_do action (λ _ th, th) (λ _, []).

#[local] Instance seat_connection : Connection Seat := {|
  SendData id data := seat_plain (zmq_SendData id data);
  SendNewMsg := seat_SendNewMsg;
  SendNewMsgTo id t b := seat_plain (zmq_SendNewMsgTo id t b);
  SendMsg := seat_SendMsg;
  SendMsgTo id t b corrId := seat_plain (zmq_SendMsgTo id t b corrId);
  RecvData := seat_plain zmq_RecvData;
  RecvMsg := seat_plain zmq_RecvMsg;
  RecvMsgWithId := seat_RecvMsgWithId;
  Close := seat_plain zmq_Close;
  Identity x := w |}.

(** A schedule gives new identifiers, the others do not use the context, and replies
    arrive. *)
Context (v0 : gmap string (gmap string bytes)) (s0 : system).
Record fair : Prop := {
  fair_id n s : pick_id sched n s ≠ "" ∧
    pick_id sched n s ∉ call_ids (trace s);
  fair_others n s : rtc (others k w) s (run_others sched n s);
  fair_reply n s id : rtc (step serve) s0 s → waits s w id →
    ∃ th m, sys_threads (run_others sched n s) !! w = Some th ∧ holds (th_conn th) m ∧
      Message_CorrelationId m = id }.

Context (Hinit : initial v0 s0) (Hnames : sys_threads s0 !! "" = None) (Hfair : fair).

Lemma reach_inv s : rtc (step serve) s0 s → Inv serve v0 s.
Proof. intros Hrun. by apply (inv_run serve contexts_reply _ _ _ Hrun), inv_initial. Qed.

(** The thread has [job], waits for [wt], and its context stands as said. *)
Record seated (job : option Message) (wt : option string) st (p : option Message) s : Prop := {
  st_reach : rtc (step serve) s0 s;
  st_work : at_work s w = Some (job, wt);
  st_settled : standing k st p s }.

Lemma seated_conn job wt st p s :
  seated job wt st p s → ∃ c, sys_threads s !! w = Some {| th_conn := c; th_job := job; th_waits := wt |}.
Proof.
  intros [_ Hw _]. unfold at_work in Hw. destruct (sys_threads s !! w) as [[c j t]|]; [|done].
  injection Hw as -> ->. by exists c.
Qed.

Lemma seated_elsewhere job wt st p n s :
  seated job wt st p s → seated job wt st p (run_others sched n s).
Proof.
  intros [Hr Hw Hs]. destruct (others_run v0 k w st p s (run_others sched n s))
    as (? & ? & ?); [by apply reach_inv|by apply fair_others|done|].
  split; [by etrans|congruence|done].
Qed.

Lemma at_work_thread s th e : at_work (after_thread s w th e) w = Some (th_job th, th_waits th).
Proof. unfold at_work. simpl. by rewrite lookup_insert_eq. Qed.

(** Sending a request for the context. *)
Lemma seat_call job st x t b id :
  let s := seat_sys (elsewhere x) in
  let q := {| Message_MessageType := t; Message_CorrelationId := id; Message_Content := b |} in
  id = pick_id sched (seat_turn (elsewhere x)) s →
  seated (Some job) None st None (seat_sys x) → request_context q = Some k →
  ∃ x', SendNewMsg t b x = (Ret (id, None), x') ∧
    seated (Some job) (Some id) st (Some q) (seat_sys x').
Proof.
  intros s q Hid Hx Hk. apply (seated_elsewhere _ _ _ _ (seat_turn x)) in Hx.
  change (seated (Some job) None st None s) in Hx. destruct (seated_conn _ _ _ _ _ Hx) as [c Hc].
  destruct (fair_id Hfair (seat_turn (elsewhere x)) s) as [Hne Hnew]. rewrite <-Hid in Hne, Hnew.
  destruct (Marshal_total q) as [d Hd].
  assert (Hsend : zmq_SendNewMsg t b (with_id id c) = (Ret (id, None), depart [d] (with_id id c))).
  { unfold zmq_SendNewMsg, zmq_SendNewMsgTo, zmq_SendMsgTo, mbind, Go_bind, on_socket, zoom, GenerateId.
    simpl. unfold DumpMsg. fold q. rewrite Hd. by rewrite SendData_link. }
  assert (Hdo : SendNewMsg t b x = (Ret (id, None), {| seat_sys := after_thread s w
      {| th_conn := depart [d] (with_id id c); th_job := Some job; th_waits := Some id |}
      [Called w q]; seat_turn := seat_turn (elsewhere x) |})).
  { simpl. unfold seat_SendNewMsg, seat_do. fold s. rewrite Hc, <-Hid. simpl. by rewrite Hsend. }
  eexists. split; [exact Hdo|]. destruct Hx as [Hr _ Hs]. split; simpl.
  - eapply rtc_r; [exact Hr|]. eapply step_call; [done..| |done]. by eapply request_context_call.
  - by rewrite at_work_thread.
  - apply settled_called; [done| |done]. intros a. by apply (new_not_executed v0 s q a (reach_inv s Hr)).
Qed.

(** The thread's reply is there: it is the answer its context's store gives. *)
Lemma seat_recv job st x q :
  seated job (Some (Message_CorrelationId q)) st (Some q) (seat_sys x) →
  ∃ i t b err x', RecvMsgWithId (Message_CorrelationId q) x = (Ret (i, Some (answer_to t b q), err), x') ∧
    sim_reply rd wr st q = Some (t, b, store_of (val_state (seat_sys x')) k) ∧
    seated job None (store_of (val_state (seat_sys x')) k) None (seat_sys x').
Proof.
  intros Hx. pose proof (st_reach _ _ _ _ _ Hx) as Hr0.
  destruct (fair_reply Hfair (seat_turn x) (seat_sys x) (Message_CorrelationId q) Hr0)
    as (th & m0 & Hth & Hm0 & Hid0).
  { apply waits_at_work. by rewrite (st_work _ _ _ _ _ Hx). }
  apply (seated_elsewhere _ _ _ _ (seat_turn x)) in Hx.
  set (s := run_others sched (seat_turn x) (seat_sys x)) in *.
  pose proof (st_reach _ _ _ _ _ Hx) as Hr. pose proof (reach_inv s Hr) as HI.
  destruct (seated_conn _ _ _ _ _ Hx) as [c Hc]. rewrite Hc in Hth. injection Hth as <-.
  pose proof (i_threads _ _ _ HI _ _ Hc) as Hok. cbn [th_conn] in *.
  destruct (RecvMsgWithId_progress (Message_CorrelationId q) c m0) as (i & m & err & c' & Erecv);
    [apply Hok|apply Hok|done|done|].
  pose proof (recv_corr _ _ _ _ _ _ _ (ok_wf _ _ _ Hok) Erecv) as Hcorr.
  destruct (RecvMsgWithId_link _ _ _ _ _ _ _ (ok_clean _ _ _ Hok) Erecv) as (Hm & _).
  destruct (ok_holds _ _ _ Hok _ Hm) as (q' & Hex & Hcall').
  destruct (i_execs _ _ _ HI _ _ Hex) as (Hk' & _).
  destruct (st_settled _ _ _ _ _ Hx) as [_ (_ & [w1 Hq] & _)].
  destruct (call_unique _ _ _ _ _ _ _ HI Hcall' Hq) as [_ ->]; [congruence|].
  set (s' := after_thread s w {| th_conn := c'; th_job := job; th_waits := None |} [Returned w m]).
  destruct (settled_answered _ _ st (trace s) (trace s') _ q m (st_settled _ _ _ _ _ Hx) Hex)
    as (t & b & Hreply & -> & Hset); [by intros a'; apply (exec_unique v0 s q _ _ HI Hex)|
    by simpl; rewrite calls_app, app_nil_r|by simpl; rewrite execs_app, app_nil_r|].
  exists i, t, b, err, {| seat_sys := s'; seat_turn := S (seat_turn x) |}.
  split; [|split; [done|split; [|exact (at_work_thread _ _ _)|done]]].
  - simpl. unfold seat_RecvMsgWithId, seat_do. simpl. fold s. rewrite Hc. cbn [th_conn].
    by rewrite Erecv.
  - eapply rtc_r; [exact Hr|]. by eapply step_return.
Qed.

(** ** The interface of the handlers *)

Context (job : Message).

Definition seat_store x : gmap string bytes := store_of (val_state (seat_sys x)) k.
(** The thread works on [job] and is not waiting, for the context [k]. *)
Definition seat_ok (ctx : Context) x : Prop :=
  contextId ctx = k ∧ seated (Some job) None (seat_store x) None (seat_sys x).

Lemma seat_exchange {R} `{Proto R} (tx : texts) reqType respType (req : R) b st' resp ctx x :
  seat_ok ctx x → Marshal req = inr b →
  (∀ corr, request_context {| Message_MessageType := reqType; Message_CorrelationId := corr;
                              Message_Content := b |} = Some (contextId ctx)) →
  (∀ corr, sim_reply rd wr (seat_store x)
     {| Message_MessageType := reqType; Message_CorrelationId := corr;
        Message_Content := b |} = Some (respType, resp, st')) →
  ∃ x' corr, seat_ok ctx x' ∧ seat_store x' = st' ∧
    exchange tx reqType respType req x =
      (Ret (inr (Some {| Message_MessageType := respType; Message_CorrelationId := corr;
                         Message_Content := resp |})), x').
Proof.
  intros [Hk Hx] Hb Hctx Hreply. rewrite Hk in Hctx.
  set (id := pick_id sched (seat_turn (elsewhere x)) (seat_sys (elsewhere x))).
  destruct (seat_call job (seat_store x) x reqType b id eq_refl Hx (Hctx id)) as (x1 & E1 & Hx1).
  destruct (seat_recv (Some job) (seat_store x) x1
    {| Message_MessageType := reqType; Message_CorrelationId := id; Message_Content := b |} Hx1)
    as (i & t & b' & err & x2 & E2 & Hr & Hx2).
  rewrite Hreply in Hr. injection Hr as <- <- Hst. exists x2, id.
  split; [by split|]. split; [done|]. unfold exchange. rewrite Hb.
  rewrite (go_bind_Ret _ _ _ _ _ E1), (go_bind_Ret _ _ _ _ _ E2). simpl.
  by rewrite !decide_False by tauto.
Qed.

Definition seat_backed : StateBacked Seat :=
  exchange_backed rd wr seat_ok seat_store (λ R HR, @seat_exchange R HR).

(** Answering the request the thread works on. *)
Lemma seat_respond ctx x b :
  seat_ok ctx x →
  ∃ x' d, SendMsg Message_TP_PROCESS_RESPONSE b (Message_CorrelationId job) x = (Ret None, x') ∧
    seated None None (seat_store x) None (seat_sys x') ∧
    last (inbox (workers (sys_router (seat_sys x')))) = Some [w; d] ∧
    LoadMsg d = (answer_to Message_TP_PROCESS_RESPONSE b job, None).
Proof.
  intros [_ Hx]. apply (seated_elsewhere _ _ _ _ (seat_turn x)) in Hx.
  set (s := run_others sched (seat_turn x) (seat_sys x)) in *.
  destruct (seated_conn _ _ _ _ _ Hx) as [c Hc]. destruct Hx as [Hr _ Hset].
  pose proof (i_threads _ _ _ (reach_inv s Hr) _ _ Hc) as Hok. cbn [th_conn] in Hok.
  destruct (Marshal_total (answer_to Message_TP_PROCESS_RESPONSE b job)) as [d Hd].
  assert (Hsend : zmq_SendMsg Message_TP_PROCESS_RESPONSE b (Message_CorrelationId job) c
    = (Ret None, depart [d] c)).
  { unfold zmq_SendMsg, zmq_SendMsgTo, DumpMsg. unfold answer_to in Hd. rewrite Hd.
    by rewrite SendData_link. }
  set (s' := after_thread s w {| th_conn := depart [d] c; th_job := None; th_waits := None |} []).
  exists {| seat_sys := s'; seat_turn := S (seat_turn x) |}, d. split; [|split; [split|split]].
  - simpl. unfold seat_SendMsg, seat_do. simpl. fold s. rewrite Hc. cbn [th_conn]. by rewrite Hsend.
  - eapply rtc_r; [exact Hr|]. by eapply step_respond.
  - exact (at_work_thread _ _ _).
  - apply (settled_calls _ _ _ _ (trace s) _ _ []); [by simpl; rewrite !app_nil_r|by simpl; rewrite app_nil_r| |done].
    simpl. rewrite app_nil_r. auto.
  - destruct (inbox_arrivals w [[d]] (workers (sys_router s))) as [Hin _].
    assert (Hout : outbox (depart [d] c) = [[d]]).
    { change (outbox c ++ [[d]] = [[d]]). by rewrite (ok_sent _ _ _ Hok). }
    simpl. rewrite Hout, Hin. apply last_snoc.
  - unfold LoadMsg. by rewrite (Unmarshal_Marshal _ _ Hd).
Qed.

Context `{!ProtoTotal TpProcessResponse} `{Proto TpProcessRequest}.
#[local] Existing Instance seat_backed.

(** A turn of a worker whose handler makes the transition [tr] of the store. *)
Lemma turn_isolated hs hd req verdict st' x :
  Unmarshal (Message_Content job) = (req, None) → TpProcessRequest_ContextId req = k →
  findHandler hs (TpProcessRequest_Header req) = inr hd →
  (∃ x1, vok (NewContext k) x1 ∧ vstate x1 = st' ∧
     Apply hd req (NewContext k) x = (Ret verdict, x1)) →
  ∃ x' d b, worker_turn hs job x = (Ret true, x') ∧ rtc (step serve) s0 (seat_sys x') ∧
    at_work (seat_sys x') w = Some (None, None) ∧ seat_store x' = st' ∧
    Marshal (process_response verdict) = inr b ∧
    last (inbox (workers (sys_router (seat_sys x')))) = Some [w; d] ∧
    LoadMsg d = (answer_to Message_TP_PROCESS_RESPONSE b job, None).
Proof.
  intros Hreq Hk Hfind (x1 & Hx1 & Hst & E).
  destruct (Marshal_total (process_response verdict)) as [b Hb].
  destruct (seat_respond _ _ b Hx1) as (x2 & d & E2 & [Hr Hw [_ Hs]] & Hd & Hl).
  exists x2, d, b. unfold worker_turn. rewrite Hreq, Hfind, Hk.
  rewrite (go_bind_Ret _ _ _ _ _ E), Hb, (go_bind_Ret _ _ _ _ _ E2).
  split_and!; try done. by etrans.
Qed.
End seat.

(** *** A fair schedule *)

(** The others are the router and the validator only, and they work off what is under
    way. *)
Definition patient : Schedule := {|
  pick_id _ s := fresh ("" :: (call_ids (trace s)));
  run_others _ s := settle serve (work s) s |}.

Lemma patient_fair k w v0 s0 :
  initial v0 s0 → sys_threads s0 !! "" = None → fair patient k w s0.
Proof.
  intros Hinit Hnames. split.
  - intros n s. simpl. pose proof (infinite_is_fresh
      ("" :: (call_ids (trace s)))) as Hf.
    by apply not_elem_of_cons in Hf.
  - intros n s. eapply rtc_subrel; [|apply settle_steps].
    intros s1 s2 (Hs & Hw & Hc). split; [done|]. split; [done|]. rewrite Hc. auto.
  - intros n s id Hrun Hw. simpl.
    pose proof (inv_run serve contexts_reply _ _ _ Hrun (inv_initial _ _ _ Hinit Hnames)) as HI.
    pose proof (settle_steps serve (work s) s) as Hsteps.
    destruct (idle_holds serve contexts_reply contexts_answered v0 (settle serve (work s) s) w id) as (th & m & ? & _ & ? & ?).
    + eapply (inv_run serve contexts_reply); [|exact HI].
      eapply rtc_subrel; [|exact Hsteps]. by intros ?? [].
    + by apply (settle_waits serve _ _ _ _ Hsteps).
    + by apply (settle_drains serve contexts_reply contexts_answered v0).
    + eauto.
Qed.
End isolation.

(** ** Claims *)

Section claims.
Context {M : Type} `{Monitor M, Proto Message, ContextProtos, GoRuntime, !ContextProtosOk}.
Context `{Proto TpProcessResponse, Proto PingResponse}.
Context (rd wr : string → bool) (other : Message → Z * bytes).
Context (sched : Schedule (M:=M)) (k w : string) (v0 : gmap string (gmap string bytes)).
Context (s0 : System (M:=M) (V:=gmap string (gmap string bytes))) (job : Message).

(** The answers to other messages are no requests. *)
Definition answers_only : Prop := ∀ q, (other q).1 ≠ Message_TP_PROCESS_REQUEST ∧
                                       (other q).1 ≠ Message_PING_REQUEST.

(** C20. A context is isolated: with any number of workers that share the router and
    the validator, and for every schedule under which replies arrive and nobody else
    uses the context, any sequence of [GetState], [SetState] and [DeleteState] calls
    of a worker returns, and gives the results that the same calls give on the map of
    the context alone; the context's store ends as that map. *)
Theorem isolated_context_refines ops (x : Seat (M:=M)) :
  answers_only → initial v0 s0 → sys_threads s0 !! "" = None →
  fair rd wr other sched k w s0 → seat_ok rd wr other k w s0 job (NewContext k) x →
  ∃ x', seat_ok rd wr other k w s0 job (NewContext k) x' ∧
    seat_store k x' = (spec_ops rd wr ops (seat_store k x)).2 ∧
    run_ops (H := seat_connection sched w) (NewContext k) ops x
      = (Ret (spec_ops rd wr ops (seat_store k x)).1, x').
Proof.
  intros Ho Hi Hn Hf.
  apply (@run_ops_refines _ _ _ _ (seat_backed rd wr other Ho sched k w v0 s0 Hi Hn Hf job)).
Qed.

Context `{!ProtoTotal TpProcessResponse, Proto TpProcessRequest}.
Context `{intkey.Cbor, Proto smallbank.SmallbankTransactionPayload, Proto smallbank.Account}.
Context (fuel : nat).

(** C2. Transactions are isolated: what a worker does with a transaction of one of the
    families among concurrent workers is what the family's handler does with it alone.  When the handler, run on a connection of its own to a validator with
    the context's store, returns a verdict, then so does the worker's turn in every
    run of the system: the context's store ends the same, the thread is free again,
    and the message it leaves for the router is the response with that verdict. *)
Theorem transaction_isolated hs f req verdict (x : Seat (M:=M)) (c c' : ZmqConnection Sim) :
  answers_only → initial v0 s0 → sys_threads s0 !! "" = None →
  fair rd wr other sched k w s0 → seat_ok rd wr other k w s0 job (NewContext k) x →
  Unmarshal (Message_Content job) = (req, None) → TpProcessRequest_ContextId req = k →
  findHandler hs (TpProcessRequest_Header req)
    = inr (family_handler (H := seat_connection sched w) f) →
  sim_ok c → sim_store c = seat_store k x →
  Apply (family_handler (H := @zmq_connection Sim (sim_socket rd wr) _ _ (S fuel)) f)
    req (NewContext k) c = (Ret verdict, c') →
  ∃ x' d b, worker_turn (H := seat_connection sched w) hs job x = (Ret true, x') ∧
    rtc (step (serve rd wr other)) s0 (seat_sys x') ∧
    at_work (seat_sys x') w = Some (None, None) ∧ seat_store k x' = sim_store c' ∧
    Marshal (process_response verdict) = inr b ∧
    last (inbox (workers (sys_router (seat_sys x')))) = Some [w; d] ∧
    LoadMsg d = (answer_to Message_TP_PROCESS_RESPONSE b job, None).
Proof.
  intros Ho Hi Hn Hf Hx Hreq Hk Hfind Hc Hst E.
  set (backed := seat_backed rd wr other Ho sched k w v0 s0 Hi Hn Hf job).
  destruct (@family_agrees _ _ _ _ _ _ (sim_backed rd wr fuel) backed eq_refl eq_refl
    (NewContext k) _ _ _ f req c x Hc Hx Hst) as (Hr & _ & Hx1 & Hst1).
  eapply (turn_isolated rd wr other Ho sched k w v0 s0 Hi Hn Hf job hs _ req verdict
    (sim_store c') x Hreq Hk Hfind).
  eexists. split; [exact Hx1|]. split.
  - exact (eq_trans (eq_sym Hst1) (f_equal (λ p, sim_store p.2) E)).
  - apply injective_projections; [|reflexivity]. exact (eq_trans (eq_sym Hr) (f_equal fst E)).
Qed.
End claims.

(** ** Witnesses *)

Module witness.
Import demo.
#[local] Instance resp_proto : Proto TpProcessResponse := countable_proto _.
#[local] Instance resp_total : ProtoTotal TpProcessResponse.
Proof. apply countable_proto_total. Qed.
#[local] Instance req_proto : Proto TpProcessRequest := countable_proto _.
#[local] Instance ping_proto : Proto PingResponse := countable_proto _.
#[local] Existing Instance smallbank.witness.payload_proto.
#[local] Existing Instance smallbank.witness.account_proto.
#[local] Existing Instance intkey.witness.cbor.
#[local] Existing Instance intkey.witness.cbor_laws.
#[local] Instance no_monitor : Monitor unit :=
  {| RecvEvent := go_block; MonitorClose := mret tt |}.

Definition no_other (q : Message) : Z * bytes := (Message_DEFAULT, "").
Lemma no_other_answers : answers_only no_other.
Proof. done. Qed.

(** An intkey transaction in context c, for one of two threads. *)
Definition header : TransactionHeader := {|
  TransactionHeader_BatcherPublicKey := ""; TransactionHeader_Dependencies := [];
  TransactionHeader_FamilyName := "intkey"; TransactionHeader_FamilyVersion := "1.0";
  TransactionHeader_Inputs := []; TransactionHeader_Nonce := "";
  TransactionHeader_Outputs := []; TransactionHeader_PayloadSha512 := "";
  TransactionHeader_SignerPublicKey := "" |}.
Definition req : TpProcessRequest := {|
  TpProcessRequest_Header := Some header;
  TpProcessRequest_Payload := Some (intkey.witness.payload_code (intkey.witness.pay "set" 40));
  TpProcessRequest_Signature := ""; TpProcessRequest_ContextId := "c" |}.
Definition content : bytes := pos_bits (encode req).
Definition job : Message := {|
  Message_MessageType := Message_TP_PROCESS_REQUEST; Message_CorrelationId := "j";
  Message_Content := content |}.
Lemma job_parses : Unmarshal (Message_Content job) = (req, None).
Proof.
  cbn [Message_Content job]. unfold content, Unmarshal, req_proto, countable_proto.
  rewrite bits_pos_bits. simpl mbind. by rewrite decode_encode.
Qed.
Definition quiet_conn (id : string) : ZmqConnection Link := {|
  identity := id; uri := "u"; incoming := ∅;
  socket := {| arrived := []; departed := []; next_id := "" |} |}.
Definition idle_thread (id : string) : Thread :=
  {| th_conn := quiet_conn id; th_job := None; th_waits := None |}.
Definition start : System (M:=unit) (V:=gmap string (gmap string bytes)) := {|
  sys_router := {|
    ids := ∅; validator := quiet_conn "v"; workers := quiet_conn "r";
    shutdown_rx := quiet_conn "s"; shutdown_tx := NilIface; monitor := tt; queue := [job];
    queue_cap := 1; queue_closed := false; workers_done := [] |};
  sys_threads := {["a" := idle_thread "a"; "b" := idle_thread "b"]};
  val_inbox := []; val_state := ∅; trace := [] |}.
Lemma two_threads_initial : initial ∅ start.
Proof.
  split; [done|]. split; [done|]. split; [done|]. split; [|done].
  apply map_Forall_insert_2; [done|]. apply map_Forall_insert_2; [done|]. apply map_Forall_empty.
Qed.

(** Thread a has taken the request. *)
Definition seat : Seat (M:=unit) := {|
  seat_sys := {|
    sys_router := set_queue [] (sys_router start);
    sys_threads := <["a" := {| th_conn := quiet_conn "a"; th_job := Some job; th_waits := None |}]>
                     (sys_threads start);
    val_inbox := []; val_state := ∅; trace := [] |};
  seat_turn := 0 |}.
Lemma seat_at_work : seat_ok all all no_other "c" "a" start job (NewContext "c") seat.
Proof.
  split; [done|]. split; [|done|].
  - apply rtc_once. apply (step_take _ start "a" (quiet_conn "a") job []); reflexivity.
  - split; [|done]. intros w q Hin. by apply not_elem_of_nil in Hin.
Qed.

Definition sched : Schedule (M:=unit) := patient all all no_other.
Lemma sched_fair : fair all all no_other sched "c" "a" start.
Proof. exact (patient_fair _ _ _ no_other_answers _ _ ∅ _ two_threads_initial eq_refl). Qed.

Lemma isolated_context_refines_witness :
  ∃ x', seat_store "c" x' = {["y" := "2"]} ∧
    run_ops (H := seat_connection sched "a") (NewContext "c")
      [OpSet {["x" := "1"]}; OpSet {["y" := "2"]}; OpDelete ["x"]; OpGet ["x"; "y"]] seat
      = (Ret [RSet (inr ["x"]); RSet (inr ["y"]); RDelete None; RGet (inr {["y" := "2"]})], x').
Proof.
  destruct (isolated_context_refines all all no_other sched "c" "a" ∅ start job
    [OpSet {["x" := "1"]}; OpSet {["y" := "2"]}; OpDelete ["x"]; OpGet ["x"; "y"]] seat
    no_other_answers two_threads_initial eq_refl sched_fair seat_at_work) as (x' & _ & Hst & E).
  exists x'. split; [rewrite Hst|rewrite E]; reflexivity.
Defined.

(** The handler alone accepts the transaction. *)
Definition fam : family := Intkey intkey.witness.h.
Abbreviation alone := (@zmq_connection Sim (sim_socket all all) _ _ 1).
Lemma alone_verdict :
  ∃ c', Apply (family_handler (H := alone) fam) req (NewContext "c") (at_rest ∅) = (Ret None, c').
Proof.
  destruct (intkey.transaction_effect (H := alone) (StateBacked0 := sim_backed all all 0)
    intkey.witness.h req (NewContext "c") (at_rest ∅)
    (intkey.witness.payload_code (intkey.witness.pay "set" 40)) (intkey.witness.pay "set" 40) ∅)
    as [(new & c' & _ & E & _)|[Hno _]].
  - apply at_rest_ok.
  - reflexivity.
  - apply intkey.witness.decode_pay.
  - split; [vm_compute; lia|]. split; [vm_compute; split; discriminate|]. simpl. set_solver.
  - reflexivity.
  - reflexivity.
  - unfold intkey.stored_map, vstate. simpl. unfold sim_store. simpl. by rewrite lookup_empty.
  - apply map_Forall_empty.
  - exists c'. exact E.
  - exfalso. apply (Hno 40). by apply intkey.accepts_set.
Qed.

Lemma transaction_isolated_witness :
  ∃ c' x', Apply (family_handler (H := alone) fam) req (NewContext "c") (at_rest ∅)
      = (Ret None, c') ∧
    worker_turn (H := seat_connection sched "a")
      [family_handler (H := seat_connection sched "a") fam] job seat = (Ret true, x') ∧
    at_work (seat_sys x') "a" = Some (None, None) ∧ seat_store "c" x' = sim_store c'.
Proof.
  destruct alone_verdict as [c' E].
  destruct (transaction_isolated all all no_other sched "c" "a" ∅ start job 0
    [family_handler (H := seat_connection sched "a") fam] fam req None seat (at_rest ∅) c'
    no_other_answers two_threads_initial eq_refl sched_fair seat_at_work job_parses eq_refl eq_refl
    (at_rest_ok ∅) eq_refl E) as (x' & d & b & E' & _ & Hw & Hst & _).
  exists c', x'. split; [exact E|]. split; [exact E'|]. split; [exact Hw|exact Hst].
Defined.
End witness.
End isolation.
